(* ===== verification/_CoqProject ===== *)
-Q . S2P
Prelude.v
PyValue.v
Strings.v
PyOps.v
Canonical.v
Json.v
Evidence.v
RemoteSnapshot.v
FormalPreview.v
Endpoints.v
WriteOperations.v
Identity.v
Receipts.v
ExecutionState.v
Clock.v
Decimal.v
JsonFacts.v
SafeText.v
AuthorityBinding.v
BindingStore.v
BindingFacts.v
Attestation.v
AttestationBoundary.v
AttestationFacts.v
Context.v
ExecutionStore.v
GenericStore.v
ManagedStore.v
ManagedSpec.v
ManagedFacts.v
Refinement.v
WriteContract.v
Preflight.v
GithubWrite.v
Applier.v
DriverFacts.v
Interleaving.v
Status.v
Progress.v
Deployment.v
GenericFacts.v
AuditRecords.v
Approvals.v
PreviewValidation.v
AuditBoundary.v
PreviewStore.v
ApprovalService.v
Rules.v
Auditor.v
AttestationRecords.v
AttestationStore.v
HistoryFacts.v
AttestationRuntime.v
RuntimeFacts.v
Authority.v
ArtifactAdapter.v
AuthorityRestart.v
AuthorityFacts.v
PreviewFacts.v
AuditTrail.v
ApprovalFacts.v
StaleAudits.v
PreviewSound.v
AuditorFacts.v
AuditorComplete.v
AuthorityValid.v
RestartFacts.v
GithubApp.v
StatusSound.v
Runs.v
Termination.v
Fixtures.v
PreviewFixtures.v
Witnesses.v
DriverWitnesses.v
PreviewWitnesses.v
AuditorWitnesses.v
BindingWitnesses.v
AttestationWitnesses.v
AuthorityWitnesses.v
