(* ===== verification/Prelude.v ===== *)
(** * Delivery System: a verification library (root)

    Delivery System plans changes to the issues of a GitHub repository, seals each plan as a
    preview, audits it, records a human approval of the audited preview, attests the credential
    that is to write, issues an authority bound to that attestation, and applies the approved
    operations at most once, with durable receipts.  This library is a shallow embedding of
    that path (src/delivery_system/) and proves what each part promises to the next.

    ** How the program works, and where it is modelled

    Previews.  A request becomes a list of write operations (write_operations.py:
    WriteOperations.v).  Everything with an identity is serialized canonically and hashed
    (canonical.py: Canonical.v); stored text is decoded by [json.loads] (Json.v).  A read-only
    driver answers what the repository holds; the answer is validated and bound to a preview
    as evidence and a snapshot (drivers/preflight.py, drivers/contract.py: Preflight.v;
    evidence.py: Evidence.v; remote_snapshot.py: RemoteSnapshot.v; existing_endpoints.py:
    Endpoints.v).  The sealed preview (formal_preview.py: FormalPreview.v) is validated
    (preview_validation.py, runtime_authority.py: PreviewValidation.v) and kept by the preview
    store (SQLitePreviewStore of runtime.py and store_reads.py: PreviewStore.v), together with
    the event history of its audits and its approvals (audit_state.py: AuditRecords.v,
    Approvals.v).

    Audits and approvals.  The auditor checks the semantic decisions a model submits against
    the rule registry (rules.py: Rules.v; auditor.py: Auditor.v) and commits the derived record
    through the commit boundary (audit_commit_authority.py, runtime.py: AuditBoundary.v); the
    approval service records the human decision (ApprovalService.v).

    Credentials.  A runtime boundary verifies signed claims about a credential and spends each
    verification once (attestation.py: Attestation.v, AttestationBoundary.v over the field
    checks of SafeText.v).  The attestation service registers a verified credential for an
    audited preview (attestation_runtime.py: AttestationRuntime.v); the provider of GitHub App
    installation tokens, the lease that holds the token and the check before a dispatch are in
    GithubApp.v.  A verified attestation is stored with its reference and its later
    revalidations (attestation_persistence.py: AttestationRecords.v;
    attestation_persistence_store.py: AttestationStore.v; verified_attestation_artifact.py,
    restart_credential_verification.py: ArtifactAdapter.v).

    Authorities.  The authority service turns an approved preview and a registered credential
    into an authority, whose operations are assigned to it by a signed durable binding
    (authority_binding.py: AuthorityBinding.v; authority_binding_persistence.py:
    BindingStore.v; RuntimeApprovalAuthorityService of runtime.py: Authority.v, and after a
    restart of the process AuthorityRestart.v).

    Execution.  An authority gives an application identity (application_identity.py,
    application_authority.py: Identity.v) and an execution context (runtime.py: Context.v).
    The applier (applier.py: Applier.v) claims one operation after another in the execution
    store, dispatches it through the write driver (drivers/write_contract.py: WriteContract.v;
    drivers/github_write.py: GithubWrite.v), and records a receipt or an unknown outcome.  The
    records are those of receipts.py and execution_state.py (Receipts.v, ExecutionState.v); the
    store is execution_store.py in three parts: rows and reads with the timestamp rules
    (ExecutionStore.v, Clock.v), the managed operations of the applier (ManagedStore.v), and
    the generic methods (GenericStore.v).  The status service of runtime.py reports an
    application from its durable records (Status.v) against the operations of the stored
    preview (StatusSound.v).

    Names of definitions are those of the code where they can be; a Python method of a
    store is the function of the same name over the tables it reads and writes.

    ** How code is represented

    - Values: [pyval] (PyValue.v) has a constructor per Python type the code inspects;
      [==], [in], [.get], truth and conversions follow the interpreter on it (PyOps.v,
      Strings.v), with exceptions.  A conversion outside the modelled cases is the error
      [Unmodelled], which no handler of the model catches.
    - Failure: [result] with the exception classes of [exn]; [ValueError] carries the stable
      code the callers compare.  [raise e when b] is an early exit.
    - Tables: finite maps from primary keys to rows; a row is the value its JSON text
      decodes to, or text that does not decode.  A transaction is a function to a result
      carrying the new tables, so a failure rolls back.
    - Object identity (registries of live artifacts, tickets, minted authorities, credential
      bindings) is a number; a registry is what it holds, and where code may write to an
      object that several registries share, the fields live in one map from numbers.
    - Concurrency: the applier is a finite program over [event]s, one per transaction or
      call of a collaborator; processes interleave at events (Interleaving.v, Deployment.v).
    - Parameters: the class [PyLib] (Canonical.v) for SHA-256, Unicode normalization and case
      mapping, the text of a float, and the two conversions of [datetime].  What the host
      injects is an argument: the answers of the read driver and of HTTPS, the issuer, signature,
      capability and revocation policies of an attestation, the signer and the verifier of
      bindings, the source of GitHub evidence, [uuid4], nonces and the clock, and for the execution
      store the verdict of each validation of the context.  No theorem assumes anything of them
      but what it states.  No theorem assumes in general that digests do not collide; those
      about the rows of one application assume that the operations of its plan, which are
      identified by digests, have distinct identities ([distinct_ids]).

    ** What is proved

    Execution.  ManagedFacts.v inverts every managed operation; ManagedSpec.v states the
    abstract machine of one application ([phase]); Refinement.v shows that the rows represent
    a phase and every committed call is one step of it, and Progress.v draws the consequences:
    the phase an application is in, its receipts, its absorbing ends, its bounds, the
    transitions of the state module and the checks of the status service.  Interleaving.v
    proves that no schedule of appliers and crashes dispatches an attempt twice, Deployment.v
    that a deployed system refines the abstract machine and dispatches in order.
    Termination.v relates [apply_loop] to the loop without fuel; Runs.v executes programs and
    reads rows back.  GenericFacts.v keeps the generic methods away from managed rows.

    Previews, audits, approvals.  PreviewSound.v: what a stored preview, an evidence record
    and validated driver facts guarantee.  PreviewFacts.v and AuditTrail.v: the tables only
    grow, every audit history is a lifecycle, and the operations are a step relation with
    invariants over reachable stores.  AuditorFacts.v: what a committed audit covers;
    AuditorComplete.v: the two validators of an audit agree.  ApprovalFacts.v proves the
    authority of an approval, its end and its repeatability; StaleAudits.v compares the two ways
    an audit becomes stale.  StatusSound.v: the operations of a status are those of a verified
    stored preview.

    Credentials and authorities.  AttestationFacts.v: what a verified attestation has been
    checked for, and that it is spent once.  RuntimeFacts.v: what a registered credential rests
    on, even when its object was written to.  HistoryFacts.v: the stored history of an
    attestation only grows.  GithubApp.v: what the provider attests and what a dispatch requires
    of the leased token.  BindingFacts.v: the two stores of bindings answer alike, and a saved
    binding keeps its operations.  AuthorityFacts.v: what an accepted authority means;
    AuthorityValid.v: an issued one is accepted until its credential expires, over any store that
    satisfies the laws of the interface; RestartFacts.v: what an authority reconstructed after a
    restart rests on.

    Boundaries.  WriteOperations.v: normalization round trip and the equivalence of the
    evaluator with its reference sequence.  JsonFacts.v: the decoder reads back what the encoder
    prints.  DriverFacts.v and Decimal.v: what an observation of the write driver means, and
    decimal identifiers at their width.

    Fixtures.v and PreviewFixtures.v hold one concrete application and one concrete chain of
    authority, computed by the definitions; the files named [...Witnesses] apply the theorems
    to them.

    ** Fuel and bounds

    [normalize] recurses on a value through sorted lists and takes one unit more than the
    nesting depth of the value as fuel, one for each level.  [json_loads] takes the length of
    its text as fuel: every step consumes a character, and JsonFacts.v proves that the text of
    every normal value is read to its end.  [apply_loop] takes one unit more than the number of
    expected operations; Termination.v proves that the unbounded loop has the same outcome,
    since each iteration that continues claims an attempt row that was not there.  Identifiers
    of the remote side are at most twenty digits, as the driver checks them; other integers of
    the code are unbounded Python integers, and the interpreter's limit on the digits of an
    integer in a text is left out.

    ** Not modelled

    SQLite itself: connections, schema, migration, backup and maintenance, busy errors, and the
    SQLite implementation of the attestation store, whose contract is that of the modelled
    one in memory.  The in-memory preview store, the planner that seals previews and the
    observation of postconditions.  File system checks, key files and Ed25519, the exchange of a
    GitHub App key for an installation token, the transport and the REST read driver.  The
    composition of the host and its revocation, the read-only services, the MCP servers, the
    error catalogue and the release tools, which wire the parts above together. *)
From stdpp Require Export base tactics list gmap strings pretty sorting.
From Stdlib Require Export ZArith Lia.

(** ** Exceptions and results

    Python code fails by raising.  [exn] lists the exception classes the modelled
    code raises or lets through; the payload of [ValueError] is the stable error
    code the code passes to it, which callers compare with [str(exc)].  [ProviderError] is
    [GitHubAppCapabilityProviderError], a subclass of [ValueError] that only GithubApp.v
    raises and tells apart. *)
Inductive exn : Type :=
| ValueError (code : string)
| JSONDecodeError
| TypeError (what : string)
| KeyError (key : string)
| IndexError
| AttributeError (name : string)
| IntegrityError (table : string)
| DriverError (code : string)
| ProviderError (code : string)
| OverflowError
| Unmodelled (what : string).

#[export] Instance exn_eq_dec : EqDecision exn.
Proof. solve_decision. Defined.

Inductive result (A : Type) : Type :=
| Ok (a : A)
| Err (e : exn).
Arguments Ok {A} a.
Arguments Err {A} e.

#[export] Instance result_eq_dec {A} `{EqDecision A} : EqDecision (result A).
Proof. solve_decision. Defined.

Declare Scope py_scope.
Delimit Scope py_scope with py.

Notation "'let!' x := c 'in' k" :=
  (match c with Ok x => k | Err e => Err e end)
  (at level 10, x pattern, c at level 200, k at level 200) : py_scope.

Notation "'raise' c 'when' b ; k" :=
  (if b then Err (ValueError c) else k)
  (at level 10, c at level 9, b at level 99, k at level 200) : py_scope.

Open Scope py_scope.

(** [except ValueError] also catches its subclasses. *)
Definition is_value_error (e : exn) : bool :=
  match e with ValueError _ | JSONDecodeError | ProviderError _ => true | _ => false end.

(** [isinstance(exc, (KeyError, TypeError, ValueError))] *)
Definition is_key_type_value_error (e : exn) : bool :=
  match e with ValueError _ | JSONDecodeError | ProviderError _ | TypeError _ | KeyError _ => true | _ => false end.

(** [try: c except (KeyError, TypeError, ValueError): raise ValueError(code)] *)
Definition recode {A} (code : string) (c : result A) : result A :=
  match c with
  | Ok a => Ok a
  | Err e => if is_key_type_value_error e then Err (ValueError code) else Err e
  end.

(** [[f(x) for x in l]]: left to right, the first exception wins. *)
Fixpoint map_r {A B} (f : A → result B) (l : list A) : result (list B) :=
  match l with
  | [] => Ok []
  | x :: l' => let! y := f x in let! ys := map_r f l' in Ok (y :: ys)
  end.

(** [any(f(x) for x in l)]: stops at the first true or raising element. *)
Fixpoint any_r {A} (f : A → result bool) (l : list A) : result bool :=
  match l with
  | [] => Ok false
  | x :: l' => let! b := f x in if b then Ok true else any_r f l'
  end.

Definition is_ok {A} (r : result A) : bool := match r with Ok _ => true | Err _ => false end.

(** The value of a successful computation *)
Definition force {A} (r : result A) : is_ok r = true → A :=
  match r return is_ok r = true → A with
  | Ok a => λ _, a
  | Err _ => λ H, False_rect A (diff_false_true H)
  end.
Lemma Ok_inj {A} (a b : A) : Ok a = Ok b → a = b.
Proof. by intros [= ->]. Qed.
Lemma force_Ok {A} (r : result A) (H : is_ok r = true) : r = Ok (force r H).
Proof. by destruct r. Qed.
Lemma Ok_is_ok {A} (r : result A) a : r = Ok a → is_ok r = true.
Proof. by intros ->. Qed.

(** A chain of computations that is evaluated once, and read link by link afterwards *)
Definition and_then {A B} (x : result A) (f : A → result B) : result B := let! a := x in f a.
Lemma is_ok_bind {A B} (x : result A) (f : A → result B) : is_ok (and_then x f) = true → is_ok x = true.
Proof. by destruct x. Qed.
Lemma bind_next {A B} (x : result A) (f : A → result B) a b : and_then x f = Ok b → x = Ok a → f a = Ok b.
Proof. by intros E ->. Qed.
Lemma and3 (a b c : bool) : a && b && c = true → a = true ∧ b = true ∧ c = true.
Proof. by destruct a, b, c. Qed.

(** ** Tactics *)

(** Split a hypothesis or goal about a guarded computation along its guards. *)
Ltac inv_ok :=
  repeat match goal with
  | H : Ok _ = Ok _ |- _ => injection H as H; try subst
  | H : Err _ = Ok _ |- _ => discriminate H
  | H : Ok _ = Err _ |- _ => discriminate H
  | H : (if ?b then _ else _) = Ok _ |- _ => destruct b eqn:?; [try discriminate H|try discriminate H]
  | H : (match ?c with Ok _ => _ | Err _ => _ end) = Ok _ |- _ =>
      destruct c eqn:?; [|discriminate H]
  end.

(** Turn boolean guards into propositions. *)
Create Rewrite HintDb bools.
#[export] Hint Rewrite orb_false_iff andb_true_iff orb_true_iff andb_false_iff
  negb_true_iff negb_false_iff @bool_decide_eq_true @bool_decide_eq_false
  Z.ltb_lt Z.ltb_ge Z.leb_le Z.leb_gt Z.eqb_eq Z.eqb_neq
  Nat.ltb_lt Nat.ltb_ge Nat.leb_le Nat.leb_gt Nat.eqb_eq Nat.eqb_neq : bools.
Ltac bools := repeat (progress autorewrite with bools in * || destruct_and!).

(** ** Lists *)
Section lists.
  Context {A B : Type}.

Lemma map_r_Ok_Forall2 (f : A → result B) l ys :
    map_r f l = Ok ys ↔ Forall2 (λ x y, f x = Ok y) l ys.
  Proof.
    revert ys; induction l as [|x l IH]; intros ys; simpl.
    - split; [intros [= <-]; constructor|by inversion 1].
    - split.
      + intros H. inv_ok. constructor; [done|by apply IH].
      + inversion 1; subst. rewrite H2. apply IH in H4. by rewrite H4.
  Qed.

Lemma map_r_length (f : A → result B) l ys : map_r f l = Ok ys → length ys = length l.
  Proof. intros H%map_r_Ok_Forall2. symmetry. by eapply Forall2_length. Qed.

Lemma map_r_total (f : A → result B) (g : A → B) l :
    (∀ x, x ∈ l → f x = Ok (g x)) → map_r f l = Ok (map g l).
  Proof.
    intros H. apply map_r_Ok_Forall2. induction l as [|x l IH]; simpl; constructor.
    - apply H. by left.
    - apply IH. intros y Hy. apply H. by right.
  Qed.

End lists.

Lemma map_r_id {A} (f : A → result A) l :
  (∀ x, x ∈ l → f x = Ok x) → map_r f l = Ok l.
Proof. intros H. rewrite (map_r_total f id l H). by rewrite map_id. Qed.

(** Duplicate-freedom as the code tests it: [len(l) == len(set(l))]. *)
Definition no_dups {A} `{EqDecision A} (l : list A) : bool :=
  length l =? length (remove_dups l).

Lemma remove_dups_length_le {A} `{EqDecision A} (l : list A) :
  length (remove_dups l) ≤ length l.
Proof. induction l as [|y k IHk]; simpl; [lia|]. case_decide; simpl; lia. Qed.

Lemma no_dups_true {A} `{EqDecision A} (l : list A) : no_dups l = true ↔ NoDup l.
Proof.
  unfold no_dups. rewrite Nat.eqb_eq. split.
  - induction l as [|x l IH]; simpl; [constructor|]. pose proof (remove_dups_length_le l).
    case_decide; simpl; intros Hl; [lia|]. constructor; [done|]. apply IH. lia.
  - intros H. induction H as [|x l Hx Hl IH]; simpl; [done|].
    case_decide; [done|]. simpl. lia.
Qed.

Lemma no_dups_false {A} `{EqDecision A} (l : list A) : no_dups l = false ↔ ¬ NoDup l.
Proof. rewrite <- no_dups_true. by destruct (no_dups l). Qed.

#[export] Hint Rewrite @no_dups_true @no_dups_false : bools.

(** ** Membership tests over lists *)
(** [set(l) == set(m)] *)
Definition same_set {A} `{EqDecision A} (l m : list A) : bool :=
  forallb (λ x, bool_decide (x ∈ m)) l && forallb (λ x, bool_decide (x ∈ l)) m.

Lemma concat_nil {A} (l : list (list A)) : concat l = [] ↔ Forall (λ x, x = []) l.
Proof.
  induction l as [|x l IH]; simpl; [by split|]. rewrite app_nil, Forall_cons, IH. done.
Qed.

Lemma existsb_false {A} (p : A → bool) l : existsb p l = false ↔ ∀ x, x ∈ l → p x = false.
Proof.
  induction l as [|x l IH]; simpl.
  - split; [intros _ y Hy; by apply elem_of_nil in Hy|done].
  - rewrite orb_false_iff, IH. setoid_rewrite elem_of_cons. naive_solver.
Qed.

Lemma forallb_true {A} (p : A → bool) l : forallb p l = true ↔ ∀ x, x ∈ l → p x = true.
Proof.
  induction l as [|x l IH]; simpl.
  - split; [intros _ y Hy; by apply elem_of_nil in Hy|done].
  - rewrite andb_true_iff, IH. setoid_rewrite elem_of_cons. naive_solver.
Qed.

Lemma no_member_missing {A} `{EqDecision A} (l m : list A) :
  existsb (λ x, negb (bool_decide (x ∈ m))) l = false ↔ (∀ x, x ∈ l → x ∈ m).
Proof. rewrite existsb_false. setoid_rewrite negb_false_iff. by setoid_rewrite bool_decide_eq_true. Qed.

Lemma all_members {A} `{EqDecision A} (l m : list A) :
  forallb (λ x, bool_decide (x ∈ m)) l = true ↔ (∀ x, x ∈ l → x ∈ m).
Proof. rewrite forallb_true. by setoid_rewrite bool_decide_eq_true. Qed.

Lemma same_set_true {A} `{EqDecision A} (l m : list A) :
  same_set l m = true ↔ (∀ x, x ∈ l ↔ x ∈ m).
Proof. unfold same_set. rewrite andb_true_iff, !all_members. naive_solver. Qed.

#[export] Hint Rewrite @no_member_missing @all_members @same_set_true @app_nil : bools.
