(* ===== verification/PyValue.v ===== *)
(** * Python values and strings

    The dynamic values the modelled code inspects with [isinstance], [==], [in],
    [.get] and subscripts, and the [str] operations it uses.  A Python [str] is the
    Stdlib [string] holding its UTF-8 encoding: equality and the code point order of
    [sorted] are then equality and the byte order, and the operations that work on
    characters ([strip], [len]) split the bytes into UTF-8 characters first. *)
From S2P Require Import Prelude.
From Stdlib Require Import SpecFloat Ascii.

(** ** Dynamic values *)
Inductive pyval : Type :=
| VNone
| VBool (b : bool)
| VInt (z : Z)
| VFloat (f : spec_float)
| VStr (s : string)
| VBytes (s : string)
| VList (l : list pyval)
| VTuple (l : list pyval)
| VSet (l : list pyval)             (** set and frozenset, in iteration order *)
| VDict (d : list (pyval * pyval))  (** insertion order, keys pairwise distinct *)
| VObj (ty : string).               (** any other object *)

Section pyval_ind.
  Variable P : pyval → Prop.
  Hypothesis HNone : P VNone.
  Hypothesis HBool : ∀ b, P (VBool b).
  Hypothesis HInt : ∀ z, P (VInt z).
  Hypothesis HFloat : ∀ f, P (VFloat f).
  Hypothesis HStr : ∀ s, P (VStr s).
  Hypothesis HBytes : ∀ s, P (VBytes s).
  Hypothesis HList : ∀ l, Forall P l → P (VList l).
  Hypothesis HTuple : ∀ l, Forall P l → P (VTuple l).
  Hypothesis HSet : ∀ l, Forall P l → P (VSet l).
  Hypothesis HDict : ∀ d, Forall (λ p, P (fst p) ∧ P (snd p)) d → P (VDict d).
  Hypothesis HObj : ∀ ty, P (VObj ty).

  (** Structural induction through the nested lists. *)
Fixpoint pyval_nested_ind (v : pyval) : P v :=
    let all := fix all (l : list pyval) : Forall P l :=
      match l with
      | [] => Forall_nil_2 P
      | x :: l' => Forall_cons_2 P x l' (pyval_nested_ind x) (all l')
      end in
    match v with
    | VNone => HNone | VBool b => HBool b | VInt z => HInt z | VFloat f => HFloat f
    | VStr s => HStr s | VBytes s => HBytes s
    | VList l => HList l (all l)
    | VTuple l => HTuple l (all l)
    | VSet l => HSet l (all l)
    | VDict d => HDict d
        ((fix alld (d : list (pyval * pyval)) : Forall (λ p, P (fst p) ∧ P (snd p)) d :=
          match d with
          | [] => Forall_nil_2 _
          | kv :: d' => Forall_cons_2 _ kv d'
              (conj (pyval_nested_ind (fst kv)) (pyval_nested_ind (snd kv))) (alld d')
          end) d)
    | VObj ty => HObj ty
    end.
End pyval_ind.

#[export] Instance spec_float_eq_dec : EqDecision spec_float.
Proof. solve_decision. Defined.

#[export] Instance pyval_eq_dec : EqDecision pyval.
Proof.
  refine (fix go x y := let _ : EqDecision pyval := @go in
    match x, y with
    | VNone, VNone => left _
    | VBool a, VBool b => cast_if (decide (a = b))
    | VInt a, VInt b => cast_if (decide (a = b))
    | VFloat a, VFloat b => cast_if (decide (a = b))
    | VStr a, VStr b => cast_if (decide (a = b))
    | VBytes a, VBytes b => cast_if (decide (a = b))
    | VList a, VList b => cast_if (decide (a = b))
    | VTuple a, VTuple b => cast_if (decide (a = b))
    | VSet a, VSet b => cast_if (decide (a = b))
    | VDict a, VDict b => cast_if (decide (a = b))
    | VObj a, VObj b => cast_if (decide (a = b))
    | _, _ => right _
    end); abstract congruence.
Defined.

(** ** Type tests *)
Definition is_str (v : pyval) : bool := match v with VStr _ => true | _ => false end.
(** [isinstance(v, str) and bool(v)] *)
Definition is_nonempty_str (v : pyval) : bool :=
  match v with VStr s => negb (bool_decide (s = "")) | _ => false end.
Definition is_mapping (v : pyval) : bool := match v with VDict _ => true | _ => false end.
Definition is_list (v : pyval) : bool := match v with VList _ => true | _ => false end.
(** [isinstance(v, int) and not isinstance(v, bool)], also [type(v) is int] *)
Definition is_int (v : pyval) : bool := match v with VInt _ => true | _ => false end.

(** Whether [hash(v)] succeeds; a set or dict lookup of another value raises
    [TypeError]. *)
Fixpoint hashable (v : pyval) : bool :=
  match v with
  | VList _ | VDict _ => false
  | VTuple l => forallb hashable l
  | _ => true
  end.

(** [bool(v)] *)
Definition truthy (v : pyval) : bool :=
  match v with
  | VNone => false
  | VBool b => b
  | VInt z => negb (z =? 0)%Z
  | VFloat (S754_zero _) => false
  | VFloat _ => true
  | VStr s | VBytes s => negb (bool_decide (s = ""))
  | VList l | VTuple l | VSet l => negb (bool_decide (l = []))
  | VDict d => negb (bool_decide (d = []))
  | VObj _ => true
  end.

(** [isinstance(v, Sequence) and not isinstance(v, (str, bytes))], with its items *)
Definition as_sequence (v : pyval) : option (list pyval) :=
  match v with VList l | VTuple l => Some l | _ => None end.

(** ** Dictionaries *)
Definition dict_of (fields : list (string * pyval)) : pyval :=
  VDict (map (λ '(k, v), (VStr k, v)) fields).

(** A list of strings *)
Definition vstrs (l : list string) : pyval := VList (map VStr l).

Fixpoint dget (k : string) (d : list (pyval * pyval)) : option pyval :=
  match d with
  | [] => None
  | (VStr k', v) :: d' => if bool_decide (k = k') then Some v else dget k d'
  | _ :: d' => dget k d'
  end.

(** [v.get(k)] on a mapping *)
Definition get (v : pyval) (k : string) : pyval :=
  match v with VDict d => default VNone (dget k d) | _ => VNone end.

(** [v.get(k, dflt)] *)
Definition get_default (v : pyval) (k : string) (dflt : pyval) : pyval :=
  match v with VDict d => default dflt (dget k d) | _ => dflt end.

(** [v[k]] *)
Definition subscript (v : pyval) (k : string) : result pyval :=
  match v with
  | VDict d => match dget k d with Some x => Ok x | None => Err (KeyError k) end
  | _ => Err (TypeError "not subscriptable")
  end.

(** [k in v] on a mapping *)
Definition has_key (v : pyval) (k : string) : bool :=
  match v with VDict d => bool_decide (is_Some (dget k d)) | _ => false end.

(** [set(v) <= fields] and [set(v) == fields] on a mapping *)
Definition keys_within (fields : list string) (v : pyval) : bool :=
  match v with
  | VDict d => forallb (λ p, match fst p with VStr k => bool_decide (k ∈ fields) | _ => false end) d
  | _ => false
  end.
Definition keys_are (fields : list string) (v : pyval) : bool :=
  keys_within fields v && forallb (has_key v) fields.

(** ** Python equality *)
Definition int_of (v : pyval) : option Z :=
  match v with VInt z => Some z | VBool b => Some (if b then 1 else 0)%Z | _ => None end.

Definition float_is_int (f : spec_float) (z : Z) : bool :=
  match f with
  | S754_zero _ => (z =? 0)%Z
  | S754_finite s m e =>
      let m := if s then Zneg m else Zpos m in
      if (0 <=? e)%Z then (z =? m * 2 ^ e)%Z else (z * 2 ^ (- e) =? m)%Z
  | _ => false
  end.

Definition num_eq (a b : pyval) : bool :=
  match a, b with
  | VFloat f, VFloat g => SFeqb f g
  | VFloat f, _ => match int_of b with Some z => float_is_int f z | None => false end
  | _, VFloat g => match int_of a with Some z => float_is_int g z | None => false end
  | _, _ => match int_of a, int_of b with Some x, Some y => (x =? y)%Z | _, _ => false end
  end.

Fixpoint py_eq (a b : pyval) : bool :=
  let eqs := fix eqs (l m : list pyval) : bool :=
    match l, m with
    | [], [] => true
    | x :: l', y :: m' => py_eq x y && eqs l' m'
    | _, _ => false
    end in
  match a, b with
  | VNone, VNone => true
  | VStr s, VStr t => bool_decide (s = t)
  | VBytes s, VBytes t => bool_decide (s = t)
  | VList l, VList m => eqs l m
  | VTuple l, VTuple m => eqs l m
  | VSet l, VSet m => (length l =? length m) && forallb (λ x, existsb (py_eq x) m) l
  | VDict d, VDict e =>
      (length d =? length e) &&
      forallb (λ '(k, v), existsb (λ '(k', v'), py_eq k k' && py_eq v v') e) d
  | VObj s, VObj t => bool_decide (s = t)
  | _, _ => num_eq a b
  end.

Lemma py_eq_str v s : py_eq v (VStr s) = true ↔ v = VStr s.
Proof.
  split; [|intros ->; simpl; by rewrite bool_decide_eq_true].
  destruct v as [| | |f|t| | | | | |]; simpl; try discriminate; try (by destruct f).
  by intros ->%bool_decide_eq_true.
Qed.

Lemma py_eq_str_l v s : py_eq (VStr s) v = true ↔ v = VStr s.
Proof.
  split; [|intros ->; simpl; by rewrite bool_decide_eq_true].
  destruct v; simpl; try discriminate. by intros ->%bool_decide_eq_true.
Qed.

(** ** Decoding a stored JSON document: tuples come back as lists. *)
Fixpoint jsonify (v : pyval) : pyval :=
  match v with
  | VList l | VTuple l => VList (map jsonify l)
  | VDict d => VDict (map (λ p, (fst p, jsonify (snd p))) d)
  | _ => v
  end.

(** ** Lemmas on lookups *)
Lemma dget_dict_of k fields :
  dget k (map (λ '(k, v), (VStr k, v)) fields) = snd <$> (find (λ p, bool_decide (k = fst p)) fields).
Proof. induction fields as [|[k' v] l IH]; simpl; [done|]. case_bool_decide; [done|apply IH]. Qed.

Lemma get_dict_of fields k :
  get (dict_of fields) k = default VNone (snd <$> (find (λ p, bool_decide (k = fst p)) fields)).
Proof. unfold get, dict_of. by rewrite dget_dict_of. Qed.

Lemma keys_within_dict_of ks fields :
  keys_within ks (dict_of fields) = forallb (λ p, bool_decide (fst p ∈ ks)) fields.
Proof. simpl. induction fields as [|[k v] l IH]; simpl; [done|]. by rewrite IH. Qed.

(** [v in {s1, ..., sn}] for a set of strings *)
Definition in_str_set (v : pyval) (l : list string) : result bool :=
  if hashable v then Ok match v with VStr s => bool_decide (s ∈ l) | _ => false end
  else Err (TypeError "unhashable").

Lemma jsonify_strs l : map jsonify (map VStr l) = map VStr l.
Proof. induction l; simpl; congruence. Qed.

Lemma get_default_dict_of fields k dflt :
  get_default (dict_of fields) k dflt = default dflt (snd <$> (find (λ p, bool_decide (k = fst p)) fields)).
Proof. unfold get_default, dict_of. by rewrite dget_dict_of. Qed.

(** Evaluate the lookups of a dict whose keys are literals. *)
Ltac gets := rewrite ?get_dict_of, ?get_default_dict_of; cbn [find fst snd fmap option_fmap option_map default app].
