(* ===== verification/Strings.v ===== *)
(** * The [str] operations the code uses

    [replace], [split], [join], [strip], [len] and the ordering of [sorted], on the
    UTF-8 representation of [PyValue]. *)
From S2P Require Import Prelude PyValue.
From Stdlib Require Import Ascii.

Definition LF : ascii := "010"%char.
Definition CR : ascii := "013"%char.
Definition ch (c : ascii) : string := String c "".

(** ** Characters: a byte with the UTF-8 continuation bytes that follow it *)
Definition is_cont (c : ascii) : bool :=
  let n := N_of_ascii c in (128 <=? n)%N && (n <? 192)%N.

Definition starts_cont (s : string) : bool :=
  match s with String c _ => is_cont c | "" => false end.

Fixpoint chars (s : string) : list string :=
  match s with
  | "" => []
  | String c s' =>
      if starts_cont s' then
        match chars s' with x :: rest => String c x :: rest | [] => [ch c] end
      else ch c :: chars s'
  end.

(** [len(s)] *)
Definition py_len (s : string) : nat := length (chars s).

Definition concat_chars (l : list string) : string := foldr String.append "" l.

Lemma concat_chars_chars s : concat_chars (chars s) = s.
Proof.
  induction s as [|c s IH]; simpl; [done|].
  destruct (starts_cont s) eqn:E; simpl; [|by rewrite IH].
  destruct (chars s) as [|x rest] eqn:Es; simpl in *.
  - by rewrite <- IH.
  - by rewrite <- IH.
Qed.

(** ** Whitespace: the characters for which [str.isspace] holds *)
Definition bytes (l : list N) : string := foldr (λ n s, String (ascii_of_N n) s) "" l.
Arguments bytes l%_list_scope.

Definition space_chars : list string :=
  map (λ n : N, bytes [n]) [9; 10; 11; 12; 13; 28; 29; 30; 31; 32]%N ++
  [bytes [194; 133]%N; bytes [194; 160]%N; bytes [225; 154; 128]%N] ++
  map (λ n : N, bytes [226; 128; n]%N) [128; 129; 130; 131; 132; 133; 134; 135; 136; 137; 138; 168; 169; 175]%N ++
  [bytes [226; 129; 159]%N; bytes [227; 128; 128]%N].

Definition is_space (c : string) : bool := bool_decide (c ∈ space_chars).

Fixpoint drop_while {A} (p : A → bool) (l : list A) : list A :=
  match l with [] => [] | x :: l' => if p x then drop_while p l' else l end.

Definition drop_while_end {A} (p : A → bool) (l : list A) : list A :=
  reverse (drop_while p (reverse l)).

(** [s.lstrip()], [s.rstrip()], [s.strip()] *)
Definition py_lstrip (s : string) : string := concat_chars (drop_while is_space (chars s)).
Definition py_rstrip (s : string) : string := concat_chars (drop_while_end is_space (chars s)).
Definition py_strip (s : string) : string :=
  concat_chars (drop_while_end is_space (drop_while is_space (chars s))).

(** ** Splitting and joining *)
(** [s.split(sep)] for a one-byte separator *)
Fixpoint split_on (sep : ascii) (s : string) : list string :=
  match s with
  | "" => [""]
  | String c s' =>
      if bool_decide (c = sep) then "" :: split_on sep s'
      else match split_on sep s' with
           | x :: rest => String c x :: rest
           | [] => [ch c]
           end
  end.

(** [sep.join(l)] *)
Fixpoint join (sep : string) (l : list string) : string :=
  match l with
  | [] => ""
  | [x] => x
  | x :: l' => x +:+ sep +:+ join sep l'
  end.

(** [s.replace("\r\n", "\n")] *)
Fixpoint replace_crlf (s : string) : string :=
  match s with
  | String a ((String b s') as t) =>
      if bool_decide (a = CR ∧ b = LF) then String LF (replace_crlf s') else String a (replace_crlf t)
  | _ => s
  end.

(** [s.replace("\r", "\n")] *)
Fixpoint replace_cr (s : string) : string :=
  match s with
  | "" => ""
  | String a s' => String (if bool_decide (a = CR) then LF else a) (replace_cr s')
  end.

(** [s.startswith(p)] and [s[len(p):]] when it does *)
Fixpoint strip_prefix (p s : string) : option string :=
  match p, s with
  | "", _ => Some s
  | String a p', String b s' => if bool_decide (a = b) then strip_prefix p' s' else None
  | _, _ => None
  end.

Definition startswith (p s : string) : bool := bool_decide (is_Some (strip_prefix p s)).

Lemma strip_prefix_Some p s t : strip_prefix p s = Some t ↔ s = p +:+ t.
Proof.
  revert s; induction p as [|a p IH]; intros s; simpl.
  - split; [by intros [= ->]|by intros ->].
  - destruct s as [|b s]; [split; discriminate|]. case_bool_decide as E.
    + rewrite IH. subst. split; [by intros ->|by intros [= ->]].
    + split; [discriminate|]. intros [= -> ->]. by destruct E.
Qed.

(** Every byte of [s] satisfies [p]: [all(p(c) for c in s)] for an ASCII test *)
Fixpoint all_bytes (p : ascii → bool) (s : string) : bool :=
  match s with "" => true | String c s' => p c && all_bytes p s' end.

Definition in_range (lo hi : N) (c : ascii) : bool :=
  let n := N_of_ascii c in (lo <=? n)%N && (n <=? hi)%N.
Definition is_digit (c : ascii) : bool := in_range 48 57 c.
Definition is_lower_hex (c : ascii) : bool := is_digit c || in_range 97 102 c.
Definition is_lower (c : ascii) : bool := in_range 97 122 c.
Definition is_alnum (c : ascii) : bool := is_digit c || is_lower c.
Definition char_in (l : list N) (c : ascii) : bool := existsb (N.eqb (N_of_ascii c)) l.
Definition first_char (p : ascii → bool) (s : string) : bool :=
  match s with String c _ => p c | "" => false end.
Definition is_char (c d : ascii) : bool := bool_decide (c = d).
Definition str_tail (s : string) : string := match s with String _ s' => s' | "" => "" end.

(** ** Ordering: [sorted] on strings compares code points, that is UTF-8 bytes *)
Definition str_leb (s t : string) : bool := String.leb s t.

(** Insertion keeps equal keys in order, as Python's stable [sorted] does. *)
Fixpoint insert_by {A} (key : A → string) (x : A) (l : list A) : list A :=
  match l with
  | [] => [x]
  | y :: l' => if str_leb (key x) (key y) then x :: l else y :: insert_by key x l'
  end.

(** [sorted(l, key=key)] *)
Fixpoint sort_by {A} (key : A → string) (l : list A) : list A :=
  match l with [] => [] | x :: l' => insert_by key x (sort_by key l') end.

Definition sorted_strings : list string → list string := sort_by id.

(** ** Sorting lemmas *)
Lemma insert_by_perm {A} (key : A → string) x l : insert_by key x l ≡ₚ x :: l.
Proof.
  induction l as [|y l IH]; simpl; [done|]. destruct (str_leb _ _); [done|].
  rewrite IH. apply Permutation_swap.
Qed.

Lemma sort_by_perm {A} (key : A → string) l : sort_by key l ≡ₚ l.
Proof. induction l as [|x l IH]; simpl; [done|]. by rewrite insert_by_perm, IH. Qed.

Definition key_sorted {A} (key : A → string) : list A → Prop := Sorted (λ x y, str_leb (key x) (key y) = true).

Lemma insert_by_sorted {A} (key : A → string) x l : key_sorted key l → key_sorted key (insert_by key x l).
Proof.
  unfold key_sorted. induction 1 as [|y l Hl IH Hy]; simpl; [by repeat constructor|].
  destruct (str_leb (key x) (key y)) eqn:E; [by repeat constructor|].
  constructor; [done|].
  assert (str_leb (key y) (key x) = true).
  { unfold str_leb in *. destruct (String.leb_total (key x) (key y)); congruence. }
  destruct l as [|z l]; simpl; [by constructor|]. inversion Hy; subst.
  destruct (str_leb (key x) (key z)); by constructor.
Qed.

Lemma sort_by_sorted {A} (key : A → string) l : key_sorted key (sort_by key l).
Proof. induction l; simpl; [constructor|by apply insert_by_sorted]. Qed.

Lemma sort_by_id {A} (key : A → string) l : key_sorted key l → sort_by key l = l.
Proof.
  unfold key_sorted. induction 1 as [|y l Hl IH Hy]; simpl; [done|]. rewrite IH.
  destruct l as [|z l]; simpl; [done|]. inversion Hy; subst. by rewrite H0.
Qed.

Lemma sort_by_idemp {A} (key : A → string) l : sort_by key (sort_by key l) = sort_by key l.
Proof. apply sort_by_id, sort_by_sorted. Qed.

(** ** The order of texts

    The byte order is a total order, so sorting forgets the order it started from: two
    permutations of a list with distinct keys sort to the same list. *)
Lemma str_leb_compare s t : str_leb s t = true ↔ String.compare s t ≠ Gt.
Proof. unfold str_leb, String.leb. by destruct (String.compare s t). Qed.

Lemma str_compare_Lt_trans s t u : String.compare s t = Lt → String.compare t u = Lt → String.compare s u = Lt.
Proof.
  revert t u; induction s as [|a s IH]; intros [|b t] [|c u]; simpl; try done. unfold Ascii.compare.
  destruct (N.compare_spec (N_of_ascii a) (N_of_ascii b)) as [E1|E1|E1];
    destruct (N.compare_spec (N_of_ascii b) (N_of_ascii c)) as [E2|E2|E2]; try done;
    destruct (N.compare_spec (N_of_ascii a) (N_of_ascii c)) as [E3|E3|E3]; try done; try lia; by apply IH.
Qed.

Lemma str_leb_trans s t u : str_leb s t = true → str_leb t u = true → str_leb s u = true.
Proof.
  rewrite !str_leb_compare. destruct (String.compare s t) eqn:E1, (String.compare t u) eqn:E2; try done; intros _ _.
  - apply String.compare_eq_iff in E1 as ->. by rewrite E2.
  - apply String.compare_eq_iff in E1 as ->. by rewrite E2.
  - apply String.compare_eq_iff in E2 as ->. by rewrite E1.
  - by rewrite (str_compare_Lt_trans _ _ _ E1 E2).
Qed.

#[export] Instance key_order_trans {A} (key : A → string) : Transitive (λ x y, str_leb (key x) (key y) = true).
Proof. intros x y z. apply str_leb_trans. Qed.

(** The elements of a list with distinct keys are told apart by their keys *)
Lemma key_inj {A} (key : A → string) l x y : NoDup (map key l) → x ∈ l → y ∈ l → key x = key y → x = y.
Proof.
  induction l as [|z l IH]; simpl; intros Hd Hx Hy E; [by apply elem_of_nil in Hx|].
  apply NoDup_cons in Hd as [Hz Hd]. apply elem_of_cons in Hx as [->|Hx], Hy as [->|Hy]; [done| | |by apply IH].
  - destruct Hz. rewrite E. by apply list_elem_of_fmap_2.
  - destruct Hz. rewrite <- E. by apply list_elem_of_fmap_2.
Qed.

Lemma sort_by_unique {A} (key : A → string) l m : NoDup (map key l) → l ≡ₚ m → sort_by key l = sort_by key m.
Proof.
  intros Hd E. apply (Sorted_unique_strong (λ x y, str_leb (key x) (key y) = true));
    [|apply sort_by_sorted|apply sort_by_sorted|by rewrite !sort_by_perm].
  intros x y Hx Hy H1 H2. rewrite sort_by_perm in Hx, Hy. rewrite <- E in Hy.
  apply (key_inj key l); [done..|]. by apply String.leb_antisym.
Qed.

Lemma sorted_strings_unique l m : l ≡ₚ m → sorted_strings l = sorted_strings m.
Proof.
  unfold sorted_strings. intros E. apply (Sorted_unique_strong (λ x y, str_leb (id x) (id y) = true));
    [|apply sort_by_sorted|apply sort_by_sorted|by rewrite !sort_by_perm].
  intros x y _ _ H1 H2. by apply String.leb_antisym.
Qed.

Lemma sorted_strings_perm l m : sorted_strings l = sorted_strings m → l ≡ₚ m.
Proof. unfold sorted_strings. intros E. by rewrite <- (sort_by_perm id l), E, sort_by_perm. Qed.

(** ** Checks that do not depend on the order *)
Lemma no_dups_perm (l m : list string) : l ≡ₚ m → no_dups l = no_dups m.
Proof. intros E. apply eq_true_iff_eq. by rewrite !no_dups_true, E. Qed.
Lemma existsb_perm {A} (p : A → bool) l m : l ≡ₚ m → existsb p l = existsb p m.
Proof. intros E. apply eq_true_iff_eq. rewrite !existsb_exists. by setoid_rewrite <- list_elem_of_In; setoid_rewrite E. Qed.
Lemma forallb_perm {A} (p : A → bool) l m : l ≡ₚ m → forallb p l = forallb p m.
Proof. intros E. apply eq_true_iff_eq. rewrite !forallb_true. by setoid_rewrite E. Qed.

Lemma Forall2_elem_l {A B} (P : A → B → Prop) l m x : Forall2 P l m → x ∈ l → ∃ y, y ∈ m ∧ P x y.
Proof.
  intros F [i Hi]%list_elem_of_lookup. destruct (Forall2_lookup_l P _ _ _ _ F Hi) as (y & Hy & Hp).
  exists y. split; [by eapply list_elem_of_lookup_2|done].
Qed.
