(* ===== verification/PyOps.v ===== *)
(** * Operations on dynamic values that can raise

    Conversions ([str], [int], [dict], [tuple], [set], [sorted]), iteration, attribute-style
    reads of a value that may not be a mapping, and storage as JSON text.  A conversion of a
    value outside the cases listed is [Unmodelled], which no caller catches. *)
From S2P Require Import Prelude PyValue Strings.
From Stdlib Require Import Ascii.

(** [str(v)] and [f"{v}"] of a scalar *)
Definition py_format (v : pyval) : result string :=
  match v with
  | VStr s => Ok s
  | VInt z => Ok (pretty z)
  | VBool b => Ok (if b then "True" else "False")
  | VNone => Ok "None"
  | _ => Err (Unmodelled "str")
  end.

(** [int(v)] *)
Definition py_int (v : pyval) : result Z :=
  match v with
  | VInt z => Ok z
  | VBool b => Ok (if b then 1 else 0)%Z
  | VNone | VList _ | VTuple _ | VSet _ | VDict _ => Err (TypeError "int")
  | VStr _ | VBytes _ | VFloat _ | VObj _ => Err (Unmodelled "int")
  end.

(** The text of a value known to be a [str] *)
Definition the_str (v : pyval) : string := match v with VStr s => s | _ => "" end.

(** [isinstance(v, str) and bool(v.strip())] *)
Definition nonblank (v : pyval) : bool :=
  match v with VStr s => negb (bool_decide (py_strip s = "")) | _ => false end.

(** [s.replace("Z", "+00:00")] *)
Definition replace_Z (s : string) : string := join "+00:00" (split_on "Z"%char s).

(** [s.replace(old, new)] for a nonempty [old]: the occurrences from the left *)
Fixpoint replace_from (old new : string) (skip : nat) (s : string) : string :=
  match s with
  | "" => ""
  | String c s' =>
      match skip with
      | S k => replace_from old new k s'
      | 0 => if startswith old s then new +:+ replace_from old new (pred (String.length old)) s'
             else String c (replace_from old new 0 s')
      end
  end.
Definition py_replace (old new s : string) : string := replace_from old new 0 s.

(** [v.get(k)] and [v.get(k, dflt)] where [v] may be no mapping *)
Definition get_attr (v : pyval) (k : string) : result pyval :=
  if is_mapping v then Ok (get v k) else Err (AttributeError "get").
Definition get_attr_default (v : pyval) (k : string) (dflt : pyval) : result pyval :=
  if is_mapping v then Ok (get_default v k dflt) else Err (AttributeError "get").

(** [str(v[k])] *)
Definition str_at (v : pyval) (k : string) : result string :=
  let! x := subscript v k in py_format x.

(** The items of [for x in v] *)
Definition py_iter (v : pyval) : result (list pyval) :=
  match v with
  | VList l | VTuple l | VSet l => Ok l
  | VDict d => Ok (map fst d)
  | VStr s => Ok (map VStr (chars s))
  | VNone | VBool _ | VInt _ | VFloat _ => Err (TypeError "not iterable")
  | VBytes _ | VObj _ => Err (Unmodelled "iter")
  end.

(** [dict(v)] *)
Definition py_dict (v : pyval) : result pyval :=
  match v with
  | VDict d => Ok (VDict d)
  | VList [] | VTuple [] | VStr "" => Ok (VDict [])
  | VNone | VBool _ | VInt _ | VFloat _ => Err (TypeError "not iterable")
  | _ => Err (Unmodelled "dict")
  end.

(** Whether [len(set(l)) == len(l)] *)
Fixpoint py_distinct (l : list pyval) : bool :=
  match l with [] => true | x :: l' => negb (existsb (py_eq x) l') && py_distinct l' end.
Definition set_distinct (l : list pyval) : result bool :=
  if forallb hashable l then Ok (py_distinct l) else Err (TypeError "unhashable").

(** [v in set(l)] *)
Definition in_set (v : pyval) (l : list pyval) : result bool :=
  if hashable v && forallb hashable l then Ok (existsb (py_eq v) l) else Err (TypeError "unhashable").

(** The strings of a list that holds nothing else *)
Fixpoint strs_of (l : list pyval) : option (list string) :=
  match l with
  | [] => Some []
  | VStr s :: l' => match strs_of l' with Some r => Some (s :: r) | None => None end
  | _ => None
  end.

(** [sorted(l)] *)
Definition py_sorted (l : list pyval) : result (list pyval) :=
  match strs_of l with
  | Some r => Ok (map VStr (sorted_strings r))
  | None => match l with [x] => Ok [x] | _ => Err (Unmodelled "sorted") end
  end.

Definition py_filter (p : pyval → result bool) : list pyval → result (list pyval) :=
  fix go l := match l with
              | [] => Ok []
              | x :: l' => let! b := p x in let! r := go l' in Ok (if b then x :: r else r)
              end.

(** ** JSON text
    [json.loads(json.dumps(v))]: tuples come back as lists, and values without a JSON form
    raise.  Two texts written with [sort_keys=True] are equal when the documents are equal
    after sorting their keys. *)
Fixpoint json_encode (v : pyval) : result pyval :=
  match v with
  | VNone | VBool _ | VInt _ | VFloat _ | VStr _ => Ok v
  | VList l | VTuple l => let! l' := map_r json_encode l in Ok (VList l')
  | VDict d =>
      let! d' := map_r (λ p, if is_str (fst p) then let! x := json_encode (snd p) in Ok (fst p, x)
                             else Err (Unmodelled "json key")) d in
      Ok (VDict d')
  | VBytes _ | VSet _ | VObj _ => Err (TypeError "not JSON serializable")
  end.

Fixpoint json_sort (v : pyval) : pyval :=
  match v with
  | VList l => VList (map json_sort l)
  | VDict d => VDict (sort_by (λ p, the_str (fst p)) (map (λ p, (fst p, json_sort (snd p))) d))
  | _ => v
  end.
Definition same_text (a b : pyval) : bool := bool_decide (json_sort a = json_sort b).

Lemma strs_of_map l : strs_of (map VStr l) = Some l.
Proof. induction l as [|s l IH]; simpl; [done|]. by rewrite IH. Qed.
Lemma strs_of_Some l r : strs_of l = Some r → l = map VStr r.
Proof.
  revert r; induction l as [|x l IH]; intros r; simpl; [by intros [= <-]|].
  destruct x; try discriminate. destruct (strs_of l) as [r'|]; [|discriminate]. intros [= <-]. simpl. by rewrite (IH r' eq_refl).
Qed.
Lemma same_text_refl a : same_text a a = true.
Proof. unfold same_text. by apply bool_decide_eq_true. Qed.

(** ** Values that [json.dumps] accepts, and what it keeps of them *)
Fixpoint json_ok (v : pyval) : bool :=
  match v with
  | VNone | VBool _ | VInt _ | VFloat _ | VStr _ => true
  | VList l | VTuple l => forallb json_ok l
  | VDict d => forallb (λ p, is_str (fst p) && json_ok (snd p)) d
  | _ => false
  end.

Lemma json_encode_ok v : json_ok v = true → json_encode v = Ok (jsonify v).
Proof.
  induction v as [| | | | | |l IH|l IH|l IH|d IH|] using pyval_nested_ind; try done; simpl; intros E;
    rewrite forallb_true in E; rewrite Forall_forall in IH.
  1,2: rewrite (map_r_total json_encode jsonify l); [done|intros x Hx; by apply IH, E].
  rewrite (map_r_total _ (λ p, (fst p, jsonify (snd p))) d); [done|].
  intros [k x] Hx. specialize (E _ Hx). apply andb_true_iff in E as [E1 E2]. apply IH in Hx as [_ Hx].
  simpl in *. by rewrite E1, (Hx E2).
Qed.

Lemma json_encode_jsonify v w : json_encode v = Ok w → w = jsonify v.
Proof.
  revert w; induction v as [| | | | | |l IH|l IH|l IH|d IH|] using pyval_nested_ind; intros w; simpl;
    try discriminate; try by intros [= <-].
  1,2: destruct (map_r json_encode l) as [ys|] eqn:E; [|discriminate]; intros [= <-]; f_equal;
    apply map_r_Ok_Forall2 in E; induction E as [|x y l' ys Hxy _ IHE]; simpl; [done|];
    inversion IH; subst; f_equal; [by apply H1|by apply IHE].
  destruct (map_r _ d) as [ys|] eqn:E; [|discriminate]. intros [= <-]. f_equal.
  apply map_r_Ok_Forall2 in E. induction E as [|[k x] y d' ys Hxy _ IHE]; simpl in *; [done|].
  inversion IH as [|? ? [_ Hx] Hd]; subst. destruct (is_str k); [|discriminate].
  destruct (json_encode x) as [x'|] eqn:Ex; [|discriminate]. inv_ok.
  simpl in *. rewrite (Hx _ Ex). f_equal. by apply IHE.
Qed.
