(* ===== verification/Canonical.v ===== *)
(** * Canonical serialization (delivery_system/canonical.py)

    [normalize] maps a Python value to its canonical JSON value, [canonical_payload]
    prints it and [digest] hashes the text.  [unicodedata.normalize], the shortest
    decimal text of a float and SHA-256 are table- or C-implemented primitives of the
    interpreter; they are the operations of the class [PyLib]. *)
From S2P Require Import Prelude PyValue Strings.
From Stdlib Require Import SpecFloat Ascii.

Class PyLib := {
  nfc : string → string;                 (** [unicodedata.normalize("NFC", s)] *)
  float_repr : spec_float → string;      (** [float.__repr__] *)
  sha256_hex : string → string;          (** [hashlib.sha256(s.encode("utf-8")).hexdigest()] *)
  py_lower : string → string;            (** [str.lower] *)
  py_casefold : string → string;         (** [str.casefold] *)
  (** [datetime.fromisoformat(s)]: [None] when it raises, else the local time and, when the
      text has a zone, its UTC offset, both in microseconds *)
  fromisoformat : string → option (Z * option Z);
  (** [isoformat()] of the aware UTC time *)
  utc_isoformat : Z → string;
}.

(** ** [_text] *)
Definition rstrip_lines (s : string) : string := join (ch LF) (map py_rstrip (split_on LF s)).

Section canonical.
Context `{PyLib}.

Definition text (value : string) : string :=
  py_strip (rstrip_lines (nfc (replace_cr (replace_crlf value)))).

End canonical.

(** ** [json.dumps(v, ensure_ascii=False, sort_keys=True)] with [","] and [":"] *)

Definition QUOTE : ascii := "034"%char.
Definition BACKSLASH : ascii := "092"%char.

Definition hex_digit (n : N) : ascii :=
  ascii_of_N (if (n <? 10)%N then 48 + n else 87 + n)%N.

(** The escapes of [json.encoder.py_encode_basestring]. *)
Definition escape_char (c : ascii) : string :=
  let esc x := String BACKSLASH (ch x) in
  let n := N_of_ascii c in
  if (n =? 34)%N then esc QUOTE
  else if (n =? 92)%N then esc BACKSLASH
  else if (n =? 10)%N then esc "n"%char
  else if (n =? 13)%N then esc "r"%char
  else if (n =? 9)%N then esc "t"%char
  else if (n =? 8)%N then esc "b"%char
  else if (n =? 12)%N then esc "f"%char
  else if (n <? 32)%N then
    esc "u"%char +:+ "00" +:+ String (hex_digit (N.div n 16)) (ch (hex_digit (N.modulo n 16)))
  else ch c.

Fixpoint escape (s : string) : string :=
  match s with "" => "" | String c s' => escape_char c +:+ escape s' end.

Definition json_string (s : string) : string := ch QUOTE +:+ escape s +:+ ch QUOTE.

Section canonical.
Context `{PyLib}.

(** The items of a dict in the order of their string keys, or [None] when a key is
    not a string. *)
Fixpoint str_items {A} (d : list (pyval * A)) : option (list (string * A)) :=
  match d with
  | [] => Some []
  | (VStr k, v) :: d' => match str_items d' with Some l => Some ((k, v) :: l) | None => None end
  | _ => None
  end.

(** Values with no JSON form raise [TypeError].  Keys other than strings never reach
    the encoder in this program ([normalize] rejects them), so they are unmodelled. *)
Fixpoint dumps (v : pyval) : result string :=
  match v with
  | VNone => Ok "null"
  | VBool b => Ok (if b then "true" else "false")
  | VInt z => Ok (pretty z)
  | VFloat f => Ok (float_repr f)
  | VStr s => Ok (json_string s)
  | VList l | VTuple l =>
      let! parts := map_r dumps l in Ok ("[" +:+ join "," parts +:+ "]")
  | VDict d =>
      let! parts :=
        map_r (λ p, let! t := dumps (snd p) in Ok (fst p, t)) d in
      match str_items parts with
      | Some items =>
          Ok ("{" +:+ join "," (map (λ p, json_string (fst p) +:+ ":" +:+ snd p) (sort_by fst items)) +:+ "}")
      | None => Err (Unmodelled "json key")
      end
  | VBytes _ | VSet _ | VObj _ => Err (TypeError "not JSON serializable")
  end.

(** [_sort_key] *)
Definition sort_key (v : pyval) : result string := dumps v.

(** [sorted(items, key=_sort_key)] *)
Definition sorted_by_key (items : list pyval) : result (list pyval) :=
  let! keyed := map_r (λ v, let! k := sort_key v in Ok (k, v)) items in
  Ok (map snd (sort_by fst keyed)).

(** The key loop of [normalize]: [normalized_keys] maps each normalized key to the
    original; here each entry also keeps the value found under the original key. *)
Fixpoint normalized_keys (d : list (pyval * pyval)) (seen : list (string * pyval))
  : result (list (string * pyval)) :=
  match d with
  | [] => Ok seen
  | (VStr key, value) :: d' =>
      let nk := nfc key in
      raise "Canonical mapping keys collide after NFC normalization"
        when bool_decide (nk ∈ map fst seen) ;
      normalized_keys d' (seen ++ [(nk, value)])
  | _ :: _ => Err (TypeError "Canonical mappings require string keys")
  end.

Definition float_finite (f : spec_float) : bool :=
  match f with S754_zero _ | S754_finite _ _ _ => true | _ => false end.

(** [normalize], by recursion on the depth of the value: every recursive call is on a
    component of it. *)
Fixpoint depth (v : pyval) : nat :=
  let maxl := fix maxl (l : list pyval) : nat :=
    match l with [] => 0 | x :: l' => Nat.max (depth x) (maxl l') end in
  match v with
  | VList l | VTuple l | VSet l => S (maxl l)
  | VDict d =>
      S ((fix maxd (d : list (pyval * pyval)) : nat :=
           match d with [] => 0 | p :: d' => Nat.max (depth (snd p)) (maxd d') end) d)
  | _ => 0
  end.

Fixpoint normalize_fuel (n : nat) (v : pyval) : result pyval :=
  match n with
  | 0 => Err (Unmodelled "depth")
  | S n =>
    match v with
    | VStr s => Ok (VStr (text s))
    | VDict d =>
        let! keys := normalized_keys d [] in
        let! items := map_r (λ p, let! x := normalize_fuel n (snd p) in Ok (fst p, x)) (sort_by fst keys) in
        Ok (dict_of items)
    | VList l | VTuple l => let! items := map_r (normalize_fuel n) l in Ok (VList items)
    | VSet l =>
        let! items := map_r (normalize_fuel n) l in
        let! sorted := sorted_by_key items in
        Ok (VList sorted)
    | VBool _ | VInt _ | VNone => Ok v
    | VFloat f =>
        raise "NaN and infinite floats are not canonical values" when negb (float_finite f) ; Ok v
    | VBytes _ | VObj _ => Err (TypeError "Unsupported canonical value")
    end
  end.

Definition normalize (v : pyval) : result pyval := normalize_fuel (S (depth v)) v.

(** [canonical_payload] and [digest] *)
Definition canonical_payload (v : pyval) : result string :=
  let! n := normalize v in dumps n.

Definition digest (v : pyval) : result string :=
  let! t := canonical_payload v in Ok ("sha256:" +:+ sha256_hex t).

(** [digest(v).split(":", 1)[1]] *)
Definition digest_hex (v : pyval) : result string :=
  let! t := canonical_payload v in Ok (sha256_hex t).
End canonical.
