(* ===== verification/Json.v ===== *)
(** * Decoding JSON text (the [json.loads] of the standard library)

    Stores that keep canonical text as bytes decode it strictly: UTF-8, then JSON with an
    [object_pairs_hook].  [json_loads] is that decoder on the UTF-8 bytes; a number with a
    fraction or an exponent, and the literals [NaN] and [Infinity], are unmodelled, because
    no document of the program that is decoded here has one. *)
From S2P Require Import Prelude PyValue Strings Canonical.
From Stdlib Require Import Ascii.

(** ** [bytes.decode("utf-8", errors="strict")]: the well-formed byte sequences *)
Fixpoint utf8_ok (s : string) : bool :=
  match s with
  | "" => true
  | String a s1 =>
      if in_range 0 127 a then utf8_ok s1
      else
        match s1 with
        | "" => false
        | String b s2 =>
            if in_range 194 223 a then in_range 128 191 b && utf8_ok s2
            else
              match s2 with
              | "" => false
              | String c s3 =>
                  if in_range 224 239 a then
                    in_range (if (N_of_ascii a =? 224)%N then 160 else 128)
                             (if (N_of_ascii a =? 237)%N then 159 else 191) b
                    && in_range 128 191 c && utf8_ok s3
                  else
                    match s3 with
                    | "" => false
                    | String d s4 =>
                        in_range 240 244 a
                        && in_range (if (N_of_ascii a =? 240)%N then 144 else 128)
                                    (if (N_of_ascii a =? 244)%N then 143 else 191) b
                        && in_range 128 191 c && in_range 128 191 d && utf8_ok s4
                    end
              end
        end
  end.

(** The bytes of one code point; a surrogate keeps its three-byte form. *)
Definition utf8_encode (n : N) : string :=
  if (n <? 128)%N then bytes [n]
  else if (n <? 2048)%N then bytes [192 + n / 64; 128 + n mod 64]%N
  else if (n <? 65536)%N then bytes [224 + n / 4096; 128 + (n / 64) mod 64; 128 + n mod 64]%N
  else bytes [240 + n / 262144; 128 + (n / 4096) mod 64; 128 + (n / 64) mod 64; 128 + n mod 64]%N.

(** ** Lexical elements *)
Definition json_space (c : ascii) : bool := bool_decide (c ∈ [" "%char; "009"%char; LF; CR]).
Fixpoint skip_ws (s : string) : string :=
  match s with String c s' => if json_space c then skip_ws s' else s | "" => "" end.

Definition hex_value (c : ascii) : option N :=
  let n := N_of_ascii c in
  if is_digit c then Some (n - 48)%N
  else if in_range 97 102 c then Some (n - 87)%N
  else if in_range 65 70 c then Some (n - 55)%N else None.

Definition hex4 (a b c d : ascii) : option N :=
  match hex_value a, hex_value b, hex_value c, hex_value d with
  | Some w, Some x, Some y, Some z => Some (((w * 16 + x) * 16 + y) * 16 + z)%N
  | _, _, _, _ => None
  end.

Definition unescape (c : ascii) : option ascii :=
  let n := N_of_ascii c in
  if (n =? 34)%N || (n =? 92)%N || (n =? 47)%N then Some c
  else if (n =? 98)%N then Some "008"%char
  else if (n =? 102)%N then Some "012"%char
  else if (n =? 110)%N then Some LF
  else if (n =? 114)%N then Some CR
  else if (n =? 116)%N then Some "009"%char
  else None.

Definition high_surrogate (n : N) : bool := (55296 <=? n)%N && (n <=? 56319)%N.
Definition low_surrogate (n : N) : bool := (56320 <=? n)%N && (n <=? 57343)%N.

(** The rest of a string literal after its opening quote *)
Fixpoint scan_string (s : string) : result (string * string) :=
  match s with
  | "" => Err JSONDecodeError
  | String c s' =>
      if bool_decide (c = QUOTE) then Ok ("", s')
      else if bool_decide (c = BACKSLASH) then
        match s' with
        | "" => Err JSONDecodeError
        | String e r =>
            if bool_decide (e = "u"%char) then
              match r with
              | String h1 (String h2 (String h3 (String h4 r1))) =>
                  match hex4 h1 h2 h3 h4 with
                  | None => Err JSONDecodeError
                  | Some u =>
                      let alone := let! (t, rest) := scan_string r1 in Ok (utf8_encode u +:+ t, rest) in
                      if high_surrogate u then
                        match r1 with
                        | String x (String y (String k1 (String k2 (String k3 (String k4 r2))))) =>
                            match hex4 k1 k2 k3 k4 with
                            | Some v =>
                                if bool_decide (x = BACKSLASH) && bool_decide (y = "u"%char) && low_surrogate v then
                                  let! (t, rest) := scan_string r2 in
                                  Ok (utf8_encode (65536 + (u - 55296) * 1024 + (v - 56320))%N +:+ t, rest)
                                else alone
                            | None => alone
                            end
                        | _ => alone
                        end
                      else alone
                  end
              | _ => Err JSONDecodeError
              end
            else
              match unescape e with
              | Some x => let! (t, rest) := scan_string r in Ok (String x t, rest)
              | None => Err JSONDecodeError
              end
        end
      else if (N_of_ascii c <? 32)%N then Err JSONDecodeError
      else let! (t, rest) := scan_string s' in Ok (String c t, rest)
  end.

(** The digits of an integer, and what follows them *)
Fixpoint int_digits (acc : Z) (s : string) : Z * string :=
  match s with
  | String c s' =>
      if is_digit c then int_digits (acc * 10 + (Z.of_N (N_of_ascii c) - 48))%Z s' else (acc, s)
  | "" => (acc, "")
  end.

(** Whether a fraction or an exponent follows the integer part *)
Definition float_follows (s : string) : bool :=
  match s with
  | String c s' =>
      (is_char "."%char c && first_char is_digit s')
      || ((is_char "e"%char c || is_char "E"%char c)
          && match s' with
             | String d s'' => is_digit d || ((is_char "+"%char d || is_char "-"%char d) && first_char is_digit s'')
             | "" => false
             end)
  | "" => false
  end.

Definition number_end (neg : bool) (n : Z * string) : result (pyval * string) :=
  if float_follows (snd n) then Err (Unmodelled "float")
  else Ok (VInt (if neg then - fst n else fst n)%Z, snd n).

Definition scan_digits (neg : bool) (s : string) : result (pyval * string) :=
  match s with
  | String c s' =>
      if is_char "0"%char c then number_end neg (0%Z, s')
      else if is_digit c then number_end neg (int_digits 0 s)
      else Err JSONDecodeError
  | "" => Err JSONDecodeError
  end.

Definition scan_literal (s : string) : result (pyval * string) :=
  match strip_prefix "null" s, strip_prefix "true" s, strip_prefix "false" s with
  | Some r, _, _ => Ok (VNone, r)
  | _, Some r, _ => Ok (VBool true, r)
  | _, _, Some r => Ok (VBool false, r)
  | _, _, _ =>
      if startswith "NaN" s || startswith "Infinity" s || startswith "-Infinity" s then Err (Unmodelled "float")
      else match s with
           | String "-" s' => scan_digits true s'
           | _ => scan_digits false s
           end
  end.

(** ** Values *)
Section decoder.
(** [object_pairs_hook] *)
Variable hook : list (string * pyval) → result pyval.

(** The elements of an array after its bracket and the blanks, and the members of an
    object; [k] bounds their number. *)
Fixpoint scan_items (scan : string → result (pyval * string)) (k : nat) (s : string)
  : result (list pyval * string) :=
  match k with
  | 0 => Err (Unmodelled "items")
  | S k =>
      let! (v, r) := scan s in
      match skip_ws r with
      | String c r =>
          if is_char ","%char c then
            let! (l, r) := scan_items scan k (skip_ws r) in Ok (v :: l, r)
          else if is_char "]"%char c then Ok ([v], r)
          else Err JSONDecodeError
      | "" => Err JSONDecodeError
      end
  end.

Fixpoint scan_members (scan : string → result (pyval * string)) (k : nat) (s : string)
  : result (list (string * pyval) * string) :=
  match k with
  | 0 => Err (Unmodelled "items")
  | S k =>
      match s with
      | String q r =>
          if is_char QUOTE q then
            let! (key, r) := scan_string r in
            match skip_ws r with
            | String c r =>
                if is_char ":"%char c then
                  let! (v, r) := scan (skip_ws r) in
                  match skip_ws r with
                  | String c r =>
                      if is_char ","%char c then
                        let! (l, r) := scan_members scan k (skip_ws r) in Ok ((key, v) :: l, r)
                      else if is_char "}"%char c then Ok ([(key, v)], r)
                      else Err JSONDecodeError
                  | "" => Err JSONDecodeError
                  end
                else Err JSONDecodeError
            | "" => Err JSONDecodeError
            end
          else Err JSONDecodeError
      | "" => Err JSONDecodeError
      end
  end.

(** [n] bounds the nesting of arrays and objects. *)
Fixpoint scan_value (n : nat) (s : string) : result (pyval * string) :=
  match n with
  | 0 => Err (Unmodelled "depth")
  | S n =>
      match s with
      | "" => Err JSONDecodeError
      | String c r =>
          if is_char QUOTE c then let! (t, r) := scan_string r in Ok (VStr t, r)
          else if is_char "["%char c then
            let r := skip_ws r in
            if first_char (is_char "]"%char) r then Ok (VList [], str_tail r)
            else let! (l, r) := scan_items (scan_value n) (String.length r) r in Ok (VList l, r)
          else if is_char "{"%char c then
            let r := skip_ws r in
            if first_char (is_char "}"%char) r then
              let! d := hook [] in Ok (d, str_tail r)
            else
              let! (l, r) := scan_members (scan_value n) (String.length r) r in
              let! d := hook l in Ok (d, r)
          else scan_literal s
      end
  end.

Definition BOM : string := bytes [239; 187; 191]%N.

(** [json.loads(s, object_pairs_hook=hook)]: the nesting and the lengths are bounded by the
    length of the text *)
Definition json_loads (s : string) : result pyval :=
  if startswith BOM s then Err JSONDecodeError
  else
    let! (v, r) := scan_value (S (String.length s)) (skip_ws s) in
    if bool_decide (skip_ws r = "") then Ok v else Err JSONDecodeError.
End decoder.

(** ** Hooks: the dict [json.loads] builds by default *)
Fixpoint pairs_set (d : list (pyval * pyval)) (k : string) (v : pyval) : list (pyval * pyval) :=
  match d with
  | [] => [(VStr k, v)]
  | (VStr k', v') :: d' => if bool_decide (k = k') then (VStr k', v) :: d' else (VStr k', v') :: pairs_set d' k v
  | p :: d' => p :: pairs_set d' k v
  end.
Definition last_wins (pairs : list (string * pyval)) : result pyval :=
  Ok (VDict (foldl (λ d p, pairs_set d (fst p) (snd p)) [] pairs)).

(** [reject_duplicate_pairs]: a repeated key raises [ValueError(code)] *)
Definition reject_duplicate_pairs (code : string) (pairs : list (string * pyval)) : result pyval :=
  raise code when negb (no_dups (map fst pairs)) ; Ok (dict_of pairs).
