(* ===== verification/Evidence.v ===== *)
(** * Evidence records (delivery_system/evidence.py)

    [EvidenceRecord]: declared evidence made from an input, driver evidence made by the
    runtime, and the reader that recomputes both identities of a stored record. *)
From S2P Require Import Prelude PyValue Strings PyOps Canonical.

Inductive DeclaredSource := USER_ASSERTED | MODEL_PROPOSED | MODEL_ASSUMPTION.
#[export] Instance DeclaredSource_eq_dec : EqDecision DeclaredSource.
Proof. solve_decision. Defined.

Definition declared_source_value (s : DeclaredSource) : string :=
  match s with
  | USER_ASSERTED => "user_asserted" | MODEL_PROPOSED => "model_proposed" | MODEL_ASSUMPTION => "model_assumption"
  end.
Definition declared_source_of (v : pyval) : result DeclaredSource :=
  match List.find (λ s, py_eq v (VStr (declared_source_value s))) [USER_ASSERTED; MODEL_PROPOSED; MODEL_ASSUMPTION] with
  | Some s => Ok s
  | None => Err (ValueError "is not a valid DeclaredSource")
  end.

Record EvidenceRecord := Evidence {
  ev_evidence_id : string;
  ev_workspace_identity : string;
  ev_preview_id : string;
  ev_revision : Z;
  ev_evidence_type : string;
  ev_source_kind : string;
  ev_declared_source : option DeclaredSource;
  ev_verification_status : string;
  ev_source_identity : string;
  ev_repository_identity : pyval;
  ev_query_scope : pyval;
  ev_schema_version : string;
  ev_subject_ref : string;
  ev_payload : pyval;
  ev_evidence_digest : string;
  ev_created_at : pyval;
}.

Definition declared_value (s : option DeclaredSource) : pyval :=
  match s with Some s => VStr (declared_source_value s) | None => VNone end.

Section evidence.
Context `{PyLib}.

(** [normalize(v) if v is not None else None] *)
Definition normalize_optional (v : pyval) : result pyval :=
  match v with VNone => Ok VNone | _ => normalize v end.

(** The payloads hashed into [evidence_digest] and [evidence_id] *)
Definition evidence_payload (etype kind : string) (declared : option DeclaredSource) (subject source : string)
    (repository scope : pyval) (schema : string) (payload : pyval) : pyval :=
  dict_of
    [("evidence_type", VStr etype); ("source_kind", VStr kind); ("declared_source", declared_value declared);
     ("subject_ref", VStr subject); ("source_identity", VStr source); ("repository_identity", repository);
     ("query_scope", scope); ("schema_version", VStr schema); ("payload", payload)].

Definition evidence_id_of (workspace preview : string) (revision : Z) (etype subject edigest : string)
  : result string :=
  let! hex :=
    digest_hex (dict_of
      [("domain", VStr "delivery-system:evidence-id:v1"); ("workspace_identity", VStr workspace);
       ("preview_id", VStr preview); ("revision", VInt revision); ("evidence_type", VStr etype);
       ("subject_ref", VStr subject); ("evidence_digest", VStr edigest)]) in
  Ok ("ev_" +:+ hex).

Definition _create_controlled (workspace preview : string) (revision : Z) (etype kind : string)
    (declared : option DeclaredSource) (subject : string) (payload created_at : pyval) (source : string)
    (repository scope : pyval) (schema : string) (verified : bool) : result EvidenceRecord :=
  raise "invalid_evidence_source_kind" when negb (bool_decide (kind ∈ ["declared"; "runtime"; "driver"])) ;
  raise "controlled_evidence_source" when negb verified && negb (bool_decide (kind = "declared")) ;
  let! status :=
    if verified then
      raise "verified_evidence_source_invalid"
        when negb (bool_decide (kind ∈ ["runtime"; "driver"])) || bool_decide (is_Some declared) ;
      Ok (kind +:+ "_verified")
    else
      raise "declared_source_required" when bool_decide (declared = None) ;
      Ok "declared_unverified" in
  let! edigest := digest (evidence_payload etype kind declared subject source repository scope schema payload) in
  let! eid := evidence_id_of workspace preview revision etype subject edigest in
  let! scope := normalize_optional scope in
  let! payload := normalize payload in
  Ok (Evidence eid workspace preview revision etype kind declared status source repository scope schema subject
        payload edigest created_at).

(** [create] *)
Definition evidence_create (workspace preview : string) (revision : Z) (etype kind : string)
    (declared : option DeclaredSource) (subject : string) (payload created_at : pyval) (source : string)
    (repository scope : pyval) (schema : string) : result EvidenceRecord :=
  raise "controlled_evidence_source" when bool_decide (kind ∈ ["runtime"; "driver"]) ;
  _create_controlled workspace preview revision etype kind declared subject payload created_at source repository
    scope schema false.

(** [create_verified_driver] *)
Definition create_verified_driver (workspace preview : string) (revision : Z) (etype subject : string)
    (payload : pyval) (source repository : string) (scope created_at : pyval) (schema : string)
  : result EvidenceRecord :=
  raise "driver_evidence_binding_invalid"
    when existsb (λ s, bool_decide (py_strip s = "")) [workspace; preview; source; repository]
         || (revision <? 1)%Z || negb (is_mapping scope) ;
  _create_controlled workspace preview revision etype "driver" None subject payload created_at source
    (VStr repository) scope schema true.

Definition evidence_to_dict (r : EvidenceRecord) : pyval :=
  dict_of
    [("evidence_id", VStr (ev_evidence_id r)); ("workspace_identity", VStr (ev_workspace_identity r));
     ("preview_id", VStr (ev_preview_id r)); ("revision", VInt (ev_revision r));
     ("evidence_type", VStr (ev_evidence_type r)); ("source_kind", VStr (ev_source_kind r));
     ("declared_source", declared_value (ev_declared_source r));
     ("verification_status", VStr (ev_verification_status r)); ("source_identity", VStr (ev_source_identity r));
     ("repository_identity", ev_repository_identity r); ("query_scope", ev_query_scope r);
     ("schema_version", VStr (ev_schema_version r)); ("subject_ref", VStr (ev_subject_ref r));
     ("payload", ev_payload r); ("evidence_digest", VStr (ev_evidence_digest r));
     ("created_at", ev_created_at r)].

(** [from_dict]: runtime and driver records, then declared ones *)
Definition controlled_from_dict (data : pyval) (kind : string) (declared : pyval) : result EvidenceRecord :=
  raise "evidence_source_invalid"
    when negb (bool_decide (kind ∈ ["runtime"; "driver"])) || negb (bool_decide (declared = VNone)) ;
  let expected := if bool_decide (kind = "runtime") then "runtime_verified" else "driver_verified" in
  raise "evidence_verification_status_invalid" when negb (py_eq (get data "verification_status") (VStr expected)) ;
  let! eid := str_at data "evidence_id" in
  let! workspace := str_at data "workspace_identity" in
  let! preview := str_at data "preview_id" in
  let! revision := subscript data "revision" in
  let! revision := py_int revision in
  let! etype := str_at data "evidence_type" in
  let! source := str_at data "source_identity" in
  let! scope := normalize_optional (get data "query_scope") in
  let! schema := str_at data "schema_version" in
  let! subject := str_at data "subject_ref" in
  let! payload := subscript data "payload" in
  let! payload := normalize payload in
  let! edigest := str_at data "evidence_digest" in
  let repository := get data "repository_identity" in
  let! computed := digest (evidence_payload etype kind None subject source repository scope schema payload) in
  raise "evidence_digest_mismatch" when negb (bool_decide (edigest = computed)) ;
  let! expected_id := evidence_id_of workspace preview revision etype subject edigest in
  raise "evidence_id_mismatch" when negb (bool_decide (eid = expected_id)) ;
  Ok (Evidence eid workspace preview revision etype kind None expected source repository scope schema subject
        payload edigest (get data "created_at")).

Definition declared_from_dict (data declared : pyval) : result EvidenceRecord :=
  let! workspace := str_at data "workspace_identity" in
  let! preview := str_at data "preview_id" in
  let! revision := subscript data "revision" in
  let! revision := py_int revision in
  let! etype := str_at data "evidence_type" in
  let! kind := str_at data "source_kind" in
  let! source_opt := match declared with VNone => Ok None | _ => let! s := declared_source_of declared in Ok (Some s) end in
  let! subject := str_at data "subject_ref" in
  let! payload := subscript data "payload" in
  let! source := str_at data "source_identity" in
  let! schema := str_at data "schema_version" in
  let! r := _create_controlled workspace preview revision etype kind source_opt subject payload
              (get data "created_at") source (get data "repository_identity") (get data "query_scope") schema false in
  raise "evidence_digest_mismatch"
    when negb (py_eq (VStr (ev_evidence_id r)) (get data "evidence_id"))
         || negb (py_eq (VStr (ev_evidence_digest r)) (get data "evidence_digest")) ;
  Ok r.

Definition evidence_from_dict (data : pyval) : result EvidenceRecord :=
  let! declared := get_attr data "declared_source" in
  let! kind := str_at data "source_kind" in
  if bool_decide (kind = "declared") then declared_from_dict data declared
  else controlled_from_dict data kind declared.
End evidence.
