(* ===== verification/RemoteSnapshot.v ===== *)
(** * Remote repository snapshots (delivery_system/remote_snapshot.py)

    The typed records read from a repository, in their frozen V1 and their V2 form, and the
    canonical snapshot whose digest a preview and its approval carry. *)
From S2P Require Import Prelude PyValue Strings PyOps Canonical.
From Stdlib Require Import Ascii.

Section snapshots.
Context `{PyLib}.

Definition _is_timezone_aware_timestamp (value : string) : bool :=
  match fromisoformat (replace_Z value) with Some (_, Some _) => true | _ => false end.

(** [str(v)] of a value that passes [isinstance(v, (str, int))] *)
Definition str_or_int (v : pyval) : option string :=
  match v with
  | VStr s => Some s
  | VInt z => Some (pretty z)
  | VBool b => Some (if b then "True" else "False")
  | _ => None
  end.

(** ** Issue records *)
Record RemoteIssueRecord := IssueV1 {
  ri_issue_id : string;
  ri_item_type : string;
  ri_title : string;
  ri_updated_at : string;
  ri_repository_identity : string;
}.

Definition issue_from_dict (value : pyval) : result RemoteIssueRecord :=
  let! issue_id := get_attr value "issue_id" in
  match str_or_int issue_id with
  | None | Some "" => Err (ValueError "remote_issue_identity_incomplete")
  | Some id =>
      let! typed := in_str_set (get value "item_type") ["issue"; "pull_request"] in
      raise "remote_item_type_required" when negb typed ;
      raise "remote_issue_title_required" when negb (nonblank (get value "title")) ;
      raise "remote_issue_updated_at_required" when negb (nonblank (get value "updated_at")) ;
      raise "remote_issue_repository_identity_required" when negb (nonblank (get value "repository_identity")) ;
      raise "remote_issue_updated_at_timezone_required"
        when negb (_is_timezone_aware_timestamp (the_str (get value "updated_at"))) ;
      Ok (IssueV1 id (the_str (get value "item_type")) (the_str (get value "title"))
            (the_str (get value "updated_at")) (the_str (get value "repository_identity")))
  end.

Definition issue_to_dict (r : RemoteIssueRecord) : pyval :=
  dict_of [("issue_id", VStr (ri_issue_id r)); ("item_type", VStr (ri_item_type r)); ("title", VStr (ri_title r));
           ("updated_at", VStr (ri_updated_at r)); ("repository_identity", VStr (ri_repository_identity r))].

Record RemoteIssueRecordV2 := IssueV2 {
  r2_issue_id : string;
  r2_numeric_issue_id : string;
  r2_issue_number : Z;
  r2_item_type : string;
  r2_title : string;
  r2_body : string;
  r2_state : string;
  r2_updated_at : string;
  r2_repository_identity : string;
}.

Definition ISSUE_V2_FIELDS : list string :=
  ["issue_id"; "numeric_issue_id"; "issue_number"; "item_type"; "title"; "body"; "state"; "updated_at";
   "repository_identity"].

(** [re.fullmatch(r"[1-9][0-9]{0,19}", s)] *)
Definition numeric_id (s : string) : bool :=
  match s with
  | "" => false
  | String c s' => in_range 49 57 c && all_bytes is_digit s' && (String.length s' <=? 19)
  end.

Definition issue_v2_from_dict (value : pyval) : result RemoteIssueRecordV2 :=
  let field := get value in
  match value with
  | VNone | VBool _ | VInt _ | VFloat _ => Err (TypeError "not iterable")
  | VDict _ =>
      raise "remote_snapshot_v2_issue_schema_invalid" when negb (keys_are ISSUE_V2_FIELDS value) ;
      raise "remote_issue_identity_incomplete"
        when negb (nonblank (field "issue_id"))
             || negb (is_str (field "numeric_issue_id") && numeric_id (the_str (field "numeric_issue_id"))) ;
      match field "issue_number" with
      | VInt number =>
          raise "remote_issue_number_invalid" when (number <? 1)%Z ;
          raise "pull_request_not_issue_candidate" when negb (py_eq (field "item_type") (VStr "issue")) ;
          raise "remote_issue_title_required" when negb (nonblank (field "title")) ;
          raise "remote_issue_body_invalid"
            when negb (bool_decide (field "body" = VNone)) && negb (is_str (field "body")) ;
          raise "remote_issue_state_invalid"
            when negb (is_str (field "state")
                       && bool_decide (py_casefold (the_str (field "state")) ∈ ["open"; "closed"])) ;
          raise "remote_issue_updated_at_timezone_required"
            when negb (is_str (field "updated_at") && _is_timezone_aware_timestamp (the_str (field "updated_at"))) ;
          raise "remote_issue_repository_identity_required" when negb (nonblank (field "repository_identity")) ;
          Ok (IssueV2 (the_str (field "issue_id")) (the_str (field "numeric_issue_id")) number "issue"
                (the_str (field "title")) (the_str (field "body")) (py_casefold (the_str (field "state")))
                (the_str (field "updated_at")) (the_str (field "repository_identity")))
      | _ => Err (ValueError "remote_issue_number_invalid")
      end
  | _ => Err (Unmodelled "set")
  end.

Definition issue_v2_to_dict (r : RemoteIssueRecordV2) : result pyval :=
  normalize (dict_of
    [("issue_id", VStr (r2_issue_id r)); ("numeric_issue_id", VStr (r2_numeric_issue_id r));
     ("issue_number", VInt (r2_issue_number r)); ("item_type", VStr (r2_item_type r)); ("title", VStr (r2_title r));
     ("body", VStr (r2_body r)); ("state", VStr (r2_state r)); ("updated_at", VStr (r2_updated_at r));
     ("repository_identity", VStr (r2_repository_identity r))]).

(** ** Relationships, permissions, capabilities *)
Record RemoteRelationshipRecord := Relationship {
  rr_relationship_type : string;
  rr_source_issue_id : string;
  rr_target_issue_id : string;
}.

Definition RELATIONSHIP_TYPES : list string :=
  ["existing_dependency"; "existing_parent"; "proposed_dependency_candidate"; "proposed_parent_candidate"].

Definition relationship_from_dict (value : pyval) : result RemoteRelationshipRecord :=
  let! kind := get_attr value "kind" in
  let! typed := in_str_set kind RELATIONSHIP_TYPES in
  raise "remote_relationship_type_required" when negb typed ;
  match kind, str_or_int (get value "from"), str_or_int (get value "to") with
  | VStr kind, Some source, Some target => Ok (Relationship kind source target)
  | _, _, _ => Err (ValueError "remote_relationship_reference_required")
  end.

Definition relationship_to_dict (r : RemoteRelationshipRecord) : pyval :=
  dict_of [("kind", VStr (rr_relationship_type r)); ("from", VStr (rr_source_issue_id r));
           ("to", VStr (rr_target_issue_id r))].

(** [RemotePermissionSet.to_dict] *)
Definition permissions_to_dict (values : pyval) : result pyval :=
  match values with
  | VDict d =>
      raise "remote_permission_boolean_required"
        when existsb (λ p, negb (is_str (fst p)) || negb (match snd p with VBool _ => true | _ => false end)) d ;
      Ok (VDict (sort_by (λ p, the_str (fst p)) d))
  | _ => Err (AttributeError "items")
  end.

(** [RemoteCapabilitySet(tuple(values))] *)
Definition capability_set (values : pyval) : result (list string) :=
  let! l := py_iter values in
  match strs_of l with
  | Some r =>
      raise "remote_capability_set_invalid" when existsb (λ s, bool_decide (s = "")) r || negb (no_dups r) ;
      Ok r
  | None => Err (ValueError "remote_capability_set_invalid")
  end.

(** ** Snapshots: the two versions differ in their issue records *)
Record TypedRemoteSnapshot (issue : Type) := Snapshot {
  sn_repository_identity : string;
  sn_query_scope : pyval;
  sn_query_complete : bool;
  sn_pagination_complete : bool;
  sn_issue_records : list issue;
  sn_permissions : pyval;
  sn_capabilities : list string;
  sn_relationship_records : list RemoteRelationshipRecord;
  sn_evidence_ids : list pyval;
  sn_schema_version : string;
  sn_observed_at : pyval;
}.
Arguments Snapshot {issue}.
Arguments sn_repository_identity {issue}. Arguments sn_query_scope {issue}. Arguments sn_query_complete {issue}.
Arguments sn_pagination_complete {issue}. Arguments sn_issue_records {issue}. Arguments sn_permissions {issue}.
Arguments sn_capabilities {issue}. Arguments sn_relationship_records {issue}. Arguments sn_evidence_ids {issue}.
Arguments sn_schema_version {issue}. Arguments sn_observed_at {issue}.

(** [evidence_ids or ()], as a tuple *)
Definition evidence_tuple (v : pyval) : result (list pyval) := if truthy v then py_iter v else Ok [].

(** The checks after the issue records, common to the two versions *)
Definition finish_snapshot {issue} (schema : string) (issue_id : issue → string) (repository : string)
    (query_scope : pyval) (query_complete pagination_complete : bool) (issues : list issue)
    (permissions capabilities relationship_records evidence_ids observed_at : pyval)
  : result (TypedRemoteSnapshot issue) :=
  let ids := map issue_id issues in
  raise "duplicate_remote_issue_id" when negb (no_dups ids) ;
  let! records := py_iter relationship_records in
  let! relationships := map_r relationship_from_dict records in
  raise "remote_relationship_reference_required"
    when existsb (λ r, negb (bool_decide (rr_source_issue_id r ∈ ids))
                       || negb (bool_decide (rr_target_issue_id r ∈ ids))) relationships ;
  let! evidence := evidence_tuple evidence_ids in
  let! distinct := set_distinct evidence in
  raise "duplicate_remote_evidence_id" when negb distinct ;
  let! scope := py_dict query_scope in
  let! scope := normalize scope in
  let! permissions := py_dict permissions in
  let! capabilities := capability_set capabilities in
  let! evidence := py_sorted evidence in
  Ok (Snapshot repository scope query_complete pagination_complete issues permissions capabilities relationships
        evidence schema observed_at).

Definition snapshot_bools (query_complete pagination_complete : pyval) : result (bool * bool) :=
  match query_complete, pagination_complete with
  | VBool q, VBool p => Ok (q, p)
  | _, _ => Err (ValueError "remote_query_completeness_boolean_required")
  end.

(** [TypedRemoteSnapshot.from_records] and [TypedRemoteSnapshotV2.from_records]; the callers
    pass [str(..)] as the repository *)
Definition snapshot_from_records (repository : string)
    (query_scope query_complete pagination_complete issue_records permissions capabilities relationship_records
     evidence_ids observed_at : pyval) : result (TypedRemoteSnapshot RemoteIssueRecord) :=
  raise "remote_repository_identity_required" when bool_decide (py_strip repository = "") ;
  let! (q, p) := snapshot_bools query_complete pagination_complete in
  let! records := py_iter issue_records in
  let! issues := map_r issue_from_dict records in
  raise "remote_issue_repository_identity_mismatch"
    when existsb (λ r, negb (bool_decide (ri_repository_identity r = repository))) issues ;
  raise "pull_request_not_issue_candidate" when existsb (λ r, bool_decide (ri_item_type r = "pull_request")) issues ;
  finish_snapshot "remote-snapshot-v1" ri_issue_id repository query_scope q p issues permissions capabilities
    relationship_records evidence_ids observed_at.

Definition snapshot_v2_from_records (repository : string)
    (query_scope query_complete pagination_complete issue_records permissions capabilities relationship_records
     evidence_ids observed_at : pyval) : result (TypedRemoteSnapshot RemoteIssueRecordV2) :=
  raise "remote_repository_identity_required" when bool_decide (py_strip repository = "") ;
  let! (q, p) := snapshot_bools query_complete pagination_complete in
  let! records := py_iter issue_records in
  let! issues := map_r issue_v2_from_dict records in
  raise "remote_issue_repository_identity_mismatch"
    when existsb (λ r, negb (bool_decide (r2_repository_identity r = repository))) issues ;
  finish_snapshot "remote-snapshot-v2" r2_issue_id repository query_scope q p issues permissions capabilities
    relationship_records evidence_ids observed_at.

(** [sorted(relationship_records, key=lambda item: (type, source, target))]: a stable sort by
    each component, the last one first *)
Definition sorted_relationships (l : list RemoteRelationshipRecord) : list RemoteRelationshipRecord :=
  sort_by rr_relationship_type (sort_by rr_source_issue_id (sort_by rr_target_issue_id l)).

Definition snapshot_fields {issue} (issue_dict : issue → result pyval) (issue_id : issue → string)
    (s : TypedRemoteSnapshot issue) : result (list (string * pyval)) :=
  let! scope := normalize (sn_query_scope s) in
  let! issues := map_r issue_dict (sort_by issue_id (sn_issue_records s)) in
  let! permissions := permissions_to_dict (sn_permissions s) in
  let! evidence := py_sorted (sn_evidence_ids s) in
  Ok [("repository_identity", VStr (sn_repository_identity s)); ("query_scope", scope);
      ("query_complete", VBool (sn_query_complete s)); ("pagination_complete", VBool (sn_pagination_complete s));
      ("issue_records", VList issues); ("permissions", permissions);
      ("capabilities", VList (map VStr (sorted_strings (sn_capabilities s))));
      ("relationship_records", VList (map relationship_to_dict (sorted_relationships (sn_relationship_records s))));
      ("evidence_ids", VList evidence); ("schema_version", VStr (sn_schema_version s));
      ("observed_at", sn_observed_at s)].

Definition snapshot_to_dict {issue} (issue_dict : issue → result pyval) (issue_id : issue → string)
    (s : TypedRemoteSnapshot issue) : result pyval :=
  let! fields := snapshot_fields issue_dict issue_id s in normalize (dict_of fields).

(** [payload.pop(k, None)] *)
Definition dict_pop (k : string) (v : pyval) : pyval :=
  match v with VDict d => VDict (List.filter (λ p, negb (py_eq (fst p) (VStr k))) d) | _ => v end.

Definition snapshot_digest {issue} (issue_dict : issue → result pyval) (issue_id : issue → string)
    (s : TypedRemoteSnapshot issue) : result string :=
  let! payload := snapshot_to_dict issue_dict issue_id s in digest (dict_pop "observed_at" payload).

Definition snapshot_v1_digest := snapshot_digest (λ r, Ok (issue_to_dict r)) ri_issue_id.
Definition snapshot_v2_digest := snapshot_digest issue_v2_to_dict r2_issue_id.
End snapshots.
Arguments Snapshot {issue}.
Arguments sn_repository_identity {issue}. Arguments sn_query_scope {issue}. Arguments sn_query_complete {issue}.
Arguments sn_pagination_complete {issue}. Arguments sn_issue_records {issue}. Arguments sn_permissions {issue}.
Arguments sn_capabilities {issue}. Arguments sn_relationship_records {issue}. Arguments sn_evidence_ids {issue}.
Arguments sn_schema_version {issue}. Arguments sn_observed_at {issue}.
