(* ===== verification/FormalPreview.v ===== *)
(** * The sealed preview (delivery_system/formal_preview.py)

    [SealedPreview]: the schema check that reads a preview document and the canonical
    document it is written back as. *)
From S2P Require Import Prelude PyValue Strings PyOps Canonical.

Definition CONCEPTUAL : string := "Conceptual".
Definition REPOSITORY_AWARE : string := "RepositoryAware".
Definition WRITE_ELIGIBLE : string := "WriteEligible".
Definition PREVIEW_LEVELS : list string := [CONCEPTUAL; REPOSITORY_AWARE; WRITE_ELIGIBLE].

Record SealedPreview := MkSealedPreview {
  sp_workspace_identity : string;
  sp_request_id : string;
  sp_preview_id : string;
  sp_revision : Z;
  sp_preview_level : string;
  sp_provenance_status : string;
  sp_repository_identity : option string;
  sp_remote_authority : option string;
  sp_semantic_payload : pyval;
  sp_operation_intents : list pyval;
  sp_plan_digest : string;
  sp_operation_set_digest : string;
  sp_remote_snapshot : pyval;
  sp_remote_snapshot_digest : option string;
  sp_items : list pyval;
  sp_evidence_ids : list string;
  sp_blockers : list string;
  sp_planner_observations : list pyval;
  sp_sealed_preview_digest : string;
  sp_canonical_version : option string;
  sp_existing_endpoint_bindings : list pyval;
}.

Definition PREVIEW_FIELDS : list string :=
  ["workspace_identity"; "request_id"; "preview_id"; "revision"; "preview_level"; "provenance_status";
   "repository_identity"; "remote_authority"; "semantic_payload"; "operation_intents"; "plan_digest";
   "operation_set_digest"; "remote_snapshot"; "remote_snapshot_digest"; "items"; "evidence_ids"; "blockers";
   "planner_observations"; "sealed_preview_digest"].
Definition V2_FIELDS : list string := ["canonical_version"; "existing_endpoint_bindings"].

(** [isinstance(v, list) and all(p(x) for x in v)] *)
Definition list_all (p : pyval → bool) (v : pyval) : bool :=
  match v with VList l => forallb p l | _ => false end.
Definition the_list (v : pyval) : list pyval := match v with VList l => l | _ => [] end.

(** [v is None or p(v)] *)
Definition none_or (p : pyval → bool) (v : pyval) : bool := match v with VNone => true | _ => p v end.
Definition the_opt_str (v : pyval) : option string := match v with VStr s => Some s | _ => None end.
Definition opt_value_of (o : option string) : pyval := match o with Some s => VStr s | None => VNone end.

(** [payload["revision"]] is an integer and at least one *)
Definition positive_int (v : pyval) : bool := match v with VInt z => (1 <=? z)%Z | _ => false end.
Definition the_int (v : pyval) : Z := match v with VInt z => z | _ => 0%Z end.

Section preview.
Context `{PyLib}.

(** [to_dict] *)
Definition preview_fields (s : SealedPreview) : list (string * pyval) :=
  [("workspace_identity", VStr (sp_workspace_identity s)); ("request_id", VStr (sp_request_id s));
   ("preview_id", VStr (sp_preview_id s)); ("revision", VInt (sp_revision s));
   ("preview_level", VStr (sp_preview_level s)); ("provenance_status", VStr (sp_provenance_status s));
   ("repository_identity", opt_value_of (sp_repository_identity s));
   ("remote_authority", opt_value_of (sp_remote_authority s)); ("semantic_payload", sp_semantic_payload s);
   ("operation_intents", VList (sp_operation_intents s)); ("plan_digest", VStr (sp_plan_digest s));
   ("operation_set_digest", VStr (sp_operation_set_digest s)); ("remote_snapshot", sp_remote_snapshot s);
   ("remote_snapshot_digest", opt_value_of (sp_remote_snapshot_digest s)); ("items", VList (sp_items s));
   ("evidence_ids", VList (map VStr (sp_evidence_ids s))); ("blockers", VList (map VStr (sp_blockers s)));
   ("planner_observations", VList (sp_planner_observations s));
   ("sealed_preview_digest", VStr (sp_sealed_preview_digest s))] ++
  match sp_canonical_version s with
  | Some v => [("canonical_version", VStr v); ("existing_endpoint_bindings", VList (sp_existing_endpoint_bindings s))]
  | None => []
  end.

Definition preview_to_dict (s : SealedPreview) : result pyval := normalize (dict_of (preview_fields s)).

(** The schema by version *)
Definition preview_schema (payload : pyval) : result unit :=
  match get payload "canonical_version" with
  | VNone => raise "sealed_preview_schema_invalid" when negb (keys_are PREVIEW_FIELDS payload) ; Ok tt
  | VStr "2" =>
      raise "sealed_preview_schema_invalid" when negb (keys_are (PREVIEW_FIELDS ++ V2_FIELDS) payload) ;
      raise "sealed_preview_endpoint_bindings_invalid"
        when negb (list_all is_mapping (get payload "existing_endpoint_bindings")) ;
      Ok tt
  | _ => Err (ValueError "sealed_preview_version_invalid")
  end.

(** The version of the remote snapshot and the bindings that need it *)
Definition preview_snapshot_version (payload : pyval) : result unit :=
  let v2 := py_eq (get payload "canonical_version") (VStr "2") in
  let snapshot := get payload "remote_snapshot" in
  let snapshot_v2 := py_eq (get snapshot "schema_version") (VStr "remote-snapshot-v2") in
  raise "sealed_preview_v1_v2_hybrid"
    when is_mapping snapshot && (negb v2 && snapshot_v2) ;
  raise "sealed_preview_v2_snapshot_invalid" when is_mapping snapshot && (v2 && negb snapshot_v2) ;
  raise "sealed_preview_v2_snapshot_required"
    when v2 && truthy (get payload "existing_endpoint_bindings")
         && (negb (is_mapping snapshot) || negb snapshot_v2
             || negb (is_nonempty_str (get payload "remote_snapshot_digest"))) ;
  Ok tt.

(** [from_dict] *)
Definition preview_from_dict (payload : pyval) : result SealedPreview :=
  let field := get payload in
  raise "sealed_preview_required" when negb (is_mapping payload) ;
  let! _ := preview_schema payload in
  raise "sealed_preview_identity_invalid"
    when negb (forallb (λ k, is_nonempty_str (field k)) ["workspace_identity"; "request_id"; "preview_id"]) ;
  raise "sealed_preview_revision_invalid" when negb (positive_int (field "revision")) ;
  let! level := in_str_set (field "preview_level") PREVIEW_LEVELS in
  raise "sealed_preview_level_invalid" when negb level ;
  raise "preview_provenance_invalid" when negb (py_eq (field "provenance_status") (VStr "declared_unverified")) ;
  raise "sealed_preview_payload_invalid"
    when negb (is_mapping (field "semantic_payload")) || negb (list_all is_mapping (field "operation_intents"))
         || negb (list_all is_mapping (field "items")) || negb (list_all is_nonempty_str (field "evidence_ids"))
         || negb (list_all is_str (field "blockers")) || negb (list_all is_mapping (field "planner_observations")) ;
  raise "sealed_preview_digest_field_invalid"
    when negb (forallb (λ k, is_nonempty_str (field k))
                 ["plan_digest"; "operation_set_digest"; "sealed_preview_digest"]) ;
  raise "sealed_preview_repository_invalid" when negb (none_or nonblank (field "repository_identity")) ;
  raise "sealed_preview_authority_invalid" when negb (none_or is_str (field "remote_authority")) ;
  raise "sealed_preview_remote_invalid" when negb (none_or is_mapping (field "remote_snapshot")) ;
  let! _ := preview_snapshot_version payload in
  raise "sealed_preview_remote_digest_invalid" when negb (none_or is_nonempty_str (field "remote_snapshot_digest")) ;
  Ok (MkSealedPreview (the_str (field "workspace_identity")) (the_str (field "request_id"))
        (the_str (field "preview_id")) (the_int (field "revision")) (the_str (field "preview_level"))
        (the_str (field "provenance_status")) (the_opt_str (field "repository_identity"))
        (the_opt_str (field "remote_authority")) (field "semantic_payload") (the_list (field "operation_intents"))
        (the_str (field "plan_digest")) (the_str (field "operation_set_digest")) (field "remote_snapshot")
        (the_opt_str (field "remote_snapshot_digest")) (the_list (field "items"))
        (map the_str (the_list (field "evidence_ids"))) (map the_str (the_list (field "blockers")))
        (the_list (field "planner_observations")) (the_str (field "sealed_preview_digest"))
        (the_opt_str (field "canonical_version")) (the_list (field "existing_endpoint_bindings"))).

(** [is_stale] *)
Definition is_stale (s : SealedPreview) (current_remote_snapshot_digest : string) : bool :=
  negb (bool_decide (sp_remote_snapshot_digest s = Some current_remote_snapshot_digest)).
End preview.
