(* ===== verification/Endpoints.v ===== *)
(** * Existing endpoints (delivery_system/existing_endpoints.py)

    The digests that bind a preview to an existing issue, typed endpoints, and the V2 shape
    of a record of the read driver.  The revalidation of an endpoint is in Preflight.v. *)
From S2P Require Import Prelude PyValue Strings PyOps Canonical.

Section endpoints.
Context `{PyLib}.

Definition _text (value : pyval) (empty : string) : result string :=
  match value with
  | VNone => Ok empty
  | VStr s => Ok (nfc (replace_cr (replace_crlf s)))
  | _ => Err (ValueError "existing_endpoint_text_invalid")
  end.

Definition normalize_title (value : pyval) : result string :=
  let! t := _text value "" in
  let title := py_strip t in
  raise "existing_endpoint_title_required" when bool_decide (title = "") ; Ok title.

Definition normalize_body (value : pyval) : result string :=
  let! t := _text value "" in Ok (py_strip t).

Definition normalize_state (value : pyval) : result string :=
  match value with
  | VStr s =>
      let state := py_casefold (py_strip s) in
      raise "existing_endpoint_state_invalid" when negb (bool_decide (state ∈ ["open"; "closed"])) ; Ok state
  | _ => Err (ValueError "existing_endpoint_state_invalid")
  end.

(** ** The digests of an endpoint *)
Definition semantic_digest (record : pyval) : result string :=
  let! item_type := subscript record "item_type" in
  let! title := subscript record "title" in
  let! title := normalize_title title in
  let! body := normalize_body (get record "body") in
  let! state := subscript record "state" in
  let! state := normalize_state state in
  digest (dict_of
    [("domain", VStr "delivery-system:existing-issue-semantics:v1"); ("item_type", item_type);
     ("title", VStr title); ("body", VStr body); ("state", VStr state)]).

Definition identity_digest (record : pyval) : result string :=
  let! repository := subscript record "repository_identity" in
  let! issue_id := subscript record "issue_id" in
  digest (dict_of
    [("domain", VStr "delivery-system:existing-issue-identity:v1"); ("repository_identity", repository);
     ("node_id", issue_id)]).

Definition write_address_digest (record : pyval) : result string :=
  let! repository := subscript record "repository_identity" in
  let! issue_id := subscript record "issue_id" in
  let! number := subscript record "issue_number" in
  let! numeric := subscript record "numeric_issue_id" in
  digest (dict_of
    [("domain", VStr "delivery-system:existing-issue-address:v1"); ("repository_identity", repository);
     ("node_id", issue_id); ("issue_number", number); ("numeric_issue_id", numeric)]).

Definition selector_digest (selector : pyval) : result string :=
  let! number := get_attr selector "number" in
  let url := get selector "url" in
  raise "existing_endpoint_selector_required" when bool_decide (number = VNone) && bool_decide (url = VNone) ;
  raise "existing_endpoint_selector_invalid"
    when negb (match number with VNone => true | VInt z => (1 <=? z)%Z | _ => false end) ;
  raise "existing_endpoint_selector_invalid" when negb (bool_decide (url = VNone)) && negb (nonblank url) ;
  digest (dict_of [("domain", VStr "delivery-system:existing-issue-selector:v1"); ("number", number); ("url", url)]).

(** ** Typed endpoints *)
Record TypedEndpoint := Endpoint { endpoint_type : string; ref : string }.

Definition typed_endpoint_to_dict (e : TypedEndpoint) : result pyval :=
  raise "endpoint_reference_invalid"
    when negb (bool_decide (endpoint_type e ∈ ["work_item"; "existing_issue"])) || bool_decide (ref e = "") ;
  Ok (dict_of [("endpoint_type", VStr (endpoint_type e));
               (if bool_decide (endpoint_type e = "work_item") then "client_ref" else "endpoint_ref", VStr (ref e))]).

Definition endpoint_from_dict (value : pyval) : result TypedEndpoint :=
  raise "endpoint_reference_invalid"
    when negb (is_mapping value && (keys_are ["endpoint_type"; "client_ref"] value
                                    || keys_are ["endpoint_type"; "endpoint_ref"] value)) ;
  let kind := get value "endpoint_type" in
  let key := if py_eq kind (VStr "work_item") then Some ("work_item", "client_ref")
             else if py_eq kind (VStr "existing_issue") then Some ("existing_issue", "endpoint_ref") else None in
  match key with
  | None => Err (ValueError "endpoint_reference_invalid")
  | Some (kind, key) =>
      raise "endpoint_reference_invalid" when negb (keys_are ["endpoint_type"; key] value) ;
      raise "endpoint_reference_invalid" when negb (nonblank (get value key)) ;
      Ok (Endpoint kind (the_str (get value key)))
  end.

(** ** Records of the read driver *)
Definition _v2_record_from_driver (record : pyval) : result pyval :=
  if negb (is_mapping record) then Err (AttributeError "get")
  else
    Ok (dict_of
      [("issue_id", get_default record "issue_id" (get record "node_id"));
       ("numeric_issue_id", get_default record "numeric_issue_id" (get record "numeric_id"));
       ("issue_number", get_default record "issue_number" (get record "number"));
       ("item_type", get record "item_type"); ("title", get record "title"); ("body", get record "body");
       ("state", get record "state"); ("updated_at", get record "updated_at");
       ("repository_identity", get record "repository_identity")]).
End endpoints.
