(* ===== verification/WriteOperations.v ===== *)
(** * Write operations (delivery_system/write_operations.py)

    Validation and eligibility of the operation set a preview asks to apply: the V1
    shape (client references) and the V2 shape (typed endpoints). *)
From S2P Require Import Prelude PyValue Strings.

(** ** Module constants *)
Definition WRITE_OPERATION_KINDS : list string := ["create_issue"; "add_sub_issue"; "add_dependency"].
Definition _RELATIONSHIP_KINDS (kind : string) : option string :=
  if bool_decide (kind = "add_sub_issue") then Some "planned_parent"
  else if bool_decide (kind = "add_dependency") then Some "planned_dependency"
  else None.
Definition _OPERATION_FIELDS : list string := ["operation_kind"; "client_refs"; "depends_on"].
Definition _V2_CREATE_FIELDS : list string := ["operation_kind"; "endpoint"; "depends_on"].
Definition _V2_REL_FIELDS : list string := ["operation_kind"; "operands"; "depends_on"].

(** [all(isinstance(v, str) and bool(v) for v in l)], as the list of the strings *)
Fixpoint nonempty_strs (l : list pyval) : option (list string) :=
  match l with
  | [] => Some []
  | VStr s :: l' =>
      if bool_decide (s = "") then None
      else match nonempty_strs l' with Some r => Some (s :: r) | None => None end
  | _ => None
  end.

(** ** V1 operations: the dictionaries [normalize_write_operations] returns *)
Record operation := Operation {
  operation_kind : string;
  client_refs : list string;
  depends_on : list string;
}.
#[export] Instance operation_eq_dec : EqDecision operation.
Proof. solve_decision. Defined.


Definition operation_dict (op : operation) : pyval :=
  dict_of [("operation_kind", VStr (operation_kind op));
           ("client_refs", vstrs (client_refs op));
           ("depends_on", vstrs (depends_on op))].

(** One iteration of the loop of [normalize_write_operations]. *)
Definition normalize_operation (op : pyval) : result operation :=
  raise "write_operation_shape_invalid" when negb (is_mapping op && keys_are _OPERATION_FIELDS op) ;
  match get op "operation_kind", get op "client_refs", get op "depends_on" with
  | VStr kind, VList refs, VList deps =>
      match nonempty_strs refs, nonempty_strs deps with
      | Some refs, Some deps =>
          raise "write_operation_shape_invalid" when bool_decide (kind = "") ;
          raise "write_operation_client_refs_duplicate" when negb (no_dups refs) ;
          Ok (Operation kind refs deps)
      | _, _ => Err (ValueError "write_operation_shape_invalid")
      end
  | _, _, _ => Err (ValueError "write_operation_shape_invalid")
  end.

Definition normalize_write_operations (operation_intents : pyval) : result (list operation) :=
  match as_sequence operation_intents with
  | None => Err (ValueError "write_operation_set_invalid")
  | Some ops => map_r normalize_operation ops
  end.

Definition without_keys (ks : list string) (v : pyval) : pyval :=
  match v with
  | VDict d => VDict (List.filter (λ p, match fst p with VStr k => negb (bool_decide (k ∈ ks)) | _ => true end) d)
  | _ => v
  end.

Definition operation_set_digest_payload (operation_intents : pyval) : result pyval :=
  match as_sequence operation_intents with
  | None => Err (ValueError "write_operation_set_invalid")
  | Some ops =>
      raise "write_operation_shape_invalid" when negb (forallb is_mapping ops) ;
      Ok (dict_of [("operation_intents", VList (map (without_keys ["id"; "operation_id"]) ops))])
  end.

Record WriteOperationEvaluation (op : Type) := Evaluation {
  operations : list op;
  eligible : bool;
  blockers : list string;
}.
Arguments Evaluation {op}. Arguments operations {op}. Arguments eligible {op}. Arguments blockers {op}.

(** [WriteOperationEvaluation(operations, not blockers, tuple(sorted(set(blockers))))] *)
Definition evaluation {op} (ops : list op) (bs : list string) : WriteOperationEvaluation op :=
  Evaluation ops (bool_decide (bs = [])) (sorted_strings (remove_dups bs)).

(** [blockers.append(code)] when the condition holds *)
Definition block (b : bool) (code : string) : list string := if b then [code] else [].

(** The blockers one operation of the loop appends. *)
Definition operation_blockers (known_refs : list string) (op : operation) : list string :=
  block (existsb (λ ref, negb (bool_decide (ref ∈ known_refs))) (client_refs op))
    "write_operation_unknown_client_ref" ++
  block (negb (bool_decide (depends_on op = []))) "write_operation_dependencies_unsupported" ++
  (if negb (bool_decide (operation_kind op ∈ WRITE_OPERATION_KINDS)) then
     ["write_operation_kind_not_write_eligible"]
   else if bool_decide (operation_kind op = "create_issue") && negb (length (client_refs op) =? 1) then
     ["write_operation_create_issue_shape_invalid"]
   else if bool_decide (is_Some (_RELATIONSHIP_KINDS (operation_kind op))) &&
           match client_refs op with [a; b] => bool_decide (a = b) | _ => true end then
     ["write_operation_relationship_shape_invalid"]
   else []).

(** [item.get("client_ref") for item in items if isinstance(item, Mapping)] and the
    item-set guard. *)
Definition item_client_refs (items : list pyval) : result (list string) :=
  let item_refs := map (λ item, get item "client_ref") (List.filter is_mapping items) in
  raise "write_operation_item_set_invalid"
    when negb (length item_refs =? length items) || bool_decide (item_refs = []) ;
  match nonempty_strs item_refs with
  | None => Err (ValueError "write_operation_item_set_invalid")
  | Some refs => raise "write_operation_item_set_invalid" when negb (no_dups refs) ; Ok refs
  end.

(** A planned relationship [(kind, source, target)]. *)
Definition planned_pair (relationship : pyval) : result (string * string * string) :=
  raise "write_operation_relationships_invalid" when negb (is_mapping relationship) ;
  let! kind_ok := in_str_set (get relationship "kind") ["planned_parent"; "planned_dependency"] in
  raise "write_operation_relationships_invalid" when negb kind_ok ;
  match get relationship "kind", get relationship "from_client_ref", get relationship "to_client_ref" with
  | VStr kind, VStr source, VStr target =>
      raise "write_operation_relationships_invalid"
        when bool_decide (source = "") || bool_decide (target = "") ;
      Ok (kind, source, target)
  | _, _, _ => Err (ValueError "write_operation_relationships_invalid")
  end.

(** [semantic_payload.get("planned_relationships", ())] must be a list. *)
Definition planned_relationships (semantic_payload : pyval) (dflt : pyval) : result (list pyval) :=
  if is_mapping semantic_payload then
    match get_default semantic_payload "planned_relationships" dflt with
    | VList l => Ok l
    | _ => Err (ValueError "write_operation_relationships_invalid")
    end
  else Err (AttributeError "get").

Definition operation_pair (op : operation) : option (string * string * string) :=
  match _RELATIONSHIP_KINDS (operation_kind op), client_refs op with
  | Some kind, [a; b] => Some (kind, a, b)
  | _, _ => None
  end.

Definition create_ref (op : operation) : option string :=
  match client_refs op with
  | [ref] => if bool_decide (operation_kind op = "create_issue") then Some ref else None
  | _ => None
  end.

(** The canonical operation sequence: every item created, in item order, then every
    planned relationship in its order. *)
Definition relationship_operation (pair : string * string * string) : operation :=
  let '(kind, source, target) := pair in
  Operation (if bool_decide (kind = "planned_parent") then "add_sub_issue" else "add_dependency")
            [source; target] [].
Definition expected_operations (item_refs : list string) (pairs : list (string * string * string))
  : list operation :=
  map (λ ref, Operation "create_issue" [ref] []) item_refs ++ map relationship_operation pairs.

Definition evaluate_write_operations (operation_intents : pyval) (items : list pyval)
    (semantic_payload : pyval) : result (WriteOperationEvaluation operation) :=
  let! operations := normalize_write_operations operation_intents in
  let! item_refs := item_client_refs items in
  let blockers1 := concat (map (operation_blockers item_refs) operations) in
  let create_refs := omap create_ref operations in
  let blockers2 :=
    block (negb (no_dups create_refs)) "write_operation_duplicate_create_issue" ++
    block (negb (forallb (λ r, bool_decide (r ∈ item_refs)) create_refs
                 && forallb (λ r, bool_decide (r ∈ create_refs)) item_refs)
           || negb (length create_refs =? length item_refs))
      "write_operation_create_issue_incomplete" in
  let! planned := planned_relationships semantic_payload (VTuple []) in
  let! planned_pairs := map_r planned_pair planned in
  let operation_pairs := omap operation_pair operations in
  let blockers3 :=
    block (existsb (λ p, negb (bool_decide (p ∈ operation_pairs))) planned_pairs)
      "write_operation_relationship_incomplete" ++
    block (existsb (λ p, negb (bool_decide (p ∈ planned_pairs))) operation_pairs)
      "write_operation_relationship_unplanned" in
  let blockers4 :=
    block (negb (bool_decide (operations = expected_operations item_refs planned_pairs)))
      "write_operation_order_invalid" in
  Ok (evaluation operations (blockers1 ++ blockers2 ++ blockers3 ++ blockers4)).

(** ** V2 operations: typed endpoints *)
Definition operation_set_digest_payload_v2 (operation_intents : pyval) : result pyval :=
  match as_sequence operation_intents with
  | None => Err (ValueError "write_operation_set_invalid")
  | Some ops =>
      raise "write_operation_shape_invalid" when negb (forallb is_mapping ops) ;
      Ok (dict_of [("canonical_version", VStr "2"); ("operation_intents", VList ops)])
  end.

(** An endpoint [(kind, ref)]: the kind is [work_item] or [existing_issue]. *)
Inductive endpoint_kind := work_item | existing_issue.
#[export] Instance endpoint_kind_eq_dec : EqDecision endpoint_kind.
Proof. solve_decision. Defined.
Definition endpoint : Type := endpoint_kind * string.

Definition endpoint_kind_name (k : endpoint_kind) : string :=
  match k with work_item => "work_item" | existing_issue => "existing_issue" end.
Definition endpoint_key (k : endpoint_kind) : string :=
  match k with work_item => "client_ref" | existing_issue => "endpoint_ref" end.

Definition endpoint_dict (e : endpoint) : pyval :=
  dict_of [("endpoint_type", VStr (endpoint_kind_name (fst e))); (endpoint_key (fst e), VStr (snd e))].

Definition _v2_endpoint (value : pyval) : result endpoint :=
  raise "write_operation_endpoint_invalid"
    when negb (is_mapping value)
         || (negb (keys_are ["endpoint_type"; "client_ref"] value)
             && negb (keys_are ["endpoint_type"; "endpoint_ref"] value)) ;
  let ref_of (k : endpoint_kind) :=
    match get value (endpoint_key k) with
    | VStr ref =>
        raise "write_operation_endpoint_invalid" when bool_decide (ref = "") ; Ok (k, ref)
    | _ => Err (ValueError "write_operation_endpoint_invalid")
    end in
  if py_eq (get value "endpoint_type") (VStr "work_item")
     && keys_are ["endpoint_type"; "client_ref"] value then ref_of work_item
  else if py_eq (get value "endpoint_type") (VStr "existing_issue")
     && keys_are ["endpoint_type"; "endpoint_ref"] value then ref_of existing_issue
  else Err (ValueError "write_operation_endpoint_invalid").

(** The dictionaries [normalize_write_operations_v2] returns. *)
Inductive operation_v2 :=
| CreateV2 (client_ref : string) (deps : list string)
| RelationV2 (kind : string) (first second : endpoint) (deps : list string).
#[export] Instance operation_v2_eq_dec : EqDecision operation_v2.
Proof. solve_decision. Defined.

Definition operation_v2_dict (op : operation_v2) : pyval :=
  match op with
  | CreateV2 ref deps =>
      dict_of [("operation_kind", VStr "create_issue");
               ("endpoint", endpoint_dict (work_item, ref)); ("depends_on", vstrs deps)]
  | RelationV2 kind a b deps =>
      dict_of [("operation_kind", VStr kind);
               ("operands", VList [endpoint_dict a; endpoint_dict b]); ("depends_on", vstrs deps)]
  end.

Definition normalize_operation_v2 (op : pyval) : result operation_v2 :=
  raise "write_operation_shape_invalid" when negb (is_mapping op) ;
  match get op "operation_kind", get op "depends_on" with
  | VStr kind, VList deps =>
      match nonempty_strs deps with
      | None => Err (ValueError "write_operation_shape_invalid")
      | Some deps =>
        if bool_decide (kind = "create_issue") then
          raise "write_operation_shape_invalid" when negb (keys_are _V2_CREATE_FIELDS op) ;
          let! e := _v2_endpoint (get op "endpoint") in
          raise "write_operation_create_endpoint_invalid" when negb (bool_decide (fst e = work_item)) ;
          Ok (CreateV2 (snd e) deps)
        else if bool_decide (kind = "add_sub_issue" ∨ kind = "add_dependency") then
          raise "write_operation_shape_invalid" when negb (keys_are _V2_REL_FIELDS op) ;
          match get op "operands" with
          | VList [x; y] =>
              let! a := _v2_endpoint x in
              let! b := _v2_endpoint y in
              raise "write_operation_relationship_shape_invalid" when bool_decide (a = b) ;
              Ok (RelationV2 kind a b deps)
          | _ => Err (ValueError "write_operation_relationship_shape_invalid")
          end
        else Err (ValueError "write_operation_kind_not_write_eligible")
      end
  | _, _ => Err (ValueError "write_operation_shape_invalid")
  end.

Definition normalize_write_operations_v2 (operation_intents : pyval) : result (list operation_v2) :=
  match as_sequence operation_intents with
  | None => Err (ValueError "write_operation_set_invalid")
  | Some ops => map_r normalize_operation_v2 ops
  end.

Definition operation_v2_kind (op : operation_v2) : string :=
  match op with CreateV2 _ _ => "create_issue" | RelationV2 kind _ _ _ => kind end.

(** The refs of the items (V2 skips entries that are not mappings). *)
Definition item_refs_v2 (items : list pyval) : result (list string) :=
  let item_refs := map (λ item, get item "client_ref") (List.filter is_mapping items) in
  raise "write_operation_item_set_invalid" when bool_decide (item_refs = []) ;
  match nonempty_strs item_refs with
  | None => Err (ValueError "write_operation_item_set_invalid")
  | Some refs => raise "write_operation_item_set_invalid" when negb (no_dups refs) ; Ok refs
  end.

Definition endpoint_refs_v2 (endpoint_bindings : list pyval) : result (list string) :=
  match nonempty_strs (map (λ b, get b "endpoint_ref") (List.filter is_mapping endpoint_bindings)) with
  | None => Err (ValueError "write_operation_endpoint_set_invalid")
  | Some refs => raise "write_operation_endpoint_set_invalid" when negb (no_dups refs) ; Ok refs
  end.

Definition endpoint_known (known_work known_existing : list string) (e : endpoint) : bool :=
  match fst e with
  | work_item => bool_decide (snd e ∈ known_work)
  | existing_issue => bool_decide (snd e ∈ known_existing)
  end.

Definition operation_v2_blockers (known_work known_existing : list string) (op : operation_v2) : list string :=
  match op with
  | CreateV2 ref deps =>
      block (negb (bool_decide (deps = []))) "write_operation_dependencies_unsupported" ++
      block (negb (bool_decide (ref ∈ known_work))) "write_operation_unknown_endpoint"
  | RelationV2 _ a b deps =>
      block (negb (bool_decide (deps = []))) "write_operation_dependencies_unsupported" ++
      block (negb (endpoint_known known_work known_existing a)) "write_operation_unknown_endpoint" ++
      block (negb (endpoint_known known_work known_existing b)) "write_operation_unknown_endpoint"
  end.

(** A planned V2 relationship, with the blockers its shape adds. *)
Definition planned_pair_v2 (rel : pyval) : result (string * endpoint * endpoint) :=
  raise "write_operation_relationships_invalid" when negb (is_mapping rel) ;
  let! kind_ok := in_str_set (get rel "kind") ["planned_parent"; "planned_dependency"] in
  raise "write_operation_relationships_invalid" when negb kind_ok ;
  let! source := _v2_endpoint (get rel "from_endpoint") in
  let! target := _v2_endpoint (get rel "to_endpoint") in
  match get rel "kind" with
  | VStr kind => Ok (kind, source, target)
  | _ => Err (ValueError "write_operation_relationships_invalid")
  end.

Definition planned_pair_blockers (p : string * endpoint * endpoint) : list string :=
  let '(_, source, target) := p in
  block (bool_decide (source = target)) "write_operation_relationship_shape_invalid" ++
  block (bool_decide (fst source = existing_issue) && bool_decide (fst target = existing_issue))
    "write_operation_existing_to_existing_unsupported".

Definition operation_pair_v2 (op : operation_v2) : option (string * endpoint * endpoint) :=
  match op with
  | CreateV2 _ _ => None
  | RelationV2 kind a b _ =>
      Some (if bool_decide (kind = "add_sub_issue") then "planned_parent" else "planned_dependency", a, b)
  end.

(** [binding_ids.get(ref)]: the issue id of the last binding of that ref. *)
Definition binding_id (endpoint_bindings : list pyval) (ref : string) : option string :=
  match List.find (λ b, py_eq (get b "endpoint_ref") (VStr ref)) (reverse (List.filter is_mapping endpoint_bindings)) with
  | Some b => match get b "issue_id" with VStr s => Some s | _ => None end
  | None => None
  end.

Definition relationship_recorded (relationship_records : list pyval) (kind source target : string) : bool :=
  existsb (λ r, is_mapping r && py_eq (get r "kind") (VStr kind) && py_eq (get r "from") (VStr source)
                && py_eq (get r "to") (VStr target)) relationship_records.

Definition existing_relation_blockers (bindings records : list pyval) (p : string * endpoint * endpoint)
  : list string :=
  let '(kind, source, target) := p in
  if bool_decide (fst source = existing_issue) && bool_decide (fst target = existing_issue) then
    match binding_id bindings (snd source), binding_id bindings (snd target) with
    | Some source_id, Some target_id =>
        block (relationship_recorded records
                 (if bool_decide (kind = "planned_parent") then "existing_parent" else "existing_dependency")
                 source_id target_id) "relationship_already_exists"
    | _, _ => []
    end
  else [].

Definition relationship_operation_v2 (p : string * endpoint * endpoint) : operation_v2 :=
  let '(kind, source, target) := p in
  RelationV2 (if bool_decide (kind = "planned_parent") then "add_sub_issue" else "add_dependency")
             source target [].
Definition expected_operations_v2 (item_refs : list string) (pairs : list (string * endpoint * endpoint))
  : list operation_v2 :=
  map (λ ref, CreateV2 ref []) item_refs ++ map relationship_operation_v2 pairs.

Definition evaluate_write_operations_v2 (operation_intents : pyval) (items : list pyval)
    (semantic_payload : pyval) (endpoint_bindings relationship_records : list pyval)
  : result (WriteOperationEvaluation operation_v2) :=
  let! operations := normalize_write_operations_v2 operation_intents in
  let! item_refs := item_refs_v2 items in
  let! endpoint_refs := endpoint_refs_v2 endpoint_bindings in
  raise "write_operation_reference_namespace_collision"
    when existsb (λ r, bool_decide (r ∈ endpoint_refs)) item_refs ;
  let create_refs := omap (λ op, match op with CreateV2 ref _ => Some ref | _ => None end) operations in
  let blockers1 :=
    concat (map (operation_v2_blockers item_refs endpoint_refs) operations) ++
    block (negb (no_dups create_refs) || negb (same_set create_refs item_refs))
      "write_operation_create_issue_incomplete" in
  let! planned := planned_relationships semantic_payload (VList []) in
  let! planned_pairs := map_r planned_pair_v2 planned in
  let blockers2 :=
    concat (map planned_pair_blockers planned_pairs) ++
    block (negb (same_set planned_pairs (omap operation_pair_v2 operations)))
      "write_operation_relationship_incomplete" ++
    concat (map (existing_relation_blockers endpoint_bindings relationship_records) planned_pairs) ++
    block (negb (bool_decide (operations = expected_operations_v2 item_refs planned_pairs)))
      "write_operation_order_invalid" in
  Ok (evaluation operations (blockers1 ++ blockers2)).

(** ** Properties *)

Lemma block_nil b code : block b code = [] ↔ b = false.
Proof. by destruct b. Qed.

Lemma evaluation_eligible {op} (ops : list op) bs : eligible (evaluation ops bs) = true ↔ bs = [].
Proof. unfold evaluation; simpl. by rewrite bool_decide_eq_true. Qed.

#[export] Hint Rewrite block_nil : bools.

Lemma nonempty_strs_map r : Forall (λ s, s ≠ "") r → nonempty_strs (map VStr r) = Some r.
Proof.
  induction 1 as [|s r Hs _ IH]; simpl; [done|]. rewrite bool_decide_eq_false_2 by done. by rewrite IH.
Qed.

Lemma nonempty_strs_Some l r :
  nonempty_strs l = Some r → l = map VStr r ∧ Forall (λ s, s ≠ "") r.
Proof.
  revert r; induction l as [|v l IH]; intros r; simpl; [by intros [= <-]|].
  destruct v as [| | | |s| | | | | |]; try discriminate. case_bool_decide; [discriminate|].
  destruct (nonempty_strs l) as [r'|]; [|discriminate].
  intros [= <-]. destruct (IH r') as [-> ?]; [done|]. by rewrite Forall_cons.
Qed.

(** The operations the normalizer can return. *)
Definition operation_wf (op : operation) : Prop :=
  operation_kind op ≠ "" ∧ Forall (λ s, s ≠ "") (client_refs op) ∧ NoDup (client_refs op) ∧
  Forall (λ s, s ≠ "") (depends_on op).

Lemma normalize_operation_wf v op : normalize_operation v = Ok op → operation_wf op.
Proof.
  unfold normalize_operation. intros H. inv_ok.
  destruct (get v "operation_kind"); try discriminate.
  destruct (get v "client_refs") as [| | | | | |refs| | | |]; try discriminate.
  destruct (get v "depends_on") as [| | | | | |deps| | | |]; try discriminate.
  destruct (nonempty_strs refs) eqn:Er; [|discriminate].
  destruct (nonempty_strs deps) eqn:Ed; [|discriminate].
  inv_ok. bools. apply nonempty_strs_Some in Er as [_ ?], Ed as [_ ?]. by unfold operation_wf.
Qed.

Lemma normalize_operation_dict op : operation_wf op → normalize_operation (operation_dict op) = Ok op.
Proof.
  intros (Hk & Hr & Hn & Hd). destruct op as [kind refs deps]; simpl in *.
  unfold normalize_operation, get; simpl. rewrite !nonempty_strs_map by done.
  rewrite bool_decide_eq_false_2 by done. apply no_dups_true in Hn. by rewrite Hn.
Qed.

(** The value handed in and the one rebuilt from the result have the same entries. *)
Lemma normalize_write_operations_Ok v ops :
  normalize_write_operations v = Ok ops → Forall operation_wf ops.
Proof.
  unfold normalize_write_operations. destruct (as_sequence v) as [l|]; [|discriminate].
  intros H%map_r_Ok_Forall2. induction H; constructor; eauto using normalize_operation_wf.
Qed.

(** Normalization of operation entries is a validated round trip: whatever it
    accepts is well formed, and re-normalizing the entries it returns (as a list or as
    a tuple) gives them back unchanged. *)
Theorem normalize_write_operations_roundtrip v ops :
  normalize_write_operations v = Ok ops →
  Forall operation_wf ops ∧
  normalize_write_operations (VList (map operation_dict ops)) = Ok ops ∧
  normalize_write_operations (VTuple (map operation_dict ops)) = Ok ops.
Proof.
  intros H. assert (Forall operation_wf ops) as Hwf by eauto using normalize_write_operations_Ok.
  assert (map_r normalize_operation (map operation_dict ops) = Ok ops) as Hr.
  { clear H. induction Hwf as [|op ops Hop _ IH]; simpl; [done|].
    by rewrite normalize_operation_dict, IH. }
  done.
Qed.

(** *** V1 eligibility *)
Definition relationship_ok (item_refs : list string) (p : string * string * string) : Prop :=
  let '(_, source, target) := p in source ≠ target ∧ source ∈ item_refs ∧ target ∈ item_refs.

Definition planned_kind (p : string * string * string) : Prop :=
  p.1.1 = "planned_parent" ∨ p.1.1 = "planned_dependency".

Lemma planned_pair_kind v p : planned_pair v = Ok p → planned_kind p.
Proof.
  unfold planned_pair, in_str_set. intros H. inv_ok.
  destruct (get v "kind") as [| | | |k| | | | | |]; simpl in *; inv_ok; try discriminate.
  destruct (get v "from_client_ref"), (get v "to_client_ref"); try discriminate. inv_ok.
  unfold planned_kind; simpl. bools. set_solver.
Qed.

Lemma create_refs_expected refs pairs :
  omap create_ref (expected_operations refs pairs) = refs.
Proof.
  unfold expected_operations. rewrite omap_app.
  assert (omap create_ref (map relationship_operation pairs) = []) as ->.
  { induction pairs as [|[[k a] b] l IH]; [done|]. exact IH. }
  rewrite app_nil_r. induction refs as [|r l IH]; [done|]. cbn. f_equal. exact IH.
Qed.

Lemma operation_pairs_expected refs pairs :
  Forall planned_kind pairs → omap operation_pair (expected_operations refs pairs) = pairs.
Proof.
  intros H. unfold expected_operations. rewrite omap_app.
  assert (omap operation_pair (map (λ ref, Operation "create_issue" [ref] []) refs) = []) as ->.
  { induction refs as [|r l IH]; [done|]. exact IH. }
  induction H as [|[[k a] b] l Hk _ IH]; [done|].
  destruct Hk as [Hk|Hk]; simpl in Hk; subst; cbn; f_equal; exact IH.
Qed.

Lemma operation_blockers_create refs r :
  operation_blockers refs (Operation "create_issue" [r] []) = [] ↔ r ∈ refs.
Proof.
  unfold operation_blockers; simpl. rewrite orb_false_r. destruct (decide (r ∈ refs)).
  - by rewrite bool_decide_eq_true_2.
  - rewrite bool_decide_eq_false_2 by done. simpl. by split.
Qed.

Lemma operation_blockers_relationship refs p :
  operation_blockers refs (relationship_operation p) = [] ↔ relationship_ok refs p.
Proof.
  destruct p as [[k a] b]. unfold operation_blockers, relationship_ok; simpl.
  rewrite app_nil, block_nil.
  assert (∀ kind, kind = "add_sub_issue" ∨ kind = "add_dependency" →
    (if negb (bool_decide (kind ∈ WRITE_OPERATION_KINDS))
     then ["write_operation_kind_not_write_eligible"]
     else if bool_decide (kind = "create_issue") && true
     then ["write_operation_create_issue_shape_invalid"]
     else if bool_decide (is_Some (_RELATIONSHIP_KINDS kind)) && bool_decide (a = b)
     then ["write_operation_relationship_shape_invalid"] else []) = [] ↔ a ≠ b) as Hshape.
  { intros kind [-> | ->]; simpl; case_bool_decide; naive_solver. }
  rewrite Hshape by (destruct (bool_decide (k = "planned_parent")); [by left|by right]).
  rewrite orb_false_r, orb_false_iff, !negb_false_iff, !bool_decide_eq_true. naive_solver.
Qed.

Lemma item_client_refs_NoDup items refs :
  item_client_refs items = Ok refs → NoDup refs ∧ refs ≠ [] ∧ Forall (λ s, s ≠ "") refs.
Proof.
  unfold item_client_refs. intros H. inv_ok. bools.
  destruct (nonempty_strs _) as [r|] eqn:E; [|discriminate].
  inv_ok. bools. apply nonempty_strs_Some in E as [E ?]. split_and!; [done| |done].
  intros ->. simpl in E. naive_solver.
Qed.

(** The reference specification of V1 write eligibility: the operation sequence is the
    canonical one and every relationship joins two distinct items of the preview. *)
Definition v1_eligible (ops : list operation) (item_refs : list string)
    (pairs : list (string * string * string)) : Prop :=
  ops = expected_operations item_refs pairs ∧ Forall (relationship_ok item_refs) pairs.

Lemma expected_blockers_nil refs pairs :
  concat (map (operation_blockers refs) (expected_operations refs pairs)) = [] ↔
  Forall (relationship_ok refs) pairs.
Proof.
  unfold expected_operations. rewrite concat_nil, map_app, Forall_app, !Forall_map.
  split.
  - intros [_ H]. eapply Forall_impl; [exact H|]. intros p. apply operation_blockers_relationship.
  - intros H. split.
    + apply Forall_forall. intros r Hr. by apply operation_blockers_create.
    + eapply Forall_impl; [exact H|]. intros p. apply operation_blockers_relationship.
Qed.

(** C28: The blocker-collecting evaluator decides exactly the reference specification:
    an evaluation is eligible iff the submitted operations are, in order, one
    [create_issue] per item followed by the planned relationships, each between two
    distinct items of the preview. *)
Theorem evaluate_write_operations_eligible intents items sem ev refs planned pairs :
  evaluate_write_operations intents items sem = Ok ev →
  item_client_refs items = Ok refs →
  planned_relationships sem (VTuple []) = Ok planned →
  map_r planned_pair planned = Ok pairs →
  eligible ev = true ↔ v1_eligible (operations ev) refs pairs.
Proof.
  unfold evaluate_write_operations. intros H Hrefs Hpl Hpairs. rewrite Hrefs, Hpl, Hpairs in H.
  inv_ok. rewrite evaluation_eligible, !app_nil. simpl.
  destruct (item_client_refs_NoDup _ _ Hrefs) as (Hnd & _ & _).
  assert (Forall planned_kind pairs) as Hkind.
  { apply map_r_Ok_Forall2 in Hpairs. clear -Hpairs. induction Hpairs; constructor; eauto using planned_pair_kind. }
  unfold v1_eligible. split.
  - intros (Hb1 & _ & _ & Hb4). apply block_nil in Hb4. bools.
    split; [done|]. apply expected_blockers_nil. by rewrite <- Hb4.
  - intros [-> Hok]. rewrite create_refs_expected, operation_pairs_expected by done.
    apply expected_blockers_nil in Hok. rewrite Hok. rewrite !block_nil.
    repeat rewrite ?orb_false_iff, ?negb_false_iff, ?andb_true_iff, ?no_member_missing,
      ?all_members, ?bool_decide_eq_true, ?no_dups_true, ?Nat.eqb_eq. naive_solver.
Qed.

(** In an eligible V1 operation sequence every relationship operation comes after
    the [create_issue] operations of both of its operands, so the receipts it refers to
    exist by the time it runs. *)
Theorem eligible_relationships_after_creates refs pairs i op ref :
  Forall (relationship_ok refs) pairs →
  expected_operations refs pairs !! i = Some op →
  operation_kind op ≠ "create_issue" → ref ∈ client_refs op →
  ∃ j, j < i ∧ expected_operations refs pairs !! j = Some (Operation "create_issue" [ref] []).
Proof.
  intros Hok Hi Hk Hin. unfold expected_operations in *.
  apply lookup_app_Some in Hi as [Hi|[Hlen Hi]].
  - rewrite list_lookup_fmap in Hi. destruct (refs !! i); [|discriminate].
    injection Hi as <-. by destruct Hk.
  - rewrite list_lookup_fmap in Hi. destruct (pairs !! _) as [[[k a] b]|] eqn:Ep; [|discriminate].
    injection Hi as <-. simpl in Hin.
    pose proof (Forall_lookup_1 _ _ _ _ Hok Ep) as Hrel. destruct Hrel as (_ & Ha & Hb).
    assert (ref ∈ refs) as Href by set_solver.
    apply list_elem_of_lookup in Href as [j Hj]. exists j.
    rewrite length_map in Hlen. apply lookup_lt_Some in Hj as Hlt. split; [lia|].
    rewrite lookup_app_l by (rewrite length_map; lia). by rewrite list_lookup_fmap, Hj.
Qed.

(** ** Witnesses: one item and its sub-issue, planned and submitted in order *)
Module Witness.
Definition item (ref : string) : pyval := dict_of [("client_ref", VStr ref); ("item_id", VStr "id")].
Definition items : list pyval := [item "a"; item "b"].
Definition rel : pyval :=
    dict_of [("kind", VStr "planned_parent"); ("from_client_ref", VStr "b"); ("to_client_ref", VStr "a")].
Definition sem : pyval := dict_of [("planned_relationships", VList [rel])].
Definition pairs : list (string * string * string) := [("planned_parent", "b", "a")].
Definition ops : list operation := expected_operations ["a"; "b"] pairs.
Definition intents : pyval := VList (map operation_dict ops).
Definition ev : WriteOperationEvaluation operation := Evaluation ops true [].
End Witness.

Lemma normalize_write_operations_roundtrip_witness :
  normalize_write_operations (VList (map operation_dict Witness.ops)) = Ok Witness.ops.
Proof.
  destruct (normalize_write_operations_roundtrip Witness.intents Witness.ops) as (_ & H & _);
    [vm_compute; reflexivity|exact H].
Defined.

Lemma evaluate_write_operations_eligible_witness :
  eligible Witness.ev = true ↔ v1_eligible (operations Witness.ev) ["a"; "b"] Witness.pairs.
Proof.
  apply (evaluate_write_operations_eligible Witness.intents Witness.items Witness.sem Witness.ev
           ["a"; "b"] [Witness.rel] Witness.pairs); vm_compute; reflexivity.
Defined.

Lemma eligible_relationships_after_creates_witness :
  ∃ j, j < 2 ∧ expected_operations ["a"; "b"] Witness.pairs !! j = Some (Operation "create_issue" ["a"] []).
Proof.
  apply (eligible_relationships_after_creates ["a"; "b"] Witness.pairs 2
           (Operation "add_sub_issue" ["b"; "a"] []) "a").
  - repeat constructor; set_solver.
  - reflexivity.
  - discriminate.
  - set_solver.
Defined.
