(* ===== verification/Identity.v ===== *)
(** * Application identities and authorities
    (delivery_system/application_identity.py, delivery_system/application_authority.py)

    The validated logical identity of an approved application, the credential
    continuity anchor kept beside it, the identities of operations and requests derived
    from it, and the immutable authority record they are computed from. *)
From S2P Require Import Prelude PyValue Strings Canonical WriteOperations.

Definition APPLICATION_ID_DOMAIN : string := "delivery-system:application:v1".
Definition APPLICATION_BINDING_FIELDS : list string :=
  ["workspace_identity"; "repository_identity"; "preview_id"; "revision";
   "sealed_preview_digest"; "plan_digest"; "operation_set_digest";
   "remote_snapshot_digest"; "audit_id"; "audit_digest"; "approval_id";
   "approval_digest"; "github_subject_identity"; "driver_identity";
   "remote_authority"; "required_capabilities"].

(** A field that must be a non-empty [str], else [ValueError(code)]. *)
Definition text_field (code : string) (v : pyval) : result string :=
  match v with
  | VStr s => raise code when bool_decide (s = "") ; Ok s
  | _ => Err (ValueError code)
  end.

(** ** Logical values: the validated binding of an application *)
Record logical_values := LogicalValues {
  workspace_identity : string;
  repository_identity : string;
  preview_id : string;
  revision : Z;
  sealed_preview_digest : string;
  plan_digest : string;
  operation_set_digest : string;
  remote_snapshot_digest : string;
  audit_id : string;
  audit_digest : string;
  approval_id : string;
  approval_digest : string;
  github_subject_identity : string;
  driver_identity : string;
  remote_authority : string;
  required_capabilities : list string;
}.
#[export] Instance logical_values_eq_dec : EqDecision logical_values.
Proof. solve_decision. Defined.

(** The dict [values()] returns: the snapshot thawed, capabilities as a list. *)
Definition values_dict (l : logical_values) : pyval :=
  dict_of [("workspace_identity", VStr (workspace_identity l));
           ("repository_identity", VStr (repository_identity l));
           ("preview_id", VStr (preview_id l));
           ("revision", VInt (revision l));
           ("sealed_preview_digest", VStr (sealed_preview_digest l));
           ("plan_digest", VStr (plan_digest l));
           ("operation_set_digest", VStr (operation_set_digest l));
           ("remote_snapshot_digest", VStr (remote_snapshot_digest l));
           ("audit_id", VStr (audit_id l));
           ("audit_digest", VStr (audit_digest l));
           ("approval_id", VStr (approval_id l));
           ("approval_digest", VStr (approval_digest l));
           ("github_subject_identity", VStr (github_subject_identity l));
           ("driver_identity", VStr (driver_identity l));
           ("remote_authority", VStr (remote_authority l));
           ("required_capabilities", vstrs (required_capabilities l))].

(** [isinstance(v, (list, tuple, set, frozenset))], with its items *)
Definition as_collection (v : pyval) : option (list pyval) :=
  match v with VList l | VTuple l | VSet l => Some l | _ => None end.

Definition capabilities_field (v : pyval) : result (list string) :=
  match as_collection v with
  | None => Err (ValueError "application_binding_invalid")
  | Some l =>
      match nonempty_strs l with
      | None => Err (ValueError "application_binding_invalid")
      | Some caps =>
          raise "application_binding_invalid" when negb (no_dups caps) ;
          Ok (sorted_strings caps)
      end
  end.

Definition revision_field (code : string) (v : pyval) : result Z :=
  match v with
  | VInt z => raise code when (z <? 1)%Z ; Ok z
  | _ => Err (ValueError code)
  end.

Definition _logical_values (source : pyval) : result logical_values :=
  raise "application_binding_invalid"
    when negb (is_mapping source && forallb (has_key source) APPLICATION_BINDING_FIELDS) ;
  let field k := text_field "application_binding_invalid" (get source k) in
  let! workspace := field "workspace_identity" in
  let! repository := field "repository_identity" in
  let! preview := field "preview_id" in
  let! rev := revision_field "application_binding_invalid" (get source "revision") in
  let! sealed := field "sealed_preview_digest" in
  let! plan := field "plan_digest" in
  let! opset := field "operation_set_digest" in
  let! remote := field "remote_snapshot_digest" in
  let! audit := field "audit_id" in
  let! auditd := field "audit_digest" in
  let! approval := field "approval_id" in
  let! approvald := field "approval_digest" in
  let! subject := field "github_subject_identity" in
  let! driver := field "driver_identity" in
  let! auth := field "remote_authority" in
  let! caps := capabilities_field (get source "required_capabilities") in
  Ok (LogicalValues workspace repository preview rev sealed plan opset remote audit auditd
        approval approvald subject driver auth caps).

(** ** [LogicalApplicationIdentity] *)
Record LogicalApplicationIdentity := Identity {
  _values : logical_values;
  _application_id : string;
}.
#[export] Instance identity_eq_dec : EqDecision LogicalApplicationIdentity.
Proof. solve_decision. Defined.

Definition identity_to_dict (l : logical_values) : pyval :=
  dict_of [("domain", VStr APPLICATION_ID_DOMAIN); ("application", values_dict l)].

Section identity.
Context `{PyLib}.

Definition make_identity (values : pyval) : result LogicalApplicationIdentity :=
  raise "application_identity_invalid" when negb (keys_are APPLICATION_BINDING_FIELDS values) ;
  let! l := _logical_values values in
  let! h := digest_hex (identity_to_dict l) in
  Ok (Identity l ("application-" +:+ h)).

Definition identity_from_authority (authority : pyval) : result LogicalApplicationIdentity :=
  let! l := _logical_values authority in make_identity (values_dict l).

Definition identity_from_dict (value : pyval) : result LogicalApplicationIdentity :=
  raise "application_identity_invalid"
    when negb (is_mapping value && keys_are ["domain"; "application"] value) ;
  raise "application_identity_invalid"
    when negb (py_eq (get value "domain") (VStr APPLICATION_ID_DOMAIN)
               && is_mapping (get value "application")) ;
  make_identity (get value "application").
End identity.

(** ** [CredentialContinuityAnchor] *)
Definition ANCHOR_DOMAIN : string := "delivery-system:credential-continuity:v1".
Record CredentialContinuityAnchor := Anchor { mode : string; anchor_values : list string }.
#[export] Instance anchor_eq_dec : EqDecision CredentialContinuityAnchor.
Proof. solve_decision. Defined.

Definition make_anchor (mode : pyval) (values : list pyval) : result CredentialContinuityAnchor :=
  let! mode_ok := in_str_set mode ["PRINCIPAL"; "LEGACY_INSTANCE"] in
  match mode, nonempty_strs values with
  | VStr m, Some vs =>
      raise "credential_continuity_invalid" when negb mode_ok || bool_decide (vs = []) ;
      raise "credential_continuity_invalid"
        when (bool_decide (m = "PRINCIPAL") && negb (length vs =? 1))
             || (bool_decide (m = "LEGACY_INSTANCE") && negb (length vs =? 2)) ;
      Ok (Anchor m vs)
  | _, _ => Err (ValueError "credential_continuity_invalid")
  end.

Definition anchor_from_dict (value : pyval) : result CredentialContinuityAnchor :=
  raise "credential_continuity_invalid"
    when negb (is_mapping value && keys_are ["domain"; "mode"; "values"] value
               && py_eq (get value "domain") (VStr ANCHOR_DOMAIN)) ;
  match as_sequence (get value "values") with
  | None => Err (ValueError "credential_continuity_invalid")
  | Some vs => make_anchor (get value "mode") vs
  end.

Definition anchor_to_dict (a : CredentialContinuityAnchor) : pyval :=
  dict_of [("domain", VStr ANCHOR_DOMAIN); ("mode", VStr (mode a)); ("values", vstrs (anchor_values a))].

(** ** [ApplicationAuthority]: the immutable authority of one approved application *)
Definition AUTHORITY_FIELDS : list string :=
  ["authority_id"; "workspace_identity"; "repository_identity"; "preview_id"; "revision";
   "sealed_preview_digest"; "plan_digest"; "operation_set_digest"; "remote_snapshot_digest";
   "audit_id"; "audit_digest"; "approval_id"; "approval_digest"; "credential_binding_id";
   "credential_instance_id"; "issuer_id"; "credential_principal_identity";
   "github_subject_identity"; "driver_identity"; "remote_authority"; "required_capabilities";
   "granted_capabilities"; "issued_at"; "expires_at"].

(** The attributes, in the order of [_FIELDS]; [authority_to_dict] returns them. *)
Record ApplicationAuthority := Authority {
  au_authority_id : string;
  au_binding : logical_values;            (** the sixteen fields that identify the application *)
  au_credential_binding_id : string;
  au_credential_instance_id : string;
  au_issuer_id : string;
  au_credential_principal_identity : string;
  au_granted_capabilities : list string;
  au_issued_at : string;
  au_expires_at : string;
}.
#[export] Instance authority_eq_dec : EqDecision ApplicationAuthority.
Proof. solve_decision. Defined.

Definition authority_field (a : ApplicationAuthority) (k : string) : pyval :=
  let b := au_binding a in
  let caps l := VTuple (map VStr l) in
  if bool_decide (k = "authority_id") then VStr (au_authority_id a)
  else if bool_decide (k = "credential_binding_id") then VStr (au_credential_binding_id a)
  else if bool_decide (k = "credential_instance_id") then VStr (au_credential_instance_id a)
  else if bool_decide (k = "issuer_id") then VStr (au_issuer_id a)
  else if bool_decide (k = "credential_principal_identity") then VStr (au_credential_principal_identity a)
  else if bool_decide (k = "required_capabilities") then caps (required_capabilities b)
  else if bool_decide (k = "granted_capabilities") then caps (au_granted_capabilities a)
  else if bool_decide (k = "issued_at") then VStr (au_issued_at a)
  else if bool_decide (k = "expires_at") then VStr (au_expires_at a)
  else get (values_dict b) k.

Definition authority_to_dict (a : ApplicationAuthority) : pyval :=
  dict_of (map (λ k, (k, authority_field a k)) AUTHORITY_FIELDS).

Definition authority_identity_payload (a : ApplicationAuthority) : pyval :=
  dict_of [("domain", VStr "delivery-system:application-authority:v1");
           ("authority", dict_of (map (λ k, (k, authority_field a k))
              (List.filter (λ k, negb (bool_decide (k = "authority_id" ∨ k = "issued_at")))
                 AUTHORITY_FIELDS)))].

Definition anchor_from_authority (a : ApplicationAuthority) : result CredentialContinuityAnchor :=
  if bool_decide (au_credential_principal_identity a = "") then
    make_anchor (VStr "LEGACY_INSTANCE") [VStr (au_issuer_id a); VStr (au_credential_instance_id a)]
  else make_anchor (VStr "PRINCIPAL") [VStr (au_credential_principal_identity a)].

Section operation_identities.
Context `{PyLib}.

(** [ApplicationAuthority.expected_id] *)
Definition authority_expected_id (a : ApplicationAuthority) : result string :=
  let! h := digest_hex (authority_identity_payload a) in Ok ("application-authority-" +:+ h).

Definition application_id (authority : pyval) : result string :=
  let! i := identity_from_authority authority in Ok (_application_id i).

Definition operation_identity (application_identifier : string) (index : nat) (op : operation)
  : result string :=
  raise "operation_identity_invalid" when bool_decide (application_identifier = "") ;
  let! canonical := recode "operation_identity_invalid" (normalize_operation (operation_dict op)) in
  let! h := digest_hex (dict_of
    [("domain", VStr "delivery-system:operation:v1");
     ("application_id", VStr application_identifier);
     ("operation_index", VInt (Z.of_nat index));
     ("operation", operation_dict canonical)]) in
  Ok ("operation-" +:+ h).

Definition request_identity (operation_identifier : string) : result string :=
  raise "request_identity_invalid" when bool_decide (operation_identifier = "") ;
  let! h := digest_hex (dict_of
    [("domain", VStr "delivery-system:application-request:v1");
     ("operation_identity", VStr operation_identifier)]) in
  Ok ("application-request-" +:+ h).

(** The check of [authority_is_compatible] once the live authority is at hand; any
    [KeyError], [TypeError] or [ValueError] on the way answers [False]. *)
Definition authority_compatible (authority : ApplicationAuthority) (expected : LogicalApplicationIdentity)
    (anchor : CredentialContinuityAnchor) : bool :=
  match identity_from_authority (authority_to_dict authority), anchor_from_authority authority with
  | Ok candidate, Ok a =>
      bool_decide (_application_id candidate = _application_id expected)
      && bool_decide (_values candidate = _values expected) && bool_decide (a = anchor)
  | _, _ => false
  end.
End operation_identities.

(** ** Lemmas on fields *)
Lemma text_field_Ok code v s : text_field code v = Ok s ↔ v = VStr s ∧ s ≠ "".
Proof.
  destruct v; simpl; try (split; [done|by intros [? _]]).
  case_bool_decide; split; naive_solver.
Qed.

Lemma text_field_str code s : s ≠ "" → text_field code (VStr s) = Ok s.
Proof. intros. by apply text_field_Ok. Qed.

Lemma nonempty_strs_vstrs l : Forall (λ s, s ≠ "") l → as_collection (vstrs l) = Some (map VStr l).
Proof. done. Qed.

(** ** Logical values survive their own dict *)
Definition logical_values_wf (l : logical_values) : Prop :=
  Forall (λ s, s ≠ "")
    [workspace_identity l; repository_identity l; preview_id l; sealed_preview_digest l; plan_digest l;
     operation_set_digest l; remote_snapshot_digest l; audit_id l; audit_digest l; approval_id l;
     approval_digest l; github_subject_identity l; driver_identity l; remote_authority l] ∧
  (1 ≤ revision l)%Z ∧ Forall (λ s, s ≠ "") (required_capabilities l) ∧
  NoDup (required_capabilities l) ∧ sorted_strings (required_capabilities l) = required_capabilities l.

Lemma capabilities_field_wf v caps :
  capabilities_field v = Ok caps →
  Forall (λ s, s ≠ "") caps ∧ NoDup caps ∧ sorted_strings caps = caps.
Proof.
  unfold capabilities_field. destruct (as_collection v) as [l|]; [|done].
  destruct (nonempty_strs l) as [cs|] eqn:E; [|done]. apply nonempty_strs_Some in E as [-> Hne].
  intros H. inv_ok. bools. unfold sorted_strings. split_and!.
  - by rewrite sort_by_perm.
  - by rewrite sort_by_perm.
  - apply sort_by_idemp.
Qed.

Lemma capabilities_field_vstrs caps :
  Forall (λ s, s ≠ "") caps → NoDup caps → sorted_strings caps = caps →
  capabilities_field (vstrs caps) = Ok caps.
Proof.
  intros Hne Hd Hs. unfold capabilities_field. simpl. rewrite nonempty_strs_map by done.
  apply no_dups_true in Hd. by rewrite Hd, Hs.
Qed.

Lemma _logical_values_wf v l : _logical_values v = Ok l → logical_values_wf l.
Proof.
  unfold _logical_values. intros H. inv_ok.
  repeat match goal with E : text_field _ _ = Ok _ |- _ => apply text_field_Ok in E as [_ E] end.
  match goal with E : revision_field _ ?x = Ok _ |- _ =>
    unfold revision_field in E; destruct x; try discriminate E; inv_ok end. bools.
  match goal with E : capabilities_field _ = Ok _ |- _ => apply capabilities_field_wf in E as (?&?&?) end.
  split_and!; simpl; try done. repeat constructor; done.
Qed.

Lemma _logical_values_dict l : logical_values_wf l → _logical_values (values_dict l) = Ok l.
Proof.
  destruct l; intros (Hne & Hrev & Hc & Hd & Hs); simpl in *.
  repeat (apply Forall_cons in Hne as [? Hne]).
  unfold _logical_values, values_dict. simpl. rewrite !bool_decide_eq_false_2 by done. simpl.
  rewrite capabilities_field_vstrs by done.
  destruct (Z.ltb_spec revision0 1); [lia|done].
Qed.

(** ** Sources used through [get] only *)
Section roundtrips.
Context `{PyLib}.

(** An identity the constructor makes *)
Definition identity_wf (i : LogicalApplicationIdentity) : Prop := ∃ v, make_identity v = Ok i.

Lemma identity_from_dict_to_dict l :
  identity_from_dict (identity_to_dict l) = make_identity (values_dict l).
Proof. reflexivity. Qed.

Lemma make_identity_wf v i : make_identity v = Ok i → identity_wf i ∧ logical_values_wf (_values i).
Proof.
  intros E. split; [by exists v|]. unfold make_identity in E. inv_ok. by eapply _logical_values_wf.
Qed.

(** An identity is read back from its dict. *)
Lemma identity_read_back i : identity_wf i → identity_from_dict (identity_to_dict (_values i)) = Ok i.
Proof.
  intros [v E]. unfold make_identity in E. inv_ok.
  match goal with E : _logical_values _ = Ok _ |- _ => apply _logical_values_wf in E as Hwf end.
  rewrite identity_from_dict_to_dict. unfold make_identity. simpl _values. rewrite _logical_values_dict by done.
  match goal with E : digest_hex _ = Ok _ |- _ => rewrite E end. done.
Qed.

Lemma identity_from_dict_wf v i : identity_from_dict v = Ok i → identity_wf i ∧ logical_values_wf (_values i).
Proof. unfold identity_from_dict. intros E. inv_ok. by eapply make_identity_wf. Qed.

Lemma identity_from_authority_wf v i :
  identity_from_authority v = Ok i → identity_wf i ∧ logical_values_wf (_values i).
Proof. unfold identity_from_authority. intros E. inv_ok. by eapply make_identity_wf. Qed.

Lemma operation_identity_nonempty app k op x : operation_identity app k op = Ok x → x ≠ "".
Proof. unfold operation_identity. intros E. by inv_ok. Qed.

Lemma request_identity_nonempty i x : request_identity i = Ok x → x ≠ "".
Proof. unfold request_identity. intros E. by inv_ok. Qed.

Lemma jsonify_identity l : jsonify (identity_to_dict l) = identity_to_dict l.
Proof. unfold identity_to_dict, values_dict, dict_of, vstrs. simpl. by rewrite jsonify_strs. Qed.
End roundtrips.

(** ** Anchors survive their own dict *)
(** An anchor the constructor makes *)
Definition anchor_wf (a : CredentialContinuityAnchor) : Prop := ∃ m vs, make_anchor m vs = Ok a.

Lemma make_anchor_wf m vs a : make_anchor m vs = Ok a → anchor_wf a.
Proof. by exists m, vs. Qed.

(** An anchor is read back from its dict. *)
Lemma anchor_read_back a : anchor_wf a → anchor_from_dict (anchor_to_dict a) = Ok a.
Proof.
  intros (m & vs & E). unfold make_anchor, in_str_set in E. inv_ok. destruct m; try discriminate E.
  destruct (nonempty_strs vs) as [l|] eqn:Hl; [|discriminate E]. apply nonempty_strs_Some in Hl as [-> Hne].
  inv_ok. unfold anchor_from_dict, make_anchor, in_str_set. simpl in *.
  rewrite nonempty_strs_map by done.
  repeat match goal with E : ?b = _ |- context [if ?b then _ else _] => rewrite E end. done.
Qed.

Lemma anchor_from_dict_wf v a : anchor_from_dict v = Ok a → anchor_wf a.
Proof.
  unfold anchor_from_dict. intros E. inv_ok. destruct (as_sequence _); [|done]. by eapply make_anchor_wf.
Qed.

Lemma anchor_from_authority_wf a anchor : anchor_from_authority a = Ok anchor → anchor_wf anchor.
Proof. unfold anchor_from_authority. case_bool_decide; apply make_anchor_wf. Qed.

Lemma jsonify_anchor a : jsonify (anchor_to_dict a) = anchor_to_dict a.
Proof. unfold anchor_to_dict, dict_of, vstrs. simpl. by rewrite jsonify_strs. Qed.
