(* ===== verification/Receipts.v ===== *)
(** * Execution receipts (delivery_system/receipts.py)

    Operation receipts bind the remote result of one operation to the application,
    operation and authority that produced it; an application receipt lists the receipts
    of all of its operations.

    Python distinguishes a live artifact, built by an execution context and entered in
    the service's registry under its object identity, from an equal one loaded from the
    store.  Here an artifact carries its [live_context] and, separately, its registry
    entry [live_entry] (context and kind); values are immutable, so the payload recorded
    in the registry is the artifact's own. *)
From S2P Require Import Prelude PyValue Strings Canonical WriteOperations Identity.

(** Calling a class with the entries of [doc] as keyword arguments: unknown or missing
    arguments raise [TypeError]. *)
Definition check_kwargs (required optional : list string) (doc : pyval) : result unit :=
  if is_mapping doc && keys_within (required ++ optional) doc && forallb (has_key doc) required
  then Ok tt else Err (TypeError "arguments").

(** A field the constructor stores unchecked: outside its annotation it is unmodelled. *)
Definition str_field (v : pyval) : result string :=
  match v with VStr s => Ok s | _ => Err (Unmodelled "field type") end.
Definition opt_str_field (v : pyval) : result (option string) :=
  match v with VNone => Ok None | VStr s => Ok (Some s) | _ => Err (Unmodelled "field type") end.
Definition opt_str (o : option string) : pyval :=
  match o with Some s => VStr s | None => VNone end.
(** A digest attribute is only compared with digests; any other value never matches. *)
Definition digest_field (v : pyval) : string := match v with VStr s => s | _ => "" end.

(** The token of an execution context and the registered kind of an artifact. *)
Inductive artifact_kind := kind_execution | kind_attempt | kind_operation_receipt | kind_application_receipt.
#[export] Instance artifact_kind_eq_dec : EqDecision artifact_kind.
Proof. solve_decision. Defined.
Definition live_entry_t : Type := option (nat * artifact_kind).

(** ** [_copy] and [_out] *)
Fixpoint _copy (v : pyval) : pyval :=
  match v with
  | VDict d => VDict (map (λ p, (fst p, _copy (snd p))) d)
  | VList l | VTuple l => VTuple (map _copy l)
  | _ => v
  end.
Fixpoint _out (v : pyval) : pyval :=
  match v with
  | VDict d => VDict (map (λ p, (fst p, _out (snd p))) d)
  | VTuple l => VList (map _out l)
  | _ => v
  end.

(** ** [AuthorityProvenance] *)
Definition PROVENANCE_DOMAIN : string := "delivery-system:authority-provenance:v1".
Definition PROVENANCE_FIELDS : list string :=
  ["authority_id"; "credential_binding_id"; "credential_instance_id"; "issuer_id";
   "credential_principal_identity"; "github_subject_identity"; "issued_at"; "expires_at";
   "driver_identity"; "remote_authority"; "application_id"].

Record AuthorityProvenance := Provenance {
  pv_authority_id : string;
  pv_credential_binding_id : string;
  pv_credential_instance_id : string;
  pv_issuer_id : string;
  pv_credential_principal_identity : string;
  pv_github_subject_identity : string;
  pv_issued_at : string;
  pv_expires_at : string;
  pv_driver_identity : string;
  pv_remote_authority : string;
  pv_application_id : string;
}.
#[export] Instance provenance_eq_dec : EqDecision AuthorityProvenance.
Proof. solve_decision. Defined.

Definition provenance_from_source (source : pyval) : result AuthorityProvenance :=
  raise "authority_provenance_invalid"
    when negb (is_mapping source && forallb (has_key source) PROVENANCE_FIELDS) ;
  let field k := text_field "authority_provenance_invalid" (get source k) in
  let! a := field "authority_id" in
  let! b := field "credential_binding_id" in
  let! c := field "credential_instance_id" in
  let! d := field "issuer_id" in
  let! e := match get source "credential_principal_identity" with
            | VStr s => Ok s | _ => Err (ValueError "authority_provenance_invalid") end in
  let! f := field "github_subject_identity" in
  let! g := field "issued_at" in
  let! h := field "expires_at" in
  let! i := field "driver_identity" in
  let! j := field "remote_authority" in
  let! k := field "application_id" in
  Ok (Provenance a b c d e f g h i j k).

Definition provenance_from_dict (value : pyval) : result AuthorityProvenance :=
  raise "authority_provenance_invalid"
    when negb (is_mapping value && keys_are ("domain" :: PROVENANCE_FIELDS) value
               && py_eq (get value "domain") (VStr PROVENANCE_DOMAIN)) ;
  provenance_from_source value.

Definition provenance_to_dict (p : AuthorityProvenance) : pyval :=
  dict_of [("domain", VStr PROVENANCE_DOMAIN);
           ("authority_id", VStr (pv_authority_id p));
           ("credential_binding_id", VStr (pv_credential_binding_id p));
           ("credential_instance_id", VStr (pv_credential_instance_id p));
           ("issuer_id", VStr (pv_issuer_id p));
           ("credential_principal_identity", VStr (pv_credential_principal_identity p));
           ("github_subject_identity", VStr (pv_github_subject_identity p));
           ("issued_at", VStr (pv_issued_at p));
           ("expires_at", VStr (pv_expires_at p));
           ("driver_identity", VStr (pv_driver_identity p));
           ("remote_authority", VStr (pv_remote_authority p));
           ("application_id", VStr (pv_application_id p))].

(** [v | {k: x}]: the dict with [k] bound to [x] (appended when absent). *)
Definition dict_set (v : pyval) (k : string) (x : pyval) : pyval :=
  match v with
  | VDict d =>
      if bool_decide (is_Some (dget k d)) then
        VDict (map (λ p, if bool_decide (fst p = VStr k) then (fst p, x) else p) d)
      else VDict (d ++ [(VStr k, x)])
  | _ => v
  end.

Section receipts.
Context `{PyLib}.

(** [AuthorityProvenance._from_live_authority] *)
Definition provenance_from_live_authority (a : ApplicationAuthority) : result AuthorityProvenance :=
  let source := authority_to_dict a in
  let! app := application_id source in
  provenance_from_source (dict_set source "application_id" (VStr app)).

(** ** [_remote_result] *)
Record remote_result := RemoteResult {
  result_kind : string;
  result_identity : string;
  result_digest : string;
  result_payload : pyval;
}.

Definition _remote_result (value : pyval) : result remote_result :=
  raise "remote_result_invalid"
    when negb (is_mapping value
               && keys_are ["result_kind"; "result_identity"; "result_digest"; "result_payload"] value) ;
  let! kind := text_field "remote_result_invalid" (get value "result_kind") in
  let! ident := text_field "remote_result_invalid" (get value "result_identity") in
  let! dig := text_field "remote_result_invalid" (get value "result_digest") in
  let payload := _copy (get value "result_payload") in
  raise "remote_result_invalid" when negb (is_mapping payload) ;
  let! expected := digest payload in
  raise "remote_result_invalid" when negb (bool_decide (dig = expected)) ;
  Ok (RemoteResult kind ident dig payload).

Definition remote_result_dict (r : remote_result) : pyval :=
  dict_of [("result_kind", VStr (result_kind r)); ("result_identity", VStr (result_identity r));
           ("result_digest", VStr (result_digest r)); ("result_payload", _out (result_payload r))].

(** ** [OperationReceipt] *)
Record OperationReceipt := OpReceipt {
  or_operation_receipt_id : string;
  or_application_id : string;
  or_identity : LogicalApplicationIdentity;
  or_operation_identity : string;
  or_operation_index : nat;
  or_canonical_operation : operation;
  or_request_identity : string;
  or_authority_binding : AuthorityProvenance;
  or_remote_result : remote_result;
  or_started_at : string;
  or_completed_at : string;
  or_receipt_digest : string;
  or_live_context : option nat;
  or_live_entry : live_entry_t;
}.

Definition operation_receipt_id_of (op_id : string) : result string :=
  let! h := digest_hex (dict_of [("domain", VStr "delivery-system:operation-receipt-id:v1");
                                 ("operation_identity", VStr op_id)]) in
  Ok ("operation-receipt-" +:+ h).

(** The binding checks of [OperationReceipt.__post_init__]. *)
Definition operation_receipt_check (r : OperationReceipt) : result OperationReceipt :=
  let! expected_operation :=
    operation_identity (or_application_id r) (or_operation_index r) (or_canonical_operation r) in
  raise "operation_receipt_binding_invalid"
    when negb (bool_decide (or_application_id r = _application_id (or_identity r))
               && bool_decide (pv_application_id (or_authority_binding r) = _application_id (or_identity r))
               && bool_decide (or_operation_identity r = expected_operation)) ;
  let! expected_request := request_identity (or_operation_identity r) in
  raise "operation_receipt_binding_invalid"
    when negb (bool_decide (or_request_identity r = expected_request)) ;
  let! expected_id := operation_receipt_id_of (or_operation_identity r) in
  raise "operation_receipt_invalid"
    when negb (bool_decide (or_operation_receipt_id r = expected_id)) ;
  raise "operation_receipt_invalid"
    when bool_decide (or_started_at r = "") || bool_decide (or_completed_at r = "") ;
  Ok r.

Definition operation_receipt_payload (r : OperationReceipt) : pyval :=
  dict_of [("operation_receipt_id", VStr (or_operation_receipt_id r));
           ("application_id", VStr (or_application_id r));
           ("identity", identity_to_dict (_values (or_identity r)));
           ("operation_identity", VStr (or_operation_identity r));
           ("operation_index", VInt (Z.of_nat (or_operation_index r)));
           ("canonical_operation", operation_dict (or_canonical_operation r));
           ("request_identity", VStr (or_request_identity r));
           ("authority_binding", provenance_to_dict (or_authority_binding r));
           ("remote_result", remote_result_dict (or_remote_result r));
           ("started_at", VStr (or_started_at r));
           ("completed_at", VStr (or_completed_at r))].

Definition operation_receipt_set_digest (d : string) (r : OperationReceipt) : OperationReceipt :=
  OpReceipt (or_operation_receipt_id r) (or_application_id r) (or_identity r) (or_operation_identity r)
    (or_operation_index r) (or_canonical_operation r) (or_request_identity r) (or_authority_binding r)
    (or_remote_result r) (or_started_at r) (or_completed_at r) d (or_live_context r) None.

Definition operation_receipt_register (ctx : nat) (r : OperationReceipt) : OperationReceipt :=
  OpReceipt (or_operation_receipt_id r) (or_application_id r) (or_identity r) (or_operation_identity r)
    (or_operation_index r) (or_canonical_operation r) (or_request_identity r) (or_authority_binding r)
    (or_remote_result r) (or_started_at r) (or_completed_at r) (or_receipt_digest r) (or_live_context r)
    (Some (ctx, kind_operation_receipt)).

(** [with_digest]: a new, unregistered object that keeps the live context. *)
Definition operation_receipt_with_digest (r : OperationReceipt) : result OperationReceipt :=
  let! d := digest (operation_receipt_payload r) in
  operation_receipt_check (operation_receipt_set_digest d r).

Definition operation_receipt_verify_integrity (r : OperationReceipt) : result bool :=
  if bool_decide (or_receipt_digest r = "") then Ok false
  else let! d := digest (operation_receipt_payload r) in Ok (bool_decide (or_receipt_digest r = d)).

(** [payload() | {"receipt_digest": ...}], as stored and as loaded *)
Definition operation_receipt_doc (r : OperationReceipt) : pyval :=
  jsonify (dict_set (operation_receipt_payload r) "receipt_digest" (VStr (or_receipt_digest r))).

Definition operation_receipt_from_doc (doc : pyval) : result OperationReceipt :=
  let! _ := check_kwargs
    ["operation_receipt_id"; "application_id"; "identity"; "operation_identity"; "operation_index";
     "canonical_operation"; "request_identity"; "authority_binding"; "remote_result"; "started_at";
     "completed_at"] ["receipt_digest"; "_live_context"] doc in
  let! identity := identity_from_dict (get doc "identity") in
  let! op := normalize_operation (_out (get doc "canonical_operation")) in
  let! prov := provenance_from_dict (get doc "authority_binding") in
  let! remote := _remote_result (get doc "remote_result") in
  let! index := match get doc "operation_index" with
                | VInt z => raise "operation_receipt_invalid" when (z <? 0)%Z ; Ok (Z.to_nat z)
                | _ => Err (ValueError "operation_receipt_invalid") end in
  let! app := text_field "operation_identity_invalid" (get doc "application_id") in
  let! op_id := text_field "operation_receipt_binding_invalid" (get doc "operation_identity") in
  let! req := text_field "operation_receipt_binding_invalid" (get doc "request_identity") in
  let! rid := text_field "operation_receipt_invalid" (get doc "operation_receipt_id") in
  let! started := text_field "operation_receipt_invalid" (get doc "started_at") in
  let! completed := text_field "operation_receipt_invalid" (get doc "completed_at") in
  operation_receipt_check
    (OpReceipt rid app identity op_id index op req prov remote started completed
       (digest_field (get doc "receipt_digest")) None None).

(** ** [ApplicationReceipt] *)
Record receipt_ref := ReceiptRef { ref_receipt_id : string; ref_receipt_digest : string }.
#[export] Instance receipt_ref_eq_dec : EqDecision receipt_ref.
Proof. solve_decision. Defined.

Record ApplicationReceipt := AppReceipt {
  ar_application_receipt_id : string;
  ar_application_id : string;
  ar_identity : LogicalApplicationIdentity;
  ar_operation_set_digest : string;
  ar_operation_receipt_refs : list receipt_ref;
  ar_status : string;
  ar_started_at : string;
  ar_completed_at : string;
  ar_receipt_digest : string;
  ar_live_context : option nat;
  ar_live_entry : live_entry_t;
}.

Definition application_receipt_id_of (app : string) : result string :=
  let! h := digest_hex (dict_of [("domain", VStr "delivery-system:application-receipt-id:v1");
                                 ("application_id", VStr app)]) in
  Ok ("application-receipt-" +:+ h).

(** The checks of [ApplicationReceipt.__post_init__]. *)
Definition application_receipt_check (r : ApplicationReceipt) : result ApplicationReceipt :=
  raise "application_receipt_binding_invalid"
    when negb (bool_decide (ar_application_id r = _application_id (ar_identity r)))
         || bool_decide (ar_operation_set_digest r = "") ;
  let! expected := application_receipt_id_of (ar_application_id r) in
  raise "application_receipt_invalid"
    when negb (bool_decide (ar_application_receipt_id r = expected))
         || negb (bool_decide (ar_status r = "Applied"))
         || bool_decide (ar_operation_receipt_refs r = []) ;
  raise "application_receipt_invalid" when negb (no_dups (ar_operation_receipt_refs r)) ;
  raise "application_receipt_invalid"
    when existsb (λ x, bool_decide (ref_receipt_id x = "") || bool_decide (ref_receipt_digest x = ""))
           (ar_operation_receipt_refs r) ;
  Ok r.

Definition receipt_ref_dict (x : receipt_ref) : pyval :=
  dict_of [("operation_receipt_id", VStr (ref_receipt_id x));
           ("operation_receipt_digest", VStr (ref_receipt_digest x))].

Definition application_receipt_payload (r : ApplicationReceipt) : pyval :=
  dict_of [("application_receipt_id", VStr (ar_application_receipt_id r));
           ("application_id", VStr (ar_application_id r));
           ("identity", identity_to_dict (_values (ar_identity r)));
           ("operation_set_digest", VStr (ar_operation_set_digest r));
           ("operation_receipt_refs", VList (map receipt_ref_dict (ar_operation_receipt_refs r)));
           ("status", VStr (ar_status r));
           ("started_at", VStr (ar_started_at r));
           ("completed_at", VStr (ar_completed_at r))].

Definition application_receipt_set_digest (d : string) (r : ApplicationReceipt) : ApplicationReceipt :=
  AppReceipt (ar_application_receipt_id r) (ar_application_id r) (ar_identity r)
    (ar_operation_set_digest r) (ar_operation_receipt_refs r) (ar_status r) (ar_started_at r)
    (ar_completed_at r) d (ar_live_context r) None.

Definition application_receipt_register (ctx : nat) (r : ApplicationReceipt) : ApplicationReceipt :=
  AppReceipt (ar_application_receipt_id r) (ar_application_id r) (ar_identity r)
    (ar_operation_set_digest r) (ar_operation_receipt_refs r) (ar_status r) (ar_started_at r)
    (ar_completed_at r) (ar_receipt_digest r) (ar_live_context r) (Some (ctx, kind_application_receipt)).

Definition application_receipt_with_digest (r : ApplicationReceipt) : result ApplicationReceipt :=
  let! d := digest (application_receipt_payload r) in
  application_receipt_check (application_receipt_set_digest d r).

Definition application_receipt_verify_integrity (r : ApplicationReceipt) : result bool :=
  if negb (bool_decide (ar_status r = "Applied")) || bool_decide (ar_receipt_digest r = "") then Ok false
  else let! d := digest (application_receipt_payload r) in Ok (bool_decide (ar_receipt_digest r = d)).

(** [ApplicationReceipt.validate_against]: each operation has its verified receipt, in
    order, and the receipt's reference.  Every error on the way answers [False]. *)
Fixpoint receipts_match (app : string) (index : nat) (operations : list operation)
    (receipts : list OperationReceipt) (refs : list receipt_ref) : result bool :=
  match operations, receipts, refs with
  | op :: operations', receipt :: receipts', x :: refs' =>
      let! intact := operation_receipt_verify_integrity receipt in
      if negb intact || negb (bool_decide (or_application_id receipt = app))
         || negb (or_operation_index receipt =? index) then Ok false
      else
        let! expected := operation_identity app index op in
        if bool_decide (or_operation_identity receipt = expected)
           && bool_decide (or_canonical_operation receipt = op)
           && bool_decide (or_operation_receipt_id receipt = ref_receipt_id x)
           && bool_decide (or_receipt_digest receipt = ref_receipt_digest x)
        then receipts_match app (S index) operations' receipts' refs' else Ok false
  | _, _, _ => Ok true
  end.

Definition validate_against (r : ApplicationReceipt) (expected_operations : list operation)
    (receipts : list OperationReceipt) : result bool :=
  match (let! operations := normalize_write_operations (VList (map operation_dict expected_operations)) in
         if negb (bool_decide (ar_operation_set_digest r = operation_set_digest (_values (ar_identity r))))
            || negb (length operations =? length receipts)
            || negb (length receipts =? length (ar_operation_receipt_refs r)) then Ok false
         else receipts_match (ar_application_id r) 0 operations receipts (ar_operation_receipt_refs r)) with
  | Ok b => Ok b
  | Err e => if is_key_type_value_error e then Ok false else Err e
  end.

Definition application_receipt_doc (r : ApplicationReceipt) : pyval :=
  jsonify (dict_set (application_receipt_payload r) "receipt_digest" (VStr (ar_receipt_digest r))).

Definition receipt_ref_of (v : pyval) : result receipt_ref :=
  match subscript v "operation_receipt_id", subscript v "operation_receipt_digest" with
  | Ok (VStr a), Ok (VStr b) => Ok (ReceiptRef a b)
  | _, _ => Err (ValueError "application_receipt_invalid")
  end.

Definition application_receipt_from_doc (doc : pyval) : result ApplicationReceipt :=
  let! _ := check_kwargs
    ["application_receipt_id"; "application_id"; "identity"; "operation_set_digest";
     "operation_receipt_refs"; "status"; "started_at"; "completed_at"]
    ["receipt_digest"; "_live_context"] doc in
  let! identity := identity_from_dict (get doc "identity") in
  let! refs := match as_sequence (get doc "operation_receipt_refs") with
               | Some l => map_r receipt_ref_of l
               | None => Err (ValueError "application_receipt_invalid") end in
  let! app := text_field "application_receipt_binding_invalid" (get doc "application_id") in
  let! ops := text_field "application_receipt_binding_invalid" (get doc "operation_set_digest") in
  let! rid := text_field "application_receipt_invalid" (get doc "application_receipt_id") in
  let! status := text_field "application_receipt_invalid" (get doc "status") in
  let! started := str_field (get doc "started_at") in
  let! completed := str_field (get doc "completed_at") in
  application_receipt_check
    (AppReceipt rid app identity ops refs status started completed
       (digest_field (get doc "receipt_digest")) None None).
End receipts.

(** ** Round trips *)
(** A provenance the constructor takes from a source *)
Definition provenance_wf (p : AuthorityProvenance) : Prop := ∃ v, provenance_from_source v = Ok p.

Lemma provenance_from_source_wf v p : provenance_from_source v = Ok p → provenance_wf p.
Proof. by exists v. Qed.

(** A provenance is read back from its dict. *)
Lemma provenance_read_back p : provenance_wf p → provenance_from_dict (provenance_to_dict p) = Ok p.
Proof.
  intros [v E]. unfold provenance_from_source in E. inv_ok. destruct (get v "credential_principal_identity"); try done.
  inv_ok. repeat match goal with E : text_field _ _ = Ok _ |- _ => apply text_field_Ok in E as [_ E] end.
  unfold provenance_from_dict, provenance_from_source; simpl.
  by rewrite !bool_decide_eq_false_2 by done.
Qed.

Lemma provenance_from_dict_wf v p : provenance_from_dict v = Ok p → provenance_wf p.
Proof. unfold provenance_from_dict. intros E. inv_ok. by eapply provenance_from_source_wf. Qed.

Lemma jsonify_provenance p : jsonify (provenance_to_dict p) = provenance_to_dict p.
Proof. reflexivity. Qed.

Lemma jsonify_operation op : jsonify (operation_dict op) = operation_dict op.
Proof. unfold operation_dict, dict_of, vstrs. simpl. by rewrite !jsonify_strs. Qed.

(** JSON values: what a decoded response holds.  The code copies them unchanged. *)
Fixpoint json_value (v : pyval) : bool :=
  match v with
  | VNone | VBool _ | VInt _ | VFloat _ | VStr _ => true
  | VList l => forallb json_value l
  | VDict d => forallb (λ p, is_str (fst p) && json_value (snd p)) d
  | _ => false
  end.

Lemma map_id_in {A} (f : A → A) l : (∀ x, x ∈ l → f x = x) → map f l = l.
Proof.
  induction l as [|x l IH]; intros Hf; simpl; [done|].
  rewrite (Hf x) by left. rewrite IH; [done|]. intros y Hy. apply Hf. by right.
Qed.

Lemma jsonify_json v : json_value v = true → jsonify v = v.
Proof.
  induction v as [| | | | | |l IH|l IH|l IH|d IH|] using pyval_nested_ind; try done; simpl; intros E;
    rewrite forallb_true in E; f_equal; apply map_id_in; intros x Hx; rewrite Forall_forall in IH.
  - by apply IH, E.
  - specialize (E x Hx). apply andb_true_iff in E as [_ E].
    destruct x as [k w]; simpl in *. f_equal. by apply (IH (k, w)).
Qed.

Lemma jsonify_out v : json_value v = true → jsonify (_out v) = _out v.
Proof.
  induction v as [| | | | | |l IH|l IH|l IH|d IH|] using pyval_nested_ind; try done; simpl; intros E;
    rewrite forallb_true in E; f_equal; apply map_id_in; intros x Hx; rewrite Forall_forall in IH.
  - apply jsonify_json. by apply E.
  - apply list_elem_of_In, in_map_iff in Hx as [[k w] [<- Hx]]. apply list_elem_of_In in Hx.
    specialize (E _ Hx). apply andb_true_iff in E as [_ E]. simpl in *. f_equal. by apply (IH (k, w)).
Qed.

Lemma map_map_id_in {A B} (g : B → A) (f : A → B) l : (∀ x, x ∈ l → g (f x) = x) → map g (map f l) = l.
Proof. intros Hx. rewrite map_map. by apply map_id_in. Qed.

(** [_out] undoes [_copy] on JSON values. *)
Lemma _out_copy v : json_value v = true → _out (_copy v) = v.
Proof.
  induction v as [| | | | | |l IH|l IH|l IH|d IH|] using pyval_nested_ind; try done; simpl; intros E;
    rewrite forallb_true in E; f_equal; apply map_map_id_in; intros x Hx; rewrite Forall_forall in IH.
  - by apply IH, E.
  - specialize (E x Hx). apply andb_true_iff in E as [_ E].
    destruct x as [k w]; simpl in *. f_equal. by apply (IH (k, w)).
Qed.

(** A remote result the constructor makes of a dict whose payload is a JSON value *)
Definition remote_result_wf `{PyLib} (r : remote_result) : Prop :=
  ∃ v, json_value (get v "result_payload") = true ∧ _remote_result v = Ok r.

Lemma _remote_result_wf `{PyLib} v r :
  json_value (get v "result_payload") = true → _remote_result v = Ok r → remote_result_wf r.
Proof. by exists v. Qed.

(** It holds the copy of the payload, and is read back from its dict. *)
Lemma remote_result_payload `{PyLib} r : remote_result_wf r → ∃ p, json_value p = true ∧ result_payload r = _copy p.
Proof. intros (v & Hj & E). unfold _remote_result in E. inv_ok. by eexists. Qed.
Lemma remote_result_read_back `{PyLib} r : remote_result_wf r → _remote_result (remote_result_dict r) = Ok r.
Proof.
  intros (v & Hj & E). unfold _remote_result in E. inv_ok. simpl.
  repeat match goal with E : text_field _ _ = Ok _ |- _ => apply text_field_Ok in E as [_ E] end.
  unfold remote_result_dict. simpl. rewrite _out_copy by done.
  unfold _remote_result. simpl. rewrite !bool_decide_eq_false_2 by done.
  match goal with E : negb (is_mapping _) = _ |- _ => rewrite E end.
  match goal with E : digest _ = _ |- _ => rewrite E end.
  match goal with E : negb (bool_decide _) = _ |- _ => rewrite E end. done.
Qed.

Lemma jsonify_remote_result `{PyLib} r :
  remote_result_wf r → jsonify (remote_result_dict r) = remote_result_dict r.
Proof.
  intros (p & Hj & Hp)%remote_result_payload. unfold remote_result_dict, dict_of. simpl. rewrite Hp, _out_copy by done.
  by rewrite jsonify_json.
Qed.

Definition operation_receipt_historical (r : OperationReceipt) : OperationReceipt :=
  OpReceipt (or_operation_receipt_id r) (or_application_id r) (or_identity r) (or_operation_identity r)
    (or_operation_index r) (or_canonical_operation r) (or_request_identity r) (or_authority_binding r)
    (or_remote_result r) (or_started_at r) (or_completed_at r) (or_receipt_digest r) None None.

Definition application_receipt_historical (r : ApplicationReceipt) : ApplicationReceipt :=
  AppReceipt (ar_application_receipt_id r) (ar_application_id r) (ar_identity r)
    (ar_operation_set_digest r) (ar_operation_receipt_refs r) (ar_status r) (ar_started_at r)
    (ar_completed_at r) (ar_receipt_digest r) None None.

#[local] Arguments text_field : simpl never.
#[local] Arguments str_field : simpl never.
#[local] Arguments _out : simpl never.
#[local] Arguments operation_dict : simpl never.
#[local] Arguments provenance_from_dict : simpl never.
#[local] Arguments identity_from_dict : simpl never.
Section rows.
Context `{PyLib}.

Definition operation_receipt_wf (r : OperationReceipt) : Prop :=
  operation_receipt_check r = Ok r ∧ identity_wf (or_identity r) ∧ provenance_wf (or_authority_binding r)
  ∧ operation_wf (or_canonical_operation r) ∧ remote_result_wf (or_remote_result r)
  ∧ or_application_id r ≠ "".

Lemma operation_receipt_check_facts r r' :
  operation_receipt_check r = Ok r' →
  r' = r ∧ or_application_id r = _application_id (or_identity r) ∧
  pv_application_id (or_authority_binding r) = _application_id (or_identity r) ∧
  operation_identity (or_application_id r) (or_operation_index r) (or_canonical_operation r)
    = Ok (or_operation_identity r) ∧
  request_identity (or_operation_identity r) = Ok (or_request_identity r) ∧
  operation_receipt_id_of (or_operation_identity r) = Ok (or_operation_receipt_id r) ∧
  or_started_at r ≠ "" ∧ or_completed_at r ≠ "".
Proof. unfold operation_receipt_check. intros E. inv_ok. bools. by subst. Qed.

Lemma operation_receipt_check_historical r :
  operation_receipt_check r = Ok r →
  operation_receipt_check (operation_receipt_historical r) = Ok (operation_receipt_historical r).
Proof.
  unfold operation_receipt_check. destruct r; simpl. intros E. inv_ok. simplify_eq.
  repeat match goal with E : ?b = false |- _ => rewrite E; clear E end. done.
Qed.

Definition operation_receipt_fields (r : OperationReceipt) : list (string * pyval) :=
  [("operation_receipt_id", VStr (or_operation_receipt_id r));
   ("application_id", VStr (or_application_id r));
   ("identity", identity_to_dict (_values (or_identity r)));
   ("operation_identity", VStr (or_operation_identity r));
   ("operation_index", VInt (Z.of_nat (or_operation_index r)));
   ("canonical_operation", operation_dict (or_canonical_operation r));
   ("request_identity", VStr (or_request_identity r));
   ("authority_binding", provenance_to_dict (or_authority_binding r));
   ("remote_result", remote_result_dict (or_remote_result r));
   ("started_at", VStr (or_started_at r));
   ("completed_at", VStr (or_completed_at r));
   ("receipt_digest", VStr (or_receipt_digest r))].

Lemma operation_receipt_doc_fields r :
  remote_result_wf (or_remote_result r) → operation_receipt_doc r = dict_of (operation_receipt_fields r).
Proof.
  intros Hr. apply jsonify_remote_result in Hr.
  change (operation_receipt_doc r) with (jsonify (dict_of (operation_receipt_fields r))).
  unfold operation_receipt_fields, dict_of at 1. cbn [jsonify map fst snd].
  rewrite Hr, jsonify_identity, jsonify_operation, jsonify_provenance. reflexivity.
Qed.

Lemma operation_receipt_id_of_nonempty i x : operation_receipt_id_of i = Ok x → x ≠ "".
Proof. unfold operation_receipt_id_of. intros E. by inv_ok. Qed.

Lemma _out_operation_dict op : _out (operation_dict op) = operation_dict op.
Proof. reflexivity. Qed.

Lemma operation_receipt_from_doc_doc r :
  operation_receipt_wf r →
  operation_receipt_from_doc (operation_receipt_doc r) = Ok (operation_receipt_historical r).
Proof.
  intros (Hc & Hi%identity_read_back & Hp%provenance_read_back & Hop & Hr & Happ).
  pose proof (operation_receipt_check_historical _ Hc) as Hh.
  destruct (operation_receipt_check_facts _ _ Hc) as (_ & _ & _ & Hid & Hreq & Hrid & Hsa & Hca).
  apply operation_identity_nonempty in Hid. apply request_identity_nonempty in Hreq.
  apply operation_receipt_id_of_nonempty in Hrid.
  rewrite operation_receipt_doc_fields by done. apply remote_result_read_back in Hr.
  unfold operation_receipt_from_doc. simpl. rewrite _out_operation_dict.
  rewrite Hi, normalize_operation_dict, Hp, Hr by done. simpl.
  destruct (Z.ltb_spec (Z.of_nat (or_operation_index r)) 0); [lia|]. rewrite Nat2Z.id.
  rewrite !text_field_str by done. apply Hh.
Qed.
End rows.
