(* ===== verification/ExecutionState.v ===== *)
(** * Execution state records (delivery_system/execution_state.py)

    The durable state of an application and of the attempt at each of its operations,
    their constructor checks, digests and documents, and the two transition relations
    the store enforces. *)
From S2P Require Import Prelude PyValue Strings Canonical WriteOperations Identity Receipts.

(** ** States *)
Inductive exec_state := Pending | Applying | PartiallyApplied | Failed | Blocked | OutcomeUnknown | Applied.
#[export] Instance exec_state_eq_dec : EqDecision exec_state.
Proof. solve_decision. Defined.

Definition state_name (s : exec_state) : string :=
  match s with
  | Pending => "Pending" | Applying => "Applying" | PartiallyApplied => "PartiallyApplied"
  | Failed => "Failed" | Blocked => "Blocked" | OutcomeUnknown => "OutcomeUnknown" | Applied => "Applied"
  end.

Definition APPLICATION_STATES : list exec_state :=
  [Pending; Applying; PartiallyApplied; Failed; Blocked; OutcomeUnknown; Applied].
Definition ATTEMPT_STATES : list exec_state :=
  [Pending; Applying; Failed; Blocked; OutcomeUnknown; Applied].
Definition APPLIER_ORCHESTRATION_POLICY : string := "delivery-system:applier-orchestration-v1".

(** The member of [states] named by a value; a list or dict is unhashable. *)
Definition state_of (states : list exec_state) (code : string) (v : pyval) : result exec_state :=
  if negb (hashable v) then Err (TypeError "unhashable type")
  else match v with
       | VStr s =>
           match find (λ st, bool_decide (state_name st = s)) states with
           | Some st => Ok st
           | None => Err (ValueError code)
           end
       | _ => Err (ValueError code)
       end.

Definition _ATTEMPT_TRANSITIONS (s : exec_state) : list exec_state :=
  match s with
  | Pending => [Applying; Failed; Blocked]
  | Applying => [Applied; Failed; Blocked; OutcomeUnknown]
  | _ => []
  end.
Definition _APPLICATION_TRANSITIONS (s : exec_state) : list exec_state :=
  match s with
  | Pending => [Applying; Failed; Blocked]
  | Applying => [PartiallyApplied; Failed; Blocked; OutcomeUnknown]
  | PartiallyApplied => [Applying; Failed; Blocked]
  | _ => []
  end.

(** ** Records *)
Record ApplicationExecutionState := ExecState {
  as_application_id : string;
  as_identity : LogicalApplicationIdentity;
  as_state : exec_state;
  as_next_operation_index : nat;
  as_owner_id : option string;
  as_current_attempt_id : option string;
  as_recovery_code : option string;
  as_operation_receipt_refs : list string;
  as_started_at : string;
  as_updated_at : string;
  as_completed_at : option string;
  as_continuity_anchor : CredentialContinuityAnchor;
  as_orchestration_policy : option string;
  as_state_digest : string;
  as_live_context : option nat;
  as_live_entry : live_entry_t;
}.

Record OperationAttemptState := AttemptState {
  at_application_id : string;
  at_operation_identity : string;
  at_operation_index : nat;
  at_operation : operation;
  at_authority_binding : AuthorityProvenance;
  at_driver_identity : string;
  at_remote_authority : string;
  at_request_identity : string;
  at_state : exec_state;
  at_started_at : string;
  at_updated_at : string;
  at_identity : LogicalApplicationIdentity;
  at_failure_code : option string;
  at_attempt_digest : string;
  at_live_context : option nat;
  at_live_entry : live_entry_t;
}.

(** ** [validate_attempt_transition] and [validate_application_transition] *)
Definition validate_attempt_transition (previous candidate : OperationAttemptState) : result unit :=
  raise "attempt_state_transition_invalid"
    when negb (bool_decide (at_state candidate ∈ _ATTEMPT_TRANSITIONS (at_state previous))) ;
  Ok tt.

Definition truthy_opt (o : option string) : bool :=
  match o with Some s => negb (bool_decide (s = "")) | None => false end.

Definition validate_application_transition (previous candidate : ApplicationExecutionState) : result unit :=
  let refs := as_operation_receipt_refs in
  let next := as_next_operation_index in
  raise "application_state_transition_invalid"
    when negb (bool_decide (as_state candidate ∈ _APPLICATION_TRANSITIONS (as_state previous))) ;
  raise "application_binding_conflict"
    when negb (bool_decide (as_application_id previous = as_application_id candidate)
               && bool_decide (_values (as_identity previous) = _values (as_identity candidate))
               && bool_decide (as_continuity_anchor previous = as_continuity_anchor candidate)
               && bool_decide (as_started_at previous = as_started_at candidate)) ;
  raise "application_orchestration_policy_invalid"
    when negb (bool_decide (as_orchestration_policy previous = as_orchestration_policy candidate)) ;
  raise "application_coordination_invalid"
    when bool_decide (is_Some (as_completed_at previous))
         && negb (bool_decide (as_completed_at candidate = as_completed_at previous)) ;
  raise "application_progress_invalid"
    when negb (next previous =? length (refs previous)) || negb (next candidate =? length (refs candidate)) ;
  let progress_delta := (Z.of_nat (next candidate) - Z.of_nat (next previous))%Z in
  raise "application_progress_invalid" when negb ((progress_delta =? 0)%Z || (progress_delta =? 1)%Z) ;
  raise "application_progress_invalid"
    when (negb (bool_decide (as_state previous = Applying))
          || negb (bool_decide (as_state candidate = PartiallyApplied)))
         && (negb (progress_delta =? 0)%Z || negb (bool_decide (refs candidate = refs previous))) ;
  raise "application_progress_invalid"
    when (progress_delta =? 0)%Z && negb (bool_decide (refs candidate = refs previous)) ;
  raise "application_progress_invalid"
    when (progress_delta =? 1)%Z
         && negb (bool_decide (take (length (refs candidate) - 1) (refs candidate) = refs previous)) ;
  if bool_decide (as_state previous = Pending ∨ as_state previous = PartiallyApplied) then
    raise "application_coordination_invalid"
      when bool_decide (is_Some (as_owner_id previous) ∨ is_Some (as_current_attempt_id previous)) ;
    raise "application_coordination_invalid"
      when bool_decide (as_state candidate = Applying)
           && (negb (truthy_opt (as_owner_id candidate)) || negb (truthy_opt (as_current_attempt_id candidate))) ;
    raise "application_coordination_invalid"
      when bool_decide (as_state candidate = Failed ∨ as_state candidate = Blocked)
           && bool_decide (is_Some (as_owner_id candidate) ∨ is_Some (as_current_attempt_id candidate)) ;
    Ok tt
  else if bool_decide (as_state previous = Applying) then
    if bool_decide (as_state candidate = PartiallyApplied) then
      raise "application_coordination_invalid"
        when negb (progress_delta =? 1)%Z
             || bool_decide (is_Some (as_owner_id candidate) ∨ is_Some (as_current_attempt_id candidate)) ;
      Ok tt
    else if bool_decide (as_state candidate ∈ [Failed; Blocked; OutcomeUnknown]) then
      raise "application_coordination_invalid"
        when negb (progress_delta =? 0)%Z || negb (bool_decide (refs candidate = refs previous))
             || negb (bool_decide (as_current_attempt_id candidate = as_current_attempt_id previous))
             || negb (bool_decide (as_owner_id candidate = None ∨ as_owner_id candidate = as_owner_id previous)) ;
      Ok tt
    else Ok tt
  else Ok tt.

(** ** Constructor checks, digests and documents *)
Section records.
Context `{PyLib}.

(** The checks of [ApplicationExecutionState.__post_init__] that the fields' types leave. *)
Definition execution_state_check (s : ApplicationExecutionState) : result ApplicationExecutionState :=
  raise "application_state_invalid"
    when negb (bool_decide (as_application_id s = _application_id (as_identity s))) ;
  raise "application_orchestration_policy_invalid"
    when negb (bool_decide (as_orchestration_policy s = None
                            ∨ as_orchestration_policy s = Some APPLIER_ORCHESTRATION_POLICY)) ;
  raise "application_state_invalid"
    when existsb (λ r, bool_decide (r = "")) (as_operation_receipt_refs s)
         || negb (no_dups (as_operation_receipt_refs s)) ;
  raise "application_state_invalid"
    when bool_decide (as_started_at s = "") || bool_decide (as_updated_at s = "") ;
  raise "application_coordination_invalid"
    when bool_decide (as_state s = Pending ∨ as_state s = PartiallyApplied)
         && bool_decide (is_Some (as_owner_id s) ∨ is_Some (as_current_attempt_id s)) ;
  Ok s.

Definition execution_state_payload (s : ApplicationExecutionState) : pyval :=
  dict_of ([("application_id", VStr (as_application_id s));
            ("identity", identity_to_dict (_values (as_identity s)));
            ("state", VStr (state_name (as_state s)));
            ("next_operation_index", VInt (Z.of_nat (as_next_operation_index s)));
            ("owner_id", opt_str (as_owner_id s));
            ("current_attempt_id", opt_str (as_current_attempt_id s));
            ("recovery_code", opt_str (as_recovery_code s));
            ("operation_receipt_refs", vstrs (as_operation_receipt_refs s));
            ("started_at", VStr (as_started_at s));
            ("updated_at", VStr (as_updated_at s));
            ("completed_at", opt_str (as_completed_at s));
            ("continuity_anchor", anchor_to_dict (as_continuity_anchor s))]
           ++ match as_orchestration_policy s with
              | Some p => [("orchestration_policy", VStr p)]
              | None => []
              end).

Definition execution_state_set_digest (d : string) (s : ApplicationExecutionState) : ApplicationExecutionState :=
  ExecState (as_application_id s) (as_identity s) (as_state s) (as_next_operation_index s) (as_owner_id s)
    (as_current_attempt_id s) (as_recovery_code s) (as_operation_receipt_refs s) (as_started_at s)
    (as_updated_at s) (as_completed_at s) (as_continuity_anchor s) (as_orchestration_policy s) d
    (as_live_context s) None.

Definition execution_state_register (ctx : nat) (s : ApplicationExecutionState) : ApplicationExecutionState :=
  ExecState (as_application_id s) (as_identity s) (as_state s) (as_next_operation_index s) (as_owner_id s)
    (as_current_attempt_id s) (as_recovery_code s) (as_operation_receipt_refs s) (as_started_at s)
    (as_updated_at s) (as_completed_at s) (as_continuity_anchor s) (as_orchestration_policy s)
    (as_state_digest s) (as_live_context s) (Some (ctx, kind_execution)).

Definition execution_state_with_digest (s : ApplicationExecutionState) : result ApplicationExecutionState :=
  let! d := digest (execution_state_payload s) in
  execution_state_check (execution_state_set_digest d s).

Definition execution_state_verify_integrity (s : ApplicationExecutionState) : result bool :=
  if bool_decide (as_state_digest s = "") then Ok false
  else let! d := digest (execution_state_payload s) in Ok (bool_decide (as_state_digest s = d)).

Definition execution_state_doc (s : ApplicationExecutionState) : pyval :=
  jsonify (dict_set (execution_state_payload s) "state_digest" (VStr (as_state_digest s))).

Definition receipt_ref_list (v : pyval) : result (list string) :=
  match as_sequence v with
  | Some l => match nonempty_strs l with
              | Some refs => Ok refs
              | None => Err (ValueError "application_state_invalid")
              end
  | None => Err (ValueError "application_state_invalid")
  end.

(** A falsy time is rejected; a truthy one of another type is unmodelled. *)
Definition time_field (code : string) (v : pyval) : result string :=
  raise code when negb (truthy v) ; str_field v.

Definition index_field (code : string) (v : pyval) : result nat :=
  match v with
  | VInt z => raise code when (z <? 0)%Z ; Ok (Z.to_nat z)
  | _ => Err (ValueError code)
  end.

(** [ApplicationExecutionState] called with the entries of a decoded row *)
Definition execution_state_from_doc (doc : pyval) : result ApplicationExecutionState :=
  let! _ := check_kwargs
    ["application_id"; "identity"; "state"; "next_operation_index"; "owner_id"; "current_attempt_id";
     "recovery_code"]
    ["operation_receipt_refs"; "started_at"; "updated_at"; "completed_at"; "continuity_anchor";
     "orchestration_policy"; "state_digest"; "_live_context"] doc in
  let! identity := identity_from_dict (get doc "identity") in
  let! anchor := anchor_from_dict (get doc "continuity_anchor") in
  let! app := text_field "application_state_invalid" (get doc "application_id") in
  raise "application_state_invalid" when negb (bool_decide (app = _application_id identity)) ;
  let! st := state_of APPLICATION_STATES "application_state_invalid" (get doc "state") in
  let! index := index_field "application_state_invalid" (get doc "next_operation_index") in
  let! policy := match get doc "orchestration_policy" with
                 | VNone => Ok None
                 | VStr p => raise "application_orchestration_policy_invalid"
                               when negb (bool_decide (p = APPLIER_ORCHESTRATION_POLICY)) ;
                             Ok (Some p)
                 | _ => Err (ValueError "application_orchestration_policy_invalid")
                 end in
  let! refs := receipt_ref_list (get_default doc "operation_receipt_refs" (VTuple [])) in
  let! started := time_field "application_state_invalid" (get_default doc "started_at" (VStr "")) in
  let! updated := time_field "application_state_invalid" (get_default doc "updated_at" (VStr "")) in
  let! owner := opt_str_field (get doc "owner_id") in
  let! attempt := opt_str_field (get doc "current_attempt_id") in
  let! recovery := opt_str_field (get doc "recovery_code") in
  let! completed := opt_str_field (get doc "completed_at") in
  execution_state_check
    (ExecState app identity st index owner attempt recovery refs started updated completed anchor policy
       (digest_field (get doc "state_digest")) None None).

(** The checks of [OperationAttemptState.__post_init__] that the fields' types leave. *)
Definition attempt_check (a : OperationAttemptState) : result OperationAttemptState :=
  raise "operation_attempt_binding_invalid"
    when negb (bool_decide (at_application_id a = _application_id (at_identity a))) ;
  let! expected := operation_identity (at_application_id a) (at_operation_index a) (at_operation a) in
  raise "operation_attempt_binding_invalid"
    when negb (bool_decide (at_operation_identity a = expected)) ;
  let! request := request_identity (at_operation_identity a) in
  raise "operation_attempt_binding_invalid"
    when negb (bool_decide (at_request_identity a = request)) ;
  raise "operation_attempt_binding_invalid"
    when negb (bool_decide (at_driver_identity a = pv_driver_identity (at_authority_binding a))
               && bool_decide (at_remote_authority a = pv_remote_authority (at_authority_binding a))) ;
  raise "operation_attempt_invalid"
    when negb (bool_decide (at_state a ∈ ATTEMPT_STATES))
         || bool_decide (at_started_at a = "") || bool_decide (at_updated_at a = "") ;
  Ok a.

Definition attempt_payload (a : OperationAttemptState) : pyval :=
  dict_of [("application_id", VStr (at_application_id a));
           ("operation_identity", VStr (at_operation_identity a));
           ("operation_index", VInt (Z.of_nat (at_operation_index a)));
           ("operation", operation_dict (at_operation a));
           ("authority_binding", provenance_to_dict (at_authority_binding a));
           ("driver_identity", VStr (at_driver_identity a));
           ("remote_authority", VStr (at_remote_authority a));
           ("request_identity", VStr (at_request_identity a));
           ("state", VStr (state_name (at_state a)));
           ("started_at", VStr (at_started_at a));
           ("updated_at", VStr (at_updated_at a));
           ("identity", identity_to_dict (_values (at_identity a)));
           ("failure_code", opt_str (at_failure_code a))].

Definition attempt_set_digest (d : string) (a : OperationAttemptState) : OperationAttemptState :=
  AttemptState (at_application_id a) (at_operation_identity a) (at_operation_index a) (at_operation a)
    (at_authority_binding a) (at_driver_identity a) (at_remote_authority a) (at_request_identity a)
    (at_state a) (at_started_at a) (at_updated_at a) (at_identity a) (at_failure_code a) d
    (at_live_context a) None.

Definition attempt_register (ctx : nat) (a : OperationAttemptState) : OperationAttemptState :=
  AttemptState (at_application_id a) (at_operation_identity a) (at_operation_index a) (at_operation a)
    (at_authority_binding a) (at_driver_identity a) (at_remote_authority a) (at_request_identity a)
    (at_state a) (at_started_at a) (at_updated_at a) (at_identity a) (at_failure_code a)
    (at_attempt_digest a) (at_live_context a) (Some (ctx, kind_attempt)).

Definition attempt_with_digest (a : OperationAttemptState) : result OperationAttemptState :=
  let! d := digest (attempt_payload a) in attempt_check (attempt_set_digest d a).

Definition attempt_verify_integrity (a : OperationAttemptState) : result bool :=
  if bool_decide (at_attempt_digest a = "") then Ok false
  else let! d := digest (attempt_payload a) in Ok (bool_decide (at_attempt_digest a = d)).

Definition attempt_doc (a : OperationAttemptState) : pyval :=
  jsonify (dict_set (attempt_payload a) "attempt_digest" (VStr (at_attempt_digest a))).

(** [OperationAttemptState] called with the entries of a decoded row *)
Definition attempt_from_doc (doc : pyval) : result OperationAttemptState :=
  let! _ := check_kwargs
    ["application_id"; "operation_identity"; "operation_index"; "operation"; "authority_binding";
     "driver_identity"; "remote_authority"; "request_identity"; "state"; "started_at"; "updated_at"; "identity"]
    ["failure_code"; "attempt_digest"; "_live_context"] doc in
  let! identity := identity_from_dict (get doc "identity") in
  let! op := normalize_operation (get doc "operation") in
  let! prov := provenance_from_dict (get doc "authority_binding") in
  let code := "operation_attempt_binding_invalid" in
  let! app := text_field code (get doc "application_id") in
  let! index := index_field code (get doc "operation_index") in
  let! op_id := text_field code (get doc "operation_identity") in
  let! req := text_field code (get doc "request_identity") in
  let! driver := text_field code (get doc "driver_identity") in
  let! remote := text_field code (get doc "remote_authority") in
  let! st := state_of ATTEMPT_STATES "operation_attempt_invalid" (get doc "state") in
  let! started := time_field "operation_attempt_invalid" (get doc "started_at") in
  let! updated := time_field "operation_attempt_invalid" (get doc "updated_at") in
  let! failure := opt_str_field (get doc "failure_code") in
  attempt_check
    (AttemptState app op_id index op prov driver remote req st started updated identity failure
       (digest_field (get doc "attempt_digest")) None None).
End records.

(** ** Rows and records
    A record written to its row and loaded again is the record without its live marks. *)
Definition execution_state_historical (s : ApplicationExecutionState) : ApplicationExecutionState :=
  ExecState (as_application_id s) (as_identity s) (as_state s) (as_next_operation_index s) (as_owner_id s)
    (as_current_attempt_id s) (as_recovery_code s) (as_operation_receipt_refs s) (as_started_at s)
    (as_updated_at s) (as_completed_at s) (as_continuity_anchor s) (as_orchestration_policy s)
    (as_state_digest s) None None.

Definition attempt_historical (a : OperationAttemptState) : OperationAttemptState :=
  AttemptState (at_application_id a) (at_operation_identity a) (at_operation_index a) (at_operation a)
    (at_authority_binding a) (at_driver_identity a) (at_remote_authority a) (at_request_identity a)
    (at_state a) (at_started_at a) (at_updated_at a) (at_identity a) (at_failure_code a)
    (at_attempt_digest a) None None.

Lemma state_of_name states code st :
  NoDup (map state_name states) → st ∈ states → state_of states code (VStr (state_name st)) = Ok st.
Proof.
  unfold state_of. simpl. induction states as [|s states IH]; intros Hd Hin; [by apply elem_of_nil in Hin|].
  simpl in *. apply NoDup_cons in Hd as [Hn Hd]. case_bool_decide as E.
  - assert (s = st) as -> by (destruct s, st; done). done.
  - apply elem_of_cons in Hin as [->|Hin]; [done|]. by apply IH.
Qed.

Lemma NoDup_state_names : NoDup (map state_name APPLICATION_STATES) ∧ NoDup (map state_name ATTEMPT_STATES).
Proof. split; by apply no_dups_true. Qed.

Lemma in_APPLICATION_STATES st : st ∈ APPLICATION_STATES.
Proof. apply (bool_decide_unpack _). by destruct st. Qed.

Lemma state_of_application_name code st : state_of APPLICATION_STATES code (VStr (state_name st)) = Ok st.
Proof. apply state_of_name; [apply NoDup_state_names|apply in_APPLICATION_STATES]. Qed.

Lemma state_of_attempt_name code st :
  st ∈ ATTEMPT_STATES → state_of ATTEMPT_STATES code (VStr (state_name st)) = Ok st.
Proof. apply state_of_name, NoDup_state_names. Qed.

Lemma time_field_str code s : s ≠ "" → time_field code (VStr s) = Ok s.
Proof. intros. unfold time_field. simpl. by rewrite bool_decide_eq_false_2. Qed.

Lemma opt_str_field_opt_str o : opt_str_field (opt_str o) = Ok o.
Proof. by destruct o. Qed.

Lemma index_field_nat code n : index_field code (VInt (Z.of_nat n)) = Ok n.
Proof. unfold index_field. destruct (Z.ltb_spec (Z.of_nat n) 0); [lia|]. by rewrite Nat2Z.id. Qed.

Lemma receipt_ref_list_vstrs l : Forall (λ s, s ≠ "") l → receipt_ref_list (vstrs l) = Ok l.
Proof. intros. unfold receipt_ref_list, vstrs. simpl. by rewrite nonempty_strs_map. Qed.

Lemma forall_nonempty l : existsb (λ r, bool_decide (r = "")) l = false ↔ Forall (λ s : string, s ≠ "") l.
Proof. rewrite existsb_false, Forall_forall. by setoid_rewrite bool_decide_eq_false. Qed.
#[export] Hint Rewrite forall_nonempty : bools.

#[local] Arguments text_field : simpl never.
#[local] Arguments index_field : simpl never.
#[local] Arguments time_field : simpl never.
#[local] Arguments state_of : simpl never.
#[local] Arguments receipt_ref_list : simpl never.
#[local] Arguments opt_str_field : simpl never.
Section rows.
Context `{PyLib}.

Definition execution_state_wf (s : ApplicationExecutionState) : Prop :=
  execution_state_check s = Ok s ∧ identity_wf (as_identity s) ∧ anchor_wf (as_continuity_anchor s)
  ∧ as_application_id s ≠ "".

Lemma execution_state_check_Ok s s' : execution_state_check s = Ok s' → s' = s.
Proof. unfold execution_state_check. intros E. by inv_ok. Qed.

Lemma execution_state_check_facts s s' :
  execution_state_check s = Ok s' →
  as_application_id s = _application_id (as_identity s) ∧
  (as_orchestration_policy s = None ∨ as_orchestration_policy s = Some APPLIER_ORCHESTRATION_POLICY) ∧
  Forall (λ r, r ≠ "") (as_operation_receipt_refs s) ∧ NoDup (as_operation_receipt_refs s) ∧
  as_started_at s ≠ "" ∧ as_updated_at s ≠ "" ∧
  (as_state s = Pending ∨ as_state s = PartiallyApplied →
   as_owner_id s = None ∧ as_current_attempt_id s = None).
Proof.
  unfold execution_state_check. intros E. inv_ok. bools. split_and!; try done.
  intros Hst. rewrite !eq_None_not_Some. destruct Heqb3 as [?|Hn]; [done|]. split; intros ?; apply Hn; auto.
Qed.

Lemma execution_state_check_historical s :
  execution_state_check s = Ok s →
  execution_state_check (execution_state_historical s) = Ok (execution_state_historical s).
Proof. unfold execution_state_check. destruct s; simpl. intros E. inv_ok. simplify_eq.
  repeat match goal with E : ?b = false |- _ => rewrite E; clear E end. done. Qed.

Lemma execution_state_doc_fields s :
  execution_state_doc s
  = dict_of ([("application_id", VStr (as_application_id s));
              ("identity", identity_to_dict (_values (as_identity s)));
              ("state", VStr (state_name (as_state s)));
              ("next_operation_index", VInt (Z.of_nat (as_next_operation_index s)));
              ("owner_id", opt_str (as_owner_id s));
              ("current_attempt_id", opt_str (as_current_attempt_id s));
              ("recovery_code", opt_str (as_recovery_code s));
              ("operation_receipt_refs", vstrs (as_operation_receipt_refs s));
              ("started_at", VStr (as_started_at s));
              ("updated_at", VStr (as_updated_at s));
              ("completed_at", opt_str (as_completed_at s));
              ("continuity_anchor", anchor_to_dict (as_continuity_anchor s))]
             ++ match as_orchestration_policy s with
                | Some p => [("orchestration_policy", VStr p)] | None => [] end
             ++ [("state_digest", VStr (as_state_digest s))]).
Proof.
  assert (∀ o, jsonify (opt_str o) = opt_str o) as Ho by (by intros []).
  unfold execution_state_doc, execution_state_payload, dict_set.
  destruct (as_orchestration_policy s); simpl; rewrite !Ho, jsonify_strs;
    unfold dict_of; simpl; repeat f_equal; by rewrite jsonify_strs.
Qed.

Lemma execution_state_from_doc_doc s :
  execution_state_wf s → execution_state_from_doc (execution_state_doc s) = Ok (execution_state_historical s).
Proof.
  intros (Hc & Hi%identity_read_back & Ha%anchor_read_back & Happ). rewrite execution_state_doc_fields.
  unfold execution_state_from_doc.
  assert (check_kwargs ["application_id"; "identity"; "state"; "next_operation_index"; "owner_id";
    "current_attempt_id"; "recovery_code"]
    ["operation_receipt_refs"; "started_at"; "updated_at"; "completed_at"; "continuity_anchor";
     "orchestration_policy"; "state_digest"; "_live_context"] (execution_state_doc s) = Ok tt) as Hk.
  { rewrite execution_state_doc_fields. by destruct (as_orchestration_policy s). }
  rewrite execution_state_doc_fields in Hk. rewrite Hk. clear Hk.
  destruct (execution_state_check_facts _ _ Hc) as (Heq & Hpol & Hne & _ & Hs & Hu & _).
  assert (APPLIER_ORCHESTRATION_POLICY ≠ "") by done.
  assert (∀ pol, pol = as_orchestration_policy s →
    execution_state_check (ExecState (as_application_id s) (as_identity s) (as_state s)
      (as_next_operation_index s) (as_owner_id s) (as_current_attempt_id s) (as_recovery_code s)
      (as_operation_receipt_refs s) (as_started_at s) (as_updated_at s) (as_completed_at s)
      (as_continuity_anchor s) pol (as_state_digest s) None None)
    = Ok (execution_state_historical s)) as Hcheck.
  { intros pol ->. by apply execution_state_check_historical. }
  destruct (as_orchestration_policy s) as [p|] eqn:Hp; simpl;
    rewrite Hi, Ha; simpl; rewrite text_field_str by done; simpl; rewrite bool_decide_eq_true_2 by done; simpl;
    rewrite state_of_application_name, index_field_nat, receipt_ref_list_vstrs, !time_field_str,
      !opt_str_field_opt_str by done; simpl.
  - destruct Hpol as [[=]|[= ->]]. rewrite bool_decide_eq_true_2 by done. by apply Hcheck.
  - by apply Hcheck.
Qed.
(** Attempts *)
Definition attempt_wf (a : OperationAttemptState) : Prop :=
  attempt_check a = Ok a ∧ identity_wf (at_identity a) ∧ provenance_wf (at_authority_binding a)
  ∧ operation_wf (at_operation a) ∧ at_application_id a ≠ ""
  ∧ at_driver_identity a ≠ "" ∧ at_remote_authority a ≠ "".

Lemma attempt_check_facts a a' :
  attempt_check a = Ok a' →
  a' = a ∧ at_application_id a = _application_id (at_identity a) ∧
  operation_identity (at_application_id a) (at_operation_index a) (at_operation a) = Ok (at_operation_identity a) ∧
  request_identity (at_operation_identity a) = Ok (at_request_identity a) ∧
  at_driver_identity a = pv_driver_identity (at_authority_binding a) ∧
  at_remote_authority a = pv_remote_authority (at_authority_binding a) ∧
  at_state a ∈ ATTEMPT_STATES ∧ at_started_at a ≠ "" ∧ at_updated_at a ≠ "".
Proof. unfold attempt_check. intros E. inv_ok. bools. by subst. Qed.

Lemma attempt_check_historical a :
  attempt_check a = Ok a → attempt_check (attempt_historical a) = Ok (attempt_historical a).
Proof.
  unfold attempt_check. destruct a; simpl. intros E. inv_ok. simplify_eq.
  repeat match goal with E : ?b = false |- _ => rewrite E; clear E end. done.
Qed.

Lemma attempt_doc_fields a :
  attempt_doc a
  = dict_of [("application_id", VStr (at_application_id a));
             ("operation_identity", VStr (at_operation_identity a));
             ("operation_index", VInt (Z.of_nat (at_operation_index a)));
             ("operation", operation_dict (at_operation a));
             ("authority_binding", provenance_to_dict (at_authority_binding a));
             ("driver_identity", VStr (at_driver_identity a));
             ("remote_authority", VStr (at_remote_authority a));
             ("request_identity", VStr (at_request_identity a));
             ("state", VStr (state_name (at_state a)));
             ("started_at", VStr (at_started_at a));
             ("updated_at", VStr (at_updated_at a));
             ("identity", identity_to_dict (_values (at_identity a)));
             ("failure_code", opt_str (at_failure_code a));
             ("attempt_digest", VStr (at_attempt_digest a))].
Proof.
  unfold attempt_doc, attempt_payload, dict_set. simpl.
  rewrite !jsonify_strs. unfold dict_of. simpl. repeat f_equal; by destruct (at_failure_code a).
Qed.

Lemma attempt_from_doc_doc a : attempt_wf a → attempt_from_doc (attempt_doc a) = Ok (attempt_historical a).
Proof.
  intros (Hc & Hi%identity_read_back & Hp%provenance_read_back & Hop & Happ & Hdr & Hra).
  pose proof (attempt_check_historical _ Hc) as Hh.
  destruct (attempt_check_facts _ _ Hc) as (_ & _ & Hid & Hreq & _ & _ & Hst & Hsa & Hua).
  apply operation_identity_nonempty in Hid. apply request_identity_nonempty in Hreq.
  rewrite attempt_doc_fields. unfold attempt_from_doc. simpl.
  rewrite Hi, normalize_operation_dict, Hp by done. simpl.
  rewrite !text_field_str, index_field_nat by done. simpl.
  rewrite state_of_attempt_name, !time_field_str, opt_str_field_opt_str by done. simpl. apply Hh.
Qed.
End rows.
