(* ===== verification/Clock.v ===== *)
(** * Execution timestamps (delivery_system/execution_store.py, [_execution_timestamp])

    The parser accepts a time when printing the parsed value gives the same text back,
    so exactly the texts [datetime.isoformat] prints for a UTC time with [Z] for the
    zero offset: [YYYY-MM-DDTHH:MM:SS], followed by [.ffffff] when the microseconds are
    not zero.  A time is its number of microseconds since 0001-01-01. *)
From S2P Require Import Prelude PyValue Strings.
From Stdlib Require Import Ascii.

(** [n] ASCII digits, as a number, and the rest *)
Fixpoint take_digits (n : nat) (acc : Z) (s : string) : option (Z * string) :=
  match n with
  | 0 => Some (acc, s)
  | S n =>
      match s with
      | String c s' =>
          if is_digit c then take_digits n (acc * 10 + (Z.of_N (N_of_ascii c) - 48))%Z s' else None
      | "" => None
      end
  end.

Definition is_leap (y : Z) : bool :=
  (y mod 4 =? 0)%Z && (negb (y mod 100 =? 0)%Z || (y mod 400 =? 0)%Z).

Definition days_in_month (y m : Z) : Z :=
  if (m =? 2)%Z then if is_leap y then 29 else 28
  else if existsb (Z.eqb m) [4; 6; 9; 11]%Z then 30 else 31.

(** Days before the first of January of [y], and before the first of month [m] of it *)
Definition days_before_year (y : Z) : Z :=
  let y := (y - 1)%Z in (y * 365 + y / 4 - y / 100 + y / 400)%Z.
Definition days_before_month (y m : Z) : Z :=
  foldr Z.add 0%Z (map (λ k, days_in_month y (Z.of_nat k)) (seq 1 (Z.to_nat m - 1))).

Definition in_bounds (lo x hi : Z) : bool := (lo <=? x)%Z && (x <=? hi)%Z.

Definition civil_micros (y mo d h mi s us : Z) : option Z :=
  if in_bounds 1 y 9999 && in_bounds 1 mo 12 && in_bounds 1 d (days_in_month y mo)
     && in_bounds 0 h 23 && in_bounds 0 mi 59 && in_bounds 0 s 59
  then Some (((((days_before_year y + days_before_month y mo + (d - 1)) * 24 + h) * 60 + mi) * 60 + s)
             * 1000000 + us)%Z
  else None.

(** A field of [n] digits after the literal [sep] *)
Definition field_after (sep : string) (n : nat) (s : string) : option (Z * string) :=
  match strip_prefix sep s with Some s' => take_digits n 0 s' | None => None end.

Definition parse_time (value : string) : option Z :=
  '(y, r) ← field_after "" 4 value;
  '(mo, r) ← field_after "-" 2 r;
  '(d, r) ← field_after "-" 2 r;
  '(h, r) ← field_after "T" 2 r;
  '(mi, r) ← field_after ":" 2 r;
  '(s, r) ← field_after ":" 2 r;
  if bool_decide (r = "Z") then civil_micros y mo d h mi s 0
  else '(us, r) ← field_after "." 6 r;
       if bool_decide (r = "Z") && negb (us =? 0)%Z then civil_micros y mo d h mi s us else None.

Definition _execution_timestamp (value : string) : result Z :=
  match parse_time value with Some t => Ok t | None => Err (ValueError "execution_clock_invalid") end.

(** [_require_clock_not_before(candidate, *prior)]: the candidate is parsed first, then
    each prior time until one is later. *)
Fixpoint no_prior_after (t : Z) (prior : list string) : result unit :=
  match prior with
  | [] => Ok tt
  | v :: rest =>
      let! p := _execution_timestamp v in
      raise "execution_clock_invalid" when (t <? p)%Z ; no_prior_after t rest
  end.

Definition _require_clock_not_before (candidate : string) (prior : list string) : result unit :=
  let! t := _execution_timestamp candidate in no_prior_after t prior.

(** [now] is a valid time not before any of [prior]. *)
Definition clock_not_before (now : string) (prior : list string) : Prop :=
  ∃ t, parse_time now = Some t ∧ Forall (λ v, ∃ p, parse_time v = Some p ∧ (p ≤ t)%Z) prior.

Lemma _execution_timestamp_Ok v t : _execution_timestamp v = Ok t ↔ parse_time v = Some t.
Proof. unfold _execution_timestamp. destruct (parse_time v); split; naive_solver. Qed.

Lemma no_prior_after_Ok t prior :
  no_prior_after t prior = Ok tt ↔ Forall (λ v, ∃ p, parse_time v = Some p ∧ (p ≤ t)%Z) prior.
Proof.
  induction prior as [|v rest IH]; simpl; [split; auto|]. rewrite Forall_cons, <- IH.
  unfold _execution_timestamp. destruct (parse_time v) as [p|]; [|naive_solver].
  destruct (Z.ltb_spec t p); split; [done| |by eauto|naive_solver].
  intros [(p' & [= <-] & ?) _]; lia.
Qed.

(** The guard of the store succeeds exactly when [now] is a valid time no earlier than
    every (valid) prior time. *)
Lemma _require_clock_not_before_Ok now prior :
  _require_clock_not_before now prior = Ok tt ↔ clock_not_before now prior.
Proof.
  unfold _require_clock_not_before, clock_not_before.
  destruct (_execution_timestamp now) as [t|e] eqn:E.
  - apply _execution_timestamp_Ok in E. rewrite no_prior_after_Ok. split; [eauto|].
    intros (t' & Ht & ?). by rewrite E in Ht; simplify_eq.
  - split; [done|]. intros (t & Ht & _). apply _execution_timestamp_Ok in Ht. congruence.
Qed.
