(* ===== verification/Decimal.v ===== *)
(** * Decimal texts

    The text [pretty] prints for a positive integer holds its digits, and nothing else, in
    the order that reads back as the integer. *)
From S2P Require Import Prelude PyValue Strings Clock.
From Stdlib Require Import Ascii.

Lemma pretty_N_char_digit x :
  (x < 10)%N → is_digit (pretty_N_char x) = true ∧ (Z.of_N (N_of_ascii (pretty_N_char x)) - 48)%Z = Z.of_N x
               ∧ ((0 < x)%N → in_range 49 57 (pretty_N_char x) = true).
Proof.
  intros Hx.
  assert (x = 0 ∨ x = 1 ∨ x = 2 ∨ x = 3 ∨ x = 4 ∨ x = 5 ∨ x = 6 ∨ x = 7 ∨ x = 8 ∨ x = 9)%N as D by lia.
  by repeat (destruct D as [->|D]); [..|subst x].
Qed.

Lemma take_digits_app t s acc n z r :
  take_digits (String.length t) acc (t +:+ s) = Some (z, s) →
  take_digits (String.length t + n) acc (t +:+ s) = r → take_digits n z s = r.
Proof.
  revert acc. induction t as [|c t IH]; intros acc; simpl; [by intros [= ->]|].
  destruct (is_digit c); [|done]. apply IH.
Qed.

Lemma all_bytes_app p s t : all_bytes p (s +:+ t) = all_bytes p s && all_bytes p t.
Proof. induction s as [|c s IH]; simpl; [done|]. by rewrite IH, andb_assoc. Qed.

Lemma str_app_cons c a b : String c a +:+ b = String c (a +:+ b).
Proof. reflexivity. Qed.
Lemma str_app_assoc (a b c : string) : (a +:+ b) +:+ c = a +:+ (b +:+ c).
Proof. induction a as [|x a IH]; [done|]. by rewrite !str_app_cons, IH. Qed.
Lemma str_length_app (a b : string) : String.length (a +:+ b) = String.length a + String.length b.
Proof. induction a as [|x a IH]; [done|]. rewrite str_app_cons. simpl. by rewrite IH. Qed.

(** The digits [pretty_N_go] puts before [s] *)
Record digits_of (x : N) (t : string) : Prop := {
  do_digits : all_bytes is_digit t = true;
  do_first : (0 < x)%N → ∀ s, first_char (in_range 49 57) (t +:+ s) = true;
  do_length : ∀ k, (x < 10 ^ k)%N → (N.of_nat (String.length t) ≤ k)%N;
  do_value : ∀ s acc, take_digits (String.length t) acc (t +:+ s)
                      = Some (acc * 10 ^ Z.of_nat (String.length t) + Z.of_N x, s)%Z;
}.

Lemma digits_snoc x t :
  (0 < x)%N → digits_of (x / 10) t → digits_of x (t +:+ String (pretty_N_char (x mod 10)) "").
Proof.
  intros Hx [D F L V].
  destruct (pretty_N_char_digit (x mod 10)) as (C1 & C2 & C3); [by apply N.mod_lt|].
  assert (x = 10 * (x / 10) + x mod 10)%N as Hdiv by (apply N.div_mod; lia).
  assert (String.length (t +:+ String (pretty_N_char (x mod 10)) "") = String.length t + 1) as Hlen by apply str_length_app.
  split.
  - rewrite all_bytes_app, D. simpl. by rewrite C1.
  - intros _ s. destruct (decide (0 < x / 10)%N) as [Hq|Hq].
    + rewrite str_app_assoc. by apply F.
    + destruct t as [|c t]; [simpl; apply C3; lia|]. exfalso.
      specialize (L 0%N). simpl in L. assert (x / 10 < 1)%N by lia. specialize (L ltac:(done)). lia.
  - intros k Hk. rewrite Hlen. destruct (decide (k = 0)%N) as [->|Hk0]; [simpl in Hk; lia|].
    assert (x / 10 < 10 ^ (N.pred k))%N as Hq.
    { apply N.Div0.div_lt_upper_bound. replace (10 * 10 ^ N.pred k)%N with (10 ^ k)%N; [done|].
      rewrite <- (N.pow_succ_r'). f_equal. lia. }
    specialize (L _ Hq). lia.
  - intros s acc. rewrite str_app_assoc, Hlen.
    change (String (pretty_N_char (x mod 10)) "" +:+ s) with (String (pretty_N_char (x mod 10)) s).
    set (rest := String (pretty_N_char (x mod 10)) s).
    pose proof (take_digits_app t rest acc 1 _ _ (V rest acc) eq_refl) as E. rewrite <- E.
    unfold rest. simpl. rewrite C1. f_equal. f_equal. rewrite C2. rewrite Nat2Z.inj_add, Z.pow_add_r by lia. nia.
Qed.

Lemma pretty_go_digits x s : ∃ t, pretty_N_go x s = t +:+ s ∧ digits_of x t.
Proof.
  revert s. induction (N.lt_wf_0 x) as [x _ IH]; intros s.
  destruct (decide (0 < x)%N) as [Hx|Hx].
  - rewrite pretty_N_go_step by done.
    destruct (IH (x / 10)%N ltac:(by apply N.div_lt) (String (pretty_N_char (x mod 10)) s)) as (t & -> & D).
    exists (t +:+ String (pretty_N_char (x mod 10)) ""). split; [by rewrite str_app_assoc|]. by apply digits_snoc.
  - assert (x = 0)%N as -> by lia. exists "". split; [done|]. split; simpl; try done; [intros; lia|].
    intros s' acc. f_equal. f_equal. lia.
Qed.

Lemma app_nil_str t : t +:+ "" = t.
Proof. induction t as [|c t IH]; [done|]. by rewrite str_app_cons, IH. Qed.

Lemma pretty_pos_digits z : (0 < z)%Z → digits_of (Z.to_N z) (pretty z).
Proof.
  intros Hz. destruct z as [|p|p]; try lia. change (pretty (Z.pos p)) with (pretty (N.pos p)). simpl.
  unfold pretty, pretty_N. case_decide; [lia|]. destruct (pretty_go_digits (N.pos p) "") as (t & -> & D).
  by rewrite app_nil_str.
Qed.
