(* ===== verification/JsonFacts.v ===== *)
(** * The decoder reads back what the canonical encoder prints

    [json_norm] describes the values [normalize] returns when no float occurs: sorted
    distinct string keys, lists only.  On them [json_loads] inverts [dumps], so the
    canonical text of a value determines its normalized value. *)
From S2P Require Import Prelude PyValue Strings PyOps Canonical Json Clock Decimal.
From Stdlib Require Import Ascii SpecFloat.

Fixpoint json_norm (v : pyval) : bool :=
  match v with
  | VNone | VBool _ | VInt _ | VStr _ => true
  | VList l => forallb json_norm l
  | VDict d =>
      match str_items d with
      | Some items => no_dups (map fst items) && bool_decide (sorted_strings (map fst items) = map fst items)
      | None => false
      end && forallb (λ p, json_norm (snd p)) d
  | _ => false
  end.

(** No float occurs in the value (keys are not looked at: they must be strings). *)
Fixpoint float_free (v : pyval) : bool :=
  match v with
  | VFloat _ => false
  | VList l | VTuple l | VSet l => forallb float_free l
  | VDict d => forallb (λ p, float_free (snd p)) d
  | _ => true
  end.

(** What may follow a value in an encoded document *)
Definition delimited (s : string) : bool :=
  match s with "" => true | String c _ => bool_decide (c ∈ [","; "]"; "}"]%char) end.

Lemma delimited_cases s :
  delimited s = true → s = "" ∨ ∃ c r, s = String c r ∧ (c = ","%char ∨ c = "]"%char ∨ c = "}"%char).
Proof.
  destruct s as [|c r]; [by left|]. intros Hc%bool_decide_eq_true. right. exists c, r. split; [done|].
  by rewrite !elem_of_cons, elem_of_nil in Hc; naive_solver.
Qed.

(** ** Strings *)
Lemma scan_escape_char c x :
  scan_string (escape_char c +:+ x) = (let! (t, rest) := scan_string x in Ok (String c t, rest)).
Proof. destruct c as [[] [] [] [] [] [] [] []]; reflexivity. Qed.

Lemma scan_escape s rest : scan_string (escape s +:+ String QUOTE rest) = Ok (s, rest).
Proof.
  induction s as [|c s IH]; [done|].
  change (escape (String c s)) with (escape_char c +:+ escape s).
  by rewrite str_app_assoc, scan_escape_char, IH.
Qed.

(** ** Numbers *)
Lemma int_digits_app t s acc z :
  all_bytes is_digit t = true → take_digits (String.length t) acc (t +:+ s) = Some (z, s) →
  first_char is_digit s = false → int_digits acc (t +:+ s) = (z, s).
Proof.
  revert acc; induction t as [|c t IH]; intros acc Hd Ht Hs.
  - injection Ht as ->. destruct s as [|c s]; [done|]. simpl in *. by rewrite Hs.
  - rewrite str_app_cons in *. simpl in *. apply andb_true_iff in Hd as [Hc Hd]. rewrite Hc in *. by apply IH.
Qed.

Lemma delimited_number s : delimited s = true → first_char is_digit s = false ∧ float_follows s = false.
Proof. by intros [->|(c & r & -> & [->|[->| ->]])]%delimited_cases. Qed.

Lemma nonzero_digit c :
  in_range 49 57 c = true → c ∈ ["1"; "2"; "3"; "4"; "5"; "6"; "7"; "8"; "9"]%char.
Proof. destruct c as [[] [] [] [] [] [] [] []]; try discriminate; intros _; by apply (bool_decide_unpack _). Qed.

Lemma scan_positive neg x t s :
  (0 < x)%N → digits_of x t → delimited s = true →
  scan_digits neg (t +:+ s) = Ok (VInt (if neg then - Z.of_N x else Z.of_N x)%Z, s).
Proof.
  intros Hx [D F _ V] [Hs1 Hs2]%delimited_number. specialize (F Hx s). specialize (V s 0%Z).
  apply int_digits_app in V; [|done..]. destruct (t +:+ s) as [|c r] eqn:E; [done|]. simpl in F.
  unfold scan_digits. apply nonzero_digit in F.
  assert (is_char "0" c = false ∧ is_digit c = true) as [-> ->].
  { rewrite !elem_of_cons, elem_of_nil in F. by destruct_or?; subst. }
  rewrite Z.mul_0_l, Z.add_0_l in V. rewrite V. unfold number_end. simpl. by rewrite Hs2.
Qed.

Lemma scan_literal_digit c r :
  in_range 49 57 c = true →
  scan_literal (String c r) = scan_digits false (String c r) ∧
  scan_literal (String "-" (String c r)) = scan_digits true (String c r).
Proof.
  intros F%nonzero_digit. rewrite !elem_of_cons, elem_of_nil in F.
  by destruct_or?; subst.
Qed.

Lemma pretty_neg p : pretty (Z.neg p) = "-" +:+ pretty (Z.pos p).
Proof. reflexivity. Qed.

Lemma scan_pretty z s : delimited s = true → scan_literal (pretty z +:+ s) = Ok (VInt z, s).
Proof.
  intros Hs. destruct z as [|p|p].
  - destruct (delimited_number s Hs) as [_ Hf].
    change (pretty 0%Z +:+ s) with (String "0" s). cbv -[number_end]. unfold number_end. simpl. by rewrite Hf.
  - pose proof (pretty_pos_digits (Z.pos p) ltac:(lia)) as D.
    pose proof (scan_positive false (N.pos p) _ s ltac:(lia) D Hs) as E. destruct D as [_ F _ _]. specialize (F ltac:(lia) s).
    destruct (pretty (Z.pos p) +:+ s) as [|c r]; [done|]. simpl in F. by rewrite (proj1 (scan_literal_digit c r F)), E.
  - rewrite pretty_neg, str_app_assoc. pose proof (pretty_pos_digits (Z.pos p) ltac:(lia)) as D.
    pose proof (scan_positive true (N.pos p) _ s ltac:(lia) D Hs) as E. destruct D as [_ F _ _]. specialize (F ltac:(lia) s).
    destruct (pretty (Z.pos p) +:+ s) as [|c r]; [done|]. simpl in F.
    change ("-" +:+ String c r) with (String "-" (String c r)). by rewrite (proj2 (scan_literal_digit c r F)), E.
Qed.

(** ** Keys in order *)
Lemma key_sorted_map {A} (key : A → string) l : key_sorted key l ↔ key_sorted id (map key l).
Proof.
  unfold key_sorted. induction l as [|x l IH]; simpl; [by split; constructor|]. split; inversion 1; subst; constructor.
  - by apply IH.
  - destruct l; simpl in *; constructor; by match goal with H : HdRel _ _ _ |- _ => inversion H end.
  - by apply IH.
  - destruct l; simpl in *; constructor; by match goal with H : HdRel _ _ _ |- _ => inversion H end.
Qed.

Lemma sorted_keys {A} (l : list (string * A)) : sorted_strings (map fst l) = map fst l → sort_by fst l = l.
Proof.
  intros E. apply sort_by_id, key_sorted_map. rewrite <- E. apply sort_by_sorted.
Qed.

Lemma str_items_dict {A} (l : list (string * A)) : str_items (map (λ '(k, v), (VStr k, v)) l) = Some l.
Proof. induction l as [|[k v] l IH]; simpl; [done|]. by rewrite IH. Qed.

Lemma str_items_Some {A} (d : list (pyval * A)) l : str_items d = Some l → d = map (λ '(k, v), (VStr k, v)) l.
Proof.
  revert l; induction d as [|[k v] d IH]; simpl; intros l E; [by injection E as <-|].
  destruct k; try discriminate. destruct (str_items d) as [l'|] eqn:Ed; [|discriminate].
  injection E as <-. simpl. by rewrite (IH l' eq_refl).
Qed.

(** ** Texts *)
Lemma Forall2_impl_elem {A B} (P Q : A → B → Prop) l k :
  Forall2 P l k → (∀ x y, x ∈ l → P x y → Q x y) → Forall2 Q l k.
Proof. induction 1; intros Hi; constructor; [apply Hi; [by left|done]|]. apply IHForall2. intros. apply Hi; [by right|done]. Qed.
Lemma Forall2_right {A B} (P : A → B → Prop) (Q : B → Prop) l k :
  Forall2 P l k → (∀ x y, P x y → Q y) → Forall Q k.
Proof. induction 1; intros Hi; constructor; eauto. Qed.
Lemma ch_app c y : ch c +:+ y = String c y.
Proof. reflexivity. Qed.
Definition value_text (t : string) : Prop := 
  first_char (λ c, negb (json_space c || is_char "]" c || is_char "}" c || is_char "239"%char c)) t = true.

Lemma skip_ws_char c s : json_space c = false → skip_ws (String c s) = String c s.
Proof. simpl. by intros ->. Qed.

Lemma value_text_app t s : value_text t → value_text (t +:+ s).
Proof. by destruct t. Qed.
Lemma skip_ws_text t : value_text t → skip_ws t = t.
Proof. destruct t as [|c t]; [done|]. unfold value_text. simpl. by destruct (json_space c). Qed.
Lemma value_text_close t c : value_text t → c ∈ ["]"; "}"]%char → first_char (is_char c) t = false.
Proof.
  destruct t as [|b t]; [done|]. unfold value_text. simpl. rewrite negb_true_iff, !orb_false_iff.
  intros [[[_ H1] H2] _] Hc. rewrite !elem_of_cons, elem_of_nil in Hc. unfold is_char in *. bools. naive_solver.
Qed.

Lemma pretty_value_text (z : Z) : value_text (pretty z).
Proof.
  destruct z as [|p|p]; [done| |done].
  pose proof (pretty_pos_digits (Z.pos p) ltac:(lia)) as [_ F _ _]. specialize (F ltac:(lia) "").
  rewrite app_nil_str in F. destruct (pretty (Z.pos p)) as [|c r]; [done|]. simpl in F. apply nonzero_digit in F.
  unfold value_text. simpl. rewrite !elem_of_cons, elem_of_nil in F. by destruct_or?; subst.
Qed.

Lemma join_cons sep x y l : join sep (x :: y :: l) = x +:+ sep +:+ join sep (y :: l).
Proof. reflexivity. Qed.

Lemma join_text sep t l : value_text t → value_text (join sep (t :: l)).
Proof. destruct l; [done|]. rewrite join_cons. apply value_text_app. Qed.

Lemma join_length ts s : Forall value_text ts → length ts ≤ String.length (join "," ts +:+ s).
Proof.
  intros H. induction H as [|t ts Ht _ IH]; [simpl; lia|].
  destruct t as [|c t]; [done|]. destruct ts as [|u ts].
  - simpl join. rewrite str_length_app. simpl. lia.
  - rewrite join_cons, !str_length_app. rewrite str_length_app in IH. simpl in *. lia.
Qed.

Section roundtrip.
Context `{PyLib}.
Variable hook : list (string * pyval) → result pyval.
Hypothesis hook_dict : ∀ l, NoDup (map fst l) → hook l = Ok (dict_of l).

(** [f] reads the value [v] off the front of its text [t]. *)
Definition reads (f : string → result (pyval * string)) (v : pyval) (t : string) : Prop :=
  value_text t ∧ ∀ rest, delimited rest = true → f (t +:+ rest) = Ok (v, rest).

Lemma scan_items_text f vs ts k rest :
  Forall2 (reads f) vs ts → vs ≠ [] → length ts ≤ k →
  scan_items f k (join "," ts +:+ String "]" rest) = Ok (vs, rest).
Proof.
  intros F. revert k. induction F as [|v t vs ts [Ht Hf] F IH]; intros k Hne Hk; [done|].
  simpl in Hk. destruct k as [|k]; [lia|]. destruct F as [|v' t' vs ts Hr F].
  - simpl. by rewrite Hf.
  - rewrite join_cons, !str_app_assoc. cbn [scan_items]. rewrite Hf by done.
    change ("," +:+ ?x) with (String "," x). rewrite skip_ws_char by done. cbn [is_char].
    change (is_char "," ",") with true. cbn match.
    rewrite skip_ws_text by (apply value_text_app, join_text, Hr).
    rewrite IH; [done|done|simpl in *; lia].
Qed.

Lemma scan_members_text f l ts k rest :
  Forall2 (λ p t, ∃ u, t = json_string (fst p) +:+ ":" +:+ u ∧ reads f (snd p) u) l ts → l ≠ [] → length ts ≤ k →
  scan_members f k (join "," ts +:+ String "}" rest) = Ok (l, rest).
Proof.
  intros F. revert k. induction F as [|[key v] t l ts (u & -> & Hu & Hf) F IH]; intros k Hne Hk; [done|].
  simpl in Hk. destruct k as [|k]; [lia|]. simpl fst in *. simpl snd in *.
  assert (∀ x, scan_members f (S k) ((json_string key +:+ ":" +:+ u) +:+ x) =
    let! (v, r) := f (u +:+ x) in
    match skip_ws r with
    | String c r => if is_char "," c then let! (l, r) := scan_members f k (skip_ws r) in Ok ((key, v) :: l, r)
                    else if is_char "}" c then Ok ([(key, v)], r) else Err JSONDecodeError
    | "" => Err JSONDecodeError
    end) as E.
  { intros x. unfold json_string. rewrite !str_app_assoc, !ch_app.
    cbn [scan_members]. change (is_char QUOTE QUOTE) with true. cbn match. rewrite scan_escape.
    change (":" +:+ ?y) with (String ":" y). rewrite skip_ws_char by done.
    change (is_char ":" ":") with true. cbn match. by rewrite skip_ws_text by by apply value_text_app. }
  destruct F as [|[key' v'] t' l ts Hr F].
  - simpl join. by rewrite E, Hf.
  - rewrite join_cons, str_app_assoc, E, str_app_assoc, Hf by done.
    change ("," +:+ ?x) with (String "," x). rewrite skip_ws_char by done.
    change (is_char "," ",") with true. cbn match.
    rewrite skip_ws_text.
    + rewrite IH; [done|done|simpl in *; lia].
    + destruct Hr as (u' & -> & _). unfold json_string. apply value_text_app, join_text. by simpl.
Qed.

Lemma depth_list l x : x ∈ l → depth x < depth (VList l).
Proof.
  simpl. induction l as [|y l IH]; [by intros ?%elem_of_nil|].
  intros [->|Hx]%elem_of_cons; [lia|]. specialize (IH Hx). lia.
Qed.
Lemma depth_dict d p : p ∈ d → depth (snd p) < depth (VDict d).
Proof.
  simpl. induction d as [|q d IH]; [by intros ?%elem_of_nil|].
  intros [->|Hp]%elem_of_cons; [lia|]. specialize (IH Hp). lia.
Qed.

(** How [scan_value] starts *)
Lemma scan_value_str n s : scan_value hook (S n) (String QUOTE s) = let! (t, r) := scan_string s in Ok (VStr t, r).
Proof. reflexivity. Qed.
Lemma scan_value_list n s : value_text s →
  scan_value hook (S n) (String "[" s) =
  let! (l, r) := scan_items (scan_value hook n) (String.length s) s in Ok (VList l, r).
Proof.
  intros Hs. cbn [scan_value]. change (is_char QUOTE "[") with false. change (is_char "[" "[") with true. cbn match.
  rewrite skip_ws_text by done. by rewrite value_text_close by (done || set_solver).
Qed.
Lemma scan_value_dict n s : value_text s →
  scan_value hook (S n) (String "{" s) =
  let! (l, r) := scan_members (scan_value hook n) (String.length s) s in let! d := hook l in Ok (d, r).
Proof.
  intros Hs. cbn [scan_value]. change (is_char QUOTE "{") with false.
  change (is_char "[" "{") with false. change (is_char "{" "{") with true. cbn match.
  rewrite skip_ws_text by done. by rewrite value_text_close by (done || set_solver).
Qed.
Lemma scan_value_number n (z : Z) s : scan_value hook (S n) (pretty z +:+ s) = scan_literal (pretty z +:+ s).
Proof.
  assert (first_char (λ c, is_char QUOTE c || is_char "[" c || is_char "{" c) (pretty z +:+ s) = false) as E.
  { destruct z as [|p|p]; [done| |done].
    pose proof (pretty_pos_digits (Z.pos p) ltac:(lia)) as [_ F _ _]. specialize (F ltac:(lia) s).
    destruct (pretty (Z.pos p) +:+ s) as [|c r]; [done|]. simpl in *. apply nonzero_digit in F.
    rewrite !elem_of_cons, elem_of_nil in F. by destruct_or?; subst. }
  destruct (pretty z +:+ s) as [|c r] eqn:Es.
  - pose proof (pretty_value_text z) as V. destruct (pretty z); [done|discriminate].
  - simpl in *. by destruct (is_char QUOTE c), (is_char "[" c), (is_char "{" c).
Qed.

Lemma scan_value_text v : json_norm v = true →
  ∀ t n, dumps v = Ok t → depth v < n → reads (scan_value hook n) v t.
Proof.
  induction v as [| | | | | |l IH|l _|l _|d IH|] using pyval_nested_ind; try discriminate; intros Hn t [|n] Ht Hd;
    try lia; simpl in Ht.
  - injection Ht as <-. by split.
  - injection Ht as <-. by destruct b.
  - injection Ht as <-. split; [apply pretty_value_text|]. intros rest Hr. by rewrite scan_value_number, scan_pretty.
  - injection Ht as <-. split; [done|]. intros rest _. unfold json_string. rewrite !str_app_assoc, !ch_app.
    by rewrite scan_value_str, scan_escape.
  - destruct (map_r dumps l) as [ts|] eqn:E; [|discriminate]. injection Ht as <-. apply map_r_Ok_Forall2 in E.
    simpl in Hn. rewrite forallb_true in Hn. split; [done|]. intros rest Hr.
    destruct l as [|x l]; [by inversion E; subst|].
    assert (Forall2 (reads (scan_value hook n)) (x :: l) ts) as F.
    { eapply Forall2_impl_elem; [exact E|]. intros y u Hy Hu. rewrite Forall_forall in IH.
      apply IH; [done|by apply Hn|done|]. apply depth_list in Hy. lia. }
    rewrite !str_app_assoc. change ("[" +:+ ?y) with (String "[" y). change ("]" +:+ rest) with (String "]" rest).
    rewrite scan_value_list.
    + rewrite (scan_items_text _ _ _ _ _ F); [done|done|]. apply join_length. eapply Forall2_right; [exact F|]. by intros ? ? [? _].
    + inversion F as [|? ? ? ? [Hx _]]; subst. by apply value_text_app, join_text.
  - destruct (map_r _ d) as [parts|] eqn:E; [|discriminate]. apply map_r_Ok_Forall2 in E.
    destruct (str_items parts) as [items|] eqn:Ei; [|discriminate]. injection Ht as <-.
    apply str_items_Some in Ei as ->. simpl in Hn. apply andb_true_iff in Hn as [Hk Hv].
    destruct (str_items d) as [kvs|] eqn:Ed; [|discriminate]. apply str_items_Some in Ed as ->.
    apply andb_true_iff in Hk as [Hnd Hsort]. bools.
    assert (Forall2 (λ (p : string * pyval) (q : string * string), fst q = fst p ∧ reads (scan_value hook n) (snd p) (snd q))
              kvs items) as F.
    { apply Forall2_fmap_1 in E. eapply Forall2_impl_elem; [exact E|]. intros [k x] [k' u] Hx Hu. simpl in *.
      destruct (dumps x) as [u'|] eqn:Eu; [|discriminate]. injection Hu as <- <-. split; [done|].
      assert ((VStr k, x) ∈ map (λ '(k, v), (VStr k, v)) kvs) as Hin by by apply (list_elem_of_fmap_2 (λ '(k, v), (VStr k, v)) kvs (k, x)).
      rewrite Forall_forall in IH. rewrite forallb_true in Hv. apply (IH (VStr k, x)); [done|by apply (Hv (VStr k, x))|done|].
      pose proof (depth_dict _ _ Hin). simpl in *. lia. }
    split; [done|]. intros rest Hr.
    assert (map fst items = map fst kvs) as Hkeys by (clear -F; induction F as [|? ? ? ? [? _]]; simpl; congruence).
    rewrite (sorted_keys items) by congruence. rewrite !str_app_assoc.
    change ("{" +:+ ?y) with (String "{" y). change ("}" +:+ rest) with (String "}" rest).
    destruct kvs as [|kv kvs]; [inversion F; subst; simpl; by rewrite hook_dict by constructor|].
    set (ts := map (λ p, json_string (fst p) +:+ ":" +:+ snd p) items).
    assert (Forall2 (λ (p : string * pyval) t, ∃ u, t = json_string (fst p) +:+ ":" +:+ u ∧ reads (scan_value hook n) (snd p) u)
              (kv :: kvs) ts) as F'.
    { unfold ts. apply Forall2_fmap_r. eapply Forall2_impl; [exact F|]. intros p q [Eq Hq]. exists (snd q). by rewrite <- Eq. }
    rewrite scan_value_dict.
    + rewrite (scan_members_text _ _ _ _ _ F'); [by rewrite hook_dict|done|].
      apply join_length. eapply Forall2_right; [exact F'|]. by intros ? ? (u & -> & _).
    + inversion F' as [|? ? ? ? (u & -> & _)]; subst. by apply value_text_app, join_text.
Qed.

(** The text is longer than the value is deep. *)
Lemma join_element ts t : t ∈ ts → String.length t ≤ String.length (join "," ts).
Proof.
  induction ts as [|u ts IH]; [by intros ?%elem_of_nil|]. intros Ht. destruct ts as [|w ts].
  - apply elem_of_cons in Ht as [->|Ht%elem_of_nil]; done.
  - rewrite join_cons, !str_length_app. apply elem_of_cons in Ht as [->|Ht]; [lia|]. specialize (IH Ht). lia.
Qed.

Lemma depth_list_le l k : (∀ x, x ∈ l → depth x ≤ k) → depth (VList l) ≤ S k.
Proof.
  intros Hl. simpl. apply le_n_S. induction l as [|x l IH]; [lia|].
  apply Nat.max_lub; [apply Hl; by left|apply IH; intros; apply Hl; by right].
Qed.
Lemma depth_dict_le d k : (∀ p, p ∈ d → depth (snd p) ≤ k) → depth (VDict d) ≤ S k.
Proof.
  intros Hl. simpl. apply le_n_S. induction d as [|x l IH]; [lia|].
  apply Nat.max_lub; [apply Hl; by left|apply IH; intros; apply Hl; by right].
Qed.

Lemma str_items_elem {A} (d : list (pyval * A)) items p :
  str_items d = Some items → p ∈ d → ∃ k, fst p = VStr k ∧ (k, snd p) ∈ items.
Proof.
  intros ->%str_items_Some ([k v] & -> & Hp)%list_elem_of_fmap. by exists k.
Qed.

Lemma depth_text v : ∀ t, dumps v = Ok t → depth v ≤ String.length t.
Proof.
  induction v as [| | | | | |l IH|l IH|l _|d IH|] using pyval_nested_ind; intros t Ht; try (simpl; lia); try discriminate.
  1,2: simpl in Ht; destruct (map_r dumps l) as [ts|] eqn:E; [|discriminate]; injection Ht as <-;
    apply map_r_Ok_Forall2 in E; rewrite !str_length_app; simpl String.length;
    transitivity (S (String.length (join "," ts))); [|lia]; apply depth_list_le; intros x Hx;
    destruct (Forall2_elem_l _ _ _ _ E Hx) as (u & Hu & Eu); rewrite Forall_forall in IH;
    rewrite (IH x Hx u Eu); by apply join_element.
  simpl in Ht. destruct (map_r _ d) as [parts|] eqn:E; [|discriminate]. apply map_r_Ok_Forall2 in E.
  destruct (str_items parts) as [items|] eqn:Ei; [|discriminate]. injection Ht as <-.
  rewrite !str_length_app. simpl String.length. transitivity (S (String.length (join "," (map (λ p, json_string (fst p) +:+ ":" +:+ snd p) (sort_by fst items))))); [|lia].
  apply depth_dict_le. intros p Hp. destruct (Forall2_elem_l _ _ _ _ E Hp) as (q & Hq & Eq).
  destruct (dumps (snd p)) as [u|] eqn:Eu; [|discriminate]. injection Eq as <-.
  destruct (str_items_elem _ _ _ Ei Hq) as (k & _ & Hk). rewrite Forall_forall in IH.
  rewrite (proj2 (IH p Hp) u Eu). etransitivity; [|apply join_element, list_elem_of_fmap_2; rewrite sort_by_perm; exact Hk].
  simpl. rewrite !str_length_app. lia.
Qed.

Lemma json_loads_dumps v t : json_norm v = true → dumps v = Ok t → json_loads hook t = Ok v.
Proof.
  intros Hn Ht. destruct (scan_value_text v Hn t (S (String.length t)) Ht) as [Hv Hr].
  { pose proof (depth_text v t Ht). lia. }
  unfold json_loads. rewrite (skip_ws_text t Hv). specialize (Hr "" eq_refl). rewrite app_nil_str in Hr.
  rewrite Hr. change (skip_ws "") with "". rewrite bool_decide_eq_true_2 by done.
  destruct (startswith BOM t) eqn:EB; [exfalso|done].
  unfold startswith in EB. apply bool_decide_eq_true in EB as [r [= ->]%strip_prefix_Some]. discriminate.
Qed.
End roundtrip.

(** ** The two hooks of the program *)
Lemma dict_set_fresh d k v :
  k ∉ map fst d → pairs_set (map (λ '(k, v), (VStr k, v)) d) k v = map (λ '(k, v), (VStr k, v)) (d ++ [(k, v)]).
Proof.
  induction d as [|[k' v'] d IH]; simpl; [done|]. intros [Hk Hd]%not_elem_of_cons.
  rewrite bool_decide_eq_false_2 by done. by rewrite IH.
Qed.

Lemma last_wins_distinct l : NoDup (map fst l) → last_wins l = Ok (dict_of l).
Proof.
  intros Hd. unfold last_wins, dict_of. do 2 f_equal.
  assert (∀ m, NoDup (map fst (m ++ l)) →
    foldl (λ d p, pairs_set d (fst p) (snd p)) (map (λ '(k, v), (VStr k, v)) m) l = map (λ '(k, v), (VStr k, v)) (m ++ l)) as G.
  { clear. induction l as [|[k v] l IH]; intros m Hd; simpl; [by rewrite app_nil_r|].
    rewrite dict_set_fresh.
    - rewrite IH; by rewrite <- app_assoc.
    - rewrite map_app in Hd. apply NoDup_app in Hd as (_ & Hd & _). intros Hin. apply (Hd _ Hin). by left. }
  apply (G []). done.
Qed.

(** ** The values [normalize] returns *)
Section normal.
Context `{PyLib}.

Lemma normalized_keys_nodup d seen ks :
  NoDup (map fst seen) → normalized_keys d seen = Ok ks → NoDup (map fst ks).
Proof.
  revert seen; induction d as [|[k v] d IH]; simpl; intros seen Hs E; [by injection E as <-|].
  destruct k; try discriminate. inv_ok. bools. eapply IH; [|exact E].
  rewrite map_app. apply NoDup_app. split_and!; [done| |apply NoDup_singleton].
  intros x Hx Hx'. apply list_elem_of_singleton in Hx' as ->. done.
Qed.
Lemma normalized_keys_values d seen ks p :
  normalized_keys d seen = Ok ks → p ∈ ks → p ∈ seen ∨ ∃ q, q ∈ d ∧ snd q = snd p.
Proof.
  revert seen; induction d as [|[k v] d IH]; simpl; intros seen E Hp; [injection E as <-; by left|].
  destruct k; try discriminate. inv_ok. destruct (IH _ E Hp) as [[Hs|Hs]%elem_of_app|(q & Hq & Eq)].
  - by left.
  - apply list_elem_of_singleton in Hs as ->. right. eexists. split; [by left|done].
  - right. exists q. split; [by right|done].
Qed.

Lemma normalize_fuel_norm n : ∀ v w, normalize_fuel n v = Ok w → float_free v = true → json_norm w = true.
Proof.
  induction n as [|n IH]; [done|]. intros v w E Hf.
  assert (∀ l ys, map_r (normalize_fuel n) l = Ok ys → forallb float_free l = true → forallb json_norm ys = true) as Hl.
  { intros l ys El Hfl. apply map_r_Ok_Forall2 in El. rewrite forallb_true in *. intros y Hy.
    apply list_elem_of_lookup in Hy as [i Hi]. destruct (Forall2_lookup_r _ _ _ _ _ El Hi) as (x & Hx & Ex).
    eapply IH; [exact Ex|]. by eapply Hfl, list_elem_of_lookup_2. }
  destruct v as [| | | | | |l|l|l|d|]; simpl in E, Hf; try discriminate; try (by injection E as <-);
    try (inv_ok; simpl; by eapply Hl).
  - inv_ok. simpl. match goal with E : sorted_by_key _ = Ok _ |- _ => unfold sorted_by_key in E end. inv_ok.
    match goal with E : map_r (λ v, _) ?a = Ok ?b |- _ =>
      assert (map snd b = a) as Hab by (apply map_r_Ok_Forall2 in E; clear -E; induction E; [done|simpl; inv_ok; simpl; congruence]) end.
    match goal with E : map_r (normalize_fuel n) l = Ok _ |- _ => pose proof (Hl _ _ E Hf) as Hj end.
    rewrite forallb_true in *. intros x ([k y] & -> & Hy)%list_elem_of_fmap. rewrite sort_by_perm in Hy.
    apply Hj. rewrite <- Hab. by apply (list_elem_of_fmap_2 snd _ (k, y)).
  - inv_ok. match goal with E : normalized_keys _ _ = Ok ?k |- _ => rename k into ks, E into Ek end.
    match goal with E : map_r _ _ = Ok ?k |- _ => rename k into items, E into Ei end. apply map_r_Ok_Forall2 in Ei.
    assert (map fst items = map fst (sort_by fst ks)) as Hk.
    { clear -Ei. induction Ei as [|x y l l' Hxy _ IHE]; simpl; [done|]. inv_ok. simpl. by rewrite IHE. }
    simpl. rewrite str_items_dict, Hk. apply andb_true_iff. split; [apply andb_true_iff; split|].
    + apply no_dups_true. rewrite sort_by_perm. eapply normalized_keys_nodup; [|done]. constructor.
    + apply bool_decide_eq_true. unfold sorted_strings. apply sort_by_id, (proj1 (key_sorted_map fst _)), sort_by_sorted.
    + rewrite forallb_true in Hf. apply forallb_true. intros p ([k x] & -> & Hp)%list_elem_of_fmap. simpl.
      apply list_elem_of_lookup in Hp as [i Hi]. destruct (Forall2_lookup_r _ _ _ _ _ Ei Hi) as (q & Hq & Eq). inv_ok.
      eapply IH; [eassumption|]. apply list_elem_of_lookup_2 in Hq. rewrite sort_by_perm in Hq.
      destruct (normalized_keys_values _ _ _ _ Ek Hq) as [?%elem_of_nil|(r & Hr & <-)]; [done|]. by apply Hf.
Qed.

(** ** The canonical text of a value *)
Lemma canonical_payload_norm v t :
  canonical_payload v = Ok t → float_free v = true →
  ∃ n, normalize v = Ok n ∧ json_norm n = true ∧ dumps n = Ok t.
Proof.
  unfold canonical_payload, normalize. intros E Hf. inv_ok. eexists. split_and!; [done| |done].
  by eapply normalize_fuel_norm.
Qed.

(** C38: The canonical text of a value (without floats) determines it up to normalization:
    [json.loads] of the text returns exactly the normalized value, so two values with one
    text, hence those hashed under one text, have the same normal form. *)
Theorem canonical_payload_decodes v t :
  canonical_payload v = Ok t → float_free v = true →
  json_loads last_wins t = normalize v ∧
  ∀ w, float_free w = true → canonical_payload w = Ok t → normalize w = normalize v.
Proof.
  intros E Hf. destruct (canonical_payload_norm v t E Hf) as (n & Hn & Hj & Ht).
  pose proof (json_loads_dumps last_wins last_wins_distinct n t Hj Ht) as L. rewrite Hn. split; [done|].
  intros w Hw Ew. destruct (canonical_payload_norm w t Ew Hw) as (m & Hm & Hj' & Ht').
  pose proof (json_loads_dumps last_wins last_wins_distinct m t Hj' Ht'). congruence.
Qed.
End normal.
