(* ===== verification/SafeText.v ===== *)
(** * Checked texts (delivery_system/authority_binding.py, delivery_system/attestation.py)

    The field checks the credential modules share: trimmed text without control characters,
    the regular expressions of identifiers, digests and capabilities, and the detached proof,
    64 bytes in unpadded URL-safe base64.  Both modules declare their own copies; what
    differs is the error code, which the callers add. *)
From S2P Require Import Prelude PyValue Strings Canonical Json.
From Stdlib Require Import Ascii.

(** Split a hypothesis about a guarded computation, through the pairs it binds too. *)
Ltac inv_checks :=
  repeat (progress inv_ok || match goal with H : (match ?p with (_, _) => _ end) = Ok _ |- _ => destruct p eqn:? end).

(** ** [unicodedata.normalize("NFC", value).strip()] without control characters *)
Definition is_control (c : ascii) : bool := in_range 0 31 c || in_range 127 127 c.
Definition no_control (s : string) : bool := all_bytes (λ c, negb (is_control c)) s.

(** A lone surrogate, in its three-byte form *)
Fixpoint has_surrogate (s : string) : bool :=
  match s with
  | String a s' => (is_char "237"%char a && first_char (in_range 160 191) s') || has_surrogate s'
  | "" => false
  end.

(** ** The patterns, matched with [fullmatch] *)
Definition slug_char (c : ascii) : bool := is_alnum c || is_char "-"%char c.
Definition sized (lo hi : nat) (s : string) : bool := (lo <=? String.length s) && (String.length s <=? hi).

(** [[a-z0-9][a-z0-9-]{0,127}] *)
Definition ID_RE (s : string) : bool := first_char is_alnum s && all_bytes slug_char s && sized 1 128 s.

(** [prefix[0-9a-f]{64}] *)
Definition hex64 (s : string) : bool := (String.length s =? 64) && all_bytes is_lower_hex s.
Definition prefixed_hex (prefix s : string) : bool :=
  match strip_prefix prefix s with Some r => hex64 r | None => false end.
Definition DIGEST_RE : string → bool := prefixed_hex "sha256:".

(** [[a-z][a-z0-9-]{0,31}:[a-z][a-z0-9-]{0,63}] *)
Definition CAPABILITY_RE (s : string) : bool :=
  match split_on ":"%char s with
  | [a; b] => first_char is_lower a && all_bytes slug_char a && sized 1 32 a
              && first_char is_lower b && all_bytes slug_char b && sized 1 64 b
  | _ => false
  end.

Section text.
Context `{PyLib}.

Definition clean (value : string) : string := py_strip (nfc value).

(** [_safe_text] of attestation.py; [_text] of authority_binding.py also refuses surrogates *)
Definition safe_text (code : string) (value : pyval) : result string :=
  match value with
  | VStr s =>
      let normalized := clean s in
      raise code when bool_decide (normalized = "") || negb (no_control normalized) ; Ok normalized
  | _ => Err (ValueError code)
  end.

Definition strict_text (code : string) (value : pyval) : result string :=
  let! s := safe_text code value in raise code when has_surrogate s ; Ok s.

(** A text that must match a pattern *)
Definition pattern_text (check : string → pyval → result string) (re : string → bool) (code : string) (value : pyval)
  : result string :=
  let! s := check code value in raise code when negb (re s) ; Ok s.
End text.

(** ** URL-safe base64 without padding *)
Definition base64_char (c : ascii) : bool := is_alnum c || in_range 65 90 c || is_char "-"%char c || is_char "_"%char c.

Definition base64_value (c : ascii) : N :=
  let n := N_of_ascii c in
  if in_range 65 90 c then (n - 65)%N
  else if in_range 97 122 c then (n - 71)%N
  else if in_range 48 57 c then (n + 4)%N
  else if is_char "-"%char c then 62%N else 63%N.

Definition base64_digit (n : N) : ascii :=
  if (n <? 26)%N then ascii_of_N (n + 65)
  else if (n <? 52)%N then ascii_of_N (n + 71)
  else if (n <? 62)%N then ascii_of_N (n - 4)
  else if (n =? 62)%N then "-"%char else "_"%char.

(** [urlsafe_b64decode(s + padding)] of a text of base64 characters: four of them make three
    bytes, a final group of two makes one byte, and of three two bytes. *)
Fixpoint b64_decode (s : string) : option (list N) :=
  match s with
  | "" => Some []
  | String a (String b r) =>
      let x := base64_value a in
      let y := base64_value b in
      let first := (x * 4 + y / 16)%N in
      match r with
      | "" => Some [first]
      | String c r =>
          let z := base64_value c in
          let second := ((y mod 16) * 16 + z / 4)%N in
          match r with
          | "" => Some [first; second]
          | String d r =>
              match b64_decode r with
              | Some l => Some (first :: second :: ((z mod 4) * 64 + base64_value d)%N :: l)
              | None => None
              end
          end
      end
  | String _ "" => None
  end.

(** [urlsafe_b64encode(data).decode("ascii").rstrip("=")] *)
Fixpoint b64_encode (l : list N) : string :=
  match l with
  | [] => ""
  | [x] => String (base64_digit (x / 4)) (ch (base64_digit ((x mod 4) * 16)))
  | [x; y] => String (base64_digit (x / 4)) (String (base64_digit ((x mod 4) * 16 + y / 16))
                (ch (base64_digit ((y mod 16) * 4))))
  | x :: y :: z :: l =>
      String (base64_digit (x / 4)) (String (base64_digit ((x mod 4) * 16 + y / 16))
        (String (base64_digit ((y mod 16) * 4 + z / 64)) (String (base64_digit (z mod 64)) (b64_encode l))))
  end.

Definition ED25519_PROOF_SIZE : nat := 64.
Definition ED25519_PROOF_TEXT_LENGTH : nat := 86.

(** [_proof]: the length, the characters, then the decoded size and the canonical encoding *)
Definition proof_text (code : string) (value : pyval) : result string :=
  match value with
  | VStr s =>
      raise code when negb ((py_len s =? ED25519_PROOF_TEXT_LENGTH) && all_bytes base64_char s) ;
      match b64_decode s with
      | Some d => raise code when negb ((length d =? ED25519_PROOF_SIZE) && bool_decide (b64_encode d = s)) ; Ok s
      | None => Err (ValueError code)
      end
  | _ => Err (ValueError code)
  end.
