(* ===== verification/AuthorityBinding.v ===== *)
(** * Authority bindings (delivery_system/authority_binding.py)

    The canonical payload that assigns the operations of an application to one issuance of
    an authority, its identity, and the signed envelope.  The signer and the verifier are
    the two protocols the module declares: records of operations. *)
From S2P Require Import Prelude PyValue Strings PyOps Canonical Json SafeText.

Definition AUTHORITY_BINDING_DOMAIN : string := "delivery-system:authority-binding:v1".
Definition AUTHORITY_BINDING_PAYLOAD_VERSION : Z := 1.
Definition AUTHORITY_BINDING_SIGNATURE_ALGORITHM : string := "ed25519".

Definition APPLICATION_ID_RE : string → bool := prefixed_hex "application-".
Definition BINDING_ID_RE : string → bool := prefixed_hex "binding-".
Definition ARTIFACT_ID_RE : string → bool := prefixed_hex "artifact-".
Definition OPERATION_ID_RE : string → bool := prefixed_hex "operation-".

Definition invalid (field : string) : string := field +:+ "_invalid".
Definition duplicate (field : string) : string := field +:+ "_duplicate".

(** ** [AuthorityBindingRecord]
    The domain and the version are constants of a record that was built, and are not
    fields here. *)
Record AuthorityBindingRecord := MkBinding {
  ab_workspace_identity : string;
  ab_application_id : string;
  ab_credential_binding_id : string;
  ab_required_capabilities : list string;
  ab_authority_issued_at : string;
  ab_attestation_artifact_id : string;
  ab_attestation_artifact_digest : string;
  ab_authorized_operation_identities : list string;
}.
#[export] Instance binding_record_eq_dec : EqDecision AuthorityBindingRecord.
Proof. solve_decision. Defined.

(** ** [SignedAuthorityBinding]: the algorithm of a built envelope is the constant *)
Record SignedAuthorityBinding := MkSigned {
  sb_payload : AuthorityBindingRecord;
  sb_issuer_id : string;
  sb_key_id : string;
  sb_proof : string;
}.
#[export] Instance signed_binding_eq_dec : EqDecision SignedAuthorityBinding.
Proof. solve_decision. Defined.

Definition BINDING_RECORD_FIELDS : list string :=
  ["domain"; "payload_version"; "workspace_identity"; "application_id"; "credential_binding_id";
   "required_capabilities"; "authority_issued_at"; "attestation_artifact_id";
   "attestation_artifact_digest"; "authorized_operation_identities"].
Definition SIGNED_BINDING_FIELDS : list string := ["payload"; "issuer_id"; "key_id"; "signature_algorithm"; "proof"].

Definition binding_record_to_dict (b : AuthorityBindingRecord) : pyval :=
  dict_of [("domain", VStr AUTHORITY_BINDING_DOMAIN); ("payload_version", VInt AUTHORITY_BINDING_PAYLOAD_VERSION);
           ("workspace_identity", VStr (ab_workspace_identity b)); ("application_id", VStr (ab_application_id b));
           ("credential_binding_id", VStr (ab_credential_binding_id b));
           ("required_capabilities", vstrs (ab_required_capabilities b));
           ("authority_issued_at", VStr (ab_authority_issued_at b));
           ("attestation_artifact_id", VStr (ab_attestation_artifact_id b));
           ("attestation_artifact_digest", VStr (ab_attestation_artifact_digest b));
           ("authorized_operation_identities", vstrs (ab_authorized_operation_identities b))].

Definition signed_binding_to_dict (s : SignedAuthorityBinding) : pyval :=
  dict_of [("payload", binding_record_to_dict (sb_payload s)); ("issuer_id", VStr (sb_issuer_id s));
           ("key_id", VStr (sb_key_id s)); ("signature_algorithm", VStr AUTHORITY_BINDING_SIGNATURE_ALGORITHM);
           ("proof", VStr (sb_proof s))].

Section binding.
Context `{PyLib}.

(** [_text], [_id], [_exact_id], [_digest] *)
Definition binding_text (field : string) (v : pyval) : result string := strict_text (invalid field) v.
Definition binding_identifier (field : string) (v : pyval) : result string := pattern_text strict_text ID_RE (invalid field) v.
Definition exact_id (field : string) (re : string → bool) (v : pyval) : result string :=
  pattern_text strict_text re (invalid field) v.
Definition binding_digest (field : string) (v : pyval) : result string :=
  pattern_text strict_text DIGEST_RE (invalid field) v.

(** [_timestamp] *)
Definition binding_timestamp (v : pyval) : result string :=
  let! normalized := binding_text "authority_issued_at" v in
  match fromisoformat (replace_Z normalized) with
  | Some (t, Some offset) => Ok (py_replace "+00:00" "Z" (utc_isoformat (t - offset)))
  | _ => Err (ValueError "authority_issued_at_invalid")
  end.

(** [_canonical_collection] with a pattern *)
Definition canonical_collection (field : string) (re : string → bool) (v : pyval) : result (list string) :=
  match as_sequence v with
  | None | Some [] => Err (ValueError (invalid field))
  | Some l =>
      let! normalized := map_r (binding_text field) l in
      raise (invalid field) when existsb (λ s, negb (re s)) normalized ;
      raise (duplicate field) when negb (no_dups normalized) ;
      Ok (sorted_strings normalized)
  end.

(** [AuthorityBindingRecord(...)]: [__post_init__] over the constructor's arguments *)
Definition make_binding_record (domain payload_version workspace_identity application_id credential_binding_id
    required_capabilities authority_issued_at attestation_artifact_id attestation_artifact_digest
    authorized_operation_identities : pyval) : result AuthorityBindingRecord :=
  raise "authority_binding_domain_invalid" when negb (bool_decide (domain = VStr AUTHORITY_BINDING_DOMAIN)) ;
  raise "authority_binding_version_unsupported"
    when negb (bool_decide (payload_version = VInt AUTHORITY_BINDING_PAYLOAD_VERSION)) ;
  let! workspace := binding_text "workspace_identity" workspace_identity in
  let! application := exact_id "application_id" APPLICATION_ID_RE application_id in
  let! binding := exact_id "credential_binding_id" BINDING_ID_RE credential_binding_id in
  let! required := canonical_collection "required_capabilities" CAPABILITY_RE required_capabilities in
  let! issued_at := binding_timestamp authority_issued_at in
  let! artifact := exact_id "attestation_artifact_id" ARTIFACT_ID_RE attestation_artifact_id in
  let! artifact_digest := binding_digest "attestation_artifact_digest" attestation_artifact_digest in
  let! operations :=
    canonical_collection "authorized_operation_identities" OPERATION_ID_RE authorized_operation_identities in
  Ok (MkBinding workspace application binding required issued_at artifact artifact_digest operations).

(** [AuthorityBindingRecord.create] *)
Definition binding_record_create (workspace_identity application_id credential_binding_id required_capabilities
    authority_issued_at attestation_artifact_id attestation_artifact_digest authorized_operation_identities : pyval)
  : result AuthorityBindingRecord :=
  make_binding_record (VStr AUTHORITY_BINDING_DOMAIN) (VInt AUTHORITY_BINDING_PAYLOAD_VERSION) workspace_identity
    application_id credential_binding_id required_capabilities authority_issued_at attestation_artifact_id
    attestation_artifact_digest authorized_operation_identities.

(** [AuthorityBindingRecord.from_dict] *)
Definition binding_record_from_dict (v : pyval) : result AuthorityBindingRecord :=
  raise "authority_binding_payload_invalid" when negb (keys_are BINDING_RECORD_FIELDS v) ;
  make_binding_record (get v "domain") (get v "payload_version") (get v "workspace_identity") (get v "application_id")
    (get v "credential_binding_id") (get v "required_capabilities") (get v "authority_issued_at")
    (get v "attestation_artifact_id") (get v "attestation_artifact_digest") (get v "authorized_operation_identities").

(** [canonical_bytes] and [authority_issuance_id] *)
Definition canonical_bytes (b : AuthorityBindingRecord) : result string := canonical_payload (binding_record_to_dict b).

Definition authority_issuance_id (b : AuthorityBindingRecord) : result string :=
  let! payload := canonical_bytes b in Ok ("authority-issuance-" +:+ sha256_hex payload).

(** [SignedAuthorityBinding(...)] *)
Definition make_signed (payload : AuthorityBindingRecord) (issuer_id key_id signature_algorithm proof : pyval)
  : result SignedAuthorityBinding :=
  let! issuer := binding_identifier "issuer_id" issuer_id in
  let! key := binding_identifier "key_id" key_id in
  raise "authority_binding_algorithm_unsupported"
    when negb (py_eq signature_algorithm (VStr AUTHORITY_BINDING_SIGNATURE_ALGORITHM)) ;
  let! proof := proof_text "authority_binding_proof_invalid" proof in
  Ok (MkSigned payload issuer key proof).

(** [SignedAuthorityBinding.from_dict] *)
Definition signed_from_dict (v : pyval) : result SignedAuthorityBinding :=
  raise "authority_binding_envelope_invalid" when negb (keys_are SIGNED_BINDING_FIELDS v) ;
  let! payload := binding_record_from_dict (get v "payload") in
  make_signed payload (get v "issuer_id") (get v "key_id") (get v "signature_algorithm") (get v "proof").

(** ** [AuthorityBindingSigner] and [AuthorityBindingProofVerifier] *)
Record AuthorityBindingSigner := MkSigner {
  signer_issuer_id : pyval;
  signer_key_id : pyval;
  signer_algorithm : pyval;
  sign_authority_binding : string → result pyval;
}.

(** [create_signed_authority_binding] *)
Definition create_signed_authority_binding (payload : AuthorityBindingRecord) (signer : AuthorityBindingSigner)
  : result SignedAuthorityBinding :=
  let! issuer := binding_identifier "issuer_id" (signer_issuer_id signer) in
  let! key := binding_identifier "key_id" (signer_key_id signer) in
  raise "authority_binding_algorithm_unsupported"
    when negb (py_eq (signer_algorithm signer) (VStr AUTHORITY_BINDING_SIGNATURE_ALGORITHM)) ;
  let! bytes := canonical_bytes payload in
  let! proof := sign_authority_binding signer bytes in
  make_signed payload (VStr issuer) (VStr key) (signer_algorithm signer) proof.

(** [Ed25519AuthorityBindingProofVerifier.verify]: [delegate] is the Ed25519 verification of
    the bytes and the proof under an issuer, a key and an algorithm.  Every exception answers
    [False]; what the model does not cover stays apart. *)
Definition binding_verify (delegate : string → string → string → string → string → result bool)
    (value : SignedAuthorityBinding + pyval) : result bool :=
  let answer :=
    let! envelope := match value with inl e => Ok e | inr v => signed_from_dict v end in
    let! bytes := canonical_bytes (sb_payload envelope) in
    delegate bytes (sb_proof envelope) (sb_issuer_id envelope) (sb_key_id envelope)
      AUTHORITY_BINDING_SIGNATURE_ALGORITHM in
  match answer with
  | Ok b => Ok b
  | Err (Unmodelled what) => Err (Unmodelled what)
  | Err _ => Ok false
  end.
End binding.

(** ** Records that were built are well formed *)
Section facts.
Context `{PyLib}.

Lemma safe_text_Ok code v s : safe_text code v = Ok s → s ≠ "" ∧ no_control s = true.
Proof. destruct v; simpl; try discriminate. intros E. inv_ok. bools. done. Qed.
Lemma strict_text_Ok code v s : strict_text code v = Ok s → s ≠ "" ∧ no_control s = true ∧ has_surrogate s = false.
Proof. unfold strict_text. intros E. inv_ok. by edestruct safe_text_Ok. Qed.
Lemma pattern_text_Ok check re code v s : pattern_text check re code v = Ok s → check code v = Ok s ∧ re s = true.
Proof. unfold pattern_text. intros E. inv_ok. by bools. Qed.

Lemma prefixed_hex_nonempty p s : prefixed_hex p s = true → s ≠ "".
Proof. intros E ->. destruct p; [|done]. done. Qed.

Lemma canonical_collection_Ok field re v l :
  canonical_collection field re v = Ok l →
  l ≠ [] ∧ NoDup l ∧ sorted_strings l = l ∧ Forall (λ s, re s = true ∧ s ≠ "") l.
Proof.
  unfold canonical_collection. destruct (as_sequence v) as [[|x xs]|]; try discriminate. intros E. inv_ok. bools.
  match goal with E : map_r _ _ = Ok ?k |- _ => rename k into m, E into Em end.
  rewrite existsb_false in *. unfold sorted_strings. split_and!.
  - intros E. apply map_r_length in Em. apply (f_equal length) in E. rewrite (Permutation_length (sort_by_perm id m)) in E.
    simpl in *. lia.
  - by rewrite sort_by_perm.
  - apply sort_by_idemp.
  - rewrite sort_by_perm. apply Forall_forall. intros s Hs. split; [by apply negb_false_iff; auto|].
    apply map_r_Ok_Forall2 in Em. apply list_elem_of_lookup in Hs as [i Hi].
    destruct (Forall2_lookup_r _ _ _ _ _ Em Hi) as (y & _ & Hy). by apply strict_text_Ok in Hy as [? _].
Qed.

(** What [__post_init__] guarantees of a record *)
Record binding_record_wf (b : AuthorityBindingRecord) : Prop := {
  bw_workspace : ab_workspace_identity b ≠ "";
  bw_application : APPLICATION_ID_RE (ab_application_id b) = true;
  bw_binding : BINDING_ID_RE (ab_credential_binding_id b) = true;
  bw_required : NoDup (ab_required_capabilities b) ∧ sorted_strings (ab_required_capabilities b) = ab_required_capabilities b;
  bw_artifact : ARTIFACT_ID_RE (ab_attestation_artifact_id b) = true;
  bw_digest : DIGEST_RE (ab_attestation_artifact_digest b) = true;
  bw_operations_some : ab_authorized_operation_identities b ≠ [];
  bw_operations : NoDup (ab_authorized_operation_identities b);
  bw_operations_sorted : sorted_strings (ab_authorized_operation_identities b) = ab_authorized_operation_identities b;
  bw_operations_re : Forall (λ s, OPERATION_ID_RE s = true ∧ s ≠ "") (ab_authorized_operation_identities b);
}.

Lemma make_binding_record_wf d p w a c r i f g o b :
  make_binding_record d p w a c r i f g o = Ok b → binding_record_wf b.
Proof.
  unfold make_binding_record. intros E. inv_ok.
  repeat match goal with
  | E : exact_id _ _ _ = Ok _ |- _ => apply pattern_text_Ok in E as [_ E]
  | E : binding_digest _ _ = Ok _ |- _ => apply pattern_text_Ok in E as [_ E]
  | E : canonical_collection _ _ _ = Ok _ |- _ => apply canonical_collection_Ok in E as (?&?&?&?)
  | E : binding_text _ _ = Ok _ |- _ => apply strict_text_Ok in E as (?&_&_)
  end.
  by split.
Qed.

Lemma binding_record_from_dict_wf v b : binding_record_from_dict v = Ok b → binding_record_wf b.
Proof. unfold binding_record_from_dict. intros E. inv_ok. by eapply make_binding_record_wf. Qed.

Lemma make_signed_Ok payload i k a pr s :
  make_signed payload i k a pr = Ok s →
  sb_payload s = payload ∧ sb_issuer_id s ≠ "" ∧ sb_key_id s ≠ "" ∧ sb_proof s ≠ "" ∧
  a = VStr AUTHORITY_BINDING_SIGNATURE_ALGORITHM.
Proof.
  unfold make_signed, binding_identifier. intros E. inv_ok. bools.
  repeat match goal with E : pattern_text _ _ _ _ = Ok _ |- _ => apply pattern_text_Ok in E as [E _] end.
  repeat match goal with E : strict_text _ _ = Ok _ |- _ => apply strict_text_Ok in E as (?&_&_) end.
  match goal with E : py_eq _ _ = true |- _ => apply py_eq_str in E as -> end.
  split_and!; simpl; try done.
  match goal with E : proof_text _ ?p = Ok ?t |- _ => destruct p; try discriminate E; simpl in E end.
  inv_ok. bools. destruct (b64_decode _); [|discriminate]. inv_ok. intros ->.
  match goal with E : py_len _ = _ |- _ => by vm_compute in E end.
Qed.
End facts.
