(* ===== verification/BindingStore.v ===== *)
(** * Stores of authority bindings (delivery_system/authority_binding_persistence.py)

    The durable assignment of operations to authority issuances, in both implementations
    of the store protocol: the process-local one over two dicts and the SQLite one over two
    tables.  A stored binding is decoded and rebuilt from its bytes whenever it is read. *)
From S2P Require Import Prelude PyValue Strings PyOps Canonical Json SafeText AuthorityBinding.

Definition ISSUANCE_ID_RE : string → bool := prefixed_hex "authority-issuance-".

(** [PersistedAuthorityBinding] *)
Record PersistedAuthorityBinding := MkPersisted {
  pb_signed : SignedAuthorityBinding;
  pb_canonical_payload : string;
  pb_authority_issuance_id : string;
}.
#[export] Instance persisted_eq_dec : EqDecision PersistedAuthorityBinding.
Proof. solve_decision. Defined.
Definition pb_payload (p : PersistedAuthorityBinding) : AuthorityBindingRecord := sb_payload (pb_signed p).

Definition PAYLOAD_CORRUPT : string := "authority_binding_persistence_payload_corrupt".
Definition ISSUANCE_ID_CORRUPT : string := "authority_binding_persistence_issuance_id_corrupt".
Definition PROJECTION_CORRUPT : string := "authority_binding_persistence_projection_corrupt".
Definition WORKSPACE_MISMATCH : string := "authority_binding_persistence_workspace_mismatch".
Definition LOOKUP_INVALID : string := "authority_binding_persistence_lookup_invalid".
Definition CONFLICT : string := "authority_binding_persistence_conflict".
Definition OPERATION_CONFLICT : string := "authority_binding_persistence_operation_conflict".

(** [except Exception: raise ValueError(code)] *)
Definition any_error {A} (code : string) (c : result A) : result A :=
  match c with
  | Ok a => Ok a
  | Err (Unmodelled what) => Err (Unmodelled what)
  | Err _ => Err (ValueError code)
  end.

(** [_workspace], [_issuance_id] and [_operation_identity] *)
Definition checked_workspace (v : pyval) : result string :=
  match v with
  | VStr s => raise "authority_binding_persistence_workspace_invalid"
                when bool_decide (s = "") || negb (bool_decide (s = py_strip s)) ; Ok s
  | _ => Err (ValueError "authority_binding_persistence_workspace_invalid")
  end.
Definition checked_lookup (re : string → bool) (v : pyval) : result string :=
  match v with
  | VStr s => raise LOOKUP_INVALID when negb (re s) ; Ok s
  | _ => Err (ValueError LOOKUP_INVALID)
  end.

(** [_strict_json_object] *)
Definition _strict_json_object (v : pyval) : result pyval :=
  match v with
  | VBytes s =>
      raise PAYLOAD_CORRUPT when bool_decide (s = "") || negb (utf8_ok s) ;
      let! parsed := any_error PAYLOAD_CORRUPT (json_loads (reject_duplicate_pairs PAYLOAD_CORRUPT) s) in
      raise PAYLOAD_CORRUPT when negb (is_mapping parsed) ; Ok parsed
  | _ => Err (ValueError PAYLOAD_CORRUPT)
  end.

(** [_assignment_set] *)
Definition _assignment_set (p : PersistedAuthorityBinding) : gset string :=
  list_to_set (ab_authorized_operation_identities (pb_payload p)).

(** The operations a workspace assigns to an issuance *)
Definition assigned_operations {A} `{EqDecision A} (m : gmap (string * string) A) (workspace : string) (issuance : A)
  : gset string :=
  set_map snd (dom (filter (λ kv, fst (fst kv) = workspace ∧ snd kv = issuance) m)).

Section store.
Context `{PyLib}.

(** [PersistedAuthorityBinding(...)]: [__post_init__] *)
Definition make_persisted (signed : SignedAuthorityBinding) (payload issuance : string)
  : result PersistedAuthorityBinding :=
  let! bytes := canonical_bytes (sb_payload signed) in
  raise PAYLOAD_CORRUPT when negb (bool_decide (bytes = payload)) ;
  let! id := authority_issuance_id (sb_payload signed) in
  raise ISSUANCE_ID_CORRUPT when negb (bool_decide (id = issuance)) ;
  Ok (MkPersisted signed payload issuance).

(** [_validated_binding]: the algorithm of the envelope is checked by its constructor *)
Definition _validated_binding (payload : pyval) (issuance : string) (issuer_id key_id algorithm proof : pyval)
    (expected_workspace : string) : result PersistedAuthorityBinding :=
  let! parsed := _strict_json_object payload in
  let! signed :=
    any_error PAYLOAD_CORRUPT
      (let! record := binding_record_from_dict parsed in make_signed record issuer_id key_id algorithm proof) in
  raise WORKSPACE_MISMATCH when negb (bool_decide (ab_workspace_identity (sb_payload signed) = expected_workspace)) ;
  let! bytes := canonical_bytes (sb_payload signed) in
  raise PAYLOAD_CORRUPT when negb (bool_decide (VBytes bytes = payload)) ;
  let! id := authority_issuance_id (sb_payload signed) in
  raise ISSUANCE_ID_CORRUPT when negb (bool_decide (id = issuance)) ;
  make_persisted signed bytes issuance.

(** [_candidate] *)
Definition _candidate (binding : SignedAuthorityBinding) (expected_workspace : string)
  : result PersistedAuthorityBinding :=
  let payload := sb_payload binding in
  raise WORKSPACE_MISMATCH when negb (bool_decide (ab_workspace_identity payload = expected_workspace)) ;
  let! bytes := canonical_bytes payload in
  let! id := authority_issuance_id payload in
  _validated_binding (VBytes bytes) id (VStr (sb_issuer_id binding)) (VStr (sb_key_id binding))
    (VStr AUTHORITY_BINDING_SIGNATURE_ALGORITHM) (VStr (sb_proof binding)) expected_workspace.
End store.

(** ** [InMemoryAuthorityBindingPersistenceStore] *)
Record MemoryStore := MkMemory {
  ms_bindings : gmap (string * string) PersistedAuthorityBinding;
  ms_assignments : gmap (string * string) string;
}.
Definition empty_memory : MemoryStore := MkMemory ∅ ∅.

Section memory.
Context `{PyLib}.
Variable ws : string.  (** [self.workspace_identity] *)

(** Decode a stored binding again *)
Definition revalidate (b : PersistedAuthorityBinding) : result PersistedAuthorityBinding :=
  _validated_binding (VBytes (pb_canonical_payload b)) (pb_authority_issuance_id b) (VStr (sb_issuer_id (pb_signed b)))
    (VStr (sb_key_id (pb_signed b))) (VStr AUTHORITY_BINDING_SIGNATURE_ALGORITHM) (VStr (sb_proof (pb_signed b))) ws.

Definition memory_load_parent (issuance : string) (st : MemoryStore) : result (option PersistedAuthorityBinding) :=
  let assigned := assigned_operations (ms_assignments st) ws issuance in
  match ms_bindings st !! (ws, issuance) with
  | None => raise PROJECTION_CORRUPT when negb (bool_decide (assigned = ∅)) ; Ok None
  | Some b =>
      let! checked := revalidate b in
      raise PROJECTION_CORRUPT when negb (bool_decide (assigned = _assignment_set checked)) ; Ok (Some checked)
  end.

Definition memory_assign (issuance : string) (operations : list string) (m : gmap (string * string) string)
  : gmap (string * string) string :=
  foldl (λ m op, <[(ws, op) := issuance]> m) m operations.

Definition memory_save (binding : SignedAuthorityBinding) (st : MemoryStore)
  : result (PersistedAuthorityBinding * MemoryStore) :=
  let! candidate := _candidate binding ws in
  let issuance := pb_authority_issuance_id candidate in
  let operations := elements (_assignment_set candidate) in
  let! existing := memory_load_parent issuance st in
  match existing with
  | Some e => raise CONFLICT when negb (bool_decide (e = candidate)) ; Ok (e, st)
  | None =>
      raise OPERATION_CONFLICT when existsb (λ op, bool_decide (is_Some (ms_assignments st !! (ws, op)))) operations ;
      Ok (candidate, MkMemory (<[(ws, issuance) := candidate]> (ms_bindings st))
                       (memory_assign issuance operations (ms_assignments st)))
  end.

Definition memory_load (workspace issuance : pyval) (st : MemoryStore) : result (option PersistedAuthorityBinding) :=
  let! workspace := checked_workspace workspace in
  let! issuance := checked_lookup ISSUANCE_ID_RE issuance in
  raise WORKSPACE_MISMATCH when negb (bool_decide (workspace = ws)) ;
  memory_load_parent issuance st.

Definition memory_resolve (workspace operation : pyval) (st : MemoryStore) : result (option PersistedAuthorityBinding) :=
  let! workspace := checked_workspace workspace in
  let! operation := checked_lookup OPERATION_ID_RE operation in
  raise WORKSPACE_MISMATCH when negb (bool_decide (workspace = ws)) ;
  match ms_assignments st !! (ws, operation) with
  | None => Ok None
  | Some issuance =>
      let! binding := memory_load_parent issuance st in
      match binding with
      | None => Err (ValueError PROJECTION_CORRUPT)
      | Some b => raise PROJECTION_CORRUPT when negb (bool_decide (operation ∈ _assignment_set b)) ; Ok (Some b)
      end
  end.
End memory.

(** ** [SQLiteAuthorityBindingPersistenceStore]
    The tables [authority_bindings] and [authority_binding_operations], with the constraints
    their schema declares (sqlite_schema.py): primary keys, checks and the foreign key. *)
Record binding_row := BindingRow {
  br_canonical_payload : pyval;
  br_issuer_id : pyval;
  br_key_id : pyval;
  br_signature_algorithm : pyval;
  br_detached_proof : pyval;
}.
Record BindingDb := MkBindingDb {
  bd_bindings : gmap (string * string) binding_row;
  bd_operations : gmap (string * string) pyval;
}.
Definition empty_binding_db : BindingDb := MkBindingDb ∅ ∅.

(** [CHECK (length(x) > 0)] on a value of the column's type *)
Definition nonempty_cell (v : pyval) : bool :=
  match v with VStr s | VBytes s => negb (bool_decide (s = "")) | _ => false end.

Definition insert_binding (ws issuance : string) (row : binding_row) (db : BindingDb) : result BindingDb :=
  if bool_decide (is_Some (bd_bindings db !! (ws, issuance)))
     || negb (nonempty_cell (VStr ws) && nonempty_cell (VStr issuance) && nonempty_cell (br_canonical_payload row)
              && nonempty_cell (br_issuer_id row) && nonempty_cell (br_key_id row)
              && bool_decide (br_signature_algorithm row = VStr "ed25519") && nonempty_cell (br_detached_proof row))
  then Err (IntegrityError "authority_bindings")
  else Ok (MkBindingDb (<[(ws, issuance) := row]> (bd_bindings db)) (bd_operations db)).

Definition insert_operation (ws operation issuance : string) (db : BindingDb) : result BindingDb :=
  if bool_decide (is_Some (bd_operations db !! (ws, operation)))
     || negb (nonempty_cell (VStr ws) && nonempty_cell (VStr operation) && nonempty_cell (VStr issuance))
     || negb (bool_decide (is_Some (bd_bindings db !! (ws, issuance))))
  then Err (IntegrityError "authority_binding_operations")
  else Ok (MkBindingDb (bd_bindings db) (<[(ws, operation) := VStr issuance]> (bd_operations db))).

Fixpoint insert_operations (ws issuance : string) (operations : list string) (db : BindingDb) : result BindingDb :=
  match operations with
  | [] => Ok db
  | op :: rest => let! db := insert_operation ws op issuance db in insert_operations ws issuance rest db
  end.

(** [except sqlite3.IntegrityError] *)
Definition integrity_conflict {A} (c : result A) : result A :=
  match c with Err (IntegrityError _) => Err (ValueError OPERATION_CONFLICT) | _ => c end.

Section sqlite.
Context `{PyLib}.
Variable ws : string.

Definition sqlite_load_parent (issuance : string) (db : BindingDb) : result (option PersistedAuthorityBinding) :=
  let assigned := assigned_operations (bd_operations db) ws (VStr issuance) in
  match bd_bindings db !! (ws, issuance) with
  | None => raise PROJECTION_CORRUPT when negb (bool_decide (assigned = ∅)) ; Ok None
  | Some row =>
      match br_canonical_payload row with
      | VBytes _ =>
          let! binding := _validated_binding (br_canonical_payload row) issuance (br_issuer_id row) (br_key_id row)
                            (br_signature_algorithm row) (br_detached_proof row) ws in
          raise PROJECTION_CORRUPT when negb (bool_decide (assigned = _assignment_set binding)) ; Ok (Some binding)
      | _ => Err (ValueError PAYLOAD_CORRUPT)
      end
  end.

(** The row of a binding *)
Definition row_of (p : PersistedAuthorityBinding) : binding_row :=
  BindingRow (VBytes (pb_canonical_payload p)) (VStr (sb_issuer_id (pb_signed p))) (VStr (sb_key_id (pb_signed p)))
    (VStr AUTHORITY_BINDING_SIGNATURE_ALGORITHM) (VStr (sb_proof (pb_signed p))).

Definition sqlite_save (binding : SignedAuthorityBinding) (db : BindingDb)
  : result (PersistedAuthorityBinding * BindingDb) :=
  let! candidate := _candidate binding ws in
  let issuance := pb_authority_issuance_id candidate in
  let operations := sorted_strings (elements (_assignment_set candidate)) in
  let! existing := sqlite_load_parent issuance db in
  match existing with
  | Some e => raise CONFLICT when negb (bool_decide (e = candidate)) ; Ok (e, db)
  | None =>
      integrity_conflict
        (let! db := insert_binding ws issuance (row_of candidate) db in
         let! db := insert_operations ws issuance operations db in
         Ok (candidate, db))
  end.

Definition sqlite_load (workspace issuance : pyval) (db : BindingDb) : result (option PersistedAuthorityBinding) :=
  let! workspace := checked_workspace workspace in
  let! issuance := checked_lookup ISSUANCE_ID_RE issuance in
  raise WORKSPACE_MISMATCH when negb (bool_decide (workspace = ws)) ;
  sqlite_load_parent issuance db.

Definition sqlite_resolve (workspace operation : pyval) (db : BindingDb) : result (option PersistedAuthorityBinding) :=
  let! workspace := checked_workspace workspace in
  let! operation := checked_lookup OPERATION_ID_RE operation in
  raise WORKSPACE_MISMATCH when negb (bool_decide (workspace = ws)) ;
  match bd_operations db !! (ws, operation) with
  | None => Ok None
  | Some (VStr issuance) =>
      let! binding := sqlite_load_parent issuance db in
      match binding with
      | None => Err (ValueError PROJECTION_CORRUPT)
      | Some b => raise PROJECTION_CORRUPT when negb (bool_decide (operation ∈ _assignment_set b)) ; Ok (Some b)
      end
  | Some _ => Err (ValueError PROJECTION_CORRUPT)
  end.
End sqlite.

(** ** [AuthorityBindingPersistenceStore]: the protocol the clients use *)
Class BindingPersistence (S : Type) := {
  save_authority_binding : string → SignedAuthorityBinding → S → result (PersistedAuthorityBinding * S);
  load_authority_binding : string → pyval → pyval → S → result (option PersistedAuthorityBinding);
  resolve_authority_binding_for_operation : string → pyval → pyval → S → result (option PersistedAuthorityBinding);
}.
#[export] Instance memory_persistence `{PyLib} : BindingPersistence MemoryStore :=
  {| save_authority_binding := memory_save; load_authority_binding := memory_load;
     resolve_authority_binding_for_operation := memory_resolve |}.
#[export] Instance sqlite_persistence `{PyLib} : BindingPersistence BindingDb :=
  {| save_authority_binding := sqlite_save; load_authority_binding := sqlite_load;
     resolve_authority_binding_for_operation := sqlite_resolve |}.

(** A client's calls, one after the other: a call that raises leaves the store alone. *)
Inductive binding_call :=
| CallSave (b : SignedAuthorityBinding)
| CallLoad (workspace issuance : pyval)
| CallResolve (workspace operation : pyval).
Definition binding_answer := result (option PersistedAuthorityBinding).

Definition perform {S} `{BindingPersistence S} (ws : string) (c : binding_call) (st : S) : binding_answer * S :=
  match c with
  | CallSave b => match save_authority_binding ws b st with Ok (p, st) => (Ok (Some p), st) | Err e => (Err e, st) end
  | CallLoad w i => (load_authority_binding ws w i st, st)
  | CallResolve w o => (resolve_authority_binding_for_operation ws w o st, st)
  end.

Fixpoint perform_all {S} `{BindingPersistence S} (ws : string) (calls : list binding_call) (st : S)
  : list binding_answer * S :=
  match calls with
  | [] => ([], st)
  | c :: calls =>
      let (a, st) := perform ws c st in
      let (l, st) := perform_all ws calls st in (a :: l, st)
  end.
