(* ===== verification/BindingFacts.v ===== *)
(** * What the stores of authority bindings promise

    Both stores answer every sequence of calls alike ([stores_agree]); a binding that was
    saved stays what it was, keeps its operations, and no other binding with one of them is
    ever saved ([saved_binding_stays]). *)
From S2P Require Import Prelude PyValue Strings PyOps Canonical Json SafeText AuthorityBinding BindingStore.
From Stdlib Require Import Ascii.

(** ** Texts of the identifier patterns are their own normal form *)
Lemma drop_while_none {A} (p : A → bool) l : Forall (λ x, p x = false) l → drop_while p l = l.
Proof. destruct 1 as [|x l Hx]; simpl; [done|]. by rewrite Hx. Qed.

Lemma strip_no_space s : Forall (λ c, is_space c = false) (chars s) → py_strip s = s.
Proof.
  intros Hs. unfold py_strip, drop_while_end. rewrite (drop_while_none _ (chars s)) by done.
  rewrite drop_while_none by by apply Forall_reverse. by rewrite reverse_involutive, concat_chars_chars.
Qed.

Lemma slug_char_plain c : slug_char c = true → is_cont c = false ∧ is_space (ch c) = false ∧ in_range 0 127 c = true.
Proof. destruct c as [[] [] [] [] [] [] [] []]; intros E; try discriminate E; by vm_compute. Qed.

Lemma slug_chars s : all_bytes slug_char s = true → starts_cont s = false ∧ Forall (λ c, is_space c = false) (chars s).
Proof.
  induction s as [|c s IH]; simpl; [by repeat constructor|]. intros [Hc Hs]%andb_true_iff.
  destruct (slug_char_plain c Hc) as (H1 & H2 & _). destruct (IH Hs) as [H3 H4]. rewrite H3. split; [done|]. by constructor.
Qed.

Lemma strip_slug s : all_bytes slug_char s = true → py_strip s = s.
Proof. intros Hs. by apply strip_no_space, slug_chars. Qed.

Lemma slug_ascii s : all_bytes slug_char s = true → all_bytes (in_range 0 127) s = true.
Proof.
  induction s as [|c s IH]; simpl; [done|]. rewrite !andb_true_iff. intros [Hc Hs]. split; [by apply slug_char_plain|auto].
Qed.

Lemma any_error_Ok {A} code (c : result A) a : any_error code c = Ok a ↔ c = Ok a.
Proof. by destruct c as [|[]]. Qed.

(** ** Assigned operations *)
Lemma elem_of_assigned {A} `{EqDecision A} (m : gmap (string * string) A) ws id op :
  op ∈ assigned_operations m ws id ↔ m !! (ws, op) = Some id.
Proof.
  unfold assigned_operations. rewrite elem_of_map. setoid_rewrite elem_of_dom. split.
  - intros ([w o] & -> & x & Hx). apply map_lookup_filter_Some in Hx as [Hx [Hw Hi]]. simpl in *. by subst.
  - intros Hm. exists (ws, op). split; [done|]. exists id. by apply map_lookup_filter_Some.
Qed.

Lemma lookup_assign {A} (ws : string) (id : A) (ops : list string) (m : gmap (string * string) A) k :
  foldl (λ m op, <[(ws, op) := id]> m) m ops !! k = if bool_decide (fst k = ws ∧ snd k ∈ ops) then Some id else m !! k.
Proof.
  revert m; induction ops as [|op ops IH]; intros m; simpl.
  - rewrite bool_decide_eq_false_2; [done|]. by intros [_ ?%elem_of_nil].
  - rewrite IH. destruct k as [w o]. simpl. destruct (decide (w = ws)) as [->|Hw].
    + destruct (decide (o = op)) as [->|Ho].
      * rewrite (bool_decide_eq_true_2 (_ ∧ op ∈ op :: ops)) by set_solver. destruct (bool_decide _); [reflexivity|apply lookup_insert_eq].
      * rewrite lookup_insert_ne by by intros [= ?]. repeat case_bool_decide; set_solver.
    + rewrite !bool_decide_eq_false_2 by tauto. rewrite lookup_insert_ne; [done|]. by intros [= ?].
Qed.

Lemma insert_operations_Ok ws id ops db :
  ws ≠ "" → id ≠ "" → Forall (λ op, op ≠ "") ops → NoDup ops → is_Some (bd_bindings db !! (ws, id)) →
  (∀ op, op ∈ ops → bd_operations db !! (ws, op) = None) →
  insert_operations ws id ops db
  = Ok (MkBindingDb (bd_bindings db) (foldl (λ m op, <[(ws, op) := VStr id]> m) (bd_operations db) ops)).
Proof.
  intros Hw Hi Hne Hd Hb. revert db Hb; induction ops as [|op ops IH]; intros db Hb Hf; simpl; [by destruct db|].
  apply Forall_cons in Hne as [Ho Hne]. apply NoDup_cons in Hd as [Hop Hd].
  unfold insert_operation. simpl. rewrite (Hf op) by by left. rewrite !(bool_decide_eq_false_2 (_ = "")) by done.
  rewrite (bool_decide_eq_false_2 (is_Some None)) by by intros [? ?].
  rewrite (bool_decide_eq_true_2 (is_Some _) Hb). simpl. rewrite IH; [reflexivity|done|done|done|].
  intros o Ho'. simpl. rewrite lookup_insert_ne by by intros [= ->]. apply Hf. by right.
Qed.

Lemma insert_operations_conflict ws id ops db op :
  op ∈ ops → is_Some (bd_operations db !! (ws, op)) → ∃ t, insert_operations ws id ops db = Err (IntegrityError t).
Proof.
  revert db; induction ops as [|o ops IH]; intros db; [by intros ?%elem_of_nil|].
  intros Hop Hs. simpl. unfold insert_operation at 1. destruct (_ || _) eqn:E; [by eexists|].
  apply orb_false_iff in E as [[E _]%orb_false_iff _]. apply bool_decide_eq_false in E.
  apply elem_of_cons in Hop as [->|Hop]; [done|]. apply IH; [done|]. simpl.
  destruct (decide (o = op)) as [->|Hne]; [done|]. by rewrite lookup_insert_ne by by intros [= ?].
Qed.

Section stores.
Context `{PyLib}.
Variable ws : string.

(** ** Stored bindings *)
(** What [_validated_binding] has checked of the binding it returns *)
Record persisted_wf (p : PersistedAuthorityBinding) : Prop := {
  pw_record : binding_record_wf (pb_payload p);
  pw_workspace : ab_workspace_identity (pb_payload p) = ws;
  pw_bytes : canonical_bytes (pb_payload p) = Ok (pb_canonical_payload p);
  pw_issuance : authority_issuance_id (pb_payload p) = Ok (pb_authority_issuance_id p);
  pw_payload : pb_canonical_payload p ≠ "";
  pw_issuer : sb_issuer_id (pb_signed p) ≠ "";
  pw_key : sb_key_id (pb_signed p) ≠ "";
  pw_proof : sb_proof (pb_signed p) ≠ "";
}.

Lemma validated_wf payload id i k a pr p :
  _validated_binding payload id i k a pr ws = Ok p →
  persisted_wf p ∧ payload = VBytes (pb_canonical_payload p) ∧ pb_authority_issuance_id p = id ∧
  a = VStr AUTHORITY_BINDING_SIGNATURE_ALGORITHM.
Proof.
  unfold _validated_binding, make_persisted. intros E. inv_ok. bools. subst.
  match goal with E : any_error _ (match _ with Ok _ => _ | Err _ => _ end) = Ok _ |- _ => apply any_error_Ok in E end.
  inv_ok. match goal with E : binding_record_from_dict _ = Ok _ |- _ => apply binding_record_from_dict_wf in E end.
  match goal with E : make_signed _ _ _ _ _ = Ok _ |- _ => apply make_signed_Ok in E as (<- & ? & ? & ? & ->) end.
  match goal with E : _strict_json_object _ = Ok _ |- _ => simpl in E end. inv_ok. bools.
  done.
Qed.

Lemma candidate_wf b p : _candidate b ws = Ok p → persisted_wf p.
Proof. unfold _candidate. intros E. inv_ok. by eapply validated_wf. Qed.

(** Two well-formed bindings of one issuance and payload have the same operations. *)
Lemma same_payload_same_set b c :
  persisted_wf b → revalidate ws b = Ok c →
  pb_authority_issuance_id c = pb_authority_issuance_id b ∧ pb_canonical_payload c = pb_canonical_payload b.
Proof. intros Hb E. unfold revalidate in E. apply validated_wf in E as (_ & [= ->] & -> & _). done. Qed.

Lemma issuance_nonempty p : persisted_wf p → pb_authority_issuance_id p ≠ "".
Proof.
  intros Hp. pose proof (pw_issuance _ Hp) as E. unfold authority_issuance_id in E. inv_ok. rewrite <- E. done.
Qed.

Lemma assignment_list p op : op ∈ _assignment_set p ↔ op ∈ ab_authorized_operation_identities (pb_payload p).
Proof. unfold _assignment_set. by rewrite elem_of_list_to_set. Qed.

(** ** The invariant of the process-local store *)
Record memory_inv (st : MemoryStore) : Prop := {
  mi_binding : ∀ k b, ms_bindings st !! k = Some b → persisted_wf b ∧ k = (ws, pb_authority_issuance_id b);
  mi_assigned : ∀ k id, ms_assignments st !! k = Some id →
    fst k = ws ∧ ∃ b, ms_bindings st !! (ws, id) = Some b ∧ snd k ∈ _assignment_set b;
  mi_covered : ∀ id b op, ms_bindings st !! (ws, id) = Some b → op ∈ _assignment_set b →
    ms_assignments st !! (ws, op) = Some id;
}.

Lemma memory_inv_empty : memory_inv empty_memory.
Proof. by split; simpl; intros *; rewrite lookup_empty. Qed.

Lemma memory_assigned st id b :
  memory_inv st → ms_bindings st !! (ws, id) = Some b →
  assigned_operations (ms_assignments st) ws id = _assignment_set b.
Proof.
  intros [_ Ha Hc] Hb. apply set_eq. intros op. rewrite elem_of_assigned. split; [|by eapply Hc].
  intros (_ & b' & Hb' & Ho)%Ha. by simplify_eq.
Qed.
Lemma memory_unassigned st id :
  memory_inv st → ms_bindings st !! (ws, id) = None → assigned_operations (ms_assignments st) ws id = ∅.
Proof.
  intros [_ Ha _] Hb. apply set_eq. intros op. rewrite elem_of_assigned. split; [|set_solver].
  intros (_ & b' & Hb' & _)%Ha. congruence.
Qed.

(** The parent lookup on an invariant store *)
Lemma memory_load_parent_inv st id :
  memory_inv st →
  memory_load_parent ws id st =
  match ms_bindings st !! (ws, id) with
  | None => Ok None
  | Some b => let! c := revalidate ws b in
              raise PROJECTION_CORRUPT when negb (bool_decide (_assignment_set b = _assignment_set c)) ; Ok (Some c)
  end.
Proof.
  intros Hi. unfold memory_load_parent. destruct (ms_bindings st !! (ws, id)) as [b|] eqn:E.
  - by rewrite (memory_assigned st id b Hi E).
  - by rewrite (memory_unassigned st id Hi E), bool_decide_eq_true_2.
Qed.

Lemma memory_save_inv b st p st' : memory_inv st → memory_save ws b st = Ok (p, st') → memory_inv st'.
Proof.
  intros Hi. unfold memory_save. intros E. inv_ok.
  match goal with E : _candidate _ _ = Ok ?c |- _ => rename c into c, E into Ec end.
  match goal with E : match ?e with Some _ => _ | None => _ end = Ok _ |- _ => destruct e as [e|]; inv_ok; simplify_eq; [done|] end.
  match goal with E : memory_load_parent _ _ _ = Ok None |- _ => rename E into El end.
  match goal with E : existsb _ _ = false |- _ => rename E into Ef end. rewrite existsb_false in Ef.
  pose proof (candidate_wf b p Ec) as Hw. rewrite memory_load_parent_inv in El by done.
  destruct (ms_bindings st !! _) as [x|] eqn:Hn; [by inv_ok|]. clear El. pose proof Hi as [Hb Ha Hc].
  assert (∀ op, op ∈ _assignment_set p → ms_assignments st !! (ws, op) = None) as Hfree.
  { intros op Hop. apply elem_of_elements, Ef in Hop. apply bool_decide_eq_false in Hop. by apply eq_None_not_Some. }
  split; simpl.
  - intros k b' [[<- <-]|[Hne Hk]]%lookup_insert_Some; [done|by apply Hb].
  - intros [w op] id. unfold memory_assign; rewrite lookup_assign. simpl. case_bool_decide as D.
    + destruct D as [-> Hop%elem_of_elements]. intros [= <-]. split; [done|]. exists p. by rewrite lookup_insert_eq.
    + intros (Hww & b' & Hb' & Hop)%Ha. simpl in *. split; [done|]. exists b'. split; [|done]. rewrite lookup_insert_ne; [done|congruence].
  - intros id b' op [[[= <-] <-]|[Hne Hk]]%lookup_insert_Some Hop; unfold memory_assign; rewrite lookup_assign; simpl.
    + by rewrite bool_decide_eq_true_2 by by rewrite elem_of_elements.
    + rewrite bool_decide_eq_false_2; [by eapply Hc|]. rewrite elem_of_elements. intros [_ Hop'].
      pose proof (Hc _ _ _ Hk Hop) as E. by rewrite (Hfree op Hop') in E.
Qed.

(** ** The tables of the SQLite store hold what the process-local store holds *)
Record stored_alike (st : MemoryStore) (db : BindingDb) : Prop := {
  sa_inv : memory_inv st;
  sa_bindings : bd_bindings db = row_of <$> ms_bindings st;
  sa_operations : bd_operations db = VStr <$> ms_assignments st;
}.

Lemma assigned_alike (m : gmap (string * string) string) id :
  assigned_operations (VStr <$> m) ws (VStr id) = assigned_operations m ws id.
Proof.
  apply set_eq. intros op. rewrite !elem_of_assigned, lookup_fmap. destruct (m !! (ws, op)); simpl; naive_solver.
Qed.

Lemma load_parent_alike st db id : stored_alike st db → sqlite_load_parent ws id db = memory_load_parent ws id st.
Proof.
  intros [[Hb _ _] Eb Eo]. unfold sqlite_load_parent, memory_load_parent.
  rewrite Eb, Eo, lookup_fmap, assigned_alike. destruct (ms_bindings st !! (ws, id)) as [b|] eqn:E; [|done].
  apply Hb in E as [_ [= ->]]. done.
Qed.

Lemma insert_binding_fresh p db :
  persisted_wf p → bd_bindings db !! (ws, pb_authority_issuance_id p) = None →
  insert_binding ws (pb_authority_issuance_id p) (row_of p) db =
  Ok (MkBindingDb (<[(ws, pb_authority_issuance_id p) := row_of p]> (bd_bindings db)) (bd_operations db)).
Proof.
  intros Hw Hn. pose proof (issuance_nonempty p Hw). destruct Hw as [[] <- ? ? ? ? ? ?].
  unfold insert_binding. rewrite Hn, (bool_decide_eq_false_2 (is_Some None)) by by intros [? ?].
  simpl. by rewrite !(bool_decide_eq_false_2 (_ = "")) by done.
Qed.

Lemma save_alike b st db :
  stored_alike st db →
  match memory_save ws b st, sqlite_save ws b db with
  | Ok (p, st'), Ok (q, db') => p = q ∧ stored_alike st' db'
  | Err e, Err e' => e = e'
  | _, _ => False
  end.
Proof.
  intros Hs. pose proof (memory_save_inv b st) as Hpres. unfold memory_save, sqlite_save in *.
  destruct (_candidate b ws) as [p|e] eqn:Ec; [|done]. rewrite (load_parent_alike _ _ _ Hs).
  destruct (memory_load_parent ws _ st) as [[e|]|e] eqn:El; [by destruct (negb _)| |done].
  pose proof (candidate_wf b p Ec) as Hw. pose proof (sa_inv _ _ Hs) as Hi.
  rewrite memory_load_parent_inv in El by done.
  destruct (ms_bindings st !! _) as [x|] eqn:Hn; [by inv_ok|]. clear El.
  rewrite insert_binding_fresh by (done || by rewrite (sa_bindings _ _ Hs), lookup_fmap, Hn).
  set (ops := elements (_assignment_set p)) in *. set (id := pb_authority_issuance_id p) in *.
  set (db1 := MkBindingDb _ _). assert (sorted_strings ops ≡ₚ ops) as Hperm by apply sort_by_perm.
  destruct (existsb _ ops) eqn:Ex.
  - apply existsb_exists in Ex as (op & Hop & Hsome). apply list_elem_of_In in Hop. apply bool_decide_eq_true in Hsome.
    destruct (insert_operations_conflict ws id (sorted_strings ops) db1 op) as [t ->]; [by rewrite Hperm| |done].
    simpl. rewrite (sa_operations _ _ Hs), lookup_fmap. destruct Hsome as [y ->]. by eexists.
  - rewrite existsb_false in Ex. specialize (Hpres p _ Hi eq_refl).
    rewrite insert_operations_Ok; simpl.
    + split; [done|]. split; [done| |]; simpl.
      * by rewrite (sa_bindings _ _ Hs), fmap_insert.
      * rewrite (sa_operations _ _ Hs). apply map_eq. intros k. unfold memory_assign.
        rewrite lookup_fmap, !lookup_assign, lookup_fmap.
        rewrite (bool_decide_ext _ (fst k = ws ∧ snd k ∈ ops)) by by rewrite Hperm. by case_bool_decide.
    + destruct Hw as [[] <- ? ? ? ? ? ?]. done.
    + by apply issuance_nonempty.
    + rewrite Hperm. unfold ops. apply Forall_forall. intros op Hop%elem_of_elements.
      rewrite assignment_list in Hop. pose proof (bw_operations_re _ (pw_record _ Hw)) as Hre.
      rewrite Forall_forall in Hre. by destruct (Hre op Hop).
    + rewrite Hperm. apply NoDup_elements.
    + rewrite lookup_insert_eq. by eexists.
    + intros op Hop. rewrite Hperm in Hop. apply Ex, bool_decide_eq_false in Hop.
      rewrite (sa_operations _ _ Hs), lookup_fmap. apply eq_None_not_Some in Hop. by rewrite Hop.
Qed.

Lemma perform_alike c st db :
  stored_alike st db →
  fst (perform ws c st) = fst (perform ws c db) ∧ stored_alike (snd (perform ws c st)) (snd (perform ws c db)).
Proof.
  intros Hs. destruct c as [b|w i|w o]; simpl.
  - pose proof (save_alike b st db Hs) as E.
    destruct (memory_save ws b st) as [[p st']|e], (sqlite_save ws b db) as [[q db']|e']; try done.
    + by destruct E as [-> ?].
    + by subst.
  - split; [|done]. unfold memory_load, sqlite_load.
    destruct (checked_workspace w); [|done]. destruct (checked_lookup ISSUANCE_ID_RE i); [|done].
    by rewrite (load_parent_alike st db _ Hs).
  - split; [|done]. unfold memory_resolve, sqlite_resolve.
    rewrite (sa_operations _ _ Hs).
    destruct (checked_workspace w); [|done]. destruct (checked_lookup OPERATION_ID_RE o) as [op|]; [|done].
    destruct (negb _); [done|]. rewrite lookup_fmap. destruct (ms_assignments st !! (ws, op)); [|done]. simpl.
    by rewrite (load_parent_alike st db _ Hs).
Qed.

Lemma stored_alike_empty : stored_alike empty_memory empty_binding_db.
Proof. split; [apply memory_inv_empty|done|done]. Qed.

(** C27: The process-local store and the SQLite store are interchangeable: from empty stores,
    every sequence of saves, loads and lookups gets the same answers, errors included, and
    leaves the tables holding exactly the bindings and assignments of the dicts. *)
Theorem stores_agree calls :
  let (answers, st) := perform_all ws calls empty_memory in
  let (answers', db) := perform_all ws calls empty_binding_db in
  answers = answers' ∧ stored_alike st db.
Proof.
  pose proof stored_alike_empty as Hs. revert Hs. generalize empty_memory empty_binding_db.
  induction calls as [|c calls IH]; intros st db Hs; simpl; [done|].
  destruct (perform_alike c st db Hs) as [Ea Hs'].
  destruct (perform ws c st) as [a st1], (perform ws c db) as [a' db1]. simpl in *. subst a'.
  specialize (IH st1 db1 Hs'). destruct (perform_all ws calls st1), (perform_all ws calls db1).
  destruct IH as [-> ?]. done.
Qed.

(** ** Saved bindings stay *)
Lemma perform_inv c st : memory_inv st → memory_inv (snd (perform ws c st)).
Proof.
  intros Hi. destruct c; simpl; try done. destruct (memory_save ws b st) as [[p st']|e] eqn:E; [|done].
  by eapply memory_save_inv.
Qed.

Lemma perform_keeps c st k b :
  ms_bindings st !! k = Some b → memory_inv st → ms_bindings (snd (perform ws c st)) !! k = Some b.
Proof.
  intros Hk Hi. destruct c as [x| |]; simpl; try done. destruct (memory_save ws x st) as [[p st']|e] eqn:E; [|done].
  unfold memory_save in E. inv_ok.
  match goal with E : match ?e with Some _ => _ | None => _ end = Ok _ |- _ => destruct e as [e|]; inv_ok; simplify_eq; [done|] end.
  match goal with E : memory_load_parent _ _ _ = Ok None |- _ => rewrite memory_load_parent_inv in E by done; rename E into El end.
  simpl. destruct (decide (k = (ws, pb_authority_issuance_id p))) as [->|Hne]; [|by rewrite lookup_insert_ne].
  rewrite Hk in El. by inv_ok.
Qed.

Lemma perform_all_keeps calls st k b :
  ms_bindings st !! k = Some b → memory_inv st →
  ms_bindings (snd (perform_all ws calls st)) !! k = Some b ∧ memory_inv (snd (perform_all ws calls st)).
Proof.
  revert st; induction calls as [|c calls IH]; intros st Hk Hi; simpl; [done|].
  pose proof (perform_keeps c st k b Hk Hi). pose proof (perform_inv c st Hi).
  destruct (perform ws c st) as [a st']. simpl in *. specialize (IH st'). destruct (perform_all ws calls st'). by apply IH.
Qed.

Lemma perform_all_alike calls st db :
  stored_alike st db → stored_alike (snd (perform_all ws calls st)) (snd (perform_all ws calls db)).
Proof.
  revert st db; induction calls as [|c calls IH]; intros st db Hs; simpl; [done|].
  destruct (perform_alike c st db Hs) as [_ Hs']. destruct (perform ws c st) as [a st1], (perform ws c db) as [a' db1]. simpl in *.
  specialize (IH _ _ Hs'). by destruct (perform_all ws calls st1), (perform_all ws calls db1).
Qed.

(** Unicode leaves ASCII text as it is, and a SHA-256 digest is 64 hexadecimal digits. *)
Hypothesis nfc_ascii : ∀ s, all_bytes (in_range 0 127) s = true → nfc s = s.
Hypothesis sha256_hex64 : ∀ s, hex64 (sha256_hex s) = true.

Lemma binding_id_again field v s : binding_identifier field v = Ok s → binding_identifier field (VStr s) = Ok s.
Proof.
  unfold binding_identifier. intros [E Hre]%pattern_text_Ok. pose proof (strict_text_Ok _ _ _ E) as (Hne & Hc & Hsu).
  unfold ID_RE in Hre. apply andb_true_iff in Hre as [[Hf Hs]%andb_true_iff Hz].
  assert (clean s = s) as Hcl by by unfold clean; rewrite nfc_ascii, strip_slug by (done || by apply slug_ascii).
  unfold pattern_text, strict_text, safe_text. rewrite Hcl, bool_decide_eq_false_2, Hc by done. simpl.
  rewrite Hsu. unfold ID_RE. by rewrite Hf, Hs, Hz.
Qed.

Lemma proof_text_again code v s : proof_text code v = Ok s → proof_text code (VStr s) = Ok s.
Proof.
  destruct v as [| | | |t| | | | | |]; try discriminate. intros E. rewrite <- E. do 2 f_equal. revert E. simpl.
  destruct (negb _); [discriminate|]. destruct (b64_decode t); [|discriminate]. destruct (negb _); congruence.
Qed.

Lemma revalidate_candidate b p : _candidate b ws = Ok p → revalidate ws p = Ok p.
Proof.
  unfold _candidate, revalidate. intros E. inv_ok. pose proof (validated_wf _ _ _ _ _ _ _ E) as (Hw & [= ->] & <- & _).
  revert E. unfold _validated_binding.
  destruct (_strict_json_object _) as [parsed|]; [|discriminate].
  destruct (binding_record_from_dict parsed) as [record|e]; [|by destruct e].
  destruct (make_signed record _ _ _ _) as [s|e] eqn:Es; [|by destruct e]. intros E.
  assert (pb_signed p = s) as ->. { revert E. unfold make_persisted. simpl. intros E. inv_ok. by rewrite <- E. }
  replace (make_signed record (VStr (sb_issuer_id s)) (VStr (sb_key_id s)) (VStr AUTHORITY_BINDING_SIGNATURE_ALGORITHM)
             (VStr (sb_proof s))) with (Ok s); [exact E|].
  unfold make_signed in *. inv_ok.
  match goal with E : binding_identifier "issuer_id" _ = Ok _ |- _ => apply binding_id_again in E; rename E into Ei end.
  match goal with E : binding_identifier "key_id" _ = Ok _ |- _ => apply binding_id_again in E; rename E into Ek end.
  match goal with E : proof_text _ _ = Ok _ |- _ => apply proof_text_again in E; rename E into Ep end.
  cbn [sb_issuer_id sb_key_id sb_proof]. by rewrite Ei, Ek, Ep.
Qed.

(** A saved binding is what its row is decoded to. *)
Definition stored_as (st : MemoryStore) (p : PersistedAuthorityBinding) : Prop :=
  ∃ s, ms_bindings st !! (ws, pb_authority_issuance_id p) = Some s ∧ revalidate ws s = Ok p ∧
       _assignment_set s = _assignment_set p.

Lemma memory_save_stored b st p st' :
  memory_inv st → memory_save ws b st = Ok (p, st') → stored_as st' p ∧ persisted_wf p.
Proof.
  intros Hi. unfold memory_save, stored_as. intros E. inv_ok.
  match goal with E : _candidate _ _ = Ok ?c |- _ => rename E into Ec; pose proof (candidate_wf _ _ Ec) as Hw end.
  match goal with E : memory_load_parent _ _ _ = Ok _ |- _ => rewrite memory_load_parent_inv in E by done; rename E into El end.
  match goal with E : match ?e with Some _ => _ | None => _ end = Ok _ |- _ => destruct e as [e|]; inv_ok; simplify_eq end.
  - bools. try subst. destruct (ms_bindings st' !! _) as [s|] eqn:Es; [|discriminate]. inv_ok. bools. simplify_eq.
    split; [|done]. by exists s.
  - split; [|done]. exists p. simpl. rewrite lookup_insert_eq. split_and!; [done|by eapply revalidate_candidate|done].
Qed.

Lemma stored_load st p : memory_inv st → stored_as st p → memory_load_parent ws (pb_authority_issuance_id p) st = Ok (Some p).
Proof.
  intros Hi (s & Hs & Er & Ea). rewrite memory_load_parent_inv, Hs, Er, Ea by done. by rewrite bool_decide_eq_true_2.
Qed.

Lemma stored_keeps calls st p :
  memory_inv st → stored_as st p →
  stored_as (snd (perform_all ws calls st)) p ∧ memory_inv (snd (perform_all ws calls st)).
Proof.
  intros Hi (s & Hs & ? & ?). destruct (perform_all_keeps calls st _ s Hs Hi) as [Hs' ?]. split; [|done]. by exists s.
Qed.

Lemma stored_operation st p op :
  memory_inv st → stored_as st p → op ∈ _assignment_set p → ms_assignments st !! (ws, op) = Some (pb_authority_issuance_id p).
Proof. intros Hi (s & Hs & _ & Ea) Ho. rewrite <- Ea in Ho. by eapply mi_covered. Qed.

Lemma stored_unique st p q op :
  memory_inv st → stored_as st p → stored_as st q → op ∈ _assignment_set p → op ∈ _assignment_set q → p = q.
Proof.
  intros Hi Hp Hq Op Oq. pose proof (stored_operation _ _ _ Hi Hp Op). pose proof (stored_operation _ _ _ Hi Hq Oq).
  destruct Hp as (s & Hs & Es & _), Hq as (t & Ht & Et & _). simplify_eq. congruence.
Qed.

Lemma issuance_lookup p : persisted_wf p → checked_lookup ISSUANCE_ID_RE (VStr (pb_authority_issuance_id p))
  = Ok (pb_authority_issuance_id p).
Proof.
  intros Hp. pose proof (pw_issuance _ Hp) as E. unfold authority_issuance_id in E. inv_ok. simpl.
  rewrite <- E. unfold ISSUANCE_ID_RE, prefixed_hex. rewrite (proj2 (strip_prefix_Some _ _ _) eq_refl). by rewrite sha256_hex64.
Qed.

(** C26: A binding the durable store has saved stays: whatever is saved and asked afterwards,
    its issuance loads exactly it, each operation it authorizes resolves to it, and no other
    binding with one of its operations is ever saved. *)
Theorem saved_binding_stays before after b p db :
  checked_workspace (VStr ws) = Ok ws →
  sqlite_save ws b (snd (perform_all ws before empty_binding_db)) = Ok (p, db) →
  let db' := snd (perform_all ws after db) in
  canonical_bytes (sb_payload b) = Ok (pb_canonical_payload p) ∧
  sqlite_load ws (VStr ws) (VStr (pb_authority_issuance_id p)) db' = Ok (Some p) ∧
  (∀ op, op ∈ ab_authorized_operation_identities (pb_payload p) → sqlite_resolve ws (VStr ws) (VStr op) db' = Ok (Some p)) ∧
  ∀ c q db'' op, sqlite_save ws c db' = Ok (q, db'') → op ∈ ab_authorized_operation_identities (pb_payload p) →
    op ∈ ab_authorized_operation_identities (pb_payload q) → q = p.
Proof.
  intros Hws E. pose proof (perform_all_alike before _ _ stored_alike_empty) as H0.
  set (st0 := snd (perform_all ws before empty_memory)) in *. pose proof (save_alike b _ _ H0) as H1. rewrite E in H1.
  destruct (memory_save ws b st0) as [[p0 st1]|] eqn:Em; [|done]. destruct H1 as [-> H1].
  destruct (memory_save_stored b st0 p st1 (sa_inv _ _ H0) Em) as [Hst Hw].
  pose proof (perform_all_alike after _ _ H1) as H2. destruct (stored_keeps after st1 p (sa_inv _ _ H1) Hst) as [Hst' Hi].
  set (st2 := snd (perform_all ws after st1)) in *. intros db'. fold db' in H2. split_and!.
  - unfold sqlite_save, _candidate in E. inv_ok.
    match goal with E : _validated_binding _ _ _ _ _ _ _ = Ok ?c |- _ =>
      apply validated_wf in E as (_ & [= ->] & _); assert (c = p) as ->; [|done] end.
    match goal with E : match ?e with Some _ => _ | None => _ end = Ok _ |- _ => destruct e as [e|] end; inv_ok; bools; [congruence|].
    match goal with E : integrity_conflict _ = Ok _ |- _ => unfold integrity_conflict in E; revert E end.
    destruct (insert_binding _ _ _ _) as [d|[]]; try discriminate.
    destruct (insert_operations _ _ _ _) as [d'|[]]; try discriminate. congruence.
  - unfold sqlite_load. rewrite Hws, issuance_lookup, bool_decide_eq_true_2 by done. simpl.
    rewrite (load_parent_alike _ _ _ H2). by apply stored_load.
  - intros op Hop. unfold sqlite_resolve. rewrite Hws. simpl checked_lookup.
    pose proof (bw_operations_re _ (pw_record _ Hw)) as Hre. rewrite Forall_forall in Hre. destruct (Hre op Hop) as [-> _].
    simpl. rewrite bool_decide_eq_true_2 by done. simpl. apply assignment_list in Hop.
    rewrite (sa_operations _ _ H2), lookup_fmap, (stored_operation _ p op Hi Hst' Hop). simpl.
    rewrite (load_parent_alike _ _ _ H2), (stored_load st2 p Hi Hst'). by rewrite bool_decide_eq_true_2.
  - intros c q db'' op Ec Hp Hq. pose proof (save_alike c _ _ H2) as H3. rewrite Ec in H3.
    destruct (memory_save ws c st2) as [[q0 st3]|] eqn:Eq; [|done]. destruct H3 as [-> H3].
    destruct (memory_save_stored c st2 q st3 Hi Eq) as [Hqs _].
    destruct (stored_keeps [CallSave c] st2 p Hi Hst') as [Hps Hi3]. simpl in Hps, Hi3. rewrite Eq in Hps, Hi3.
    symmetry. by eapply (stored_unique st3); [..|apply assignment_list|apply assignment_list].
Qed.
End stores.
