(* ===== verification/Attestation.v ===== *)
(** * Credential attestation: claims, envelopes and the records around them
    (delivery_system/attestation.py)

    What an issuer attests about a credential ([Claims]), the signed envelope, the decisions
    and statuses the injected policies return, and the request a runtime boundary makes.
    Every field goes through the checks of SafeText.v. *)
From S2P Require Import Prelude PyValue Strings PyOps Canonical SafeText.

Definition ATTESTATION_DOMAIN : string := "delivery-system:credential-capability-attestation:v1".
Definition ATTESTATION_V2_DOMAIN : string := "delivery-system:credential-capability-attestation:v2".
Definition ATTESTATION_VERSION_V1 : string := "1".
Definition ATTESTATION_VERSION_V2 : string := "2".
Definition CHALLENGE_DOMAIN : string := "delivery-system:runtime-attestation-challenge:v1".
Definition SUPPORTED_SIGNATURE_ALGORITHMS : list string := ["ed25519"].
Definition REVOCATION_CONTRACT_VERSION : string := "1".

Definition V1_CLAIMS_FIELDS : list string :=
  ["attestation_version"; "attestation_id"; "issuer_id"; "key_id"; "signature_algorithm";
   "credential_class"; "credential_instance_id"; "github_subject_identity"; "repository_identity";
   "granted_capabilities"; "driver_identity"; "remote_authority"; "preview_id"; "revision";
   "operation_set_digest"; "remote_snapshot_digest"; "evidence_digest"; "issued_at"; "expires_at";
   "nonce"; "source_verification_digest"].
Definition V2_CLAIMS_FIELDS : list string := V1_CLAIMS_FIELDS ++ ["challenge_digest"; "credential_principal_identity"].

Definition field_invalid (field : string) : string := field +:+ "_invalid".

(** ** [CredentialCapabilityAttestationClaims] *)
Record Claims := MkClaims {
  cl_attestation_version : string;
  cl_attestation_id : string;
  cl_issuer_id : string;
  cl_key_id : string;
  cl_signature_algorithm : string;
  cl_credential_class : string;
  cl_credential_instance_id : string;
  cl_github_subject_identity : string;
  cl_repository_identity : string;
  cl_granted_capabilities : list string;
  cl_driver_identity : string;
  cl_remote_authority : string;
  cl_preview_id : string;
  cl_revision : Z;
  cl_operation_set_digest : string;
  cl_remote_snapshot_digest : string;
  cl_evidence_digest : string;
  cl_issued_at : string;
  cl_expires_at : string;
  cl_nonce : string;
  cl_source_verification_digest : string;
  cl_challenge_digest : string;
  cl_credential_principal_identity : string;
}.
#[export] Instance claims_eq_dec : EqDecision Claims.
Proof. solve_decision. Defined.

Definition claims_v2 (c : Claims) : bool := bool_decide (cl_attestation_version c = ATTESTATION_VERSION_V2).

(** [_identity_payload], [_domain], [to_payload] *)
Definition claims_identity_fields (c : Claims) : list (string * pyval) :=
  [("attestation_version", VStr (cl_attestation_version c)); ("issuer_id", VStr (cl_issuer_id c));
   ("key_id", VStr (cl_key_id c)); ("signature_algorithm", VStr (cl_signature_algorithm c));
   ("credential_class", VStr (cl_credential_class c)); ("credential_instance_id", VStr (cl_credential_instance_id c));
   ("github_subject_identity", VStr (cl_github_subject_identity c));
   ("repository_identity", VStr (cl_repository_identity c));
   ("granted_capabilities", vstrs (cl_granted_capabilities c)); ("driver_identity", VStr (cl_driver_identity c));
   ("remote_authority", VStr (cl_remote_authority c)); ("preview_id", VStr (cl_preview_id c));
   ("revision", VInt (cl_revision c)); ("operation_set_digest", VStr (cl_operation_set_digest c));
   ("remote_snapshot_digest", VStr (cl_remote_snapshot_digest c)); ("evidence_digest", VStr (cl_evidence_digest c));
   ("issued_at", VStr (cl_issued_at c)); ("expires_at", VStr (cl_expires_at c)); ("nonce", VStr (cl_nonce c));
   ("source_verification_digest", VStr (cl_source_verification_digest c))]
  ++ (if claims_v2 c then [("challenge_digest", VStr (cl_challenge_digest c));
                       ("credential_principal_identity", VStr (cl_credential_principal_identity c))] else []).
Definition claims_domain (c : Claims) : string := if claims_v2 c then ATTESTATION_V2_DOMAIN else ATTESTATION_DOMAIN.
Definition claims_to_payload (c : Claims) : pyval :=
  dict_of [("domain", VStr (claims_domain c));
           ("claims", dict_of (claims_identity_fields c ++ [("attestation_id", VStr (cl_attestation_id c))]))].

(** [_claims_projection] of a claims object: the fields its version has *)
Definition claims_fields (c : Claims) : pyval :=
  dict_of (claims_identity_fields c ++ [("attestation_id", VStr (cl_attestation_id c))]).

(** ** [SignedCredentialCapabilityAttestation] *)
Record SignedAttestation := MkAttestation { sa_claims : Claims; sa_proof : string }.
#[export] Instance attestation_eq_dec : EqDecision SignedAttestation.
Proof. solve_decision. Defined.

(** ** [RevocationStatus] and [IssuerTrustDecision]
    As a policy returns them: the fields are values, checked again by [_revalidate_...]. *)
Record StatusAnswer := MkStatusAnswer {
  sn_attestation_revoked : pyval;
  sn_credential_instance_revoked : pyval;
  sn_revoked_at : pyval;
  sn_reason : pyval;
  sn_version : pyval;
}.
Record RevocationStatus := MkStatus {
  rs_attestation_revoked : bool;
  rs_credential_instance_revoked : bool;
  rs_revoked_at : option string;
  rs_version : string;
}.
Definition DECISION_FAILURES : list string :=
  ["attestation_issuer_untrusted"; "attestation_credential_class_unsupported";
   "attestation_version_unsupported"; "attestation_algorithm_unsupported"].

(** ** [CredentialCapabilityRequest]: the values a boundary binds a request to *)
Record RequestValues := MkRequest {
  rv_repository_identity : string;
  rv_github_subject_identity : string;
  rv_required_capabilities : list string;
  rv_driver_identity : string;
  rv_remote_authority : string;
  rv_preview_id : string;
  rv_revision : Z;
  rv_operation_set_digest : string;
  rv_remote_snapshot_digest : string;
  rv_evidence_digest : string;
  rv_challenge_digest : string;
}.
#[export] Instance request_values_eq_dec : EqDecision RequestValues.
Proof. solve_decision. Defined.

Definition BAD_STATUS : string := "revocation_status_invalid".

Section attestation.
Context `{PyLib}.

(** ** [_safe_text], [_safe_id], [_digest], [_capabilities] *)
Definition safe_field (field : string) (v : pyval) : result string := safe_text (field_invalid field) v.
Definition safe_id (field : string) (v : pyval) : result string := pattern_text safe_text ID_RE (field_invalid field) v.
Definition safe_digest (field : string) (v : pyval) : result string :=
  pattern_text safe_text DIGEST_RE (field_invalid field) v.

Definition safe_capabilities (field : string) (v : pyval) : result (list string) :=
  match as_sequence v with
  | None => Err (ValueError (field_invalid field))
  | Some l =>
      let! normalized := map_r (safe_field field) l in
      raise (field +:+ "_duplicate") when negb (no_dups normalized) ;
      raise (field_invalid field) when existsb (λ s, negb (CAPABILITY_RE s)) normalized ;
      Ok (sorted_strings normalized)
  end.

(** [_utc_timestamp]: the text in its normal form, and the time *)
Definition utc_timestamp (v : pyval) : result (string * Z) :=
  let! normalized := safe_text "timestamp_invalid" v in
  match fromisoformat (replace_Z normalized) with
  | Some (t, Some offset) =>
      raise "timestamp_invalid" when negb (offset =? 0)%Z ;
      Ok (py_replace "+00:00" "Z" (utc_isoformat t), t)
  | _ => Err (ValueError "timestamp_invalid")
  end.

(** A field of keyword arguments, and the check of a revision *)
Definition value_at {A} (values : pyval) (field : string) (check : string → pyval → result A) : result A :=
  let! v := subscript values field in check field v.
Definition revision_at_least_one (field : string) (v : pyval) : result Z :=
  match v with
  | VInt z => raise "revision_invalid" when (z <? 1)%Z ; Ok z
  | _ => Err (ValueError "revision_invalid")
  end.

(** ** Claims *)
Definition derived_attestation_id (c : Claims) : result string :=
  let! h := digest_hex (dict_of [("domain", VStr (claims_domain c)); ("claims", dict_of (claims_identity_fields c))]) in
  Ok ("attestation-" +:+ h).
Definition claims_digest (c : Claims) : result string :=
  digest (dict_of [("domain", VStr (claims_domain c)); ("claims", dict_of (claims_identity_fields c))]).

(** The extension fields: texts in version 2, empty in version 1 *)
Definition claims_extension (version : string) (challenge principal : pyval) : result (string * string) :=
  if bool_decide (version = ATTESTATION_VERSION_V2) then
    let! challenge := safe_digest "challenge_digest" challenge in
    let! principal := safe_field "credential_principal_identity" principal in
    Ok (challenge, principal)
  else
    raise "attestation_version_unsupported" when negb (bool_decide (version = ATTESTATION_VERSION_V1)) ;
    raise "attestation_v1_extension_forbidden" when truthy challenge || truthy principal ;
    Ok (the_str challenge, the_str principal).

(** [__post_init__] over the constructor's keyword arguments *)
Definition make_claims (m : pyval) : result Claims :=
  let! version := safe_id "attestation_version" (get m "attestation_version") in
  let! issuer := safe_id "issuer_id" (get m "issuer_id") in
  let! key := safe_id "key_id" (get m "key_id") in
  let! algorithm := safe_id "signature_algorithm" (get m "signature_algorithm") in
  let! class := safe_id "credential_class" (get m "credential_class") in
  let! instance := safe_id "credential_instance_id" (get m "credential_instance_id") in
  let! preview := safe_id "preview_id" (get m "preview_id") in
  let! nonce := safe_id "nonce" (get m "nonce") in
  let! subject := safe_field "github_subject_identity" (get m "github_subject_identity") in
  let! repository := safe_field "repository_identity" (get m "repository_identity") in
  let! driver := safe_field "driver_identity" (get m "driver_identity") in
  let! given_id := if py_eq (get m "attestation_id") (VStr "") then Ok ""
                   else safe_id "attestation_id" (get m "attestation_id") in
  let! revision := revision_at_least_one "revision" (get m "revision") in
  let! granted := safe_capabilities "granted_capabilities" (get m "granted_capabilities") in
  let! (issued, issued_dt) := utc_timestamp (get m "issued_at") in
  let! (expires, expires_dt) := utc_timestamp (get m "expires_at") in
  raise "attestation_expiry_invalid" when (expires_dt <=? issued_dt)%Z ;
  let! authority := safe_digest "remote_authority" (get m "remote_authority") in
  let! operations := safe_digest "operation_set_digest" (get m "operation_set_digest") in
  let! snapshot := safe_digest "remote_snapshot_digest" (get m "remote_snapshot_digest") in
  let! evidence := safe_digest "evidence_digest" (get m "evidence_digest") in
  let! source := safe_digest "source_verification_digest" (get m "source_verification_digest") in
  let! (challenge, principal) :=
    claims_extension version (get_default m "challenge_digest" (VStr ""))
      (get_default m "credential_principal_identity" (VStr "")) in
  let c := MkClaims version given_id issuer key algorithm class instance subject repository granted driver
             authority preview revision operations snapshot evidence issued expires nonce source challenge
             principal in
  let! expected_id := derived_attestation_id c in
  raise "attestation_id_mismatch" when negb (bool_decide (given_id = "")) && negb (bool_decide (given_id = expected_id)) ;
  Ok (MkClaims version expected_id issuer key algorithm class instance subject repository granted driver
        authority preview revision operations snapshot evidence issued expires nonce source challenge principal).

(** [_claims_projection] of a mapping *)
Definition claims_projection (v : pyval) : result pyval :=
  raise "attestation_invalid" when negb (is_mapping v) ;
  raise "attestation_invalid" when negb (has_key v "attestation_version") ;
  let fields := if py_eq (get v "attestation_version") (VStr ATTESTATION_VERSION_V2) then V2_CLAIMS_FIELDS
                else V1_CLAIMS_FIELDS in
  raise "claims_invalid" when negb (keys_are fields v) ;
  Ok v.

Definition claims_from_mapping (v : pyval) : result Claims := let! m := claims_projection v in make_claims m.

(** [_proof] with the algorithm of the claims *)
Definition attestation_proof (algorithm : string) (v : pyval) : result string :=
  raise "attestation_algorithm_unsupported" when negb (bool_decide (algorithm ∈ SUPPORTED_SIGNATURE_ALGORITHMS)) ;
  proof_text "proof_invalid" v.

Definition make_attestation (claims : Claims) (proof : pyval) : result SignedAttestation :=
  let! proof := attestation_proof (cl_signature_algorithm claims) proof in Ok (MkAttestation claims proof).

(** [_parse_untrusted_signed_attestation]: an object is taken apart and built again, as a
    mapping is. *)
Definition parse_attestation (value : SignedAttestation + pyval) : result SignedAttestation :=
  let! (claims, proof) :=
    match value with
    | inl e => Ok (claims_fields (sa_claims e), VStr (sa_proof e))
    | inr v => raise "attestation_invalid" when negb (is_mapping v) ;
               raise "attestation_invalid" when negb (keys_are ["claims"; "proof"] v) ;
               Ok (get v "claims", get v "proof")
    end in
  let! claims := claims_from_mapping claims in
  make_attestation claims proof.

(** ** Statuses and decisions *)
(** [RevocationStatus(...)]: [__post_init__] *)
Definition make_status (a : StatusAnswer) : result RevocationStatus :=
  match sn_attestation_revoked a, sn_credential_instance_revoked a, sn_version a with
  | VBool attestation, VBool instance, VStr version =>
      raise BAD_STATUS when bool_decide (version = "") ;
      let! revoked_at := match sn_revoked_at a with
                         | VNone => Ok None
                         | v => let! (s, _) := utc_timestamp v in Ok (Some s)
                         end in
      if attestation || instance then
        raise BAD_STATUS when bool_decide (revoked_at = None) || bool_decide (sn_reason a = VNone) ;
        let! _ := safe_id "revocation_reason" (sn_reason a) in
        Ok (MkStatus attestation instance revoked_at version)
      else
        raise BAD_STATUS when negb (bool_decide (revoked_at = None)) || negb (bool_decide (sn_reason a = VNone)) ;
        Ok (MkStatus attestation instance revoked_at version)
  | _, _, _ => Err (ValueError BAD_STATUS)
  end.

(** [validate] *)
Definition status_validate (s : RevocationStatus) (current_time : Z) : result unit :=
  raise "attestation_revocation_version_unsupported" when negb (bool_decide (rs_version s = REVOCATION_CONTRACT_VERSION)) ;
  match rs_revoked_at s with
  | None => Ok tt
  | Some at_ =>
      let! (_, revoked_at) := utc_timestamp (VStr at_) in
      raise "attestation_revocation_invalid" when (current_time <? revoked_at)%Z ; Ok tt
  end.

(** [_revalidate_revocation_status] *)
Definition revalidate_status (answer : option StatusAnswer) (current_time : Z) : result RevocationStatus :=
  match answer with
  | None => Err (ValueError "attestation_revocation_invalid")
  | Some a =>
      match make_status a with
      | Err (Unmodelled what) => Err (Unmodelled what)
      | Err _ => Err (ValueError "attestation_revocation_invalid")
      | Ok s => let! _ := status_validate s current_time in Ok s
      end
  end.

(** [_revalidate_issuer_decision]: [None] is an answer of another type *)
Definition revalidate_decision (answer : option (pyval * pyval)) : result (bool * string) :=
  match answer with
  | Some (VBool accepted, VStr code) =>
      raise "attestation_verifier_unavailable" when negb (bool_decide (code ∈ DECISION_FAILURES)) ; Ok (accepted, code)
  | _ => Err (ValueError "attestation_verifier_unavailable")
  end.

(** ** Requests: [CredentialCapabilityRequest._normalized_values] *)
Definition normalized_request (values : pyval) : result RequestValues :=
  let! repository := value_at values "repository_identity" safe_field in
  let! subject := value_at values "github_subject_identity" safe_field in
  let! required := value_at values "required_capabilities" safe_capabilities in
  let! driver := value_at values "driver_identity" safe_field in
  let! authority := value_at values "remote_authority" safe_digest in
  let! preview := value_at values "preview_id" safe_id in
  raise "required_capabilities_missing" when bool_decide (required = []) ;
  let! revision := value_at values "revision" revision_at_least_one in
  let! operations := value_at values "operation_set_digest" safe_digest in
  let! snapshot := value_at values "remote_snapshot_digest" safe_digest in
  let! evidence := value_at values "evidence_digest" safe_digest in
  Ok (MkRequest repository subject required driver authority preview revision operations snapshot evidence "").

Definition request_context (r : RequestValues) : pyval :=
  dict_of [("driver_identity", VStr (rv_driver_identity r)); ("evidence_digest", VStr (rv_evidence_digest r));
           ("github_subject_identity", VStr (rv_github_subject_identity r));
           ("operation_set_digest", VStr (rv_operation_set_digest r)); ("preview_id", VStr (rv_preview_id r));
           ("remote_authority", VStr (rv_remote_authority r));
           ("remote_snapshot_digest", VStr (rv_remote_snapshot_digest r));
           ("repository_identity", VStr (rv_repository_identity r));
           ("required_capabilities", VTuple (map VStr (rv_required_capabilities r)));
           ("revision", VInt (rv_revision r))].

Definition with_challenge (r : RequestValues) (challenge_digest : string) : RequestValues :=
  MkRequest (rv_repository_identity r) (rv_github_subject_identity r) (rv_required_capabilities r)
    (rv_driver_identity r) (rv_remote_authority r) (rv_preview_id r) (rv_revision r) (rv_operation_set_digest r)
    (rv_remote_snapshot_digest r) (rv_evidence_digest r) challenge_digest.
End attestation.

(** ** [_request_mismatch] *)
Definition request_mismatch (c : Claims) (r : RequestValues) : option string :=
  if negb (bool_decide (cl_repository_identity c = rv_repository_identity r)
           && bool_decide (cl_github_subject_identity c = rv_github_subject_identity r)
           && bool_decide (cl_driver_identity c = rv_driver_identity r)
           && bool_decide (cl_remote_authority c = rv_remote_authority r)
           && bool_decide (cl_preview_id c = rv_preview_id r)
           && bool_decide (cl_revision c = rv_revision r)
           && bool_decide (cl_operation_set_digest c = rv_operation_set_digest r)
           && bool_decide (cl_remote_snapshot_digest c = rv_remote_snapshot_digest r)
           && bool_decide (cl_evidence_digest c = rv_evidence_digest r))
  then Some "attestation_binding_mismatch"
  else if negb (forallb (λ s, bool_decide (s ∈ cl_granted_capabilities c)) (rv_required_capabilities r))
  then Some "credential_capability_insufficient"
  else if claims_v2 c then
    if negb (bool_decide (cl_challenge_digest c = rv_challenge_digest r)) then Some "attestation_challenge_mismatch"
    else if bool_decide (cl_credential_principal_identity c = "") then Some "attestation_credential_principal_missing"
    else None
  else None.
