(* ===== verification/AttestationBoundary.v ===== *)
(** * The attestation boundary of a runtime (delivery_system/attestation.py)

    [AttestationRuntimeBoundary]: it makes requests with a fresh challenge, verifies an
    envelope against its own request under the injected policies, and hands out a ticket
    that becomes one verified event.  Objects (requests, tickets, events, envelopes) are
    numbers the boundary's weak maps are keyed by; an entry lives as long as its object. *)
From S2P Require Import Prelude PyValue Strings PyOps Canonical SafeText Attestation.

(** ** The injected policies
    [None] is an absent policy, [Err] one that raises; an answer keeps its dynamic type. *)
Record Policies := MkPolicies {
  issuer_policy : option (string → string → string → string → string → result (option (pyval * pyval)));
  proof_verifier : option (string → string → string → string → string → result pyval);
  revocation_reader : option (string → string → string → string → string → result (option StatusAnswer));
  capability_policy : option (string → result pyval);
}.

(** An object with its identity *)
Record held (A : Type) := Held { held_object : nat; held_value : A }.
Arguments Held {A} held_object held_value.
Arguments held_object {A} h.
Arguments held_value {A} h.

Record Challenge := MkChallenge { ch_issued : Z; ch_consumed : bool }.

(** [_TicketRecord] *)
Record TicketRecord := MkTicket {
  tk_claims : held Claims;
  tk_envelope : held SignedAttestation;
  tk_claims_payload : string;
  tk_envelope_proof : string;
  tk_verified_at : string;
  tk_event_id : string;
  tk_consumed : bool;
}.

(** [CredentialCapabilityRequest] and [VerifiedCredentialAttestationEvent], as a caller holds them *)
Record Request := MkRequestObject { rq_object : nat; rq_boundary : nat; rq_values : RequestValues }.
Record VerifiedEvent := MkEvent {
  ev_object : nat;
  ev_envelope : held SignedAttestation;
  ev_claims : held Claims;
  ev_verified_at : string;
  ev_event_id : string;
}.

Record BoundaryState := MkBoundary {
  bs_requests : gmap nat RequestValues;
  bs_challenges : gmap nat Challenge;
  bs_tickets : gmap nat TicketRecord;
  bs_events : gmap nat TicketRecord;
  bs_next : nat;
}.
Definition empty_boundary : BoundaryState := MkBoundary ∅ ∅ ∅ ∅ 0.

(** 300 seconds, in the microseconds the clock readings are counted in *)
Definition CHALLENGE_AGE : Z := 300000000.

(** ** A verification step: a value, the failure it returns, or the exception it raises *)
Inductive step (A : Type) :=
| Pass (a : A)
| Failure (code : string)
| Raised (e : exn).
Arguments Pass {A} a.
Arguments Failure {A} code.
Arguments Raised {A} e.

Notation "'step!' x := c 'in' k" :=
  (match c with Pass x => k | Failure code => Failure code | Raised e => Raised e end)
  (at level 10, x pattern, c at level 200, k at level 200) : py_scope.
Notation "'fail' c 'when' b ; k" := (if b then Failure c else k)
  (at level 10, c at level 9, b at level 99, k at level 200) : py_scope.

Definition lift {A} (r : result A) : step A := match r with Ok a => Pass a | Err e => Raised e end.
(** [except Exception: return _failure(code)] *)
Definition or_failure {A} (code : string) (r : result A) : step A :=
  match r with Ok a => Pass a | Err (Unmodelled what) => Raised (Unmodelled what) | Err _ => Failure code end.

Definition ALLOWED_FAILURES : list string :=
  ["attestation_invalid"; "attestation_version_unsupported"; "attestation_algorithm_unsupported";
   "attestation_id_mismatch"; "attestation_expiry_invalid"; "attestation_binding_mismatch";
   "attestation_capability_insufficient"; "credential_capability_insufficient"; "proof_invalid";
   "required_capabilities_missing"; "attestation_credential_class_unsupported";
   "credential_capability_unknown"; "attestation_capability_policy_unavailable";
   "attestation_request_unavailable"; "attestation_request_tampered";
   "attestation_challenge_mismatch"; "attestation_challenge_expired"; "attestation_challenge_replayed";
   "attestation_credential_principal_missing"; "attestation_v1_extension_forbidden"].

(** The exception handlers of [verify]: the stable code a failure is reported under *)
Definition failure_of (e : exn) : string :=
  match e with ValueError c => if bool_decide (c ∈ ALLOWED_FAILURES) then c else "attestation_invalid"
             | _ => "attestation_invalid" end.

(** [_check_capabilities]: the failure, if any *)
Fixpoint check_supported (supported : string → result pyval) (capabilities : list string) : step unit :=
  match capabilities with
  | [] => Pass tt
  | c :: rest =>
      step! answer := or_failure "attestation_capability_policy_unavailable" (supported c) in
      match answer with
      | VBool true => check_supported supported rest
      | VBool false => Failure "credential_capability_unknown"
      | _ => Failure "attestation_capability_policy_unavailable"
      end
  end.
Definition check_capabilities (policy : option (string → result pyval)) (capabilities : list string) : step unit :=
  match policy with
  | None => Failure "attestation_capability_policy_unavailable"
  | Some supported => check_supported supported capabilities
  end.

Section boundary.
Context `{PyLib}.
(** [isoformat(timespec="microseconds")] of an aware UTC time *)
Variable isoformat_micros : Z → string.
Variable policies : Policies.
Variable boundary_id : nat.  (** [self.__provenance] *)

(** ** [create_request]: [challenge_value] is what [secrets.token_urlsafe(32)] returned *)
Definition create_request (values : pyval) (challenge_value : string) (monotonic : Z) (st : BoundaryState)
  : result (Request * BoundaryState) :=
  let! normalized := normalized_request values in
  let! challenge_digest :=
    digest (dict_of [("domain", VStr CHALLENGE_DOMAIN); ("challenge", VStr challenge_value);
                     ("context", request_context normalized)]) in
  match check_capabilities (capability_policy policies) (rv_required_capabilities normalized) with
  | Pass _ =>
      let request := MkRequestObject (bs_next st) boundary_id (with_challenge normalized challenge_digest) in
      Ok (request, MkBoundary (<[bs_next st := rq_values request]> (bs_requests st))
                     (<[bs_next st := MkChallenge monotonic false]> (bs_challenges st))
                     (bs_tickets st) (bs_events st) (S (bs_next st)))
  | Failure code => Err (ValueError code)
  | Raised e => Err e
  end.

(** ** Challenges *)
Definition challenge_is_current (request : nat) (monotonic : Z) (st : BoundaryState) : bool :=
  match bs_challenges st !! request with
  | Some c => negb (ch_consumed c) && (monotonic - ch_issued c <? CHALLENGE_AGE)%Z
  | None => false
  end.

Definition consume_challenge (request : nat) (monotonic : Z) (st : BoundaryState) : result BoundaryState :=
  match bs_challenges st !! request with
  | None => Err (ValueError "attestation_challenge_replayed")
  | Some c =>
      raise "attestation_challenge_replayed" when ch_consumed c ;
      raise "attestation_challenge_expired" when (CHALLENGE_AGE <=? monotonic - ch_issued c)%Z ;
      Ok (MkBoundary (bs_requests st) (<[request := MkChallenge (ch_issued c) true]> (bs_challenges st))
            (bs_tickets st) (bs_events st) (bs_next st))
  end.

(** ** [verify], up to the challenge: the request, the envelope, the policies and the binding *)
Definition check_issuer (claims : Claims) : step unit :=
  match issuer_policy policies, proof_verifier policies with
  | Some evaluate, Some _ =>
      step! answer := or_failure "attestation_verifier_unavailable"
        (evaluate (cl_issuer_id claims) (cl_key_id claims) (cl_signature_algorithm claims)
           (cl_attestation_version claims) (cl_credential_class claims)) in
      step! (accepted, code) := or_failure "attestation_verifier_unavailable" (revalidate_decision answer) in
      fail code when negb accepted ; Pass tt
  | _, _ => Failure "attestation_verifier_unavailable"
  end.

Definition check_signature (claims : Claims) (proof : string) : step unit :=
  match proof_verifier policies with
  | Some verify =>
      step! payload := lift (canonical_payload (claims_to_payload claims)) in
      step! valid := or_failure "attestation_verifier_unavailable"
        (verify payload proof (cl_issuer_id claims) (cl_key_id claims) (cl_signature_algorithm claims)) in
      fail "attestation_signature_invalid" when negb (bool_decide (valid = VBool true)) ; Pass tt
  | None => Failure "attestation_verifier_unavailable"
  end.

Definition verify_binding (signed : option (SignedAttestation + pyval)) (request : option Request)
    (current_time : option Z) (st : BoundaryState) : step (SignedAttestation * Z * nat) :=
  step! now := lift match current_time with Some t => Ok t | None => Err (ValueError "current_time_invalid") end in
  match request with
  | None => Failure "attestation_request_unavailable"
  | Some request =>
      match bs_requests st !! rq_object request with
      | None => Failure "attestation_request_unavailable"
      | Some snapshot =>
          fail "attestation_binding_mismatch" when negb (rq_boundary request =? boundary_id) ;
          fail "attestation_request_tampered" when negb (bool_decide (rq_values request = snapshot)) ;
          match signed with
          | None => Failure "attestation_missing"
          | Some signed =>
              step! envelope := lift (parse_attestation signed) in
              let claims := sa_claims envelope in
              fail "attestation_version_unsupported"
                when negb (bool_decide (cl_attestation_version claims ∈ [ATTESTATION_VERSION_V1; ATTESTATION_VERSION_V2])) ;
              fail "attestation_algorithm_unsupported"
                when negb (bool_decide (cl_signature_algorithm claims ∈ SUPPORTED_SIGNATURE_ALGORITHMS)) ;
              step! _ := check_issuer claims in
              step! _ := check_signature claims (sa_proof envelope) in
              step! _ := check_capabilities (capability_policy policies) (cl_granted_capabilities claims) in
              match request_mismatch claims snapshot with
              | Some code => Failure code
              | None => Pass (envelope, now, rq_object request)
              end
          end
      end
  end.

(** [verify], the challenge of a version 2 envelope: checked, then consumed; the clock is
    read twice. *)
Definition verify_challenge (claims : Claims) (request : nat) (monotonic monotonic' : Z) (st : BoundaryState)
  : step BoundaryState :=
  if claims_v2 claims then
    fail "attestation_challenge_expired" when negb (challenge_is_current request monotonic st) ;
    match consume_challenge request monotonic' st with
    | Ok st => Pass st
    | Err (ValueError code) => Failure code
    | Err e => Raised e
    end
  else Pass st.

(** [verify], after the challenge: the validity period and the revocation *)
Definition verify_currentness (claims : Claims) (now : Z) : step unit :=
  step! (_, issued) := lift (utc_timestamp (VStr (cl_issued_at claims))) in
  step! (_, expires) := lift (utc_timestamp (VStr (cl_expires_at claims))) in
  fail "attestation_not_yet_valid" when (now <? issued)%Z ;
  fail "attestation_expired" when (expires <=? now)%Z ;
  match revocation_reader policies with
  | None => Failure "attestation_revocation_unavailable"
  | Some read =>
      step! answer := or_failure "attestation_revocation_unavailable"
        (read (cl_attestation_id claims) (cl_credential_instance_id claims) (cl_issuer_id claims) (cl_key_id claims)
           REVOCATION_CONTRACT_VERSION) in
      match revalidate_status answer now with
      | Ok status =>
          fail "attestation_revoked" when rs_attestation_revoked status ;
          fail "credential_instance_revoked" when rs_credential_instance_revoked status ;
          Pass tt
      | Err (ValueError code) =>
          if bool_decide (code = "attestation_revocation_version_unsupported") then Failure code
          else Failure "attestation_revocation_invalid"
      | Err e => Raised e
      end
  end.

(** The ticket [verify] hands out: [event_id] holds the 32 random bytes *)
Definition issue_ticket (envelope : SignedAttestation) (now : Z) (event_token : string) (st : BoundaryState)
  : step (nat * BoundaryState) :=
  let claims := sa_claims envelope in
  step! _ := lift (claims_digest claims) in
  step! payload := lift (canonical_payload (claims_to_payload claims)) in
  let n := bs_next st in
  let record := MkTicket (Held n claims) (Held (S n) envelope) payload (sa_proof envelope)
                  (py_replace "+00:00" "Z" (isoformat_micros now)) ("verification-event-" +:+ event_token) false in
  Pass (S (S n), MkBoundary (bs_requests st) (bs_challenges st) (<[S (S n) := record]> (bs_tickets st)) (bs_events st)
                   (S (S (S n)))).

(** [AttestationVerificationResult]: the ticket or the failure *)
Inductive verification := Verified (ticket : nat) | VerificationFailed (code : string).

(** What the handlers make of the outcome, with the boundary it leaves.  An outcome outside
    the model is reported as such. *)
Definition report {A} (outcome : step A) (st : BoundaryState) : result (verification * BoundaryState) :=
  match outcome with
  | Pass _ => Err (Unmodelled "outcome")
  | Failure code => Ok (VerificationFailed code, st)
  | Raised (Unmodelled what) => Err (Unmodelled what)
  | Raised e => Ok (VerificationFailed (failure_of e), st)
  end.

Definition verify (signed : option (SignedAttestation + pyval)) (request : option Request) (current_time : option Z)
    (monotonic monotonic' : Z) (event_token : string) (st : BoundaryState) : result (verification * BoundaryState) :=
  match verify_binding signed request current_time st with
  | Pass (envelope, now, object) =>
      match verify_challenge (sa_claims envelope) object monotonic monotonic' st with
      | Pass st' =>
          match (step! _ := verify_currentness (sa_claims envelope) now in issue_ticket envelope now event_token st') with
          | Pass (ticket, st'') => Ok (Verified ticket, st'')
          | outcome => report outcome st'
          end
      | outcome => report outcome st
      end
  | outcome => report outcome st
  end.

(** ** Tickets and events *)
(** [_consume_ticket_record] *)
Definition consume_ticket_record (ticket : nat) (st : BoundaryState) : result (TicketRecord * BoundaryState) :=
  match bs_tickets st !! ticket with
  | None => Err (ValueError "attestation_boundary_mismatch")
  | Some record =>
      raise "attestation_replayed" when tk_consumed record ;
      let record := MkTicket (tk_claims record) (tk_envelope record) (tk_claims_payload record)
                      (tk_envelope_proof record) (tk_verified_at record) (tk_event_id record) true in
      Ok (record, MkBoundary (bs_requests st) (bs_challenges st) (<[ticket := record]> (bs_tickets st)) (bs_events st)
                    (bs_next st))
  end.

Definition consume_ticket (ticket : nat) (st : BoundaryState) : result (Claims * BoundaryState) :=
  let! (record, st) := consume_ticket_record ticket st in Ok (held_value (tk_claims record), st).

Definition consume_verified_event (ticket : nat) (st : BoundaryState) : result (VerifiedEvent * BoundaryState) :=
  let! (record, st) := consume_ticket_record ticket st in
  let event := MkEvent (bs_next st) (tk_envelope record) (tk_claims record) (tk_verified_at record) (tk_event_id record) in
  Ok (event, MkBoundary (bs_requests st) (bs_challenges st) (bs_tickets st)
               (<[bs_next st := record]> (bs_events st)) (S (bs_next st))).

(** [accepts_verified_event]: every exception answers [False] *)
Definition accepts_verified_event (event : VerifiedEvent) (st : BoundaryState) : bool :=
  match bs_events st !! ev_object event with
  | None => false
  | Some record =>
      (held_object (ev_envelope event) =? held_object (tk_envelope record))
      && (held_object (ev_claims event) =? held_object (tk_claims record))
      && bool_decide (canonical_payload (claims_to_payload (held_value (tk_claims record))) = Ok (tk_claims_payload record))
      && bool_decide (canonical_payload (claims_to_payload (sa_claims (held_value (tk_envelope record))))
                      = Ok (tk_claims_payload record))
      && bool_decide (sa_proof (held_value (tk_envelope record)) = tk_envelope_proof record)
      && bool_decide (ev_verified_at event = tk_verified_at record)
      && bool_decide (ev_event_id event = tk_event_id record)
  end.

(** ** A client's calls, one after the other *)
Inductive boundary_call :=
| CallCreate (values : pyval) (challenge_value : string) (monotonic : Z)
| CallVerify (signed : option (SignedAttestation + pyval)) (request : option Request) (current_time : option Z)
    (monotonic monotonic' : Z) (event_token : string)
| CallTicket (ticket : nat)
| CallEvent (ticket : nat).

(** [v2]: whether the verified envelope is of version 2 *)
Inductive boundary_answer :=
| MadeRequest (r : Request)
| Answered (v : verification) (v2 : bool)
| GaveClaims (c : Claims)
| GaveEvent (e : VerifiedEvent)
| Refused (e : exn).

Definition ticket_v2 (v : verification) (st : BoundaryState) : bool :=
  match v with
  | Verified t => match bs_tickets st !! t with Some rec => claims_v2 (held_value (tk_claims rec)) | None => false end
  | VerificationFailed _ => false
  end.

Definition boundary_step (c : boundary_call) (st : BoundaryState) : boundary_answer * BoundaryState :=
  match c with
  | CallCreate values challenge m =>
      match create_request values challenge m st with Ok (r, st) => (MadeRequest r, st) | Err e => (Refused e, st) end
  | CallVerify signed request time m m' token =>
      match verify signed request time m m' token st with
      | Ok (v, st) => (Answered v (ticket_v2 v st), st)
      | Err e => (Refused e, st)
      end
  | CallTicket t => match consume_ticket t st with Ok (c, st) => (GaveClaims c, st) | Err e => (Refused e, st) end
  | CallEvent t => match consume_verified_event t st with Ok (e, st) => (GaveEvent e, st) | Err e => (Refused e, st) end
  end.

Fixpoint boundary_run (calls : list boundary_call) (st : BoundaryState)
  : list (boundary_call * boundary_answer) * BoundaryState :=
  match calls with
  | [] => ([], st)
  | c :: calls =>
      let (a, st) := boundary_step c st in
      let (trace, st) := boundary_run calls st in ((c, a) :: trace, st)
  end.
End boundary.

(** A call that got the claims or the event of a ticket, and a verification that got a
    ticket on the challenge of a request *)
Definition spends_ticket (t : nat) (e : boundary_call * boundary_answer) : bool :=
  match e with
  | (CallTicket t', GaveClaims _) | (CallEvent t', GaveEvent _) => t' =? t
  | _ => false
  end.
Definition spends_challenge (object : nat) (e : boundary_call * boundary_answer) : bool :=
  match e with
  | (CallVerify _ (Some r) _ _ _ _, Answered (Verified _) true) => rq_object r =? object
  | _ => false
  end.
Definition count_calls (p : boundary_call * boundary_answer → bool) (trace : list (boundary_call * boundary_answer)) : nat :=
  length (List.filter p trace).
