(* ===== verification/AttestationFacts.v ===== *)
(** * What the attestation boundary promises

    A ticket means that everything was checked ([verified_attestation_sound]), and over any
    sequence of calls a ticket and a challenge are spent at most once
    ([attestation_single_use]). *)
From S2P Require Import Prelude PyValue Strings PyOps Canonical SafeText Attestation AttestationBoundary.

Lemma or_failure_Pass {A} code (r : result A) a : or_failure code r = Pass a → r = Ok a.
Proof. destruct r as [|[]]; simpl; congruence. Qed.

(** Split a hypothesis about a verification step that passed. *)
Ltac inv_pass :=
  repeat match goal with
  | H : Pass _ = Pass _ |- _ => injection H as H; try subst
  | H : Failure _ = Pass _ |- _ => discriminate H
  | H : Raised _ = Pass _ |- _ => discriminate H
  | H : lift ?r = Pass _ |- _ => destruct r eqn:?; simpl in H; [|discriminate H]
  | H : or_failure _ ?r = Pass _ |- _ => apply or_failure_Pass in H
  | H : (if ?b then _ else _) = Pass _ |- _ => destruct b eqn:?; [try discriminate H|try discriminate H]
  | H : (match ?c with Pass _ => _ | Failure _ => _ | Raised _ => _ end) = Pass _ |- _ =>
      destruct c eqn:?; [|discriminate H|discriminate H]
  | H : (match ?p with (_, _) => _ end) = Pass _ |- _ => destruct p eqn:?
  end.

Lemma check_supported_Pass supported l u :
  check_supported supported l = Pass u → ∀ c, c ∈ l → supported c = Ok (VBool true).
Proof.
  induction l as [|c l IH]; simpl; intros E x Hx; [by apply elem_of_nil in Hx|].
  destruct (supported c) as [a|[]] eqn:Es; simpl in E; try discriminate E.
  destruct a as [|[]| | | | | | | | |]; try discriminate E.
  apply elem_of_cons in Hx as [->|Hx]; [done|by apply IH].
Qed.

Lemma request_mismatch_None c r :
  request_mismatch c r = None →
  (cl_repository_identity c = rv_repository_identity r ∧ cl_github_subject_identity c = rv_github_subject_identity r ∧
   cl_driver_identity c = rv_driver_identity r ∧ cl_remote_authority c = rv_remote_authority r ∧
   cl_preview_id c = rv_preview_id r ∧ cl_revision c = rv_revision r ∧
   cl_operation_set_digest c = rv_operation_set_digest r ∧ cl_remote_snapshot_digest c = rv_remote_snapshot_digest r ∧
   cl_evidence_digest c = rv_evidence_digest r) ∧
  (∀ s, s ∈ rv_required_capabilities r → s ∈ cl_granted_capabilities c) ∧
  (claims_v2 c = true → cl_challenge_digest c = rv_challenge_digest r ∧ cl_credential_principal_identity c ≠ "").
Proof.
  unfold request_mismatch. destruct (negb _) eqn:E1; [discriminate|]. destruct (negb (forallb _ _)) eqn:E2; [discriminate|].
  bools. intros E. split_and!; try done. intros Hv. rewrite Hv in E.
  destruct (negb _) eqn:E3; [discriminate|]. bools. case_bool_decide; done.
Qed.

Section facts.
Context `{PyLib}.
Variable isoformat_micros : Z → string.
Variable policies : Policies.
Variable boundary_id : nat.

(** ** Parsing derives the identity of the claims *)
Lemma derived_id_irrelevant version i i' issuer key alg class inst subj repo granted driver auth preview rev ops snap ev
    issued expires nonce src ch pr :
  derived_attestation_id (MkClaims version i issuer key alg class inst subj repo granted driver auth preview rev ops
                            snap ev issued expires nonce src ch pr) =
  derived_attestation_id (MkClaims version i' issuer key alg class inst subj repo granted driver auth preview rev ops
                            snap ev issued expires nonce src ch pr).
Proof. reflexivity. Qed.

Lemma make_claims_id m c : make_claims m = Ok c → derived_attestation_id c = Ok (cl_attestation_id c).
Proof.
  unfold make_claims. intros E. inv_checks;
    match goal with E : derived_attestation_id _ = Ok _ |- _ => simpl; erewrite derived_id_irrelevant; exact E end.
Qed.

Lemma parse_attestation_id signed e :
  parse_attestation signed = Ok e → derived_attestation_id (sa_claims e) = Ok (cl_attestation_id (sa_claims e)).
Proof.
  unfold parse_attestation, claims_from_mapping, make_attestation. intros E. inv_checks. simpl.
  by eapply make_claims_id.
Qed.

(** ** What a verification that passed has checked *)
Record checked_envelope (signed : SignedAttestation + pyval) (envelope : SignedAttestation) : Prop := {
  ce_parsed : parse_attestation signed = Ok envelope;
  ce_identity : derived_attestation_id (sa_claims envelope) = Ok (cl_attestation_id (sa_claims envelope));
  ce_issuer : let c := sa_claims envelope in ∃ evaluate code, issuer_policy policies = Some evaluate ∧
    evaluate (cl_issuer_id c) (cl_key_id c) (cl_signature_algorithm c) (cl_attestation_version c)
      (cl_credential_class c) = Ok (Some (VBool true, VStr code));
  ce_signature : let c := sa_claims envelope in ∃ check payload, proof_verifier policies = Some check ∧
    canonical_payload (claims_to_payload c) = Ok payload ∧
    check payload (sa_proof envelope) (cl_issuer_id c) (cl_key_id c) (cl_signature_algorithm c) = Ok (VBool true);
  ce_capabilities : ∃ supported, capability_policy policies = Some supported ∧
    ∀ s, s ∈ cl_granted_capabilities (sa_claims envelope) → supported s = Ok (VBool true);
}.

Lemma revalidate_decision_true answer code :
  revalidate_decision answer = Ok (true, code) → answer = Some (VBool true, VStr code).
Proof.
  destruct answer as [[a b]|]; [|discriminate]. destruct a; try discriminate. destruct b; try discriminate.
  simpl. intros E. inv_ok. congruence.
Qed.

Lemma verify_binding_Pass signed request time st envelope now object :
  verify_binding policies boundary_id signed request time st = Pass (envelope, now, object) →
  ∃ r s, request = Some r ∧ signed = Some s ∧ time = Some now ∧ object = rq_object r ∧ rq_boundary r = boundary_id ∧
    bs_requests st !! rq_object r = Some (rq_values r) ∧ checked_envelope s envelope ∧
    request_mismatch (sa_claims envelope) (rq_values r) = None.
Proof.
  unfold verify_binding. intros E. inv_pass. destruct time as [t|]; [|discriminate]. simplify_eq/=.
  destruct request as [r|]; [|discriminate]. destruct (bs_requests st !! _) as [snapshot|] eqn:Er; [|discriminate].
  inv_pass. destruct signed as [s|]; [|discriminate]. inv_pass.
  destruct (request_mismatch _ _) eqn:Em; [discriminate|]. inv_pass. bools. subst.
  exists r, s. split_and!; try done.
  match goal with E : check_issuer _ _ = Pass _ |- _ => rename E into Ei end.
  match goal with E : check_signature _ _ _ = Pass _ |- _ => rename E into Es end.
  match goal with E : check_capabilities _ _ = Pass _ |- _ => rename E into Ec end.
  unfold check_issuer in Ei. destruct (issuer_policy policies) as [evaluate|] eqn:Ep; [|discriminate].
  destruct (proof_verifier policies) as [check|] eqn:Ev; [|discriminate]. inv_pass. bools. subst.
  match goal with E : revalidate_decision _ = Ok _ |- _ => apply revalidate_decision_true in E as -> end.
  unfold check_signature in Es. rewrite Ev in Es. inv_pass. bools. subst.
  unfold check_capabilities in Ec. destruct (capability_policy policies) as [supported|] eqn:Ecp; [|discriminate].
  split; try done.
  - by eapply parse_attestation_id.
  - by repeat eexists.
  - by repeat eexists.
  - eexists. split; [done|]. by eapply check_supported_Pass.
Qed.

(** The credential is inside its validity period and not revoked. *)
Definition current_credential (c : Claims) (now : Z) : Prop :=
  (∃ i e issued expires, utc_timestamp (VStr (cl_issued_at c)) = Ok (i, issued) ∧
    utc_timestamp (VStr (cl_expires_at c)) = Ok (e, expires) ∧ (issued ≤ now < expires)%Z) ∧
  ∃ read answer status, revocation_reader policies = Some read ∧
    read (cl_attestation_id c) (cl_credential_instance_id c) (cl_issuer_id c) (cl_key_id c) REVOCATION_CONTRACT_VERSION
      = Ok (Some answer) ∧
    make_status answer = Ok status ∧ rs_version status = REVOCATION_CONTRACT_VERSION ∧
    rs_attestation_revoked status = false ∧ rs_credential_instance_revoked status = false.

Lemma revalidate_status_Ok answer now s :
  revalidate_status answer now = Ok s → ∃ a, answer = Some a ∧ make_status a = Ok s ∧ rs_version s = REVOCATION_CONTRACT_VERSION.
Proof.
  destruct answer as [a|]; [|discriminate]. simpl. destruct (make_status a) as [x|[]] eqn:E; try discriminate.
  intros E'. inv_ok. exists a. split_and!; try done.
  match goal with E : status_validate _ _ = Ok _ |- _ => unfold status_validate in E end. inv_ok. bools. done.
Qed.

Lemma verify_currentness_Pass c now u : verify_currentness policies c now = Pass u → current_credential c now.
Proof.
  unfold verify_currentness. intros E. inv_pass. bools.
  destruct (revocation_reader policies) as [read|] eqn:Er; [|discriminate]. inv_pass.
  match goal with E : read _ _ _ _ _ = Ok ?a |- _ => rename E into Ea, a into answer end.
  destruct (revalidate_status answer now) as [status|e] eqn:Es.
  - inv_pass. apply revalidate_status_Ok in Es as (a & -> & Em & Ev). split; [by repeat eexists|]. by exists read, a, status.
  - destruct e; try discriminate E. by case_bool_decide.
Qed.

(** The challenge of a version 2 envelope was fresh, and is spent. *)
Definition challenge_spent (c : Claims) (object : nat) (monotonic monotonic' : Z) (st st' : BoundaryState) : Prop :=
  claims_v2 c = true → ∃ ch, bs_challenges st !! object = Some ch ∧ ch_consumed ch = false ∧
    (monotonic - ch_issued ch < CHALLENGE_AGE)%Z ∧ (monotonic' - ch_issued ch < CHALLENGE_AGE)%Z ∧
    bs_challenges st' !! object = Some (MkChallenge (ch_issued ch) true).

Lemma verify_challenge_Pass c object m m' st st' :
  verify_challenge c object m m' st = Pass st' →
  challenge_spent c object m m' st st' ∧ bs_requests st' = bs_requests st ∧ bs_tickets st' = bs_tickets st ∧
  bs_events st' = bs_events st ∧ bs_next st' = bs_next st ∧
  (bs_challenges st' = if claims_v2 c then <[object := MkChallenge (default 0%Z (ch_issued <$> bs_challenges st !! object)) true]>
                                         (bs_challenges st) else bs_challenges st).
Proof.
  unfold verify_challenge, challenge_spent. destruct (claims_v2 c); [|by intros [= ->]]. intros E. inv_pass.
  unfold challenge_is_current, consume_challenge in *. destruct (bs_challenges st !! object) as [ch|] eqn:Ec; [|discriminate].
  bools. destruct (ch_consumed ch) eqn:Eu; [discriminate|]. destruct (_ <=? _)%Z eqn:El; [discriminate|]. inv_pass. bools.
  simpl. split_and!; try done. intros _. exists ch. split_and!; try done. by rewrite lookup_insert_eq.
Qed.

Lemma issue_ticket_Pass envelope now token st ticket st' :
  issue_ticket isoformat_micros envelope now token st = Pass (ticket, st') →
  ∃ rec, st' = MkBoundary (bs_requests st) (bs_challenges st) (<[ticket := rec]> (bs_tickets st)) (bs_events st) (S ticket) ∧
    ticket = S (S (bs_next st)) ∧ tk_consumed rec = false ∧ held_value (tk_claims rec) = sa_claims envelope ∧
    held_value (tk_envelope rec) = envelope ∧ tk_envelope_proof rec = sa_proof envelope ∧
    canonical_payload (claims_to_payload (sa_claims envelope)) = Ok (tk_claims_payload rec).
Proof. unfold issue_ticket. intros E. inv_pass. eexists. split; [reflexivity|]. simpl. done. Qed.

(** A verification that answers with a ticket went through every step. *)
Lemma verify_Verified signed request time m m' token st ticket st' :
  verify isoformat_micros policies boundary_id signed request time m m' token st = Ok (Verified ticket, st') →
  ∃ envelope now object st1, verify_binding policies boundary_id signed request time st = Pass (envelope, now, object) ∧
    verify_challenge (sa_claims envelope) object m m' st = Pass st1 ∧
    verify_currentness policies (sa_claims envelope) now = Pass tt ∧
    issue_ticket isoformat_micros envelope now token st1 = Pass (ticket, st').
Proof.
  assert (∀ A (o : step A) s, report o s ≠ Ok (Verified ticket, st')) as Hr by (intros A [| |[]] s; simpl; discriminate).
  unfold verify. destruct (verify_binding _ _ _ _ _ _) as [[[envelope now] object]| |] eqn:Eb; [|by intros ?%Hr..].
  destruct (verify_challenge _ _ _ _ _) as [st1| |] eqn:Ec; [|by intros ?%Hr..].
  destruct (verify_currentness _ _ _) as [[]| |] eqn:Et; [|by intros ?%Hr..].
  destruct (issue_ticket _ _ _ _ _) as [[t st2]| |] eqn:Ei; [|by intros ?%Hr..].
  intros [= -> ->]. by exists envelope, now, object, st1.
Qed.

(** C21: A ticket is handed out only for an envelope whose issuer is trusted, whose proof
    verifies over the canonical text of its claims, whose capabilities are supported and
    cover those the request requires, whose claims are those of the very request this
    boundary made, and whose credential is inside its validity period and not revoked; a
    version 2 envelope has answered the request's challenge, which was fresh and is spent.
    The ticket is unspent and holds exactly that envelope. *)
Theorem verified_attestation_sound signed request time m m' token st ticket st' :
  verify isoformat_micros policies boundary_id signed request time m m' token st = Ok (Verified ticket, st') →
  ∃ r s envelope now rec, request = Some r ∧ signed = Some s ∧ time = Some now ∧
    rq_boundary r = boundary_id ∧ bs_requests st !! rq_object r = Some (rq_values r) ∧
    checked_envelope s envelope ∧
    request_mismatch (sa_claims envelope) (rq_values r) = None ∧
    (∀ x, x ∈ rv_required_capabilities (rq_values r) → x ∈ cl_granted_capabilities (sa_claims envelope)) ∧
    current_credential (sa_claims envelope) now ∧
    challenge_spent (sa_claims envelope) (rq_object r) m m' st st' ∧
    bs_tickets st' !! ticket = Some rec ∧ tk_consumed rec = false ∧
    held_value (tk_envelope rec) = envelope ∧ held_value (tk_claims rec) = sa_claims envelope.
Proof.
  intros (envelope & now & object & st1 & Eb & Ec & Et & Ei)%verify_Verified.
  apply verify_binding_Pass in Eb as (r & s & -> & -> & -> & -> & Hid & Hr & Hc & Hm).
  apply verify_challenge_Pass in Ec as (Hch & _). apply verify_currentness_Pass in Et.
  apply issue_ticket_Pass in Ei as (rec & -> & _ & Hun & Hcl & Hen & _).
  exists r, s, envelope, now, rec. destruct (request_mismatch_None _ _ Hm) as (_ & Hcap & _).
  split_and!; try done. simpl. by rewrite lookup_insert_eq.
Qed.

(** ** Tickets and challenges are spent once *)
Definition boundary_inv (st : BoundaryState) : Prop :=
  (∀ t rec, bs_tickets st !! t = Some rec → t < bs_next st) ∧ (∀ o c, bs_challenges st !! o = Some c → o < bs_next st).

(** How often a ticket, or a challenge, can still be spent *)
Definition ticket_budget (t : nat) (st : BoundaryState) : nat :=
  match bs_tickets st !! t with Some rec => if tk_consumed rec then 0 else 1 | None => 1 end.
Definition challenge_budget (o : nat) (st : BoundaryState) : nat :=
  match bs_challenges st !! o with Some c => if ch_consumed c then 0 else 1 | None => 1 end.

(** A step spends within the budgets. *)
Definition within (st st' : BoundaryState) (e : boundary_call * boundary_answer) : Prop :=
  boundary_inv st' ∧
  (∀ t, (if spends_ticket t e then 1 else 0) + ticket_budget t st' ≤ ticket_budget t st) ∧
  (∀ o, (if spends_challenge o e then 1 else 0) + challenge_budget o st' ≤ challenge_budget o st).

Lemma within_same st e :
  boundary_inv st → (∀ t, spends_ticket t e = false) → (∀ o, spends_challenge o e = false) → within st st e.
Proof. intros Hi Ht Ho. split_and!; [done|intros t; by rewrite Ht|intros o; by rewrite Ho]. Qed.

Lemma create_within values challenge m st :
  boundary_inv st →
  let (a, st') := boundary_step isoformat_micros policies boundary_id (CallCreate values challenge m) st in
  within st st' (CallCreate values challenge m, a).
Proof.
  intros Hi. simpl. destruct (create_request _ _ _ _ _ _) as [[r st']|e] eqn:E; [|by apply within_same].
  unfold create_request in E. inv_checks. destruct (check_capabilities _ _); try discriminate. injection E as <- <-.
  destruct Hi as [Ht Ho]. split_and!; simpl.
  - split; simpl.
    + intros t rec Hr. apply Ht in Hr. lia.
    + intros o c [[<- _]|[_ Hc]]%lookup_insert_Some; [lia|]. apply Ho in Hc. lia.
  - done.
  - intros o. unfold challenge_budget. simpl. destruct (decide (o = bs_next st)) as [->|Hne].
    + rewrite lookup_insert_eq. destruct (bs_challenges st !! bs_next st) as [c|] eqn:Ec; [|done]. apply Ho in Ec. lia.
    + by rewrite lookup_insert_ne by done.
Qed.

(** What a verification does to the boundary when it answers without a ticket *)
Lemma verify_Failed signed request time m m' token st code st' :
  verify isoformat_micros policies boundary_id signed request time m m' token st = Ok (VerificationFailed code, st') →
  st' = st ∨ ∃ c object, verify_challenge c object m m' st = Pass st'.
Proof.
  assert (∀ A (o : step A) s v s', report o s = Ok (v, s') → s' = s) as Hr by (intros A [| |[]] s v s'; simpl; congruence).
  unfold verify. destruct (verify_binding _ _ _ _ _ _) as [[[envelope now] object]| |] eqn:Eb; [|intros ->%Hr; by left..].
  destruct (verify_challenge _ _ _ _ _) as [st1| |] eqn:Ec; [|intros ->%Hr; by left..].
  destruct (verify_currentness _ _ _) as [[]| |] eqn:Et; [|intros ->%Hr; right; by eexists _, _..].
  destruct (issue_ticket _ _ _ _ _) as [[t st2]| |] eqn:Ei; [discriminate|intros ->%Hr; right; by eexists _, _..].
Qed.

Lemma challenge_step c object m m' st st' :
  boundary_inv st → verify_challenge c object m m' st = Pass st' →
  boundary_inv st' ∧ (∀ t, ticket_budget t st' = ticket_budget t st) ∧
  (∀ o, (if claims_v2 c && (object =? o) then 1 else 0) + challenge_budget o st' ≤ challenge_budget o st).
Proof.
  intros [Ht Ho] E. apply verify_challenge_Pass in E as (Hs & _ & Et & _ & En & Ec). split_and!.
  - split; [by rewrite Et, En|]. rewrite Ec, En. destruct (claims_v2 c) eqn:V; [|done].
    destruct (Hs V) as (ch & Hch & _). intros o x [[<- _]|[_ Hx]]%lookup_insert_Some; by eapply Ho.
  - intros t. unfold ticket_budget. by rewrite Et.
  - intros o. unfold challenge_budget. rewrite Ec. destruct (claims_v2 c) eqn:V; [|done]. destruct (Hs V) as (ch & Hch & Hu & _).
    simpl. destruct (Nat.eqb_spec object o) as [<-|Hne].
    + rewrite lookup_insert_eq, Hch. simpl. rewrite Hu. done.
    + rewrite lookup_insert_ne; done.
Qed.

Lemma verify_within signed request time m m' token st :
  boundary_inv st →
  let (a, st') := boundary_step isoformat_micros policies boundary_id (CallVerify signed request time m m' token) st in
  within st st' (CallVerify signed request time m m' token, a).
Proof.
  intros Hi. simpl. destruct (verify _ _ _ _ _ _ _ _ _ _) as [[[ticket|code] st']|e] eqn:E.
  - apply verify_Verified in E as (envelope & now & object & st1 & Eb & Ec & _ & Ei).
    apply verify_binding_Pass in Eb as (r & s & -> & _ & _ & -> & _).
    destruct (challenge_step _ _ _ _ _ _ Hi Ec) as ([Ht Ho] & Hbt & Hbc).
    apply issue_ticket_Pass in Ei as (rec & -> & -> & Hun & Hcl & _). split_and!.
    + split; simpl.
      * intros t x [[<- _]|[_ Hx]]%lookup_insert_Some; [lia|]. apply Ht in Hx. lia.
      * intros o x Hx. apply Ho in Hx. lia.
    + intros t. simpl. rewrite <- Hbt. unfold ticket_budget. simpl.
      destruct (decide (t = S (S (bs_next st1)))) as [->|Hne]; [|by rewrite lookup_insert_ne].
      rewrite lookup_insert_eq, Hun. destruct (bs_tickets st1 !! _) as [x|] eqn:Ex; [|done]. apply Ht in Ex. lia.
    + intros o. specialize (Hbc o). unfold challenge_budget in *. simpl in *. rewrite lookup_insert_eq, Hcl.
      by destruct (claims_v2 (sa_claims envelope)).
  - apply verify_Failed in E as [->|(c & object & Ec)].
    + apply within_same; [done|done|]. by intros o; destruct request.
    + destruct (challenge_step _ _ _ _ _ _ Hi Ec) as (Hi' & Hbt & Hbc). split_and!; [done|intros t; by rewrite Hbt|].
      intros o. specialize (Hbc o). simpl. destruct request; simpl; destruct (claims_v2 c && (object =? o)); lia.
  - apply within_same; [done|done|]. by intros o; destruct request.
Qed.

Lemma consume_budget ticket st rec st' :
  boundary_inv st → consume_ticket_record ticket st = Ok (rec, st') →
  boundary_inv st' ∧ (∀ t, (if ticket =? t then 1 else 0) + ticket_budget t st' ≤ ticket_budget t st) ∧
  bs_challenges st' = bs_challenges st ∧ bs_next st' = bs_next st.
Proof.
  unfold consume_ticket_record. intros [Ht Ho] E. destruct (bs_tickets st !! ticket) as [x|] eqn:Ex; [|discriminate].
  inv_ok. split_and!; simpl; try done.
  - split; simpl; [|done]. intros t y [[<- _]|[_ Hy]]%lookup_insert_Some; by eapply Ht.
  - intros t. unfold ticket_budget. simpl. destruct (Nat.eqb_spec ticket t) as [<-|Hne].
    + rewrite lookup_insert_eq, Ex. by match goal with E : tk_consumed x = false |- _ => rewrite E end.
    + by rewrite lookup_insert_ne.
Qed.

Lemma step_within c st :
  boundary_inv st →
  let (a, st') := boundary_step isoformat_micros policies boundary_id c st in within st st' (c, a).
Proof.
  intros Hi. destruct c as [values ch m|signed request time m m' token|t|t].
  - by apply create_within.
  - by apply verify_within.
  - simpl. unfold consume_ticket. destruct (consume_ticket_record t st) as [[rec st']|e] eqn:E; [|by apply within_same].
    destruct (consume_budget _ _ _ _ Hi E) as (Hi' & Hb & Hc & _).
    split_and!; [done|done|]. intros o. unfold challenge_budget. by rewrite Hc.
  - simpl. unfold consume_verified_event. destruct (consume_ticket_record t st) as [[rec st']|e] eqn:E; [|by apply within_same].
    destruct (consume_budget _ _ _ _ Hi E) as ([Ht Ho] & Hb & Hc & _).
    split_and!; [split; simpl|done|].
    + intros x y Hx. apply Ht in Hx. lia.
    + intros x y Hx. apply Ho in Hx. lia.
    + intros o. unfold challenge_budget. simpl. by rewrite Hc.
Qed.

Lemma run_within calls st :
  boundary_inv st →
  let (trace, st') := boundary_run isoformat_micros policies boundary_id calls st in
  (∀ t, count_calls (spends_ticket t) trace + ticket_budget t st' ≤ ticket_budget t st) ∧
  (∀ o, count_calls (spends_challenge o) trace + challenge_budget o st' ≤ challenge_budget o st).
Proof.
  revert st; induction calls as [|c calls IH]; intros st Hi; simpl; [done|].
  pose proof (step_within c st Hi) as Hs. destruct (boundary_step _ _ _ c st) as [a st1]. destruct Hs as (Hi1 & Ht & Ho).
  specialize (IH st1 Hi1). destruct (boundary_run _ _ _ calls st1) as [trace st2]. destruct IH as [IHt IHo].
  unfold count_calls in *. split.
  - intros t. specialize (Ht t). specialize (IHt t). cbn [List.filter]. destruct (spends_ticket t (c, a)); simpl; lia.
  - intros o. specialize (Ho o). specialize (IHo o). cbn [List.filter]. destruct (spends_challenge o (c, a)); simpl; lia.
Qed.

(** C22: Over any sequence of calls on a boundary, a ticket yields its claims or its event at
    most once, and at most one version 2 verification succeeds on the challenge of a
    request. *)
Theorem attestation_single_use calls ticket object :
  let trace := fst (boundary_run isoformat_micros policies boundary_id calls empty_boundary) in
  count_calls (spends_ticket ticket) trace ≤ 1 ∧ count_calls (spends_challenge object) trace ≤ 1.
Proof.
  pose proof (run_within calls empty_boundary) as Hr. destruct (boundary_run _ _ _ calls _) as [trace st'].
  destruct Hr as [Ht Ho]; [by split; simpl; intros *; rewrite lookup_empty|].
  specialize (Ht ticket). specialize (Ho object). unfold ticket_budget, challenge_budget in *. simpl in *. rewrite !lookup_empty in *. lia.
Qed.
End facts.
