(* ===== verification/Context.v ===== *)
(** * Execution contexts (delivery_system/runtime.py)

    An execution context is created by the runtime service for one application
    authority; it snapshots the approved operations and builds the live artifacts (states,
    attempts, receipts) the store accepts.  Whether the authority is still current is
    decided outside this library (credential registries, stores, the clock): each call
    of [validate_execution_context] gets that answer as an argument. *)
From S2P Require Import Prelude PyValue Strings Canonical WriteOperations Identity Receipts ExecutionState.

(** The lookup of the context's authority in the service: registered at all, accepted by
    [validate_application_authority], and the very object the context holds. *)
Record authority_answer := Answer { registered : bool; accepted : bool; same_object : bool }.
Definition authority_ok : authority_answer := Answer true true true.

Record RuntimeService := Service { svc_id : nat; _write_orchestration_enabled : bool }.

(** ** [_execution_operations] *)
Definition tagged_ref (e : endpoint) : string :=
  match e with
  | (work_item, r) => "work_item:" +:+ r
  | (existing_issue, r) => "existing_issue:" +:+ r
  end.

Definition encode_operation_v2 (op : operation_v2) : operation :=
  match op with
  | CreateV2 r _ => Operation "create_issue" [r] []
  | RelationV2 kind a b _ => Operation kind [tagged_ref a; tagged_ref b] []
  end.

Definition _execution_operations (canonical : pyval) : result (list operation) :=
  let intents := get_default canonical "operation_intents" (VList []) in
  if py_eq (get canonical "canonical_version") (VStr "2") then
    let! ops := normalize_write_operations_v2 intents in Ok (map encode_operation_v2 ops)
  else normalize_write_operations intents.

(** ** [_freeze_runtime_value] and [_thaw_runtime_value] *)
Fixpoint _freeze_runtime_value (v : pyval) : pyval :=
  match v with
  | VDict d => VDict (map (λ p, (fst p, _freeze_runtime_value (snd p))) d)
  | VList l | VTuple l => VTuple (map _freeze_runtime_value l)
  | VSet l => VSet (map _freeze_runtime_value l)
  | _ => v
  end.
Fixpoint _thaw_runtime_value (v : pyval) : pyval :=
  match v with
  | VDict d => VDict (map (λ p, (fst p, _thaw_runtime_value (snd p))) d)
  | VTuple l => VList (map _thaw_runtime_value l)
  | VSet l => VSet (map _thaw_runtime_value l)
  | _ => v
  end.

(** ** The context and the snapshot the registry keeps of it *)
Record snapshot := Snapshot {
  sn_authority : ApplicationAuthority;
  sn_identity : logical_values;
  sn_anchor : CredentialContinuityAnchor;
  sn_operations : list operation;
  sn_operation_digest : string;
  sn_items : list pyval;
  sn_canonical_version : pyval;
  sn_endpoint_bindings : list pyval;
  sn_remote_snapshot : pyval;
}.
#[export] Instance snapshot_eq_dec : EqDecision snapshot.
Proof. solve_decision. Defined.

Record Context := MkContext {
  ctx_token : nat;                      (** its object identity *)
  ctx_service : nat;
  ctx_authority : ApplicationAuthority;
  ctx_identity : LogicalApplicationIdentity;
  continuity_anchor : CredentialContinuityAnchor;
  _expected_operations : list operation;
  ctx_operation_set_digest : string;
  _provenance : AuthorityProvenance;
  _items : list pyval;
  _canonical_version : pyval;
  _existing_endpoint_bindings : list pyval;
  _remote_snapshot : pyval;
  ctx_registry_entry : option snapshot; (** its entry of [_execution_context_registry] *)
}.

Definition canonical_items (c : Context) : list pyval := map _thaw_runtime_value (_items c).
Definition ctx_application_id (c : Context) : string := _application_id (ctx_identity c).
Definition ctx_repository_identity (c : Context) : string :=
  repository_identity (au_binding (ctx_authority c)).

Section context.
Context `{PyLib}.

(** ** [create_execution_context]
    [authority] is what [resolve_application_authority] returned and [canonical_preview]
    the canonical payload of the audited preview. *)
Definition sealed_ref (entry : pyval) : result pyval :=
  match entry with VDict _ => Ok (get entry "client_ref") | _ => Err (AttributeError "get") end.

Definition projected_items (canonical_preview : pyval) : result (list pyval) :=
  let semantic_payload := get canonical_preview "semantic_payload" in
  let items := if is_mapping semantic_payload then get_default semantic_payload "work_items" (VList [])
               else VList [] in
  match items with
  | VList l =>
      raise "sealed_item_projection_invalid" when negb (forallb is_mapping l) ;
      match nonempty_strs (map (λ i, get i "client_ref") l) with
      | None => Err (ValueError "sealed_item_projection_invalid")
      | Some refs =>
          raise "sealed_item_projection_invalid" when negb (no_dups refs) ;
          match get_default canonical_preview "items" (VList []) with
          | VList sealed =>
              let! sealed_refs := map_r sealed_ref sealed in
              raise "sealed_item_projection_invalid"
                when negb (py_eq (VList sealed_refs) (vstrs refs)) ;
              raise "sealed_item_projection_invalid"
                when negb (forallb (λ e, is_nonempty_str (get e "item_id")) sealed) ;
              Ok l
          | _ => Err (ValueError "sealed_item_projection_invalid")
          end
      end
  | _ => Err (ValueError "sealed_item_projection_invalid")
  end.

(** [tuple(value)] of a JSON list; other values are unmodelled. *)
Definition tuple_of (v : pyval) : result (list pyval) :=
  match as_sequence v with Some l => Ok l | None => Err (Unmodelled "tuple") end.

Definition create_execution_context (svc : RuntimeService) (token : nat)
    (authority : ApplicationAuthority) (canonical_preview : pyval) : result Context :=
  raise "operation_set_mismatch" when negb (is_mapping canonical_preview) ;
  let! operations := _execution_operations canonical_preview in
  let! identity := identity_from_authority (authority_to_dict authority) in
  let values := _values identity in
  raise "operation_set_mismatch"
    when negb (py_eq (get canonical_preview "operation_set_digest") (VStr (operation_set_digest values))) ;
  let! anchor := anchor_from_authority authority in
  let! bindings := tuple_of (get_default canonical_preview "existing_endpoint_bindings" (VList [])) in
  let version := get canonical_preview "canonical_version" in
  let remote := get canonical_preview "remote_snapshot" in
  let! items := projected_items canonical_preview in
  let frozen := map _freeze_runtime_value items in
  let! provenance := provenance_from_live_authority authority in
  Ok (MkContext token (svc_id svc) authority identity anchor operations (operation_set_digest values)
        provenance frozen version bindings remote
        (Some (Snapshot authority values anchor operations (operation_set_digest values) frozen version
                 bindings remote))).

(** ** [validate_execution_context] and [validate_live_artifact] *)
Definition context_snapshot (c : Context) : snapshot :=
  Snapshot (ctx_authority c) (_values (ctx_identity c)) (continuity_anchor c) (_expected_operations c)
    (ctx_operation_set_digest c) (_items c) (_canonical_version c) (_existing_endpoint_bindings c)
    (_remote_snapshot c).

Definition validate_execution_context (svc : RuntimeService) (answer : authority_answer) (c : Context)
  : result unit :=
  match ctx_registry_entry c with
  | None => Err (ValueError "runtime_context_owner_mismatch")
  | Some entry =>
      raise "runtime_context_owner_mismatch" when negb (ctx_service c =? svc_id svc) ;
      raise "runtime_authority_invalid" when negb (registered answer) || negb (accepted answer) ;
      raise "runtime_context_owner_mismatch" when negb (same_object answer) ;
      raise "runtime_context_owner_mismatch" when negb (bool_decide (context_snapshot c = entry)) ;
      let! identity := identity_from_authority (authority_to_dict (sn_authority entry)) in
      let! anchor := anchor_from_authority (sn_authority entry) in
      let! operations :=
        normalize_write_operations (VTuple (map operation_dict (_expected_operations c))) in
      raise "runtime_context_owner_mismatch"
        when negb (bool_decide (_values identity = sn_identity entry)
                   && bool_decide (anchor = sn_anchor entry)
                   && bool_decide (operations = sn_operations entry)
                   && bool_decide (sn_operation_digest entry = operation_set_digest (sn_identity entry))) ;
      Ok tt
  end.

Definition validate_live_artifact (svc : RuntimeService) (answer : authority_answer)
    (live_context : option nat) (live_entry : live_entry_t) (c : Context) (expected_kind : artifact_kind)
  : result unit :=
  let! _ := validate_execution_context svc answer c in
  raise "runtime_authority_required"
    when negb (bool_decide (live_entry = Some (ctx_token c, expected_kind))
               && bool_decide (live_context = Some (ctx_token c))) ;
  Ok tt.

Definition live_execution (svc : RuntimeService) (answer : authority_answer) (s : ApplicationExecutionState)
    (c : Context) : result unit :=
  validate_live_artifact svc answer (as_live_context s) (as_live_entry s) c kind_execution.
Definition live_attempt (svc : RuntimeService) (answer : authority_answer) (a : OperationAttemptState)
    (c : Context) : result unit :=
  validate_live_artifact svc answer (at_live_context a) (at_live_entry a) c kind_attempt.
Definition live_operation_receipt (svc : RuntimeService) (answer : authority_answer) (r : OperationReceipt)
    (c : Context) : result unit :=
  validate_live_artifact svc answer (or_live_context r) (or_live_entry r) c kind_operation_receipt.
Definition live_application_receipt (svc : RuntimeService) (answer : authority_answer)
    (r : ApplicationReceipt) (c : Context) : result unit :=
  validate_live_artifact svc answer (ar_live_context r) (ar_live_entry r) c kind_application_receipt.

(** ** [RuntimeApplicationExecutionContext]: constructors of live artifacts *)

(** [new_execution_state] with the values the applier passes *)
Definition new_execution_state (svc : RuntimeService) (answer : authority_answer) (c : Context)
    (st : exec_state) (next : nat) (owner attempt recovery : option string) (refs : list string)
    (started_at updated_at : string) (completed_at policy : option string)
  : result ApplicationExecutionState :=
  let! _ := validate_execution_context svc answer c in
  let! s := execution_state_check
    (ExecState (ctx_application_id c) (ctx_identity c) st next owner attempt recovery refs started_at
       updated_at completed_at (continuity_anchor c) policy "" (Some (ctx_token c)) None) in
  Ok (execution_state_register (ctx_token c) s).

(** The keyword arguments of [continue_execution_state]: [None] keeps the old value. *)
Record execution_changes := Changes {
  ch_state : exec_state;
  ch_next : option nat;
  ch_owner : option (option string);
  ch_attempt : option (option string);
  ch_recovery : option (option string);
  ch_refs : option (list string);
  ch_updated_at : string;
  ch_completed_at : option (option string);
}.

Definition continue_execution_state (svc : RuntimeService) (answer : authority_answer) (c : Context)
    (historical : ApplicationExecutionState) (changes : execution_changes)
  : result ApplicationExecutionState :=
  let! _ := validate_execution_context svc answer c in
  let! intact := execution_state_verify_integrity historical in
  raise "historical_execution_invalid" when negb intact ;
  raise "credential_continuity_mismatch"
    when negb (bool_decide (_values (as_identity historical) = _values (ctx_identity c))
               && bool_decide (as_application_id historical = ctx_application_id c)
               && bool_decide (as_continuity_anchor historical = continuity_anchor c)) ;
  let! s := execution_state_check
    (ExecState (as_application_id historical) (ctx_identity c) (ch_state changes)
       (default (as_next_operation_index historical) (ch_next changes))
       (default (as_owner_id historical) (ch_owner changes))
       (default (as_current_attempt_id historical) (ch_attempt changes))
       (default (as_recovery_code historical) (ch_recovery changes))
       (default (as_operation_receipt_refs historical) (ch_refs changes))
       (as_started_at historical) (ch_updated_at changes)
       (default (as_completed_at historical) (ch_completed_at changes))
       (continuity_anchor c) (as_orchestration_policy historical) "" (Some (ctx_token c)) None) in
  Ok (execution_state_register (ctx_token c) s).

Definition new_attempt (svc : RuntimeService) (answer : authority_answer) (c : Context) (index : nat)
    (st : exec_state) (started_at updated_at : string) : result OperationAttemptState :=
  let! _ := validate_execution_context svc answer c in
  match _expected_operations c !! index with
  | None => Err IndexError
  | Some op =>
      let! op_id := operation_identity (ctx_application_id c) index op in
      let! request := request_identity op_id in
      let! canonical := normalize_operation (operation_dict op) in
      let! a := attempt_check
        (AttemptState (ctx_application_id c) op_id index canonical (_provenance c)
           (driver_identity (au_binding (ctx_authority c))) (remote_authority (au_binding (ctx_authority c)))
           request st started_at updated_at (ctx_identity c) None "" (Some (ctx_token c)) None) in
      Ok (attempt_register (ctx_token c) a)
  end.

(** The anchor of the authority an attempt was made under *)
Definition provenance_anchor (old : AuthorityProvenance) : result CredentialContinuityAnchor :=
  if negb (bool_decide (pv_credential_principal_identity old = "")) then
    make_anchor (VStr "PRINCIPAL") [VStr (pv_credential_principal_identity old)]
  else make_anchor (VStr "LEGACY_INSTANCE") [VStr (pv_issuer_id old); VStr (pv_credential_instance_id old)].

Definition continue_attempt (svc : RuntimeService) (answer : authority_answer) (c : Context)
    (historical : OperationAttemptState) (st : exec_state) (updated_at : string)
    (failure_code : option (option string)) : result OperationAttemptState :=
  let! _ := validate_execution_context svc answer c in
  let! intact := attempt_verify_integrity historical in
  raise "historical_attempt_invalid" when negb intact ;
  let binding_invalid := Err (ValueError "operation_attempt_binding_invalid") in
  match _expected_operations c !! at_operation_index historical with
  | None => binding_invalid
  | Some expected =>
      raise "operation_attempt_binding_invalid"
        when negb (bool_decide (_values (at_identity historical) = _values (ctx_identity c))
                   && bool_decide (at_application_id historical = ctx_application_id c)
                   && bool_decide (at_operation historical = expected)) ;
      let! op_id := operation_identity (ctx_application_id c) (at_operation_index historical) expected in
      raise "operation_attempt_binding_invalid"
        when negb (bool_decide (at_operation_identity historical = op_id)) ;
      let! request := request_identity (at_operation_identity historical) in
      raise "operation_attempt_binding_invalid"
        when negb (bool_decide (at_request_identity historical = request)) ;
      let! old_anchor := provenance_anchor (at_authority_binding historical) in
      raise "credential_continuity_mismatch"
        when negb (bool_decide (old_anchor = continuity_anchor c)
                   && bool_decide (at_driver_identity historical
                                   = driver_identity (au_binding (ctx_authority c)))
                   && bool_decide (at_remote_authority historical
                                   = remote_authority (au_binding (ctx_authority c)))) ;
      let! a := attempt_check
        (AttemptState (at_application_id historical) (at_operation_identity historical)
           (at_operation_index historical) (at_operation historical) (at_authority_binding historical)
           (at_driver_identity historical) (at_remote_authority historical) (at_request_identity historical)
           st (at_started_at historical) updated_at (ctx_identity c)
           (default (at_failure_code historical) failure_code) "" (Some (ctx_token c)) None) in
      Ok (attempt_register (ctx_token c) a)
  end.

(** [OperationReceipt.create], called by [new_receipt] with the context as authority *)
Definition operation_receipt_create (svc : RuntimeService) (answer : authority_answer) (c : Context)
    (index : nat) (op : operation) (remote : pyval) (started_at completed_at : string)
  : result OperationReceipt :=
  let! _ := validate_execution_context svc answer c in
  let! canonical := normalize_operation (operation_dict op) in
  raise "operation_receipt_binding_invalid"
    when negb (bool_decide (_expected_operations c !! index = Some canonical)) ;
  let! op_id := operation_identity (ctx_application_id c) index canonical in
  let! rid := operation_receipt_id_of op_id in
  let! request := request_identity op_id in
  let! provenance := provenance_from_live_authority (ctx_authority c) in
  let! result := _remote_result remote in
  let! r := operation_receipt_check
    (OpReceipt rid (ctx_application_id c) (ctx_identity c) op_id index canonical request provenance result
       started_at completed_at "" (Some (ctx_token c)) None) in
  operation_receipt_with_digest r.

Definition new_receipt (svc : RuntimeService) (answer answer' : authority_answer) (c : Context)
    (index : nat) (remote : pyval) (started_at completed_at : string) : result OperationReceipt :=
  let! _ := validate_execution_context svc answer c in
  match _expected_operations c !! index with
  | None => Err IndexError
  | Some op =>
      let! r := operation_receipt_create svc answer' c index op remote started_at completed_at in
      Ok (operation_receipt_register (ctx_token c) r)
  end.

Definition new_application_receipt_from_refs (svc : RuntimeService) (answer : authority_answer)
    (c : Context) (refs : list receipt_ref) (started_at completed_at : string) : result ApplicationReceipt :=
  let! _ := validate_execution_context svc answer c in
  let! rid := application_receipt_id_of (ctx_application_id c) in
  let! r := application_receipt_check
    (AppReceipt rid (ctx_application_id c) (ctx_identity c) (ctx_operation_set_digest c) refs "Applied"
       started_at completed_at "" (Some (ctx_token c)) None) in
  let! r := application_receipt_with_digest r in
  Ok (application_receipt_register (ctx_token c) r).

(** [_with_live_digest] *)
Definition live_digest_execution (c : Context) (s : ApplicationExecutionState)
  : result ApplicationExecutionState :=
  let! s := execution_state_with_digest s in Ok (execution_state_register (ctx_token c) s).
Definition live_digest_attempt (c : Context) (a : OperationAttemptState) : result OperationAttemptState :=
  let! a := attempt_with_digest a in Ok (attempt_register (ctx_token c) a).

(** [ApplicationReceipt.create], called by [finalize_application_receipt] *)
Fixpoint receipt_refs_of (app : string) (index : nat) (operations : list operation)
    (receipts : list OperationReceipt) : result (list receipt_ref) :=
  match operations, receipts with
  | op :: operations', receipt :: receipts' =>
      let! intact := operation_receipt_verify_integrity receipt in
      let! expected := operation_identity app index op in
      raise "application_receipt_incomplete"
        when negb intact || negb (bool_decide (or_application_id receipt = app))
             || negb (or_operation_index receipt =? index)
             || negb (bool_decide (or_operation_identity receipt = expected)) ;
      let! refs := receipt_refs_of app (S index) operations' receipts' in
      Ok (ReceiptRef (or_operation_receipt_id receipt) (or_receipt_digest receipt) :: refs)
  | _, _ => Ok []
  end.

Definition finalize_application_receipt (svc : RuntimeService) (answer : authority_answer) (c : Context)
    (receipts : list OperationReceipt) (started_at completed_at : string) : result ApplicationReceipt :=
  let! _ := validate_execution_context svc answer c in
  raise "application_finalization_invalid" when bool_decide (length receipts = 0) ;
  let contexts := map or_live_context receipts in
  raise "runtime_authority_required"
    when bool_decide (head contexts = Some None)
         || existsb (λ t, negb (bool_decide (Some t = head contexts))) contexts ;
  if negb (bool_decide (head contexts = Some (Some (ctx_token c)))) then Err (Unmodelled "other context") else
  let! operations := normalize_write_operations (VList (map operation_dict (_expected_operations c))) in
  raise "application_finalization_invalid" when negb (bool_decide (operations = _expected_operations c)) ;
  raise "application_receipt_binding_invalid"
    when negb (bool_decide (ctx_operation_set_digest c = operation_set_digest (_values (ctx_identity c)))) ;
  raise "application_receipt_incomplete" when negb (length operations =? length receipts) ;
  let! refs := receipt_refs_of (ctx_application_id c) 0 operations receipts in
  let! rid := application_receipt_id_of (ctx_application_id c) in
  let! r := application_receipt_check
    (AppReceipt rid (ctx_application_id c) (ctx_identity c) (ctx_operation_set_digest c) refs "Applied"
       started_at completed_at "" (Some (ctx_token c)) None) in
  let! r := application_receipt_with_digest r in
  Ok (application_receipt_register (ctx_token c) r).
End context.
