(* ===== verification/ExecutionStore.v ===== *)
(** * The execution store (delivery_system/execution_store.py)

    The SQLite tables are finite maps from primary keys to rows.  A row is a stored JSON
    text: [Doc] of the value it decodes to, or [Garbage] when it does not decode.  A
    method runs its checks and its one [BEGIN IMMEDIATE] transaction; an exception before
    [commit] rolls back, so a transaction body is a function to a result that carries the
    new tables.  [valid k] answers the [k]-th validation of the execution context during
    the call. *)
From S2P Require Import Prelude PyValue Strings Canonical WriteOperations Identity Receipts ExecutionState.
From S2P Require Import Clock Context.

Inductive row := Doc (v : pyval) | Garbage.
#[export] Instance row_eq_dec : EqDecision row.
Proof. solve_decision. Defined.

(** [Class] called with the entries of [json.loads(text)] *)
Definition load {A} (from_doc : pyval → result A) (r : row) : result A :=
  match r with Doc v => from_doc v | Garbage => Err JSONDecodeError end.

(** [except (TypeError, ValueError, json.JSONDecodeError): raise ValueError(code)] *)
Definition recode_load {A} (code : string) (c : result A) : result A :=
  match c with
  | Ok a => Ok a
  | Err e => match e with
             | TypeError _ | ValueError _ | JSONDecodeError => Err (ValueError code)
             | _ => Err e
             end
  end.

Record Db := MkDb {
  application_execution : gmap (string * string) row;
  operation_attempts : gmap (string * string * string) row;
  operation_receipts : gmap (string * string * string) row;
  application_receipts : gmap (string * string) row;
}.
#[export] Instance db_eq_dec : EqDecision Db.
Proof. solve_decision. Defined.

Definition put_execution k r (db : Db) : Db :=
  MkDb (<[k := r]> (application_execution db)) (operation_attempts db) (operation_receipts db)
    (application_receipts db).
Definition put_attempt k r (db : Db) : Db :=
  MkDb (application_execution db) (<[k := r]> (operation_attempts db)) (operation_receipts db)
    (application_receipts db).
Definition put_operation_receipt k r (db : Db) : Db :=
  MkDb (application_execution db) (operation_attempts db) (<[k := r]> (operation_receipts db))
    (application_receipts db).
Definition put_application_receipt k r (db : Db) : Db :=
  MkDb (application_execution db) (operation_attempts db) (operation_receipts db)
    (<[k := r]> (application_receipts db)).

(** [INSERT] without a conflict clause: an existing key violates the primary key. *)
Definition insert_attempt k r (db : Db) : result Db :=
  if bool_decide (is_Some (operation_attempts db !! k)) then Err (IntegrityError "operation_attempts")
  else Ok (put_attempt k r db).
Definition insert_operation_receipt k r (db : Db) : result Db :=
  if bool_decide (is_Some (operation_receipts db !! k)) then Err (IntegrityError "operation_receipts")
  else Ok (put_operation_receipt k r db).
Definition insert_application_receipt k r (db : Db) : result Db :=
  if bool_decide (is_Some (application_receipts db !! k)) then Err (IntegrityError "application_receipts")
  else Ok (put_application_receipt k r db).

(** ** The store object and the orchestration capability *)
Record SQLiteExecutionStore := Store {
  st_id : nat;
  workspace : string;
  runtime_service : option RuntimeService;
}.
Record _ApplierCapability := Capability { cap_service : nat; cap_store : nat }.

Definition orchestrated (st : SQLiteExecutionStore) : bool :=
  match runtime_service st with Some svc => _write_orchestration_enabled svc | None => false end.

(** [_require_orchestration_capability]: the service, once the capability is valid *)
Definition _require_orchestration_capability (st : SQLiteExecutionStore) (cap : _ApplierCapability)
  : result RuntimeService :=
  match runtime_service st with
  | Some svc =>
      raise "applier_orchestration_required"
        when negb (_write_orchestration_enabled svc)
             || negb ((cap_service cap =? svc_id svc) && (cap_store cap =? st_id st)) ;
      Ok svc
  | None => Err (ValueError "applier_orchestration_required")
  end.

Definition _reject_generic_when_orchestrated (st : SQLiteExecutionStore) : result unit :=
  raise "applier_orchestration_required" when orchestrated st ; Ok tt.

Definition is_managed (s : ApplicationExecutionState) : bool :=
  bool_decide (as_orchestration_policy s = Some APPLIER_ORCHESTRATION_POLICY).

Section store.
Context `{PyLib}.
Variable st : SQLiteExecutionStore.

Definition app_key (app : string) : string * string := (workspace st, app).
Definition op_key (app op : string) : string * string * string := (workspace st, app, op).

(** [state.verify_integrity()] as a guard *)
Definition intact_execution (s : ApplicationExecutionState) : result bool := execution_state_verify_integrity s.

(** [_durable_application_policy] and the guard built on it *)
Definition _durable_application_policy (db : Db) (app : string) : result (option string) :=
  match application_execution db !! app_key app with
  | None => Ok None
  | Some r =>
      let! s := recode_load "state_integrity_invalid" (load execution_state_from_doc r) in
      let! intact := intact_execution s in
      raise "state_integrity_invalid" when negb intact ; Ok (as_orchestration_policy s)
  end.

Definition _reject_durable_managed (db : Db) (app : string) : result unit :=
  let! policy := _durable_application_policy db app in
  raise "applier_orchestration_required"
    when bool_decide (policy = Some APPLIER_ORCHESTRATION_POLICY) ; Ok tt.

Definition _require_durable_policy (db : Db) (app : string) : result unit :=
  let! policy := _durable_application_policy db app in
  raise "application_orchestration_policy_mismatch"
    when negb (bool_decide (policy = Some APPLIER_ORCHESTRATION_POLICY)) ; Ok tt.

(** ** Reads *)
Definition _load_execution_state (app : string) (db : Db) : result ApplicationExecutionState :=
  match application_execution db !! app_key app with
  | None => Err (ValueError "application_not_found")
  | Some r =>
      let! s := recode_load "state_integrity_invalid" (load execution_state_from_doc r) in
      raise "application_binding_conflict"
        when negb (bool_decide (as_application_id s = app))
             || negb (bool_decide (workspace_identity (_values (as_identity s)) = workspace st)) ;
      let! intact := intact_execution s in
      raise "state_integrity_invalid" when negb intact ; Ok s
  end.

Definition get_execution_bootstrap (app : string) (db : Db) : result LogicalApplicationIdentity :=
  let! s := _load_execution_state app db in Ok (as_identity s).

Definition get_attempt (app op : string) (db : Db) : result OperationAttemptState :=
  match operation_attempts db !! op_key app op with
  | None => Err (ValueError "operation_attempt_not_found")
  | Some r =>
      let! a := recode_load "attempt_integrity_invalid" (load attempt_from_doc r) in
      raise "operation_attempt_binding_conflict"
        when negb (bool_decide (at_application_id a = app)) || negb (bool_decide (at_operation_identity a = op)) ;
      raise "operation_attempt_binding_conflict"
        when negb (bool_decide (workspace_identity (_values (at_identity a)) = workspace st)) ;
      let! intact := attempt_verify_integrity a in
      raise "attempt_integrity_invalid" when negb intact ; Ok a
  end.

Definition get_operation_receipt (app op : string) (db : Db) : result OperationReceipt :=
  match operation_receipts db !! op_key app op with
  | None => Err (ValueError "operation_receipt_not_found")
  | Some r =>
      let! x := recode_load "receipt_integrity_invalid" (load operation_receipt_from_doc r) in
      raise "receipt_binding_conflict"
        when negb (bool_decide (or_application_id x = app)) || negb (bool_decide (or_operation_identity x = op)) ;
      raise "workspace_mismatch"
        when negb (bool_decide (workspace_identity (_values (or_identity x)) = workspace st)) ;
      let! intact := operation_receipt_verify_integrity x in
      raise "receipt_integrity_invalid" when negb intact ; Ok x
  end.

Definition get_application_receipt (app : string) (db : Db) : result ApplicationReceipt :=
  match application_receipts db !! app_key app with
  | None => Err (ValueError "application_receipt_not_found")
  | Some r =>
      let! x := recode_load "application_receipt_integrity_invalid" (load application_receipt_from_doc r) in
      raise "application_binding_conflict" when negb (bool_decide (ar_application_id x = app)) ;
      raise "workspace_mismatch"
        when negb (bool_decide (workspace_identity (_values (ar_identity x)) = workspace st)) ;
      let! intact := application_receipt_verify_integrity x in
      raise "application_receipt_integrity_invalid" when negb intact ; Ok x
  end.

(** The receipts behind the references of an applied application, in order *)
Fixpoint replay_receipts (app : string) (index : nat) (expected : list operation) (refs : list receipt_ref)
    (db : Db) : result (list OperationReceipt) :=
  match expected, refs with
  | op :: expected', x :: refs' =>
      let! op_id := operation_identity app index op in
      let! receipt :=
        match get_operation_receipt app op_id db with
        | Ok r => Ok r
        | Err (ValueError code) =>
            Err (ValueError (if bool_decide (code = "operation_receipt_not_found") then code
                             else "receipt_integrity_invalid"))
        | Err JSONDecodeError => Err (ValueError "receipt_integrity_invalid")
        | Err e => Err e
        end in
      let! intact := operation_receipt_verify_integrity receipt in
      raise "application_receipt_integrity_invalid"
        when negb (bool_decide (or_receipt_digest receipt = ref_receipt_digest x)) || negb intact ;
      let! rest := replay_receipts app (S index) expected' refs' db in
      Ok (receipt :: rest)
  | _, _ => Ok []
  end.

Definition get_execution (app : string) (expected_operations : option (list operation)) (db : Db)
  : result ApplicationExecutionState :=
  let! s := _load_execution_state app db in
  if negb (bool_decide (as_state s = Applied)) then Ok s
  else match expected_operations with
  | None => Err (ValueError "application_replay_validation_required")
  | Some expected =>
      let! receipt := get_application_receipt app db in
      let! intact := application_receipt_verify_integrity receipt in
      raise "application_receipt_integrity_invalid"
        when negb intact || negb (bool_decide (ar_application_id receipt = as_application_id s))
             || negb (bool_decide (_values (ar_identity receipt) = _values (as_identity s))) ;
      let refs := ar_operation_receipt_refs receipt in
      raise "application_receipt_integrity_invalid"
        when negb (bool_decide (map ref_receipt_id refs = as_operation_receipt_refs s)) ;
      raise "application_receipt_integrity_invalid" when negb (length expected =? length refs) ;
      let! receipts := replay_receipts app 0 expected refs db in
      raise "application_receipt_integrity_invalid"
        when negb (bool_decide (map or_operation_index receipts = seq 0 (length receipts))) ;
      let! valid := validate_against receipt expected receipts in
      raise "application_replay_binding_invalid" when negb valid ; Ok s
  end.

(** The applications of the workspace that match an approved context; every row of the
    workspace is validated on the way. *)
Definition context_match (preview : string) (rev : Z) (approval approvald : string) (l : logical_values) : bool :=
  bool_decide (preview_id l = preview) && (revision l =? rev)%Z
  && bool_decide (approval_id l = approval) && bool_decide (approval_digest l = approvald).

Fixpoint matching_applications (matches_ : logical_values → bool) (rows : list (string * row))
  : result (list string) :=
  match rows with
  | [] => Ok []
  | (row_application_id, payload) :: rows' =>
      let! s := recode_load "state_integrity_invalid" (load execution_state_from_doc payload) in
      raise "application_binding_conflict" when negb (bool_decide (as_application_id s = row_application_id)) ;
      let values := _values (as_identity s) in
      raise "application_binding_conflict"
        when negb (bool_decide (workspace_identity values = workspace st)) ;
      let! intact := intact_execution s in
      raise "state_integrity_invalid" when negb intact ;
      let! rest := matching_applications matches_ rows' in
      Ok (if matches_ values then as_application_id s :: rest else rest)
  end.

Definition workspace_rows (db : Db) : list (string * row) :=
  omap (λ '((w, app), r), if bool_decide (w = workspace st) then Some (app, r) else None)
       (map_to_list (application_execution db)).

Definition resolve_application_id_by_approved_context (preview : string) (rev : Z)
    (approval approvald : string) (db : Db) : result string :=
  let! found := matching_applications (context_match preview rev approval approvald) (workspace_rows db) in
  match found with
  | [] => Err (ValueError "application_not_found")
  | [app] => Ok app
  | _ => Err (ValueError "application_binding_conflict")
  end.
End store.
