(* ===== verification/GenericStore.v ===== *)
(** * The generic persistence methods (delivery_system/execution_store.py)

    The methods a store offers when the applier's orchestration is off.  They refuse an
    orchestrated service and an application whose stored state is managed.  An artifact
    names the context it lives in by a token; [contexts] maps a token to the object. *)
From S2P Require Import Prelude PyValue Strings Canonical WriteOperations Identity Receipts ExecutionState.
From S2P Require Import Clock Context ExecutionStore.

Section generic.
Context `{PyLib}.
Variable st : SQLiteExecutionStore.
Variable contexts : nat → Context.

(** [if artifact._live_context is None or self.runtime_service is None: raise ...], then
    [validate_live_artifact] *)
Definition require_live (live_context : option nat) (check : RuntimeService → Context → result unit) : result unit :=
  match live_context, runtime_service st with
  | Some token, Some svc => check svc (contexts token)
  | _, _ => Err (ValueError "runtime_authority_required")
  end.

Definition in_workspace (i : LogicalApplicationIdentity) : bool :=
  bool_decide (workspace_identity (_values i) = workspace st).

(** [save_execution] *)
Definition same_execution (old state : ApplicationExecutionState) : bool :=
  bool_decide (_values (as_identity old) = _values (as_identity state))
  && bool_decide (as_application_id old = as_application_id state)
  && bool_decide (as_continuity_anchor old = as_continuity_anchor state).

Definition save_execution (answer : authority_answer) (state : ApplicationExecutionState) (db : Db)
  : result (ApplicationExecutionState * Db) :=
  let! _ := _reject_generic_when_orchestrated st in
  let! candidate := execution_state_with_digest state in
  raise "applier_orchestration_required" when is_managed candidate ;
  raise "application_binding_conflict" when negb (in_workspace (as_identity state)) ;
  let payload := Doc (execution_state_doc candidate) in
  let key := app_key st (as_application_id state) in
  let existing := application_execution db !! key in
  let! _ := _reject_durable_managed st db (as_application_id state) in
  let live := require_live (as_live_context state) (λ svc c, live_execution svc answer state c) in
  match existing with
  | Some r =>
      if bool_decide (r = payload) then Ok (candidate, db)
      else
        let! old := load execution_state_from_doc r in
        raise "application_binding_conflict" when negb (same_execution old state) ;
        let! _ := live in
        Ok (candidate, put_execution key payload db)
  | None =>
      let! _ := live in
      Ok (candidate, put_execution key payload db)
  end.

(** The part of an attempt no later write may change *)
Definition attempt_binding (a : OperationAttemptState) : logical_values * nat * operation * string * AuthorityProvenance :=
  (_values (at_identity a), at_operation_index a, at_operation a, at_request_identity a, at_authority_binding a).

(** [save_attempt] *)
Definition save_attempt (answer : authority_answer) (attempt : OperationAttemptState) (db : Db)
  : result (OperationAttemptState * Db) :=
  let! _ := _reject_generic_when_orchestrated st in
  let! candidate := attempt_with_digest attempt in
  raise "operation_attempt_binding_conflict" when negb (in_workspace (at_identity attempt)) ;
  let payload := Doc (attempt_doc candidate) in
  let key := op_key st (at_application_id attempt) (at_operation_identity attempt) in
  let! _ := _reject_durable_managed st db (at_application_id attempt) in
  let live := require_live (at_live_context attempt) (λ svc c, live_attempt svc answer attempt c) in
  match operation_attempts db !! key with
  | Some r =>
      if bool_decide (r = payload) then Ok (candidate, db)
      else
        let! old := load attempt_from_doc r in
        raise "operation_attempt_binding_conflict"
          when negb (bool_decide (attempt_binding old = attempt_binding attempt)) ;
        let! _ := live in
        Ok (candidate, put_attempt key payload db)
  | None =>
      let! _ := live in
      Ok (candidate, put_attempt key payload db)
  end.

(** [create_attempt_if_absent] *)
Definition create_attempt_if_absent (answer : authority_answer) (attempt : OperationAttemptState) (db : Db)
  : result (OperationAttemptState * Db) :=
  let! _ := _reject_generic_when_orchestrated st in
  let! candidate := attempt_with_digest attempt in
  raise "operation_attempt_binding_conflict" when negb (in_workspace (at_identity attempt)) ;
  raise "operation_attempt_claim_state_invalid"
    when negb (bool_decide (at_state attempt = Applying)) || bool_decide (is_Some (at_failure_code attempt)) ;
  let key := op_key st (at_application_id candidate) (at_operation_identity candidate) in
  let! _ := _reject_durable_managed st db (at_application_id candidate) in
  raise "operation_attempt_already_exists" when bool_decide (is_Some (operation_attempts db !! key)) ;
  let! _ := require_live (at_live_context attempt) (λ svc c, live_attempt svc answer attempt c) in
  let! db' := insert_attempt key (Doc (attempt_doc candidate)) db in
  Ok (candidate, db').

(** [transition_attempt] *)
Definition transition_attempt (answer : authority_answer) (expected_digest : string)
    (candidate : OperationAttemptState) (db : Db) : result (OperationAttemptState * Db) :=
  let! _ := _reject_generic_when_orchestrated st in
  let! stored := attempt_with_digest candidate in
  raise "operation_attempt_binding_conflict" when negb (in_workspace (at_identity candidate)) ;
  let! _ := _reject_durable_managed st db (at_application_id candidate) in
  let key := op_key st (at_application_id candidate) (at_operation_identity candidate) in
  match operation_attempts db !! key with
  | None => Err (ValueError "operation_attempt_not_found")
  | Some r =>
      let! previous := load attempt_from_doc r in
      let! intact := attempt_verify_integrity previous in
      raise "attempt_state_stale"
        when negb intact || negb (bool_decide (at_attempt_digest previous = expected_digest)) ;
      let! _ := validate_attempt_transition previous candidate in
      let! _ := require_live (at_live_context candidate) (λ svc c, live_attempt svc answer candidate c) in
      raise "operation_attempt_binding_conflict"
        when negb (bool_decide (attempt_binding previous = attempt_binding candidate)
                   && bool_decide (at_started_at previous = at_started_at candidate)) ;
      Ok (stored, put_attempt key (Doc (attempt_doc stored)) db)
  end.

(** The receipts of an application, in the order the query returns them *)
Definition application_receipt_rows (app : string) (db : Db) : list row :=
  omap (λ '((w, a, _), r), if bool_decide (w = workspace st ∧ a = app) then Some r else None)
       (map_to_list (operation_receipts db)).

Fixpoint find_receipt (id : string) (rows : list row) : result (option OperationReceipt) :=
  match rows with
  | [] => Ok None
  | r :: rows' =>
      let! loaded := load operation_receipt_from_doc r in
      if bool_decide (or_operation_receipt_id loaded = id) then Ok (Some loaded) else find_receipt id rows'
  end.

(** The receipt behind a step of progress *)
Definition require_appended (previous candidate : ApplicationExecutionState) (db : Db) : result unit :=
  let app := as_application_id candidate in
  let index := as_next_operation_index previous in
  match last (as_operation_receipt_refs candidate) with
  | None => Err IndexError
  | Some id =>
      let! found := find_receipt id (application_receipt_rows app db) in
      match found with
      | None => Err (ValueError "application_progress_invalid")
      | Some appended =>
          let! intact := operation_receipt_verify_integrity appended in
          raise "application_progress_invalid"
            when negb intact
                 || negb (bool_decide (_values (or_identity appended) = _values (as_identity candidate)))
                 || negb (or_operation_index appended =? index) ;
          match as_live_context candidate with
          | None => Ok tt
          | Some token =>
              match _expected_operations (contexts token) !! index with
              | None => Err (ValueError "application_progress_invalid")
              | Some op =>
                  let! expected := operation_identity app index op in
                  raise "application_progress_invalid"
                    when negb (bool_decide (or_operation_identity appended = expected)) ; Ok tt
              end
          end
      end
  end.

(** [transition_execution] *)
Definition transition_execution (answer : authority_answer) (expected_digest : string)
    (candidate : ApplicationExecutionState) (db : Db) : result (ApplicationExecutionState * Db) :=
  let! _ := _reject_generic_when_orchestrated st in
  let! stored := execution_state_with_digest candidate in
  raise "application_binding_conflict" when negb (in_workspace (as_identity candidate)) ;
  let! _ := _reject_durable_managed st db (as_application_id candidate) in
  let key := app_key st (as_application_id candidate) in
  match application_execution db !! key with
  | None => Err (ValueError "application_not_found")
  | Some r =>
      let! previous := load execution_state_from_doc r in
      let! intact := intact_execution previous in
      raise "application_state_stale"
        when negb intact || negb (bool_decide (as_state_digest previous = expected_digest)) ;
      raise "application_finalization_required" when bool_decide (as_state candidate = Applied) ;
      let! _ := validate_application_transition previous candidate in
      let! _ := require_live (as_live_context candidate) (λ svc c, live_execution svc answer candidate c) in
      let! _ := if bool_decide (as_next_operation_index candidate = as_next_operation_index previous + 1)
                then require_appended previous candidate db else Ok tt in
      Ok (stored, put_execution key (Doc (execution_state_doc stored)) db)
  end.

(** [record_operation_receipt] and [record_application_receipt]: the same receipt may be
    recorded again, another one not *)
Definition record_operation_receipt (answer : authority_answer) (receipt : OperationReceipt) (db : Db)
  : result (OperationReceipt * Db) :=
  let! _ := _reject_generic_when_orchestrated st in
  raise "workspace_mismatch" when negb (in_workspace (or_identity receipt)) ;
  let! candidate := operation_receipt_with_digest receipt in
  let payload := Doc (operation_receipt_doc candidate) in
  let key := op_key st (or_application_id receipt) (or_operation_identity receipt) in
  let! _ := _reject_durable_managed st db (or_application_id receipt) in
  match operation_receipts db !! key with
  | Some r => raise "receipt_binding_conflict" when negb (bool_decide (r = payload)) ; Ok (candidate, db)
  | None =>
      let! _ := require_live (or_live_context receipt) (λ svc c, live_operation_receipt svc answer receipt c) in
      Ok (candidate, put_operation_receipt key payload db)
  end.

Definition record_application_receipt (answer : authority_answer) (receipt : ApplicationReceipt) (db : Db)
  : result (ApplicationReceipt * Db) :=
  let! _ := _reject_generic_when_orchestrated st in
  raise "workspace_mismatch" when negb (in_workspace (ar_identity receipt)) ;
  let! candidate := application_receipt_with_digest receipt in
  let payload := Doc (application_receipt_doc candidate) in
  let key := app_key st (ar_application_id receipt) in
  let! _ := _reject_durable_managed st db (ar_application_id receipt) in
  match application_receipts db !! key with
  | Some r => raise "receipt_binding_conflict" when negb (bool_decide (r = payload)) ; Ok (candidate, db)
  | None =>
      let! _ := require_live (ar_live_context receipt) (λ svc c, live_application_receipt svc answer receipt c) in
      Ok (candidate, put_application_receipt key payload db)
  end.

(** ** Calls *)
Inductive generic_call :=
| gen_save_execution (s : ApplicationExecutionState)
| gen_save_attempt (a : OperationAttemptState)
| gen_create_attempt (a : OperationAttemptState)
| gen_transition_attempt (digest : string) (a : OperationAttemptState)
| gen_transition_execution (digest : string) (s : ApplicationExecutionState)
| gen_record_operation_receipt (r : OperationReceipt)
| gen_record_application_receipt (r : ApplicationReceipt).

(** The tables after a call that returns *)
Definition run_generic (answer : authority_answer) (x : generic_call) (db : Db) : result Db :=
  match x with
  | gen_save_execution s => let! r := save_execution answer s db in Ok (snd r)
  | gen_save_attempt a => let! r := save_attempt answer a db in Ok (snd r)
  | gen_create_attempt a => let! r := create_attempt_if_absent answer a db in Ok (snd r)
  | gen_transition_attempt d a => let! r := transition_attempt answer d a db in Ok (snd r)
  | gen_transition_execution d s => let! r := transition_execution answer d s db in Ok (snd r)
  | gen_record_operation_receipt r => let! r := record_operation_receipt answer r db in Ok (snd r)
  | gen_record_application_receipt r => let! r := record_application_receipt answer r db in Ok (snd r)
  end.

(** The application a call writes *)
Definition generic_app (x : generic_call) : string :=
  match x with
  | gen_save_execution s | gen_transition_execution _ s => as_application_id s
  | gen_save_attempt a | gen_create_attempt a | gen_transition_attempt _ a => at_application_id a
  | gen_record_operation_receipt r => or_application_id r
  | gen_record_application_receipt r => ar_application_id r
  end.
End generic.
