(* ===== verification/ManagedStore.v ===== *)
(** * Managed execution operations (delivery_system/execution_store.py)

    The operations the applier performs under its orchestration capability: create the
    pending state, claim the next operation together with its attempt, complete it with
    its receipt, settle it as failed, blocked or unknown, and finalize the application. *)
From S2P Require Import Prelude PyValue Strings Canonical WriteOperations Identity Receipts ExecutionState.
From S2P Require Import Clock Context ExecutionStore.

Section managed.
Context `{PyLib}.
Variable st : SQLiteExecutionStore.
Variable cap : _ApplierCapability.
(** [valid k] answers the [k]-th validation of the execution context in the call. *)
Variable valid : nat → authority_answer.

Notation app_key := (app_key st).
Notation op_key := (op_key st).

Definition is_none {A} (o : option A) : bool := match o with None => true | Some _ => false end.

(** ** [create_execution_if_absent] *)
Definition create_execution_if_absent (c : Context) (state : ApplicationExecutionState) (db : Db)
  : result (ApplicationExecutionState * Db) :=
  let! svc := _require_orchestration_capability st cap in
  raise "application_initial_state_invalid"
    when negb (bool_decide (as_state state = Pending)) || negb (as_next_operation_index state =? 0)
         || negb (is_none (as_owner_id state)) || negb (is_none (as_current_attempt_id state))
         || negb (is_none (as_recovery_code state))
         || negb (bool_decide (as_operation_receipt_refs state = []))
         || negb (is_none (as_completed_at state)) ;
  raise "runtime_authority_required"
    when is_none (as_live_context state) || negb (ctx_service c =? svc_id svc) ;
  let! _ := live_execution svc (valid 0) state c in
  let! candidate := execution_state_with_digest state in
  match application_execution db !! app_key (as_application_id candidate) with
  | Some r =>
      let! existing := load execution_state_from_doc r in
      let! intact := intact_execution existing in
      raise "application_binding_conflict"
        when negb intact
             || negb (bool_decide (_values (as_identity existing) = _values (as_identity candidate)))
             || negb (bool_decide (as_continuity_anchor existing = as_continuity_anchor candidate)) ;
      raise "application_orchestration_policy_mismatch" when negb (is_managed existing) ;
      Ok (existing, db)
  | None =>
      Ok (candidate, put_execution (app_key (as_application_id candidate))
                       (Doc (execution_state_doc candidate)) db)
  end.

(** ** [claim_next_operation] *)
Definition owner_wf (owner : string) : bool :=
  startswith "execution-owner-" owner && (py_len owner =? 48).

Definition claim_next_operation (app expected_digest : string) (c : Context) (owner_id now : string) (db : Db)
  : result ((ApplicationExecutionState * OperationAttemptState) * Db) :=
  let! svc := _require_orchestration_capability st cap in
  raise "application_coordination_invalid" when negb (owner_wf owner_id) ;
  let! _ := validate_execution_context svc (valid 0) c in
  raise "application_binding_conflict" when negb (bool_decide (app = ctx_application_id c)) ;
  match application_execution db !! app_key app with
  | None => Err (ValueError "application_not_found")
  | Some r =>
      let! previous := load execution_state_from_doc r in
      raise "application_orchestration_policy_mismatch" when negb (is_managed previous) ;
      let! intact := intact_execution previous in
      raise "application_state_stale"
        when negb intact || negb (bool_decide (as_state_digest previous = expected_digest)) ;
      raise "application_claim_unavailable"
        when negb (bool_decide (as_state previous = Pending ∨ as_state previous = PartiallyApplied))
             || negb (is_none (as_owner_id previous)) || negb (is_none (as_current_attempt_id previous)) ;
      let index := as_next_operation_index previous in
      raise "application_already_complete" when length (_expected_operations c) <=? index ;
      let! _ := _require_clock_not_before now [as_started_at previous; as_updated_at previous] in
      let! attempt := new_attempt svc (valid 1) c index Applying now now in
      let! _ := _require_clock_not_before (at_updated_at attempt) [at_started_at attempt] in
      let! candidate := continue_execution_state svc (valid 2) c previous
        (Changes Applying None (Some (Some owner_id)) (Some (Some (at_operation_identity attempt))) None None
           now None) in
      let! _ := live_attempt svc (valid 3) attempt c in
      let! _ := live_execution svc (valid 4) candidate c in
      let! attempt := attempt_with_digest attempt in
      let! candidate := execution_state_with_digest candidate in
      let! db := insert_attempt (op_key (at_application_id attempt) (at_operation_identity attempt))
                   (Doc (attempt_doc attempt)) db in
      Ok ((candidate, attempt), put_execution (app_key app) (Doc (execution_state_doc candidate)) db)
  end.

(** ** [validate_claim] *)
Definition validate_claim (app state_digest attempt_id attempt_digest owner_id : string) (c : Context) (db : Db)
  : result (ApplicationExecutionState * OperationAttemptState) :=
  let! svc := _require_orchestration_capability st cap in
  let! _ := validate_execution_context svc (valid 0) c in
  let! state := get_execution st app None db in
  let! attempt := get_attempt st app attempt_id db in
  raise "application_orchestration_policy_mismatch" when negb (is_managed state) ;
  raise "application_claim_stale"
    when negb (bool_decide (as_state state = Applying))
         || negb (bool_decide (as_state_digest state = state_digest))
         || negb (bool_decide (as_owner_id state = Some owner_id))
         || negb (bool_decide (as_current_attempt_id state = Some attempt_id))
         || negb (bool_decide (at_state attempt = Applying))
         || negb (bool_decide (at_attempt_digest attempt = attempt_digest)) ;
  Ok (state, attempt).

(** The claimed pair both [complete_operation_success] and [settle_operation] start from *)
Definition load_claim (app state_digest attempt_id attempt_digest owner_id : string) (db : Db)
  : result (ApplicationExecutionState * OperationAttemptState) :=
  match application_execution db !! app_key app, operation_attempts db !! op_key app attempt_id with
  | Some app_row, Some attempt_row =>
      let! previous := load execution_state_from_doc app_row in
      let! attempt := load attempt_from_doc attempt_row in
      raise "application_orchestration_policy_mismatch" when negb (is_managed previous) ;
      let! intact := intact_execution previous in
      raise "application_claim_stale"
        when negb intact || negb (bool_decide (as_state_digest previous = state_digest))
             || negb (bool_decide (as_state previous = Applying))
             || negb (bool_decide (as_owner_id previous = Some owner_id))
             || negb (bool_decide (as_current_attempt_id previous = Some attempt_id)) ;
      let! attempt_intact := attempt_verify_integrity attempt in
      raise "application_claim_stale"
        when negb attempt_intact || negb (bool_decide (at_attempt_digest attempt = attempt_digest))
             || negb (bool_decide (at_state attempt = Applying)) ;
      Ok (previous, attempt)
  | _, _ => Err (ValueError "application_claim_stale")
  end.

(** ** [complete_operation_success] *)
Definition complete_operation_success (app state_digest attempt_id attempt_digest owner_id : string)
    (c : Context) (receipt : OperationReceipt) (now : string) (db : Db)
  : result (ApplicationExecutionState * Db) :=
  let! svc := _require_orchestration_capability st cap in
  let! _ := validate_execution_context svc (valid 0) c in
  let! (previous, attempt) := load_claim app state_digest attempt_id attempt_digest owner_id db in
  raise "receipt_binding_conflict"
    when negb (bool_decide (or_live_context receipt = Some (ctx_token c)))
         || negb (bool_decide (or_application_id receipt = app))
         || negb (or_operation_index receipt =? at_operation_index attempt)
         || negb (bool_decide (or_operation_identity receipt = at_operation_identity attempt)) ;
  let! _ := _require_clock_not_before now
    [as_started_at previous; as_updated_at previous; at_started_at attempt; at_updated_at attempt] in
  let! _ := _require_clock_not_before now [or_started_at receipt; or_completed_at receipt] in
  let! _ := live_operation_receipt svc (valid 1) receipt c in
  let! stored_receipt := operation_receipt_with_digest receipt in
  let! next_attempt := continue_attempt svc (valid 2) c attempt Applied now None in
  let! next_attempt := live_digest_attempt c next_attempt in
  let! next_state := continue_execution_state svc (valid 3) c previous
    (Changes PartiallyApplied (Some (as_next_operation_index previous + 1)) (Some None) (Some None) None
       (Some (as_operation_receipt_refs previous ++ [or_operation_receipt_id stored_receipt])) now None) in
  let! next_state := live_digest_execution c next_state in
  let! _ := live_attempt svc (valid 4) next_attempt c in
  let! _ := live_execution svc (valid 5) next_state c in
  let! db := insert_operation_receipt (op_key app (or_operation_identity stored_receipt))
               (Doc (operation_receipt_doc stored_receipt)) db in
  let db := put_attempt (op_key app attempt_id) (Doc (attempt_doc next_attempt)) db in
  Ok (next_state, put_execution (app_key app) (Doc (execution_state_doc next_state)) db).

(** ** [settle_operation] *)
Definition settle_operation (app state_digest attempt_id attempt_digest owner_id : string)
    (c : Context) (target : exec_state) (code now : string) (db : Db)
  : result (ApplicationExecutionState * Db) :=
  let! svc := _require_orchestration_capability st cap in
  raise "application_state_transition_invalid"
    when negb (bool_decide (target ∈ [Failed; Blocked; OutcomeUnknown])) ;
  let! _ := validate_execution_context svc (valid 0) c in
  let! (previous, attempt) := load_claim app state_digest attempt_id attempt_digest owner_id db in
  let! next_attempt := continue_attempt svc (valid 1) c attempt target now (Some (Some code)) in
  let! next_attempt := live_digest_attempt c next_attempt in
  let! next_state := continue_execution_state svc (valid 2) c previous
    (Changes target None (Some None) None (Some (Some code)) None now None) in
  let! next_state := live_digest_execution c next_state in
  let! _ := live_attempt svc (valid 3) next_attempt c in
  let! _ := live_execution svc (valid 4) next_state c in
  let db := put_attempt (op_key app attempt_id) (Doc (attempt_doc next_attempt)) db in
  Ok (next_state, put_execution (app_key app) (Doc (execution_state_doc next_state)) db).

(** ** [finalize_application] *)
Fixpoint finalize_receipts (app now : string) (index : nat) (expected : list operation) (db : Db)
  : result (list OperationReceipt) :=
  match expected with
  | [] => Ok []
  | op :: expected' =>
      let! op_id := operation_identity app index op in
      match operation_receipts db !! op_key app op_id with
      | None => Err (ValueError "application_receipt_incomplete")
      | Some r =>
          let! receipt := load operation_receipt_from_doc r in
          let! intact := operation_receipt_verify_integrity receipt in
          raise "application_receipt_integrity_invalid"
            when negb intact || negb (or_operation_index receipt =? index) ;
          let! _ := _execution_timestamp (or_started_at receipt) in
          let! _ := _execution_timestamp (or_completed_at receipt) in
          let! _ := _require_clock_not_before now [or_completed_at receipt] in
          let! rest := finalize_receipts app now (S index) expected' db in
          Ok (receipt :: rest)
      end
  end.

Definition finalize_application (app state_digest : string) (c : Context) (now : string) (db : Db)
  : result (ApplicationExecutionState * Db) :=
  let! svc := _require_orchestration_capability st cap in
  let! _ := validate_execution_context svc (valid 0) c in
  let expected := _expected_operations c in
  match application_execution db !! app_key app with
  | None => Err (ValueError "application_not_found")
  | Some r =>
      let! previous := load execution_state_from_doc r in
      raise "application_orchestration_policy_mismatch" when negb (is_managed previous) ;
      let! intact := intact_execution previous in
      raise "application_finalization_invalid"
        when negb intact || negb (bool_decide (as_state_digest previous = state_digest))
             || negb (bool_decide (as_state previous = PartiallyApplied))
             || negb (as_next_operation_index previous =? length expected)
             || negb (is_none (as_owner_id previous)) || negb (is_none (as_current_attempt_id previous)) ;
      let! _ := _execution_timestamp (as_started_at previous) in
      let! _ := _execution_timestamp (as_updated_at previous) in
      let! receipts := finalize_receipts app now 0 expected db in
      let! _ := _require_clock_not_before now [as_started_at previous; as_updated_at previous] in
      let refs := map (λ r, ReceiptRef (or_operation_receipt_id r) (or_receipt_digest r)) receipts in
      let! app_receipt := new_application_receipt_from_refs svc (valid 1) c refs now now in
      let! _ := live_application_receipt svc (valid 2) app_receipt c in
      let! next_state := continue_execution_state svc (valid 3) c previous
        (Changes Applied None None None None None now (Some (Some now))) in
      let! next_state := live_digest_execution c next_state in
      let! _ := live_execution svc (valid 4) next_state c in
      let! db := insert_application_receipt (app_key app) (Doc (application_receipt_doc app_receipt)) db in
      Ok (next_state, put_execution (app_key app) (Doc (execution_state_doc next_state)) db)
  end.
End managed.
