(* ===== verification/ManagedSpec.v ===== *)
(** * What the managed store promises (specification of ManagedStore)

    The abstract state of one application is a [phase]; the rows of its tables represent
    a phase, and every managed operation that commits is one abstract step. *)
From S2P Require Import Prelude PyValue Strings Canonical WriteOperations Identity Receipts ExecutionState.
From S2P Require Import Clock Context ExecutionStore ManagedStore.

(** ** The abstract machine *)
Inductive phase :=
| Absent                                  (** no execution row *)
| Idle (k : nat)                          (** [k] operations applied, none claimed *)
| Claimed (k : nat) (owner : string)      (** operation [k] claimed *)
| Settled (k : nat) (st : exec_state)     (** operation [k] ended without success *)
| Finished.

Inductive phase_step (n : nat) : phase → phase → Prop :=
| step_create : phase_step n Absent (Idle 0)
| step_claim k owner : k < n → phase_step n (Idle k) (Claimed k owner)
| step_complete k owner : k < n → phase_step n (Claimed k owner) (Idle (S k))
| step_settle k owner st :
    st ∈ [Failed; Blocked; OutcomeUnknown] → phase_step n (Claimed k owner) (Settled k st)
| step_finalize : phase_step n (Idle n) Finished.

(** How many operations are applied in a phase *)
Definition applied_count (n : nat) (p : phase) : nat :=
  match p with Absent => 0 | Idle k | Claimed k _ | Settled k _ => k | Finished => n end.

Definition phase_state (p : phase) : exec_state :=
  match p with
  | Absent | Idle 0 => Pending
  | Idle (S _) => PartiallyApplied
  | Claimed _ _ => Applying
  | Settled _ st => st
  | Finished => Applied
  end.

(** The state of the attempt at operation [i], if there is one *)
Definition attempt_phase (n : nat) (p : phase) (i : nat) : option exec_state :=
  if i <? applied_count n p then Some Applied
  else if i =? applied_count n p then
    match p with Claimed _ _ => Some Applying | Settled _ st => Some st | _ => None end
  else None.

Section lemmas.
Context `{PyLib}.

Lemma digest_nonempty v d : digest v = Ok d → d ≠ "".
Proof. unfold digest. intros E. by inv_ok. Qed.

(** ** Intact records *)
Definition execution_intact (s : ApplicationExecutionState) : Prop :=
  execution_state_wf s ∧ execution_state_verify_integrity s = Ok true.
Definition attempt_intact (a : OperationAttemptState) : Prop :=
  attempt_wf a ∧ attempt_verify_integrity a = Ok true.
Definition operation_receipt_intact (r : OperationReceipt) : Prop :=
  operation_receipt_wf r ∧ operation_receipt_verify_integrity r = Ok true.

Lemma execution_state_with_digest_Ok s s' :
  execution_state_with_digest s = Ok s' →
  (∃ d, s' = execution_state_set_digest d s) ∧
  execution_state_check s' = Ok s' ∧ execution_state_verify_integrity s' = Ok true.
Proof.
  unfold execution_state_with_digest. intros E. inv_ok.
  pose proof (execution_state_check_Ok _ _ E) as ->.
  split; [by eexists|]. split; [done|].
  unfold execution_state_verify_integrity. simpl.
  match goal with D : digest _ = Ok _ |- _ => pose proof (digest_nonempty _ _ D); rename D into Hd end.
  rewrite bool_decide_eq_false_2 by done.
  change (execution_state_payload (execution_state_set_digest a s)) with (execution_state_payload s).
  rewrite Hd. by rewrite bool_decide_eq_true_2.
Qed.

Lemma attempt_with_digest_Ok a a' :
  attempt_with_digest a = Ok a' →
  (∃ d, a' = attempt_set_digest d a) ∧ attempt_check a' = Ok a' ∧ attempt_verify_integrity a' = Ok true.
Proof.
  unfold attempt_with_digest. intros E. inv_ok.
  destruct (attempt_check_facts _ _ E) as [-> _].
  split; [by eexists|]. split; [done|].
  unfold attempt_verify_integrity. simpl.
  match goal with D : digest _ = Ok _ |- _ => pose proof (digest_nonempty _ _ D); rename D into Hd end.
  rewrite bool_decide_eq_false_2 by done.
  change (attempt_payload (attempt_set_digest a0 a)) with (attempt_payload a).
  rewrite Hd. by rewrite bool_decide_eq_true_2.
Qed.

Lemma operation_receipt_with_digest_Ok r r' :
  operation_receipt_with_digest r = Ok r' →
  (∃ d, r' = operation_receipt_set_digest d r) ∧ operation_receipt_check r' = Ok r' ∧
  operation_receipt_verify_integrity r' = Ok true.
Proof.
  unfold operation_receipt_with_digest. intros E. inv_ok.
  destruct (operation_receipt_check_facts _ _ E) as [-> _].
  split; [by eexists|]. split; [done|].
  unfold operation_receipt_verify_integrity. simpl.
  match goal with D : digest _ = Ok _ |- _ => pose proof (digest_nonempty _ _ D); rename D into Hd end.
  rewrite bool_decide_eq_false_2 by done.
  change (operation_receipt_payload (operation_receipt_set_digest a r)) with (operation_receipt_payload r).
  rewrite Hd. by rewrite bool_decide_eq_true_2.
Qed.

Lemma execution_check_register t s : execution_state_check s = Ok s →
  execution_state_check (execution_state_register t s) = Ok (execution_state_register t s).
Proof.
  unfold execution_state_check. destruct s; simpl. intros E. inv_ok.
  repeat match goal with E : ?b = false |- _ => rewrite E; clear E end. done.
Qed.

Lemma receipt_register_check t r : operation_receipt_check r = Ok r →
  operation_receipt_check (operation_receipt_register t r) = Ok (operation_receipt_register t r).
Proof.
  unfold operation_receipt_check. destruct r; simpl. intros E. inv_ok.
  repeat match goal with E : ?b = false |- _ => rewrite E; clear E end. done.
Qed.

Lemma attempt_check_register t a : attempt_check a = Ok a →
  attempt_check (attempt_register t a) = Ok (attempt_register t a).
Proof.
  unfold attempt_check. destruct a; simpl. intros E. inv_ok.
  repeat match goal with E : ?b = false |- _ => rewrite E; clear E end. done.
Qed.

End lemmas.

#[local] Opaque digest digest_hex identity_from_dict anchor_from_dict provenance_from_dict
  execution_state_check attempt_check operation_receipt_check operation_identity request_identity
  execution_state_verify_integrity attempt_verify_integrity.
Section builders.
Context `{PyLib}.

(** ** Contexts built by [create_execution_context] *)
Definition context_wf (c : Context) : Prop :=
  identity_wf (ctx_identity c) ∧ anchor_wf (continuity_anchor c) ∧ provenance_wf (_provenance c) ∧
  Forall operation_wf (_expected_operations c) ∧ ctx_application_id c ≠ "" ∧
  driver_identity (au_binding (ctx_authority c)) ≠ "" ∧
  remote_authority (au_binding (ctx_authority c)) ≠ "".

(** ** The contexts the service creates are well formed *)
Lemma _v2_endpoint_nonempty v e : _v2_endpoint v = Ok e → snd e ≠ "".
Proof.
  unfold _v2_endpoint. intros E. inv_ok;
    match type of E with match ?x with _ => _ end = _ => destruct x; try discriminate E end; inv_ok; by bools.
Qed.

Lemma tagged_ref_inj a b : tagged_ref a = tagged_ref b → a = b.
Proof. destruct a as [[] x], b as [[] y]; simpl; intros E; by simplify_eq. Qed.

Lemma tagged_ref_nonempty e : tagged_ref e ≠ "".
Proof. by destruct e as [[] r]. Qed.

Lemma encode_operation_wf v op : normalize_operation_v2 v = Ok op → operation_wf (encode_operation_v2 op).
Proof.
  unfold normalize_operation_v2. intros E. inv_ok.
  destruct (get v "operation_kind"); try discriminate. destruct (get v "depends_on"); try discriminate.
  destruct (nonempty_strs _); [|discriminate]. destruct (bool_decide (s = "create_issue")).
  - inv_ok. match goal with D : _v2_endpoint _ = Ok _ |- _ => apply _v2_endpoint_nonempty in D end.
    unfold operation_wf; simpl. split_and!; [done|by repeat constructor|apply NoDup_singleton|constructor].
  - inv_ok. bools. destruct (get v "operands") as [| | | | | |items| | | |]; try discriminate.
    destruct items as [|x [|y []]]; try discriminate. inv_ok. bools.
    unfold operation_wf; simpl. split_and!.
    + by destruct Heqb0 as [-> | ->].
    + repeat constructor; apply tagged_ref_nonempty.
    + apply NoDup_cons. split; [|apply NoDup_singleton].
      intros E%list_elem_of_singleton. by apply tagged_ref_inj in E.
    + constructor.
Qed.

Lemma _execution_operations_wf v ops : _execution_operations v = Ok ops → Forall operation_wf ops.
Proof.
  unfold _execution_operations. intros E. inv_ok; [|by eapply normalize_write_operations_Ok].
  unfold normalize_write_operations_v2 in *. destruct (as_sequence _); [|discriminate].
  match goal with D : map_r _ _ = Ok _ |- _ => apply map_r_Ok_Forall2 in D as Hf end.
  clear -Hf. induction Hf as [|x y l k Hxy _ IH]; simpl; constructor; [by eapply encode_operation_wf|exact IH].
Qed.

Lemma make_identity_id v i : make_identity v = Ok i → _application_id i ≠ "".
Proof. unfold make_identity. intros E. by inv_ok. Qed.

Lemma identity_from_authority_id v i : identity_from_authority v = Ok i → _application_id i ≠ "".
Proof. unfold identity_from_authority. intros E. inv_ok. by eapply make_identity_id. Qed.

Lemma authority_driver_nonempty a i :
  identity_from_authority (authority_to_dict a) = Ok i →
  driver_identity (au_binding a) ≠ "" ∧ remote_authority (au_binding a) ≠ "".
Proof.
  unfold identity_from_authority, _logical_values. intros E. inv_ok.
  repeat match goal with D : text_field _ (get _ ?k) = Ok _ |- _ =>
    apply text_field_Ok in D as [D ?] end.
  split.
  - change (get (authority_to_dict a) "driver_identity") with (VStr (driver_identity (au_binding a))) in *.
    congruence.
  - change (get (authority_to_dict a) "remote_authority") with (VStr (remote_authority (au_binding a))) in *.
    congruence.
Qed.

Lemma create_execution_context_wf svc token a preview c :
  create_execution_context svc token a preview = Ok c → context_wf c.
Proof.
  unfold create_execution_context. intros E. inv_ok.
  match goal with D : identity_from_authority _ = Ok _ |- _ =>
    pose proof (identity_from_authority_wf _ _ D) as [Hi _];
    pose proof (identity_from_authority_id _ _ D) as Hid;
    pose proof (authority_driver_nonempty _ _ D) as [Hdr Hra] end.
  match goal with D : anchor_from_authority _ = Ok _ |- _ => apply anchor_from_authority_wf in D as Ha end.
  match goal with D : _execution_operations _ = Ok _ |- _ => apply _execution_operations_wf in D as Hops end.
  match goal with D : provenance_from_live_authority _ = Ok _ |- _ =>
    unfold provenance_from_live_authority in D; inv_ok end.
  match goal with D : provenance_from_source _ = Ok _ |- _ => apply provenance_from_source_wf in D as Hp end.
  exact (conj Hi (conj Ha (conj Hp (conj Hops (conj Hid (conj Hdr Hra)))))).
Qed.

(** ** What the builders of live records store *)

(** The record [continue_execution_state] builds and a digest seals *)
Definition changed_state (c : Context) (previous : ApplicationExecutionState) (ch : execution_changes)
    (d : string) (entry : live_entry_t) : ApplicationExecutionState :=
  ExecState (as_application_id previous) (ctx_identity c) (ch_state ch)
    (default (as_next_operation_index previous) (ch_next ch))
    (default (as_owner_id previous) (ch_owner ch))
    (default (as_current_attempt_id previous) (ch_attempt ch))
    (default (as_recovery_code previous) (ch_recovery ch))
    (default (as_operation_receipt_refs previous) (ch_refs ch))
    (as_started_at previous) (ch_updated_at ch)
    (default (as_completed_at previous) (ch_completed_at ch))
    (continuity_anchor c) (as_orchestration_policy previous) d (Some (ctx_token c)) entry.

Lemma continue_execution_state_Ok svc ans c previous ch s :
  continue_execution_state svc ans c previous ch = Ok s →
  s = changed_state c previous ch "" (Some (ctx_token c, kind_execution)) ∧
  _values (as_identity previous) = _values (ctx_identity c) ∧
  as_application_id previous = ctx_application_id c ∧
  as_continuity_anchor previous = continuity_anchor c.
Proof.
  unfold continue_execution_state. intros E. inv_ok. bools.
  match goal with D : execution_state_check _ = Ok _ |- _ => apply execution_state_check_Ok in D as -> end.
  done.
Qed.

(** Sealing a continued state, with or without registering the sealed object *)
Lemma sealed_state_intact c previous ch s entry s' :
  context_wf c → as_application_id previous = ctx_application_id c →
  s = changed_state c previous ch "" entry →
  execution_state_with_digest s = Ok s' →
  ∃ d, s' = changed_state c previous ch d None ∧ execution_intact s'.
Proof.
  intros (Hi & Ha & _ & _ & Happ & _) Hid -> E.
  apply execution_state_with_digest_Ok in E as ([d Hd] & Hc & Hv).
  exists d. split; [done|]. split; [|done].
  unfold execution_state_wf. split; [exact Hc|]. rewrite Hd. simpl. rewrite Hid. exact (conj Hi (conj Ha Happ)).
Qed.

Lemma live_digest_execution_intact c previous ch s entry s' :
  context_wf c → as_application_id previous = ctx_application_id c →
  s = changed_state c previous ch "" entry →
  live_digest_execution c s = Ok s' →
  ∃ d, s' = changed_state c previous ch d (Some (ctx_token c, kind_execution)) ∧ execution_intact s'.
Proof.
  intros Hc Hid Hs E. unfold live_digest_execution in E. inv_ok.
  match goal with D : execution_state_with_digest _ = Ok _ |- _ =>
    eapply sealed_state_intact in D as (d & -> & Hwf & Hv); [|done..] end.
  exists d. split; [done|]. split; [|done].
  destruct Hwf as [Hck Hrest]. split; [by apply execution_check_register|exact Hrest].
Qed.

(** The attempt [new_attempt] builds at operation [index] *)
Definition fresh_attempt (c : Context) (index : nat) (op : operation) (op_id request : string)
    (st : exec_state) (t1 t2 d : string) (entry : live_entry_t) : OperationAttemptState :=
  AttemptState (ctx_application_id c) op_id index op (_provenance c)
    (driver_identity (au_binding (ctx_authority c))) (remote_authority (au_binding (ctx_authority c)))
    request st t1 t2 (ctx_identity c) None d (Some (ctx_token c)) entry.

Lemma new_attempt_Ok svc ans c index st t1 t2 a :
  context_wf c → new_attempt svc ans c index st t1 t2 = Ok a →
  ∃ op op_id request, _expected_operations c !! index = Some op ∧
    operation_identity (ctx_application_id c) index op = Ok op_id ∧
    a = fresh_attempt c index op op_id request st t1 t2 "" (Some (ctx_token c, kind_attempt)).
Proof.
  intros (_ & _ & _ & Hops & _) E. unfold new_attempt in E. inv_ok.
  destruct (_expected_operations c !! index) as [op|] eqn:Hop; [|done]. inv_ok.
  rewrite normalize_operation_dict in * by (by eapply Forall_lookup_1). inv_ok.
  match goal with D : attempt_check _ = Ok _ |- _ => apply attempt_check_facts in D as [-> _] end.
  eexists _, _, _. done.
Qed.

Lemma fresh_attempt_intact c index op op_id request st t1 t2 entry a :
  context_wf c → _expected_operations c !! index = Some op →
  attempt_with_digest (fresh_attempt c index op op_id request st t1 t2 "" entry) = Ok a →
  ∃ d, a = fresh_attempt c index op op_id request st t1 t2 d None ∧ attempt_intact a.
Proof.
  intros (Hi & _ & Hp & Hops & Happ & Hdr & Hra) Hop E.
  apply attempt_with_digest_Ok in E as ([d Hd] & Hc & Hv). exists d. split; [done|].
  split; [|done]. unfold attempt_wf. split; [exact Hc|]. rewrite Hd. simpl.
  refine (conj Hi (conj Hp (conj _ (conj Happ (conj Hdr Hra))))). by eapply Forall_lookup_1.
Qed.

(** The attempt [continue_attempt] builds and [live_digest_attempt] seals *)
Definition changed_attempt (c : Context) (a : OperationAttemptState) (st : exec_state) (t : string)
    (code : option string) (d : string) (entry : live_entry_t) : OperationAttemptState :=
  AttemptState (at_application_id a) (at_operation_identity a) (at_operation_index a) (at_operation a)
    (at_authority_binding a) (at_driver_identity a) (at_remote_authority a) (at_request_identity a) st
    (at_started_at a) t (ctx_identity c) code d (Some (ctx_token c)) entry.

Lemma continue_attempt_Ok svc ans c a st t code a' :
  continue_attempt svc ans c a st t code = Ok a' →
  a' = changed_attempt c a st t (default (at_failure_code a) code) "" (Some (ctx_token c, kind_attempt)) ∧
  _expected_operations c !! at_operation_index a = Some (at_operation a) ∧
  at_application_id a = ctx_application_id c.
Proof.
  unfold continue_attempt. intros E. inv_ok.
  destruct (_expected_operations c !! at_operation_index a) as [op|] eqn:Hop; [|done]. inv_ok. bools.
  match goal with D : attempt_check _ = Ok _ |- _ => apply attempt_check_facts in D as [-> _] end.
  split; [done|]. by subst.
Qed.

Lemma changed_attempt_intact c a st t code entry a' :
  context_wf c → attempt_wf a → at_application_id a = ctx_application_id c →
  live_digest_attempt c (changed_attempt c a st t code "" entry) = Ok a' →
  ∃ d, a' = changed_attempt c a st t code d (Some (ctx_token c, kind_attempt)) ∧ attempt_intact a'.
Proof.
  intros (Hi & _ & _ & _ & Happ & _) (_ & _ & Hp & Hop & _ & Hdr & Hra) Hid E.
  unfold live_digest_attempt in E. inv_ok.
  match goal with D : attempt_with_digest _ = Ok _ |- _ =>
    apply attempt_with_digest_Ok in D as ([d Hd] & Hc & Hv) end.
  exists d. rewrite Hd. split; [done|]. rewrite Hd in Hc, Hv. split; [|done].
  apply (attempt_check_register (ctx_token c)) in Hc.
  unfold attempt_wf. split; [exact Hc|]. simpl. rewrite Hid.
  exact (conj Hi (conj Hp (conj Hop (conj Happ (conj Hdr Hra))))).
Qed.
End builders.
