(* ===== verification/ManagedFacts.v ===== *)
(** * What a successful managed operation did (lemmas on ManagedStore)

    One inversion lemma per managed operation: when the call returns, these were the rows
    it found, these guards held, and these are the rows it wrote. *)
From S2P Require Import Prelude PyValue Strings Canonical WriteOperations Identity Receipts ExecutionState.
From S2P Require Import Clock Context ExecutionStore ManagedStore ManagedSpec.

Lemma is_none_true {A} (o : option A) : is_none o = true ↔ o = None.
Proof. by destruct o. Qed.
Lemma is_none_false {A} (o : option A) : is_none o = false ↔ is_Some o.
Proof. destruct o; simpl; split; eauto; [done|by intros [? [=]]]. Qed.
#[export] Hint Rewrite @is_none_true @is_none_false : bools.

#[local] Opaque digest digest_hex identity_from_dict anchor_from_dict provenance_from_dict
  execution_state_check attempt_check operation_receipt_check operation_identity request_identity
  execution_state_verify_integrity attempt_verify_integrity execution_state_with_digest attempt_with_digest
  continue_execution_state continue_attempt new_attempt live_digest_execution live_digest_attempt
  validate_execution_context _require_clock_not_before.

Section facts.
Context `{PyLib}.
Variable st : SQLiteExecutionStore.
Variable cap : _ApplierCapability.
Variable valid : nat → authority_answer.

(** The execution row an operation on the tables found *)
Definition found_execution (db : Db) (app : string) (s : ApplicationExecutionState) : Prop :=
  ∃ r, application_execution db !! app_key st app = Some r ∧ load execution_state_from_doc r = Ok s ∧
       execution_state_verify_integrity s = Ok true ∧ is_managed s = true.

(** The row a read loads *)
Lemma load_found db app s :
  _load_execution_state st app db = Ok s → is_managed s = true → found_execution db app s.
Proof.
  unfold found_execution, _load_execution_state. intros E Hm.
  destruct (application_execution db !! _) as [r|]; [|done]. exists r. split; [done|].
  destruct (load execution_state_from_doc r) as [s0|e]; [|by destruct e]. simpl in E.
  unfold intact_execution in E. inv_ok. bools. subst. by split_and!.
Qed.

Definition found_attempt (db : Db) (app id : string) (a : OperationAttemptState) : Prop :=
  ∃ r, operation_attempts db !! op_key st app id = Some r ∧ load attempt_from_doc r = Ok a ∧
       attempt_verify_integrity a = Ok true.

Definition claim_changes (owner id now : string) : execution_changes :=
  Changes Applying None (Some (Some owner)) (Some (Some id)) None None now None.

Lemma claim_Ok app digest c owner now db s a db' :
  context_wf c →
  claim_next_operation st cap valid app digest c owner now db = Ok ((s, a), db') →
  app = ctx_application_id c ∧ owner_wf owner = true ∧
  ∃ previous op id request d d',
    found_execution db app previous ∧ as_state_digest previous = digest ∧
    (as_state previous = Pending ∨ as_state previous = PartiallyApplied) ∧
    as_owner_id previous = None ∧ as_current_attempt_id previous = None ∧
    _expected_operations c !! as_next_operation_index previous = Some op ∧
    operation_identity app (as_next_operation_index previous) op = Ok id ∧
    clock_not_before now [as_started_at previous; as_updated_at previous] ∧
    _values (as_identity previous) = _values (ctx_identity c) ∧
    as_application_id previous = app ∧ as_continuity_anchor previous = continuity_anchor c ∧
    a = fresh_attempt c (as_next_operation_index previous) op id request Applying now now d None ∧
    attempt_intact a ∧
    s = changed_state c previous (claim_changes owner id now) d' None ∧ execution_intact s ∧
    operation_attempts db !! op_key st app id = None ∧
    db' = put_execution (app_key st app) (Doc (execution_state_doc s))
            (put_attempt (op_key st app id) (Doc (attempt_doc a)) db).
Proof.
  intros Hc E. unfold claim_next_operation in E. inv_ok. bools.
  destruct (application_execution db !! app_key st app) as [r|] eqn:Hr; [|done]. inv_ok. bools.
  repeat match goal with u : () |- _ => destruct u end.
  match goal with D : new_attempt _ _ _ _ _ _ _ = Ok _ |- _ =>
    apply new_attempt_Ok in D as (op & id & request & Hop & Hid & ->); [|exact Hc] end.
  match goal with D : continue_execution_state _ _ _ _ _ = Ok _ |- _ =>
    apply continue_execution_state_Ok in D as (-> & Hv & Ha & Han) end.
  match goal with D : attempt_with_digest _ = Ok _ |- _ =>
    apply fresh_attempt_intact in D as (d & -> & Hai); [|exact Hc|exact Hop] end.
  match goal with D : execution_state_with_digest _ = Ok _ |- _ =>
    eapply sealed_state_intact in D as (d' & -> & Hsi); [|exact Hc|exact Ha|reflexivity] end.
  unfold insert_attempt in *. inv_ok. bools.
  match goal with D : ¬ is_Some _ |- _ => apply eq_None_not_Some in D end.
  split; [done|]. split; [done|].
  eexists _, op, id, request, d, d'. rewrite <- _require_clock_not_before_Ok.
  split_and!; try done. exists r. by split_and!.
Qed.

(** The claimed pair, as [load_claim] returns it *)
Definition found_claim (db : Db) (app id owner : string) (sdigest adigest : string)
    (s : ApplicationExecutionState) (a : OperationAttemptState) : Prop :=
  found_execution db app s ∧ found_attempt db app id a ∧
  as_state_digest s = sdigest ∧ at_attempt_digest a = adigest ∧ as_state s = Applying ∧
  as_owner_id s = Some owner ∧ as_current_attempt_id s = Some id ∧ at_state a = Applying.

Lemma load_claim_Ok app sdigest id adigest owner db s a :
  load_claim st app sdigest id adigest owner db = Ok (s, a) → found_claim db app id owner sdigest adigest s a.
Proof.
  unfold load_claim. intros E.
  destruct (application_execution db !! app_key st app) as [r|] eqn:Hr; [|done].
  destruct (operation_attempts db !! op_key st app id) as [r'|] eqn:Hr'; [|done]. inv_ok. bools.
  unfold intact_execution in *. unfold found_claim.
  split_and!; try done; [exists r|exists r']; split_and!; try done; congruence.
Qed.

Lemma load_intact_attempt r a :
  load attempt_from_doc r = Ok a → ∃ v, r = Doc v ∧ attempt_from_doc v = Ok a.
Proof. destruct r; simpl; [eauto|done]. Qed.

Definition complete_changes (previous : ApplicationExecutionState) (rid now : string) : execution_changes :=
  Changes PartiallyApplied (Some (as_next_operation_index previous + 1)) (Some None) (Some None) None
    (Some (as_operation_receipt_refs previous ++ [rid])) now None.

Lemma complete_Ok app sdigest id adigest owner c receipt now db s db' :
  context_wf c →
  complete_operation_success st cap valid app sdigest id adigest owner c receipt now db = Ok (s, db') →
  ∃ previous attempt d,
    found_claim db app id owner sdigest adigest previous attempt ∧
    or_application_id receipt = app ∧ or_operation_index receipt = at_operation_index attempt ∧
    or_operation_identity receipt = at_operation_identity attempt ∧
    clock_not_before now [as_started_at previous; as_updated_at previous;
                          at_started_at attempt; at_updated_at attempt] ∧
    clock_not_before now [or_started_at receipt; or_completed_at receipt] ∧
    _values (as_identity previous) = _values (ctx_identity c) ∧
    as_application_id previous = ctx_application_id c ∧ as_continuity_anchor previous = continuity_anchor c ∧
    _expected_operations c !! at_operation_index attempt = Some (at_operation attempt) ∧
    at_application_id attempt = ctx_application_id c ∧
    s = changed_state c previous (complete_changes previous (or_operation_receipt_id receipt) now) d
          (Some (ctx_token c, kind_execution)) ∧ execution_intact s ∧
    operation_receipts db !! op_key st app (or_operation_identity receipt) = None ∧
    ∃ stored a,
      operation_receipt_with_digest receipt = Ok stored ∧
      live_digest_attempt c (changed_attempt c attempt Applied now (at_failure_code attempt) ""
                               (Some (ctx_token c, kind_attempt))) = Ok a ∧
      db' = put_execution (app_key st app) (Doc (execution_state_doc s))
              (put_attempt (op_key st app id) (Doc (attempt_doc a))
                (put_operation_receipt (op_key st app (or_operation_identity receipt))
                   (Doc (operation_receipt_doc stored)) db)).
Proof.
  intros Hc E. unfold complete_operation_success in E. inv_ok.
  match goal with D : load_claim _ _ _ _ _ _ _ = Ok ?p |- _ =>
    destruct p as [previous attempt]; apply load_claim_Ok in D as Hclaim end. inv_ok. bools.
  repeat match goal with u : () |- _ => destruct u end.
  match goal with D : continue_attempt _ _ _ _ _ _ _ = Ok _ |- _ =>
    apply continue_attempt_Ok in D as (-> & Hop & Haid) end.
  match goal with D : continue_execution_state _ _ _ _ _ = Ok _ |- _ =>
    apply continue_execution_state_Ok in D as (-> & Hv & Ha & Han) end.
  match goal with D : live_digest_execution _ _ = Ok _ |- _ =>
    eapply live_digest_execution_intact in D as (d & -> & Hsi); [|exact Hc|exact Ha|reflexivity] end.
  match goal with D : operation_receipt_with_digest _ = Ok ?x |- _ =>
    rename D into Hw; rename x into stored;
    destruct (operation_receipt_with_digest_Ok _ _ Hw) as ([dr Hdr] & _) end.
  assert (or_operation_identity stored = or_operation_identity receipt) as Hoi by by rewrite Hdr.
  assert (or_operation_receipt_id stored = or_operation_receipt_id receipt) as Hri by by rewrite Hdr.
  rewrite Hoi, Hri in *. unfold insert_operation_receipt in *. inv_ok. bools.
  match goal with D : ¬ is_Some _ |- _ => apply eq_None_not_Some in D end.
  eexists _, _, d. rewrite <- !_require_clock_not_before_Ok.
  split_and!; try done. eexists _, _. split_and!; done.
Qed.

Definition settle_changes (target : exec_state) (code now : string) : execution_changes :=
  Changes target None (Some None) None (Some (Some code)) None now None.

Lemma settle_Ok app sdigest id adigest owner c target code now db s db' :
  context_wf c →
  settle_operation st cap valid app sdigest id adigest owner c target code now db = Ok (s, db') →
  target ∈ [Failed; Blocked; OutcomeUnknown] ∧
  ∃ previous attempt d,
    found_claim db app id owner sdigest adigest previous attempt ∧
    _values (as_identity previous) = _values (ctx_identity c) ∧
    as_application_id previous = ctx_application_id c ∧ as_continuity_anchor previous = continuity_anchor c ∧
    _expected_operations c !! at_operation_index attempt = Some (at_operation attempt) ∧
    at_application_id attempt = ctx_application_id c ∧
    s = changed_state c previous (settle_changes target code now) d
          (Some (ctx_token c, kind_execution)) ∧ execution_intact s ∧
    ∃ a,
      live_digest_attempt c (changed_attempt c attempt target now (Some code) ""
                               (Some (ctx_token c, kind_attempt))) = Ok a ∧
      db' = put_execution (app_key st app) (Doc (execution_state_doc s))
              (put_attempt (op_key st app id) (Doc (attempt_doc a)) db).
Proof.
  intros Hc E. unfold settle_operation in E. inv_ok.
  match goal with D : load_claim _ _ _ _ _ _ _ = Ok ?p |- _ =>
    destruct p as [previous attempt]; apply load_claim_Ok in D as Hclaim end. inv_ok. bools.
  repeat match goal with u : () |- _ => destruct u end.
  match goal with D : continue_attempt _ _ _ _ _ _ _ = Ok _ |- _ =>
    apply continue_attempt_Ok in D as (-> & Hop & Haid) end.
  match goal with D : continue_execution_state _ _ _ _ _ = Ok _ |- _ =>
    apply continue_execution_state_Ok in D as (-> & Hv & Ha & Han) end.
  match goal with D : live_digest_execution _ _ = Ok _ |- _ =>
    eapply live_digest_execution_intact in D as (d & -> & Hsi); [|exact Hc|exact Ha|reflexivity] end.
  split; [done|]. eexists previous, attempt, d. split_and!; try done. eexists _. split; done.
Qed.

Definition finalize_changes (now : string) : execution_changes :=
  Changes Applied None None None None None now (Some (Some now)).

Lemma finalize_Ok app sdigest c now db s db' :
  context_wf c →
  finalize_application st cap valid app sdigest c now db = Ok (s, db') →
  ∃ previous receipts d,
    found_execution db app previous ∧ as_state_digest previous = sdigest ∧
    as_state previous = PartiallyApplied ∧
    as_next_operation_index previous = length (_expected_operations c) ∧
    as_owner_id previous = None ∧ as_current_attempt_id previous = None ∧
    finalize_receipts st app now 0 (_expected_operations c) db = Ok receipts ∧
    clock_not_before now [as_started_at previous; as_updated_at previous] ∧
    _values (as_identity previous) = _values (ctx_identity c) ∧
    as_application_id previous = ctx_application_id c ∧ as_continuity_anchor previous = continuity_anchor c ∧
    s = changed_state c previous (finalize_changes now) d (Some (ctx_token c, kind_execution)) ∧
    execution_intact s ∧ application_receipts db !! app_key st app = None ∧
    ∃ svc ans ar,
      new_application_receipt_from_refs svc ans c
        (map (λ r, ReceiptRef (or_operation_receipt_id r) (or_receipt_digest r)) receipts) now now = Ok ar ∧
      db' = put_execution (app_key st app) (Doc (execution_state_doc s))
              (put_application_receipt (app_key st app) (Doc (application_receipt_doc ar)) db).
Proof.
  intros Hc E. unfold finalize_application in E. inv_ok.
  destruct (application_execution db !! app_key st app) as [r|] eqn:Hr; [|done]. inv_ok. bools.
  repeat match goal with u : () |- _ => destruct u end.
  match goal with D : continue_execution_state _ _ _ _ _ = Ok _ |- _ =>
    apply continue_execution_state_Ok in D as (-> & Hv & Ha & Han) end.
  match goal with D : live_digest_execution _ _ = Ok _ |- _ =>
    eapply live_digest_execution_intact in D as (d & -> & Hsi); [|exact Hc|exact Ha|reflexivity] end.
  unfold insert_application_receipt in *. inv_ok. bools.
  match goal with D : ¬ is_Some _ |- _ => apply eq_None_not_Some in D end.
  unfold intact_execution in *.
  eexists _, _, d. rewrite <- !_require_clock_not_before_Ok.
  split_and!; try done; [exists r; split_and!; congruence|].
  eexists _, _, _. split; done.
Qed.
End facts.
