(* ===== verification/Refinement.v ===== *)
(** * The managed store refines the abstract machine

    [represents plan db p]: the rows of one application are those of phase [p].  Each
    managed operation that returns moves the rows along exactly one abstract step; a
    raised exception commits nothing.  The plan is what a context and the contexts
    created for the same application after a restart share. *)
From S2P Require Import Prelude PyValue Strings Canonical WriteOperations Identity Receipts ExecutionState.
From S2P Require Import Clock Context ExecutionStore ManagedStore ManagedSpec ManagedFacts.

Record plan := Plan {
  pl_identity : LogicalApplicationIdentity;
  pl_anchor : CredentialContinuityAnchor;
  pl_operations : list operation;
}.
Definition plan_of (c : Context) : plan := Plan (ctx_identity c) (continuity_anchor c) (_expected_operations c).

#[local] Opaque digest digest_hex identity_from_dict anchor_from_dict provenance_from_dict
  execution_state_check attempt_check operation_receipt_check operation_identity request_identity
  execution_state_verify_integrity attempt_verify_integrity operation_receipt_verify_integrity
  execution_state_with_digest attempt_with_digest
  continue_execution_state continue_attempt new_attempt live_digest_execution live_digest_attempt
  validate_execution_context _require_clock_not_before execution_state_from_doc attempt_from_doc
  operation_receipt_from_doc execution_state_doc attempt_doc operation_receipt_doc.

Section represents.
Context `{PyLib}.
Variable st : SQLiteExecutionStore.
Variable pl : plan.

Definition pl_app : string := _application_id (pl_identity pl).
Definition pl_count : nat := length (pl_operations pl).

Definition op_id_at (i : nat) (id : string) : Prop :=
  ∃ op, pl_operations pl !! i = Some op ∧ operation_identity pl_app i op = Ok id.

(** No two operations of the plan share an identity: their digests do not collide. *)
Definition distinct_ids : Prop := ∀ i j id, op_id_at i id → op_id_at j id → i = j.

Definition state_for (p : phase) (s : ApplicationExecutionState) : Prop :=
  execution_intact s ∧ is_managed s = true ∧
  _values (as_identity s) = _values (pl_identity pl) ∧ as_application_id s = pl_app ∧
  as_continuity_anchor s = pl_anchor pl ∧
  as_state s = phase_state p ∧ as_next_operation_index s = applied_count pl_count p ∧
  as_owner_id s = match p with Claimed _ o => Some o | _ => None end ∧
  match p with
  | Claimed k _ | Settled k _ => ∃ id, op_id_at k id ∧ as_current_attempt_id s = Some id
  | _ => as_current_attempt_id s = None
  end ∧
  length (as_operation_receipt_refs s) = applied_count pl_count p ∧
  (∀ i id, op_id_at i id → i < applied_count pl_count p →
     ∃ rid, operation_receipt_id_of id = Ok rid ∧ as_operation_receipt_refs s !! i = Some rid) ∧
  as_completed_at s = match p with Finished => Some (as_updated_at s) | _ => None end ∧
  match p with Settled _ _ => is_Some (as_recovery_code s) | _ => as_recovery_code s = None end.

Definition represents_execution (db : Db) (p : phase) : Prop :=
  match p with
  | Absent => application_execution db !! app_key st pl_app = None
  | _ => ∃ s, application_execution db !! app_key st pl_app = Some (Doc (execution_state_doc s)) ∧ state_for p s
  end.

Definition attempt_for (i : nat) (id : string) (x : exec_state) (a : OperationAttemptState) : Prop :=
  attempt_intact a ∧ at_state a = x ∧ at_operation_index a = i ∧ at_operation_identity a = id ∧
  at_application_id a = pl_app.

Definition represents_attempts (db : Db) (p : phase) : Prop :=
  ∀ i id, op_id_at i id →
    match attempt_phase pl_count p i with
    | None => operation_attempts db !! op_key st pl_app id = None
    | Some x => ∃ a, operation_attempts db !! op_key st pl_app id = Some (Doc (attempt_doc a)) ∧
                     attempt_for i id x a
    end.

Definition receipt_for (i : nat) (id : string) (r : OperationReceipt) : Prop :=
  operation_receipt_intact r ∧ or_operation_index r = i ∧ or_operation_identity r = id ∧
  or_application_id r = pl_app.

Definition represents_receipts (db : Db) (p : phase) : Prop :=
  ∀ i id, op_id_at i id →
    if i <? applied_count pl_count p
    then ∃ r, operation_receipts db !! op_key st pl_app id = Some (Doc (operation_receipt_doc r)) ∧
              receipt_for i id r
    else operation_receipts db !! op_key st pl_app id = None.

Definition represents_finish (db : Db) (p : phase) : Prop :=
  match p with
  | Finished => is_Some (application_receipts db !! app_key st pl_app)
  | _ => application_receipts db !! app_key st pl_app = None
  end.

Definition phase_wf (p : phase) : Prop :=
  match p with
  | Idle k => k ≤ pl_count
  | Claimed k _ => k < pl_count
  | Settled k x => k < pl_count ∧ x ∈ [Failed; Blocked; OutcomeUnknown]
  | _ => True
  end.

Definition represents (db : Db) (p : phase) : Prop :=
  phase_wf p ∧ represents_execution db p ∧ represents_attempts db p ∧ represents_receipts db p ∧
  represents_finish db p.

(** ** Rows found by an operation are the represented ones *)
Lemma state_for_historical p s : state_for p s → state_for p (execution_state_historical s).
Proof.
  unfold state_for. intros ([(Hc & Hi & Ha & Happ) Hv] & Hrest). split; [|exact Hrest].
  split; [|exact Hv]. split; [by apply execution_state_check_historical|]. exact (conj Hi (conj Ha Happ)).
Qed.

Lemma found_execution_for db p s :
  represents_execution db p → found_execution st db pl_app s → p ≠ Absent ∧ state_for p s.
Proof.
  intros Hr (r & Hrow & Hload & _). destruct p; simpl in Hr; try (destruct Hr as (s' & Hr & Hs)); rewrite Hr in Hrow;
    [discriminate Hrow|..]; injection Hrow as <-; simpl in Hload;
    rewrite execution_state_from_doc_doc in Hload by apply Hs; injection Hload as <-;
    (split; [discriminate|]; by apply state_for_historical).
Qed.

Lemma represents_found db p :
  represents db p → p ≠ Absent → ∃ s, found_execution st db pl_app s ∧ state_for p s.
Proof.
  intros (_ & He & _) Hp. destruct p; [done|..]; destruct He as (s & He & Hfor);
    exists (execution_state_historical s); (split; [|by apply state_for_historical]); eexists; (split; [exact He|]);
    simpl; rewrite execution_state_from_doc_doc by apply Hfor; (split; [done|]);
    destruct Hfor as ([_ Hv] & Hm & _); done.
Qed.

(** Distinct identities are decidable on a concrete plan. *)
Definition plan_ids : list string :=
  imap (λ i op, match operation_identity pl_app i op with Ok id => id | Err _ => "" end) (pl_operations pl).

Lemma distinct_ids_check : bool_decide (NoDup plan_ids) = true → distinct_ids.
Proof.
  intros Hn%bool_decide_eq_true i j id (op & Hop & Hid) (op' & Hop' & Hid').
  apply (NoDup_lookup plan_ids i j id Hn); unfold plan_ids; rewrite list_lookup_imap;
    [rewrite Hop|rewrite Hop']; simpl; [by rewrite Hid|by rewrite Hid'].
Qed.

Lemma attempt_for_historical i id x a : attempt_for i id x a → attempt_for i id x (attempt_historical a).
Proof.
  unfold attempt_for. intros ([(Hc & Hrest') Hv] & Hrest). split; [|exact Hrest].
  split; [|exact Hv]. split; [by apply attempt_check_historical|]. exact Hrest'.
Qed.

Lemma found_attempt_for db p i id a :
  represents_attempts db p → op_id_at i id → found_attempt st db pl_app id a →
  ∃ x, attempt_phase pl_count p i = Some x ∧ attempt_for i id x a.
Proof.
  intros Hr Hid (r & Hrow & Hload & _). specialize (Hr i id Hid).
  destruct (attempt_phase pl_count p i) as [x|]; [|by rewrite Hr in Hrow].
  destruct Hr as (a' & Hr & Ha). exists x. split; [done|]. rewrite Hr in Hrow. injection Hrow as <-.
  simpl in Hload. rewrite attempt_from_doc_doc in Hload by apply Ha. injection Hload as <-.
  by apply attempt_for_historical.
Qed.
End represents.

(** ** Tables after a write *)
Lemma execution_put_same k r db : application_execution (put_execution k r db) !! k = Some r.
Proof. apply lookup_insert_eq. Qed.


Section steps.
Context `{PyLib}.
Variable st : SQLiteExecutionStore.
Variable cap : _ApplierCapability.
Variable valid : nat → authority_answer.
Variable c : Context.
Hypothesis Hc : context_wf c.
Notation pl := (plan_of c).
Notation app := (ctx_application_id c).
Notation n := (length (_expected_operations c)).
Hypothesis Hdistinct : distinct_ids pl.

(** An attempt row replaced or inserted at operation [k] changes the phase of [k] only. *)
Lemma represents_attempts_put db p p' k id x a :
  represents_attempts st pl db p → op_id_at pl k id → attempt_for pl k id x a →
  attempt_phase n p' k = Some x →
  (∀ i, i ≠ k → attempt_phase n p' i = attempt_phase n p i) →
  represents_attempts st pl (put_attempt (op_key st app id) (Doc (attempt_doc a)) db) p'.
Proof.
  intros Hr Hid Ha Hk Hother i id' Hid'. simpl. change (pl_count pl) with n in *. destruct (decide (i = k)) as [->|Hne].
  - rewrite Hk. assert (id' = id) as ->.
    { destruct Hid as (op & Hop & Hid), Hid' as (op' & Hop' & Hid').
      rewrite Hop in Hop'. injection Hop' as <-. congruence. }
    exists a. split; [|done]. apply lookup_insert_eq.
  - rewrite Hother by done. specialize (Hr i id' Hid'). change (pl_count pl) with n in *.
    rewrite lookup_insert_ne; [exact Hr|]. intros [= <-]. apply Hne. by eapply Hdistinct.
Qed.

(** The other tables do not see a write. *)
Lemma represents_attempts_ext db db' p :
  operation_attempts db' = operation_attempts db →
  represents_attempts st pl db p → represents_attempts st pl db' p.
Proof. intros E Hr i id Hid. rewrite E. by apply Hr. Qed.

Lemma represents_receipts_ext db db' p p' :
  operation_receipts db' = operation_receipts db → applied_count n p' = applied_count n p →
  represents_receipts st pl db p → represents_receipts st pl db' p'.
Proof. intros E Hn Hr i id Hid. rewrite E. change (pl_count pl) with n. rewrite Hn. by apply Hr. Qed.

Lemma op_id_at_expected k op id :
  _expected_operations c !! k = Some op → operation_identity app k op = Ok id → op_id_at pl k id.
Proof. intros. by exists op. Qed.

Lemma idle_of_state p s :
  state_for pl p s → p ≠ Absent → phase_wf pl p →
  as_state s = Pending ∨ as_state s = PartiallyApplied → ∃ k, p = Idle k ∧ as_next_operation_index s = k.
Proof.
  intros (_ & _ & _ & _ & _ & Hs & Hn & _) Hp Hw Hst. rewrite Hs in Hst.
  destruct p as [|k|k o|k x|]; [done|by eauto|..]; exfalso; simpl in Hst; try (by destruct Hst).
  destruct Hw as [_ Hw]. destruct x; (by destruct Hst) || (by apply (bool_decide_unpack _) in Hw)
    || (revert Hw; by apply (bool_decide_unpack _)).
Qed.

(** The claim of operation [k] *)
Lemma claim_represents digest owner now db s a db' p :
  represents st pl db p →
  claim_next_operation st cap valid app digest c owner now db = Ok ((s, a), db') →
  ∃ k, p = Idle k ∧ k < n ∧ represents st pl db' (Claimed k owner) ∧
       op_id_at pl k (at_operation_identity a) ∧
       state_for pl (Claimed k owner) s ∧ attempt_for pl k (at_operation_identity a) Applying a.
Proof.
  intros (Hw & He & Ha & Hr & Hf) E.
  apply claim_Ok in E as (_ & Howner & previous & op & id & request & d & d' & Hfound & _ & Hst & Ho & Hat & Hop
    & Hid & _ & Hv & Happ & Han & Hatt & Hai & Hs & Hsi & Hnone & Hdb); [|done].
  destruct (found_execution_for _ _ _ _ _ He Hfound) as [Hp Hfor].
  destruct (idle_of_state _ _ Hfor Hp Hw Hst) as (k & -> & Hk). rewrite Hk in Hop, Hid.
  assert (k < n) as Hlt by by eapply lookup_lt_Some.
  pose proof (op_id_at_expected _ _ _ Hop Hid) as Hopid.
  destruct Hfor as (_ & Hm & _ & _ & _ & Hstate & Hnext & _ & _ & Hlen & Hrefs & Hcomp & Hrec).
  assert (at_operation_identity a = id) as Haid by by rewrite Hatt.
  assert (state_for pl (Claimed k owner) s) as Hsfor.
  { split; [exact Hsi|]. rewrite Hs. unfold is_managed in *. simpl. split_and!; try done.
    by eexists. }
  assert (attempt_for pl k id Applying a) as Hafor.
  { split; [exact Hai|]. rewrite Hatt. simpl. by rewrite Hk. }
  exists k. rewrite Haid. split_and!; try done. subst db'. repeat split; try done.
  - simpl. eexists. split; [apply execution_put_same|exact Hsfor].
  - eapply represents_attempts_ext; [reflexivity|].
    eapply (represents_attempts_put _ (Idle k)); [exact Ha|exact Hopid|exact Hafor|..].
    + unfold attempt_phase. simpl. rewrite Nat.ltb_irrefl, Nat.eqb_refl. done.
    + intros i Hi. unfold attempt_phase. simpl. apply Nat.eqb_neq in Hi. by rewrite Hi.
Qed.

(** The claimed pair an operation found is the represented claim. *)
Lemma found_claim_for db p id owner sd ad s a :
  represents st pl db p → found_claim st db app id owner sd ad s a →
  ∃ k, p = Claimed k owner ∧ k < n ∧ op_id_at pl k id ∧ state_for pl p s ∧ attempt_for pl k id Applying a.
Proof.
  intros (Hw & He & Ha & Hr & Hf) (Hs & Hat & _ & _ & Hst & Ho & Hcur & _).
  destruct (found_execution_for _ _ _ _ _ He Hs) as [Hp Hfor].
  pose proof Hfor as (_ & _ & _ & _ & _ & Hstate & _ & Hown & Hatt & _).
  rewrite Hst in Hstate. rewrite Ho in Hown.
  destruct p as [|[|k]|k o|k x|]; simpl in Hstate, Hown; try discriminate.
  injection Hown as <-. destruct Hatt as (id' & Hid' & Hcur'). rewrite Hcur in Hcur'. injection Hcur' as <-.
  exists k. split_and!; try done.
  destruct (found_attempt_for _ _ _ _ _ _ _ Ha Hid' Hat) as (x & Hx & Hafor).
  unfold attempt_phase in Hx. simpl in Hx. rewrite Nat.ltb_irrefl, Nat.eqb_refl in Hx. by injection Hx as <-.
Qed.

Lemma changed_attempt_for k id a target now code entry a' :
  attempt_for pl k id Applying a →
  live_digest_attempt c (changed_attempt c a target now code "" entry) = Ok a' →
  attempt_for pl k id target a'.
Proof.
  intros (Hi & Hst & Hk & Hid & Happ) E.
  apply changed_attempt_intact in E as (d & -> & Hai); [|exact Hc|apply Hi|exact Happ].
  split; [exact Hai|]. simpl. done.
Qed.

Lemma sealed_receipt_for k id r stored :
  operation_receipt_wf r → operation_receipt_with_digest r = Ok stored →
  or_application_id r = app → or_operation_index r = k → or_operation_identity r = id →
  receipt_for pl k id stored ∧ operation_receipt_id_of id = Ok (or_operation_receipt_id r).
Proof.
  intros (Hck & Hi & Hp & Hop & Hrem & Happ) E Ha Hk Hid.
  apply operation_receipt_with_digest_Ok in E as ([d Hd] & Hc' & Hv).
  split.
  - split; [split; [split; [exact Hc'|]|exact Hv]|]; rewrite Hd; simpl; [|done].
    exact (conj Hi (conj Hp (conj Hop (conj Hrem Happ)))).
  - destruct (operation_receipt_check_facts _ _ Hck) as (_ & _ & _ & _ & _ & Hrid & _). by rewrite <- Hid.
Qed.

Lemma represents_receipts_put db k owner id r :
  represents_receipts st pl db (Claimed k owner) → op_id_at pl k id → receipt_for pl k id r →
  represents_receipts st pl (put_operation_receipt (op_key st app id) (Doc (operation_receipt_doc r)) db)
    (Idle (S k)).
Proof.
  intros Hr Hid Hfor i id' Hid'. simpl. destruct (decide (i = k)) as [->|Hne].
  - destruct (Nat.ltb_spec k (S k)); [|lia]. assert (id' = id) as ->.
    { destruct Hid as (op & Hop & Hid), Hid' as (op' & Hop' & Hid').
      rewrite Hop in Hop'. injection Hop' as <-. congruence. }
    exists r. split; [apply lookup_insert_eq|done].
  - specialize (Hr i id' Hid'). simpl in Hr.
    rewrite lookup_insert_ne by (intros [= <-]; apply Hne; by eapply Hdistinct).
    destruct (Nat.ltb_spec i k), (Nat.ltb_spec i (S k)); try lia; exact Hr.
Qed.

(** The completion of the claimed operation *)
Lemma complete_represents sd id ad owner receipt now db s db' p :
  represents st pl db p → operation_receipt_wf receipt →
  complete_operation_success st cap valid app sd id ad owner c receipt now db = Ok (s, db') →
  ∃ k, p = Claimed k owner ∧ k < n ∧ represents st pl db' (Idle (S k)) ∧ state_for pl (Idle (S k)) s.
Proof.
  intros Hrep Hwf E.
  apply complete_Ok in E as (previous & a & d & Hclaim & Hra & Hrk & Hri & _ & _ & Hv & Happ & Han & _ & _ &
    Hs & Hsi & Hnone & stored & a' & Hstored & Ha' & Hdb); [|done].
  destruct (found_claim_for _ _ _ _ _ _ _ _ Hrep Hclaim) as (k & -> & Hk & Hid & Hfor & Hafor).
  destruct Hrep as (Hw & He & Ha & Hr & Hf).
  destruct Hfor as (_ & Hm & _ & _ & _ & Hstate & Hnext & _ & _ & Hlen & Hrefs & Hcomp & Hrec).
  simpl in Hnext, Hlen, Hrefs.
  pose proof Hafor as (_ & _ & Hak & Haid & _). rewrite Haid in Hri. rewrite Hak in Hrk. rewrite Hri in *.
  destruct (sealed_receipt_for _ _ _ _ Hwf Hstored Hra Hrk Hri) as [Hrfor Hrid].
  pose proof (changed_attempt_for _ _ _ _ _ _ _ _ Hafor Ha') as Hafor'.
  assert (state_for pl (Idle (S k)) s) as Hsfor.
  { split; [exact Hsi|]. rewrite Hs. unfold is_managed in *. simpl. split_and!; try done.
    - lia.
    - rewrite length_app. simpl. lia.
    - intros i id' Hid' Hi. destruct (decide (i = k)) as [->|Hne].
      + exists (or_operation_receipt_id receipt). assert (id' = id) as ->.
        { destruct Hid as (op & Hop & Hid), Hid' as (op' & Hop' & Hid').
          rewrite Hop in Hop'. injection Hop' as <-. congruence. }
        split; [done|]. rewrite <- Hlen. apply list_lookup_middle. done.
      + destruct (Hrefs i id' Hid') as (rid & ? & ?); [lia|]. exists rid. split; [done|].
        by apply lookup_app_l_Some. }
  exists k. split_and!; try done. subst db'. split_and!.
  - simpl. change (pl_count pl) with n. lia.
  - simpl. eexists. split; [apply execution_put_same|exact Hsfor].
  - eapply represents_attempts_ext; [reflexivity|].
    eapply (represents_attempts_put _ (Claimed k owner)); [|exact Hid|exact Hafor'|..].
    + by eapply represents_attempts_ext; [|exact Ha].
    + unfold attempt_phase. simpl. destruct (Nat.ltb_spec k (S k)); [done|lia].
    + intros i Hi. unfold attempt_phase. simpl.
      destruct (Nat.ltb_spec i (S k)), (Nat.ltb_spec i k), (Nat.eqb_spec i (S k)), (Nat.eqb_spec i k); done || lia.
  - intros i id' Hid'. exact (represents_receipts_put _ _ _ _ _ Hr Hid Hrfor i id' Hid').
  - exact Hf.
Qed.

(** The settlement of the claimed operation *)
Lemma settle_represents sd id ad owner target code now db s db' p :
  represents st pl db p →
  settle_operation st cap valid app sd id ad owner c target code now db = Ok (s, db') →
  ∃ k, p = Claimed k owner ∧ k < n ∧ target ∈ [Failed; Blocked; OutcomeUnknown] ∧
       represents st pl db' (Settled k target) ∧ state_for pl (Settled k target) s.
Proof.
  intros Hrep E.
  apply settle_Ok in E as (Htarget & previous & a & d & Hclaim & Hv & Happ & Han & _ & _ &
    Hs & Hsi & a' & Ha' & Hdb); [|done].
  destruct (found_claim_for _ _ _ _ _ _ _ _ Hrep Hclaim) as (k & -> & Hk & Hid & Hfor & Hafor).
  destruct Hrep as (Hw & He & Ha & Hr & Hf).
  destruct Hfor as (_ & Hm & _ & _ & _ & Hstate & Hnext & _ & Hcur & Hlen & Hrefs & Hcomp & Hrec).
  pose proof (changed_attempt_for _ _ _ _ _ _ _ _ Hafor Ha') as Hafor'.
  assert (state_for pl (Settled k target) s) as Hsfor.
  { split; [exact Hsi|]. rewrite Hs. unfold is_managed in *. simpl. by split_and!. }
  exists k. split_and!; try done. subst db'. split_and!.
  - done.
  - simpl. eexists. split; [apply execution_put_same|exact Hsfor].
  - eapply represents_attempts_ext; [reflexivity|].
    eapply (represents_attempts_put _ (Claimed k owner)); [exact Ha|exact Hid|exact Hafor'|..].
    + unfold attempt_phase. simpl. rewrite Nat.ltb_irrefl, Nat.eqb_refl. done.
    + intros i Hi. unfold attempt_phase. simpl. apply Nat.eqb_neq in Hi. by rewrite Hi.
  - exact Hr.
  - exact Hf.
Qed.

(** The finalization once every operation is applied *)
Lemma finalize_represents sd now db s db' p :
  represents st pl db p →
  finalize_application st cap valid app sd c now db = Ok (s, db') →
  p = Idle n ∧ represents st pl db' Finished ∧ state_for pl Finished s.
Proof.
  intros (Hw & He & Ha & Hr & Hf) E.
  apply finalize_Ok in E as (previous & receipts & d & Hfound & _ & Hst & Hnext & Ho & Hat & _ & _ & Hv & Happ &
    Han & Hs & Hsi & Hnone & svc & ans & ar & Har & Hdb); [|done].
  destruct (found_execution_for _ _ _ _ _ He Hfound) as [Hp Hfor].
  destruct (idle_of_state _ _ Hfor Hp Hw (or_intror Hst)) as (k & -> & Hk).
  rewrite Hnext in Hk. subst k.
  destruct Hfor as (_ & Hm & _ & _ & _ & _ & _ & _ & _ & Hlen & Hrefs & Hcomp & Hrec).
  assert (state_for pl Finished s) as Hsfor.
  { split; [exact Hsi|]. rewrite Hs. unfold is_managed in *. simpl. by split_and!. }
  split; [done|]. split; [|exact Hsfor]. subst db'. split_and!.
  - done.
  - simpl. eexists. split; [apply execution_put_same|exact Hsfor].
  - intros i id Hid. specialize (Ha i id Hid). simpl.
    unfold attempt_phase in *. simpl in *. change (pl_count pl) with n in *.
    destruct (Nat.ltb_spec i n); [exact Ha|]. destruct (i =? n); exact Ha.
  - exact Hr.
  - simpl. rewrite lookup_insert_eq. by eexists.
Qed.

(** The starting state the applier offers: created when there is none, else the stored one *)
Definition initial_state (svc : RuntimeService) (ans : authority_answer) (now : string)
  : result ApplicationExecutionState :=
  new_execution_state svc ans c Pending 0 None None None [] now now None (Some APPLIER_ORCHESTRATION_POLICY).

Lemma create_represents svc ans now init db s db' p :
  represents st pl db p → initial_state svc ans now = Ok init →
  create_execution_if_absent st cap valid c init db = Ok (s, db') →
  (p = Absent ∧ represents st pl db' (Idle 0) ∧ state_for pl (Idle 0) s) ∨
  (p ≠ Absent ∧ db' = db ∧ state_for pl p s).
Proof.
  intros (Hw & He & Ha & Hr & Hf) Hinit E.
  unfold initial_state, new_execution_state in Hinit. inv_ok.
  match goal with D : execution_state_check _ = Ok _ |- _ => apply execution_state_check_Ok in D as -> end.
  unfold create_execution_if_absent in E. inv_ok.
  match goal with D : execution_state_with_digest _ = Ok ?x |- _ =>
    apply execution_state_with_digest_Ok in D as ([d Hd] & Hck & Hv); rename x into cand end.
  assert (as_application_id cand = app) as Happ by by rewrite Hd.
  rewrite Happ in E.
  destruct (application_execution db !! app_key st app) as [r|] eqn:Hrow.
  - inv_ok. bools. right. unfold intact_execution in *.
    destruct (found_execution_for _ _ _ _ s He) as [Hp Hfor]; [exists r; split_and!; first [done|congruence]|].
    done.
  - injection E as <- <-. left.
    assert (p = Absent) as ->.
    { destruct p; [done|..]; destruct He as (s' & He & _); change (pl_app pl) with app in He; congruence. }
    destruct Hc as (Hi & Han & _ & _ & Hne & _).
    assert (state_for pl (Idle 0) cand) as Hsfor.
    { split; [split; [split; [exact Hck|]|exact Hv]|]; rewrite Hd; simpl.
      - exact (conj Hi (conj Han Hne)).
      - unfold is_managed. simpl. split_and!; try done. intros; lia. }
    split; [done|]. split; [|exact Hsfor]. split_and!; try done.
    + simpl. lia.
    + simpl. eexists. split; [apply execution_put_same|exact Hsfor].
Qed.
End steps.

(** ** Every committed call of an applier of this application *)
Section system.
Context `{PyLib}.
Variable st : SQLiteExecutionStore.
Variable pl : plan.

(** [c] is a context of the plan: of this process or of another one, before or after a
    restart. *)
Definition serves (c : Context) : Prop := plan_of c = pl ∧ context_wf c.

Inductive managed_step (db db' : Db) : Prop :=
| managed_create cap valid c svc ans now init s :
    serves c → initial_state c svc ans now = Ok init →
    create_execution_if_absent st cap valid c init db = Ok (s, db') → managed_step db db'
| managed_claim cap valid c digest owner now s a :
    serves c → claim_next_operation st cap valid (pl_app pl) digest c owner now db = Ok ((s, a), db') →
    managed_step db db'
| managed_complete cap valid c sd id ad owner receipt now s :
    serves c → operation_receipt_wf receipt →
    complete_operation_success st cap valid (pl_app pl) sd id ad owner c receipt now db = Ok (s, db') →
    managed_step db db'
| managed_settle cap valid c sd id ad owner target code now s :
    serves c → settle_operation st cap valid (pl_app pl) sd id ad owner c target code now db = Ok (s, db') →
    managed_step db db'
| managed_finalize cap valid c sd now s :
    serves c → finalize_application st cap valid (pl_app pl) sd c now db = Ok (s, db') → managed_step db db'.

(** One committed call is at most one abstract step. *)
Lemma managed_step_represents db db' p :
  distinct_ids pl → represents st pl db p → managed_step db db' →
  ∃ p', represents st pl db' p' ∧ (p' = p ∨ phase_step (pl_count pl) p p').
Proof.
  intros Hd Hrep Hstep.
  destruct Hstep as [? ? c ? ? ? ? s [<- Hc] Hi E|? ? c ? owner ? s a [<- Hc] E
    |? ? c ? ? ? owner ? ? s [<- Hc] Hwf E|? ? c ? ? ? owner target ? ? s [<- Hc] E|? ? c ? ? s [<- Hc] E].
  - destruct (create_represents _ _ _ _ Hc _ _ _ _ _ _ _ _ Hrep Hi E) as [(-> & Hr & _)|(_ & -> & _)].
    + exists (Idle 0). split; [done|]. right. constructor.
    + exists p. auto.
  - eapply claim_represents in E as (k & -> & Hk & Hr & _); [|done..].
    exists (Claimed k owner). split; [done|]. right. by constructor.
  - eapply complete_represents in E as (k & -> & Hk & Hr & _); [|done..].
    exists (Idle (S k)). split; [done|]. right. by constructor.
  - eapply settle_represents in E as (k & -> & Hk & Ht & Hr & _); [|done..].
    exists (Settled k target). split; [done|]. right. by constructor.
  - destruct (finalize_represents _ _ _ _ Hc _ _ _ _ _ _ Hrep E) as (-> & Hr & _).
    exists Finished. split; [done|]. right. constructor.
Qed.
End system.
