(* ===== verification/WriteContract.v ===== *)
(** * The write executor's commands and observations (delivery_system/drivers/write_contract.py)

    Also [normalize_repository_identity] of delivery_system/drivers/contract.py. *)
From S2P Require Import Prelude PyValue Strings Canonical.
From Stdlib Require Import Ascii.

Definition SLASH : ascii := "047"%char.

Section contract.
Context `{PyLib}.

Definition normalize_repository_identity (repository : string) : result string :=
  let parts := map py_strip (split_on SLASH repository) in
  raise "repository_identity_invalid"
    when negb (length parts =? 2) || existsb (λ p, bool_decide (p = "")) parts ;
  Ok (join "/" (map py_lower parts)).

Definition WRITE_EXECUTOR_IDENTITY : string := "delivery-system:github-rest-write-v1".
Definition WRITE_CONTRACT_VERSION : string := "github-rest-write-v1".

Definition correlation_marker_for_request (request_identity : string) : result string :=
  raise "write_correlation_invalid" when bool_decide (request_identity = "") ;
  Ok ("<!-- delivery-system-request:" +:+ request_identity +:+ " -->").

Inductive WriteObservationKind := DEFINITIVE_SUCCESS | DEFINITIVE_REJECTED | AMBIGUOUS.
#[export] Instance observation_kind_eq_dec : EqDecision WriteObservationKind.
Proof. solve_decision. Defined.

Record RemoteIssueReference := Reference {
  ref_repository_identity : string;
  issue_number : Z;
  numeric_issue_id : string;
  node_id : string;
}.
#[export] Instance reference_eq_dec : EqDecision RemoteIssueReference.
Proof. solve_decision. Defined.

(** [not value.strip()] *)
Definition blank (s : string) : bool := bool_decide (py_strip s = "").

(** The constructor, on the dynamic values of a receipt or snapshot *)
Definition make_reference (repository : string) (number numeric node : pyval) : result RemoteIssueReference :=
  let! repo := normalize_repository_identity repository in
  match number with
  | VInt n =>
      raise "write_reference_invalid" when (n <? 1)%Z ;
      match numeric, node with
      | VStr a, VStr b =>
          raise "write_reference_invalid" when blank a || blank b ; Ok (Reference repo n a b)
      | _, _ => Err (ValueError "write_reference_invalid")
      end
  | _ => Err (ValueError "write_reference_invalid")
  end.

Record CreateIssueCommand := CreateCommand {
  cc_repository_identity : string;
  cc_client_ref : string;
  cc_title : string;
  cc_body : string;
  cc_request_identity : string;
}.

Definition make_create_command (repository client_ref title body request : string) : result CreateIssueCommand :=
  let! repo := normalize_repository_identity repository in
  raise "write_command_invalid" when existsb blank [client_ref; title; body; request] ;
  Ok (CreateCommand repo client_ref title body request).

Record RelationshipCommand := RelCommand {
  rc_repository_identity : string;
  rc_first : RemoteIssueReference;
  rc_second : RemoteIssueReference;
}.

Definition make_relationship_command (repository : string) (first second : RemoteIssueReference)
  : result RelationshipCommand :=
  let! repo := normalize_repository_identity repository in
  raise "write_command_invalid"
    when negb (bool_decide (ref_repository_identity first = repo))
         || negb (bool_decide (ref_repository_identity second = repo)) || bool_decide (first = second) ;
  Ok (RelCommand repo first second).

(** What the applier hands to the executor *)
Inductive command := CreateIssue (c : CreateIssueCommand) | Relationship (c : RelationshipCommand).

(** ** Observations *)
Fixpoint _freeze_value (v : pyval) : pyval :=
  match v with
  | VDict d => VDict (map (λ p, (fst p, _freeze_value (snd p))) d)
  | VList l | VTuple l => VTuple (map _freeze_value l)
  | VSet l => VSet (map _freeze_value l)
  | _ => v
  end.

Record WriteObservation := Observation {
  ob_kind : WriteObservationKind;
  ob_result_identity : pyval;
  ob_result_payload : pyval;           (** [VNone] or a mapping *)
  ob_code : pyval;
}.

Definition make_observation (kind : WriteObservationKind) (identity payload code : pyval)
  : result WriteObservation :=
  raise "write_observation_invalid" when truthy identity && negb (is_str identity) ;
  raise "write_observation_invalid" when truthy code && negb (is_str code) ;
  match payload with
  | VNone => Ok (Observation kind identity VNone code)
  | VDict _ => Ok (Observation kind identity (_freeze_value payload) code)
  | _ => Err (ValueError "write_observation_invalid")
  end.
End contract.
