(* ===== verification/Preflight.v ===== *)
(** * Preflight (delivery_system/drivers/preflight.py, drivers/contract.py)

    The validation of what a read-only driver answers, the binding of validated facts to a
    preview, and the revalidation of a sealed endpoint (delivery_system/existing_endpoints.py).
    The driver is a host object: its answer to [read_repository] is an argument. *)
From S2P Require Import Prelude PyValue Strings PyOps Canonical Evidence RemoteSnapshot Endpoints.
From S2P Require Import WriteContract.

(** ** The driver boundary *)
Record DriverTrustContext := TrustContext {
  trusted_driver_identity : string;
  origin : string;
  contract_version : string;
}.
#[export] Instance trust_context_eq_dec : EqDecision DriverTrustContext.
Proof. solve_decision. Defined.

(** An untrusted answer: its fields are dynamic values *)
Record DriverReadResponse := ReadResponse {
  requested_repository : pyval;
  canonical_repository : pyval;
  remote_repository_id : pyval;
  authenticated_subject : pyval;
  visibility : pyval;
  permissions : pyval;
  capabilities : pyval;
  query_scope : pyval;
  query_complete : pyval;
  pagination_complete : pyval;
  issue_records : pyval;
  relationship_records : pyval;
  evidence_material : pyval;
  source_identity : pyval;
  remote_content_digest : pyval;
  remote_repository_node_id : pyval;
  authenticated_user_id : pyval;
  authenticated_user_node_id : pyval;
  authenticated_login : pyval;
}.

(** What [driver.read_repository] does *)
Inductive read_reply :=
| Replied (r : DriverReadResponse)
| RepliedOther                       (** an object of another type *)
| RaisedDriverError (code : string)
| RaisedOther.

Definition MINIMUM_PERMISSIONS : list string := ["read"].
Definition MINIMUM_CAPABILITIES : list string := ["issues"; "relationships"].
Definition SUPPORTED_VISIBILITIES : list string := ["public"; "private"; "internal"].
Definition RUNTIME_EVIDENCE_KEYS : list string :=
  ["workspace_identity"; "preview_id"; "revision"; "evidence_id"; "verification_status"].

(** [PreflightFailure]: the code and its detail *)
Definition failure : Type := string * string.
Definition fail_if (b : bool) (code detail : string) : list failure := if b then [(code, detail)] else [].

(** [ValidatedRemoteFacts]; [facts_id] is the identity of the object, by which the table of
    minted tickets finds it *)
Record ValidatedRemoteFacts := Facts {
  facts_id : nat;
  response : DriverReadResponse;
  canonical_remote_content_payload : pyval;
  facts_content_digest : string;
}.

Section preflight.
Context `{PyLib}.

Definition remote_authority (t : DriverTrustContext) : result string :=
  digest (dict_of
    [("domain", VStr "delivery-system:remote-authority:v1");
     ("trusted_driver_identity", VStr (trusted_driver_identity t)); ("origin", VStr (origin t));
     ("contract_version", VStr (contract_version t))]).

Definition normalize_repository (v : pyval) : result string :=
  match v with VStr s => normalize_repository_identity s | _ => Err (ValueError "repository_identity_invalid") end.

Definition _validate_scope (scope expected : pyval) : result bool :=
  match (let! a := canonical_payload scope in let! b := canonical_payload expected in Ok (bool_decide (a = b))) with
  | Ok b => Ok b
  | Err (TypeError _ | ValueError _ | JSONDecodeError) => Ok false
  | Err e => Err e
  end.

Definition _valid_mapping_items (v : pyval) : bool :=
  match v with
  | VDict d => forallb (λ p, nonblank (fst p) && match snd p with VBool _ | VNone => true | _ => false end) d
  | _ => false
  end.
Definition _valid_record_sequence (v : pyval) : bool :=
  match as_sequence v with Some l => forallb is_mapping l | None => false end.
Definition is_bool (v : pyval) : bool := match v with VBool _ => true | _ => false end.

Definition _response_shape_is_valid (r : DriverReadResponse) : bool :=
  _valid_mapping_items (permissions r) && _valid_mapping_items (capabilities r) && is_mapping (query_scope r)
  && _valid_record_sequence (issue_records r) && _valid_record_sequence (relationship_records r)
  && _valid_record_sequence (evidence_material r) && is_bool (query_complete r) && is_bool (pagination_complete r)
  && nonblank (remote_content_digest r).

(** [_normalize_requirements]: [None] for requirements that are no list of distinct texts *)
Fixpoint stripped_distinct (l : list pyval) (seen : list string) : option (list string) :=
  match l with
  | [] => Some seen
  | v :: l' =>
      if negb (nonblank v) then None
      else let s := py_strip (the_str v) in
           if bool_decide (s ∈ seen) then None else stripped_distinct l' (seen ++ [s])
  end.
(** [dict.fromkeys(l)]: the first occurrence of each *)
Fixpoint first_occurrences (l seen : list string) : list string :=
  match l with
  | [] => []
  | s :: l' => if bool_decide (s ∈ seen) then first_occurrences l' seen
               else s :: first_occurrences l' (s :: seen)
  end.
Definition _normalize_requirements (values : pyval) (minimum : list string) : option (list string) :=
  match (match values with VNone => Some [] | _ => as_sequence values end) with
  | None => None
  | Some l => match stripped_distinct l [] with
              | Some names => Some (first_occurrences (minimum ++ names) [])
              | None => None
              end
  end.

Definition sequence_items (v : pyval) : list pyval := match as_sequence v with Some l => l | None => [] end.

Definition _remote_content_payload (r : DriverReadResponse) (canonical trusted : pyval) : pyval :=
  let optional := [("remote_repository_node_id", remote_repository_node_id r);
                   ("authenticated_user_id", authenticated_user_id r);
                   ("authenticated_user_node_id", authenticated_user_node_id r);
                   ("authenticated_login", authenticated_login r)] in
  let present := List.filter (λ p, negb (bool_decide (snd p = VNone))) optional in
  dict_of
    ([("requested_repository", requested_repository r); ("canonical_repository", canonical);
      ("remote_repository_id", remote_repository_id r); ("authenticated_subject", authenticated_subject r);
      ("visibility", visibility r); ("permissions", permissions r); ("capabilities", capabilities r);
      ("query_scope", query_scope r); ("query_complete", query_complete r);
      ("pagination_complete", pagination_complete r); ("issue_records", VList (sequence_items (issue_records r)));
      ("relationship_records", VList (sequence_items (relationship_records r)));
      ("evidence_material", VList (sequence_items (evidence_material r))); ("source_identity", trusted)]
     ++ (if bool_decide (present = []) then [] else [("schema_version", VStr "github-rest-remote-content-v1")])
     ++ present).

(** The loops over the required permissions and capabilities *)
Definition requirement_failures (kind : string) (granted : pyval) (names : list string) : list failure :=
  concat (map (λ name,
    match get granted name with
    | VNone => [(kind +:+ "_unknown", name)]
    | VBool true => []
    | _ => [(kind +:+ "_insufficient", name)]
    end) names).

(** The loop over the evidence material: it stops at the first record that fails *)
Definition evidence_failure (r : DriverReadResponse) (canonical trusted : pyval) (record : pyval)
  : result (list failure) :=
  if existsb (has_key record) RUNTIME_EVIDENCE_KEYS then
    Ok [("driver_response_invalid", "Driver Evidence material contains Runtime-owned identity")]
  else if negb (py_eq (get record "source_identity") trusted) then
    Ok [("evidence_source_untrusted", "Evidence source identity does not match trusted Driver identity")]
  else
    let! scoped := if negb (py_eq (get record "repository_identity") canonical) then Ok false
                   else _validate_scope (get record "query_scope") (query_scope r) in
    if negb scoped then Ok [("evidence_scope_invalid", "Evidence scope does not match the remote read")]
    else
      let payload := get record "payload" in
      Ok (fail_if (negb (is_mapping payload
                         && py_eq (get payload "issue_records") (VList (sequence_items (issue_records r)))
                         && py_eq (get payload "relationship_records")
                              (VList (sequence_items (relationship_records r)))))
            "evidence_remote_content_mismatch" "Evidence payload does not match remote records").
Fixpoint evidence_failures (r : DriverReadResponse) (canonical trusted : pyval) (records : list pyval)
  : result (list failure) :=
  match records with
  | [] => Ok []
  | record :: records' =>
      let! fs := evidence_failure r canonical trusted record in
      match fs with [] => evidence_failures r canonical trusted records' | _ => Ok fs end
  end.

(** The failures collected once the shape and the source of the answer are accepted *)
Definition collect_failures (r : DriverReadResponse) (repository requested : string) (canonical : option string)
    (trusted : string) (expected_scope : pyval) (required_permissions required_capabilities : list string)
  : result (list failure) :=
  let canonical_value := match canonical with Some c => VStr c | None => VNone end in
  let! scope_ok := _validate_scope (query_scope r) expected_scope in
  let! material := evidence_failures r canonical_value (VStr trusted) (sequence_items (evidence_material r)) in
  Ok (fail_if (negb (py_eq (requested_repository r) (VStr repository)))
        "requested_repository_mismatch" "Driver did not preserve the requested repository"
      ++ fail_if (bool_decide (canonical = None)) "remote_identity_unknown" "Canonical repository identity is invalid"
      ++ fail_if (negb (bool_decide (canonical = Some requested)))
           "repository_identity_mismatch" "Requested and remote repository identities differ"
      ++ fail_if (negb (nonblank (remote_repository_id r)))
           "remote_identity_unknown" "Stable remote repository identity is missing"
      ++ fail_if (negb (nonblank (authenticated_subject r)))
           "authenticated_subject_unknown" "Authenticated remote subject is missing"
      ++ fail_if (negb (nonblank (visibility r) && bool_decide (the_str (visibility r) ∈ SUPPORTED_VISIBILITIES)))
           "repository_visibility_unknown" "Repository visibility is missing or unsupported"
      ++ requirement_failures "permission" (permissions r) required_permissions
      ++ requirement_failures "capability" (capabilities r) required_capabilities
      ++ fail_if (negb (truthy (query_complete r))) "query_scope_incomplete" "Remote query scope is incomplete"
      ++ fail_if (negb (truthy (pagination_complete r)))
           "pagination_incomplete" "Remote result pagination is incomplete"
      ++ fail_if (negb scope_ok) "query_scope_mismatch" "Driver response scope differs from requested scope"
      ++ material
      ++ fail_if (bool_decide (sequence_items (evidence_material r) = []))
           "evidence_missing" "At least one scoped Driver Evidence material is required").

(** ** [validate_driver_facts]
    [driver] answers [read_repository]; [ticket] is the identity of the facts object minted on
    success.  [inl] holds the failures. *)
Definition validate_driver_facts (driver : pyval → pyval → read_reply) (ticket : nat) (repository scope : pyval)
    (trusted : pyval) (required_permissions required_capabilities : pyval)
  : result (list failure + ValidatedRemoteFacts) :=
  match normalize_repository repository with
  | Err _ => Ok (inl [("repository_identity_invalid", "Requested repository is not owner/name")])
  | Ok requested =>
      match _normalize_requirements required_permissions MINIMUM_PERMISSIONS,
            _normalize_requirements required_capabilities MINIMUM_CAPABILITIES with
      | Some required_p, Some required_c =>
          if negb (nonblank trusted) || negb (is_mapping scope) || negb (truthy scope) then
            Ok (inl [("driver_identity_untrusted", "Trusted Driver identity or query scope is invalid")])
          else
            match driver repository scope with
            | RaisedDriverError code => Ok (inl [(code, "Driver read failed")])
            | RaisedOther => Ok (inl [("driver_call_failed", "Driver read failed")])
            | RepliedOther => Ok (inl [("driver_response_invalid", "Driver returned an unexpected response type")])
            | Replied r =>
                if negb (_response_shape_is_valid r) then
                  Ok (inl [("driver_response_invalid", "Driver returned malformed read facts")])
                else if negb (nonblank (source_identity r)) || negb (py_eq (source_identity r) trusted) then
                  Ok (inl [("driver_identity_untrusted",
                            "Response source identity does not match trusted Driver identity")])
                else
                  let canonical := match normalize_repository (canonical_repository r) with
                                   | Ok c => Some c | Err _ => None end in
                  let! failures := collect_failures r (the_str repository) requested canonical (the_str trusted) scope
                                     required_p required_c in
                  match failures, canonical with
                  | [], Some c =>
                      let payload := _remote_content_payload r (VStr c) trusted in
                      match digest payload with
                      | Err (TypeError _ | ValueError _ | JSONDecodeError) =>
                          Ok (inl [("driver_response_invalid", "Remote facts cannot be canonicalized")])
                      | Err e => Err e
                      | Ok d =>
                          if negb (py_eq (remote_content_digest r) (VStr d)) then
                            Ok (inl [("remote_state_inconsistent", "Driver content digest does not match remote facts")])
                          else Ok (inr (Facts ticket r payload d))
                      end
                  | fs, _ => Ok (inl fs)
                  end
            end
      | _, _ => Ok (inl [("requirements_invalid",
                          "Required permissions and capabilities must be non-empty strings")])
      end
  end.

(** ** Binding validated facts to a preview *)
Record RuntimeEvidenceBinding := EvidenceBinding {
  eb_workspace_identity : string;
  eb_preview_id : string;
  eb_revision : Z;
}.

Inductive any_snapshot :=
| SnapshotV1 (s : TypedRemoteSnapshot RemoteIssueRecord)
| SnapshotV2 (s : TypedRemoteSnapshot RemoteIssueRecordV2).

Definition any_snapshot_digest (s : any_snapshot) : result string :=
  match s with SnapshotV1 s => snapshot_v1_digest s | SnapshotV2 s => snapshot_v2_digest s end.
Definition any_snapshot_evidence (s : any_snapshot) : list pyval :=
  match s with SnapshotV1 s => sn_evidence_ids s | SnapshotV2 s => sn_evidence_ids s end.

(** [RuntimePromotion] (delivery_system/runtime_authority.py): a capability used once *)
Record RuntimePromotion := Promotion {
  pr_trust_context : DriverTrustContext;
  pr_evidence_record : EvidenceRecord;
  pr_snapshot : any_snapshot;
  pr_remote_content_digest : string;
  pr_remote_snapshot_digest : string;
  pr_used : bool;
}.
Definition consume (p : RuntimePromotion) : result RuntimePromotion :=
  raise "repository_aware_promotion_reused" when pr_used p ;
  Ok (Promotion (pr_trust_context p) (pr_evidence_record p) (pr_snapshot p) (pr_remote_content_digest p)
        (pr_remote_snapshot_digest p) true).

Record RuntimeEvidenceBindingResult := BindingResult {
  br_evidence_record : EvidenceRecord;
  br_snapshot : any_snapshot;
  br_remote_snapshot_digest : string;
  br_promotion : RuntimePromotion;
}.

Definition bool_items (v : pyval) : pyval :=
  match v with VDict d => VDict (List.filter (λ p, is_bool (snd p)) d) | _ => v end.
Definition true_keys (v : pyval) : list pyval :=
  match v with VDict d => map fst (List.filter (λ p, bool_decide (snd p = VBool true)) d) | _ => [] end.

Definition bind_snapshot (r : DriverReadResponse) (canonical evidence_id schema : string) : result any_snapshot :=
  let permissions := bool_items (permissions r) in
  let capabilities := VList (true_keys (capabilities r)) in
  let relationships := VList (sequence_items (relationship_records r)) in
  let evidence := VList [VStr evidence_id] in
  let issues := sequence_items (issue_records r) in
  if bool_decide (schema = "remote-snapshot-v2") then
    let! issues := map_r _v2_record_from_driver issues in
    let! s := snapshot_v2_from_records canonical (query_scope r) (query_complete r) (pagination_complete r)
                (VList issues) permissions capabilities relationships evidence VNone in
    Ok (SnapshotV2 s)
  else
    let! s := snapshot_from_records canonical (query_scope r) (query_complete r) (pagination_complete r)
                (VList issues) permissions capabilities relationships evidence VNone in
    Ok (SnapshotV1 s).

(** The binding once the ticket is taken *)
Definition bind_facts (facts : ValidatedRemoteFacts) (binding : RuntimeEvidenceBinding) (trust : DriverTrustContext)
    (schema : string) : result RuntimeEvidenceBindingResult :=
  let r := response facts in
  let trusted := VStr (trusted_driver_identity trust) in
  let expected := _remote_content_payload r (canonical_repository r) trusted in
  let! expected_digest := digest expected in
  raise "validated_remote_facts_mismatch"
    when negb (py_eq (canonical_remote_content_payload facts) expected)
         || negb (bool_decide (facts_content_digest facts = expected_digest)) ;
  raise "driver_identity_untrusted" when negb (py_eq (source_identity r) trusted) ;
  let canonical := the_str (canonical_repository r) in
  let! evidence := create_verified_driver (eb_workspace_identity binding) (eb_preview_id binding)
                     (eb_revision binding) "driver_remote_read" ("repository:" +:+ canonical)
                     (canonical_remote_content_payload facts) (trusted_driver_identity trust) canonical
                     (query_scope r) VNone "evidence-v1" in
  let! snapshot := bind_snapshot r canonical (ev_evidence_id evidence) schema in
  let! d := any_snapshot_digest snapshot in
  Ok (BindingResult evidence snapshot d (Promotion trust evidence snapshot (facts_content_digest facts) d false)).

(** [bind_validated_facts]: [tickets] are the facts minted and not yet bound; the ticket is
    taken before the other checks, so a failed binding uses it up as well. *)
Definition bind_validated_facts (tickets : list nat) (facts : ValidatedRemoteFacts) (binding : RuntimeEvidenceBinding)
    (trust : DriverTrustContext) (schema : string) : list nat * result RuntimeEvidenceBindingResult :=
  if bool_decide (facts_id facts ∈ tickets) then
    (List.filter (λ i, negb (i =? facts_id facts)) tickets, bind_facts facts binding trust schema)
  else (tickets, Err (ValueError "validated_remote_facts_required")).

(** ** [run_preflight] *)
Record PreflightResult := MkPreflightResult {
  pf_passed : bool;
  pf_repository_identity : pyval;
  pf_snapshot : option any_snapshot;
  pf_evidence_records : list EvidenceRecord;
  pf_failures : list failure;
}.

Definition run_preflight (driver : pyval → pyval → read_reply) (ticket : nat) (repository scope : pyval)
    (binding : RuntimeEvidenceBinding) (trusted required_permissions required_capabilities : pyval)
  : result PreflightResult :=
  match normalize_repository repository with
  | Err _ =>
      Ok (MkPreflightResult false VNone None []
            [("repository_identity_invalid", "Requested repository is not owner/name")])
  | Ok requested =>
      if bool_decide (py_strip (eb_workspace_identity binding) = "")
         || bool_decide (py_strip (eb_preview_id binding) = "") || (eb_revision binding <? 1)%Z then
        Ok (MkPreflightResult false (VStr requested) None []
              [("driver_evidence_binding_invalid", "Runtime evidence binding is invalid")])
      else
        let! outcome := validate_driver_facts driver ticket repository scope trusted required_permissions
                          required_capabilities in
        match outcome with
        | inl failures => Ok (MkPreflightResult false (VStr requested) None [] failures)
        | inr facts =>
            let canonical := canonical_repository (response facts) in
            match snd (bind_validated_facts [ticket] facts binding
                         (TrustContext (the_str trusted) "offline://driver" "offline-v1") "remote-snapshot-v1") with
            | Ok bound => Ok (MkPreflightResult true canonical (Some (br_snapshot bound)) [br_evidence_record bound] [])
            | Err e =>
                if is_key_type_value_error e then
                  Ok (MkPreflightResult false canonical None []
                        [("remote_state_inconsistent", "Remote records are not a valid TypedRemoteSnapshot")])
                else Err e
            end
        end
  end.

(** ** [ExistingEndpointRevalidator.__call__]
    [bindings] and [repository] come from the execution context, [scope] is the driver's
    [fixed_query_scope]. *)
Fixpoint find_by (key : string) (v : pyval) (l : list pyval) : result (option pyval) :=
  match l with
  | [] => Ok None
  | x :: l' => let! k := get_attr x key in if py_eq k v then Ok (Some x) else find_by key v l'
  end.

Definition relationship_exists (kind : string) (references : list RemoteIssueReference) (relation : pyval) : bool :=
  match references with
  | [source; target] =>
      py_eq (get relation "kind") (VStr kind) && py_eq (get relation "from") (VStr (node_id source))
      && py_eq (get relation "to") (VStr (node_id target))
  | _ => false
  end.

Definition revalidate_endpoint (driver : pyval → pyval → read_reply) (ticket : nat) (trust : DriverTrustContext)
    (bindings : list pyval) (repository : pyval) (scope : pyval) (endpoint_ref : string)
    (operation_kind : option string) (references : option (list RemoteIssueReference)) : result bool :=
  let! binding := find_by "endpoint_ref" (VStr endpoint_ref) bindings in
  match binding with
  | None => Err (ValueError "existing_endpoint_identity_mismatch")
  | Some binding =>
      raise "remote_observation_unavailable" when negb (is_mapping scope) || negb (truthy scope) ;
      let! outcome := validate_driver_facts driver ticket repository scope (VStr (trusted_driver_identity trust))
                        VNone VNone in
      match outcome with
      | inl failures =>
          raise "existing_endpoint_repository_mismatch"
            when existsb (λ f, bool_decide (fst f ∈ ["repository_identity_mismatch"; "requested_repository_mismatch"]))
                   failures ;
          Err (ValueError "remote_observation_unavailable")
      | inr facts =>
          let! records := map_r _v2_record_from_driver (sequence_items (issue_records (response facts))) in
          let! record := find_by "issue_id" (get binding "issue_id") records in
          match record with
          | None => Err (ValueError "existing_endpoint_not_found")
          | Some record =>
              raise "existing_endpoint_repository_mismatch"
                when negb (py_eq (get record "repository_identity") repository)
                     || negb (py_eq (get record "item_type") (VStr "issue")) ;
              let! identity := identity_digest record in
              raise "existing_endpoint_identity_mismatch" when negb (py_eq (VStr identity) (get binding "identity_digest")) ;
              let! address := write_address_digest record in
              raise "existing_endpoint_write_address_invalid"
                when negb (py_eq (VStr address) (get binding "write_address_digest")) ;
              let! semantic := semantic_digest record in
              raise "existing_endpoint_semantic_stale" when negb (py_eq (VStr semantic) (get binding "semantic_digest")) ;
              match operation_kind, references with
              | Some kind, Some refs =>
                  if bool_decide (kind ∈ ["add_sub_issue"; "add_dependency"]) then
                    raise "remote_observation_unavailable"
                      when match refs with [a; b] => bool_decide (node_id a = node_id b) | _ => true end ;
                    let relation := if bool_decide (kind = "add_sub_issue") then "existing_parent"
                                    else "existing_dependency" in
                    raise "relationship_already_exists"
                      when existsb (relationship_exists relation refs)
                             (sequence_items (relationship_records (response facts))) ;
                    Ok true
                  else Ok true
              | _, _ => Ok true
              end
          end
      end
  end.
End preflight.
