(* ===== verification/GithubWrite.v ===== *)
(** * The GitHub write driver (delivery_system/drivers/github_write.py)

    Validation of repositories, identifiers and paths, the request bodies, and the
    normalization of responses into observations.  The connection itself is not code of
    this program's own: a dispatch takes the transport's and the token provider's answers
    as arguments.  A response body is what its bytes decode to as UTF-8 JSON: a value, nothing
    when they are not UTF-8 or not JSON, or another exception of [json.loads], as for an integer
    of too many digits or for too deep a nesting. *)
From S2P Require Import Prelude PyValue Strings Canonical Clock WriteContract.
From Stdlib Require Import Ascii.

Definition MAX_WRITE_REQUEST_BYTES : nat := 256 * 1024.
Definition MAX_GITHUB_DECIMAL_DIGITS : nat := 20.
Definition MAX_NODE_ID_LENGTH : nat := 512.
Definition _REDIRECTS : list Z := [301; 302; 303; 307; 308]%Z.
Definition _KNOWN_REJECTIONS : list Z := [400; 401; 403; 404; 409; 410; 422; 429]%Z.
Definition _JSON_MEDIA_TYPES : list string := ["application/json"; "application/vnd.github+json"].

(** ** Character classes and the bounded patterns built from them *)
Definition is_owner_char (c : ascii) : bool := is_alnum c || char_in [45]%N c.
Definition is_repository_char (c : ascii) : bool := is_alnum c || char_in [45; 46; 95]%N c.

Fixpoint last_char (p : ascii → bool) (s : string) : bool :=
  match s with
  | "" => false
  | String c "" => p c
  | String _ s' => last_char p s'
  end.

(** [edge(?:inner{0,max-2}edge)?] *)
Definition edged (inner edge : ascii → bool) (max : nat) (s : string) : bool :=
  all_bytes inner s && first_char edge s && last_char edge s && (String.length s <=? max).

Definition _OWNER (s : string) : bool := edged is_owner_char is_alnum 39 s.
Definition _REPOSITORY (s : string) : bool := edged is_repository_char is_alnum 100 s.

(** [[1-9][0-9]{0,19}] *)
Definition _DECIMAL_ID (s : string) : bool :=
  all_bytes is_digit s && first_char (in_range 49 57) s && (String.length s <=? 20).

(** [application-request-[0-9a-f]{64}] *)
Definition _REQUEST_ID (s : string) : bool :=
  match strip_prefix "application-request-" s with
  | Some h => all_bytes is_lower_hex h && (String.length h =? 64)
  | None => false
  end.

(** [HttpsWriteTransport.valid_path]; the components hold no slash, so the pattern is
    matched component by component. *)
Definition printable (c : ascii) : bool := in_range 33 126 c.

Definition valid_path (path : string) : bool :=
  (String.length path <=? 512) && all_bytes printable path &&
  match split_on SLASH path with
  | "" :: "repos" :: owner :: name :: "issues" :: rest =>
      _OWNER owner && _REPOSITORY name &&
      match rest with
      | [] => true
      | [number; "sub_issues"] => _DECIMAL_ID number
      | [number; "dependencies"; "blocked_by"] => _DECIMAL_ID number
      | _ => false
      end
  | _ => false
  end.

(** [urllib.parse.quote(s, safe="")] *)
Definition upper_hex (n : N) : ascii := ascii_of_N (if (n <? 10)%N then 48 + n else 55 + n)%N.
Definition is_unreserved (c : ascii) : bool :=
  is_alnum c || in_range 65 90 c || char_in [45; 46; 95; 126]%N c.
Fixpoint quote (s : string) : string :=
  match s with
  | "" => ""
  | String c s' =>
      let n := N_of_ascii c in
      if is_unreserved c then String c (quote s')
      else "%" +:+ String (upper_hex (N.div n 16)) (String (upper_hex (N.modulo n 16)) (quote s'))
  end.

Section driver.
Context `{PyLib}.

Definition _safe_decimal_id (value : string) : result Z :=
  raise "write_reference_invalid" when negb (_DECIMAL_ID value) ;
  match take_digits (String.length value) 0 value with
  | Some (n, _) => Ok n
  | None => Err (Unmodelled "int")
  end.

Definition _safe_issue_number (value : Z) : result Z :=
  raise "write_reference_invalid"
    when (value <? 1)%Z || (MAX_GITHUB_DECIMAL_DIGITS <? String.length (pretty value)) ; Ok value.

(** Characters no repository may hold: spaces and controls *)
Definition forbidden_char (c : string) : bool :=
  is_space c || match c with String b "" => in_range 0 31 b || in_range 127 127 b | _ => false end.

Definition bad_repository_char (c : ascii) : bool :=
  negb (printable c) || char_in [37; 63; 35; 92]%N c.

Definition _validate_repository (repository : string) : result string :=
  raise "repository_identity_invalid" when existsb forbidden_char (chars repository) ;
  let raw_parts := split_on SLASH repository in
  raise "repository_identity_invalid"
    when negb (length raw_parts =? 2) || existsb (λ p, negb (bool_decide (p = py_strip p))) raw_parts ;
  let! normalized := normalize_repository_identity repository in
  match split_on SLASH normalized with
  | [owner; name] =>
      raise "repository_identity_invalid"
        when (140 <? py_len normalized) || negb (all_bytes (λ c, negb (bad_repository_char c)) normalized)
             || negb (_OWNER owner) || negb (_REPOSITORY name) ;
      Ok normalized
  | _ => Err (ValueError "repository_identity_invalid")
  end.

Definition _path (repository suffix : string) : result string :=
  let! normalized := _validate_repository repository in
  match split_on SLASH normalized with
  | [owner; name] =>
      let path := "/repos/" +:+ quote owner +:+ "/" +:+ quote name +:+ "/issues" +:+ suffix in
      raise "github_write_path_invalid" when negb (valid_path path) ; Ok path
  | _ => Err (ValueError "unpack")
  end.

(** ** Responses *)
Record WriteTransportResponse := Response {
  status : Z;
  headers : list (string * string);
  body_json : result (option pyval);   (** what decoding the body gives *)
}.

Definition make_response (status : Z) (headers : list (string * string)) (body : result (option pyval))
  : result WriteTransportResponse :=
  raise "github_write_response_invalid" when negb ((100 <=? status)%Z && (status <=? 599)%Z) ;
  Ok (Response status headers body).

Definition _header (headers : list (string * string)) (name : string) : option string :=
  snd <$> find (λ p, bool_decide (py_lower (fst p) = py_lower name)) headers.

(** [value.split(";", 1)] *)
Fixpoint split_first (sep : ascii) (s : string) : string * option string :=
  match s with
  | "" => ("", None)
  | String c s' =>
      if bool_decide (c = sep) then ("", Some s')
      else let p := split_first sep s' in (String c (fst p), snd p)
  end.

Definition has_byte (b : ascii) (s : string) : bool := negb (all_bytes (λ c, negb (bool_decide (c = b))) s).

Definition _valid_json_media_type (headers : list (string * string)) : bool :=
  match _header headers "Content-Type" with
  | None => false
  | Some value =>
      let p := split_first ";"%char value in
      match snd p with
      | Some parameters =>
          let text := py_strip parameters in
          negb (bool_decide (text = "")) && has_byte "="%char text
      | None => true
      end
      && bool_decide (py_lower (py_strip (fst p)) ∈ _JSON_MEDIA_TYPES)
  end.

Definition _json_object (response : WriteTransportResponse) : result (option pyval) :=
  if _valid_json_media_type (headers response) then
    let! value := body_json response in
    Ok (match value with Some (VDict d) => Some (VDict d) | _ => None end)
  else Ok None.

(** ** [_result_identity]: ASCII JSON of the evidence *)

(** The code point of a UTF-8 character *)
Definition code_point (c : string) : N :=
  let cont n b := (n * 64 + (N_of_ascii b - 128))%N in
  match c with
  | String a "" => N_of_ascii a
  | String a (String b "") => cont (N_of_ascii a - 192)%N b
  | String a (String b (String d "")) => cont (cont (N_of_ascii a - 224)%N b) d
  | String a (String b (String d (String e ""))) => cont (cont (cont (N_of_ascii a - 240)%N b) d) e
  | _ => 0%N
  end.

Definition hex4 (n : N) : string :=
  String (hex_digit (N.modulo (N.div n 4096) 16)) (String (hex_digit (N.modulo (N.div n 256) 16))
    (String (hex_digit (N.modulo (N.div n 16) 16)) (ch (hex_digit (N.modulo n 16))))).

(** [py_encode_basestring_ascii]: characters beyond ASCII, and DEL, as UTF-16 escapes *)
Definition escape_char_ascii (c : string) : string :=
  let u n := String BACKSLASH (ch "u"%char) +:+ hex4 n in
  match c with
  | String a "" => if (N_of_ascii a =? 127)%N then u 127%N else escape_char a
  | _ =>
      let n := code_point c in
      if (n <? 65536)%N then u n
      else let m := (n - 65536)%N in u (55296 + N.div m 1024)%N +:+ u (56320 + N.modulo m 1024)%N
  end.

Definition json_string_ascii (s : string) : string :=
  ch QUOTE +:+ String.concat "" (map escape_char_ascii (chars s)) +:+ ch QUOTE.

(** The evidence of a write: a flat dict of strings and integers *)
Definition evidence : Type := list (string * (string + Z)).

Definition evidence_dict (e : evidence) : pyval :=
  dict_of (map (λ p, (fst p, match snd p with inl s => VStr s | inr z => VInt z end)) e).

Definition _result_identity (e : evidence) : string :=
  "github-write-result-" +:+
  sha256_hex ("{" +:+ join "," (map (λ p, json_string_ascii (fst p) +:+ ":" +:+
                match snd p with inl s => json_string_ascii s | inr z => pretty z end) (sort_by fst e)) +:+ "}").

(** ** Requests *)
Definition _request_body (value : pyval) : result string :=
  match dumps value with
  | Ok encoded =>
      if MAX_WRITE_REQUEST_BYTES <? String.length encoded
      then Err (DriverError "github_write_request_too_large") else Ok encoded
  | Err _ => Err (DriverError "github_write_request_invalid")
  end.

(** The provider's answer: an exception, or any value *)
Definition _credential_headers (token : result pyval) : result (list (string * string)) :=
  match token with
  | Ok (VStr t) =>
      if (1 <=? py_len t) && (py_len t <=? 4096) && bool_decide (t = py_strip t) && all_bytes printable t
      then Ok [("Authorization", "Bearer " +:+ t)] else Err (DriverError "github_write_credential_required")
  | _ => Err (DriverError "github_write_credential_required")
  end.

(** [HttpsWriteTransport.post]: its guards, then the network's answer.  The headers the
    driver passes are built from strings. *)
Definition post (network : string → string → result WriteTransportResponse) (path body : string)
  : result WriteTransportResponse :=
  if negb (valid_path path) then Err (DriverError "github_write_path_invalid")
  else if MAX_WRITE_REQUEST_BYTES <? String.length body then Err (DriverError "github_write_request_invalid")
  else network path body.

(** ** Normalization of responses *)
Definition _classify_non_success (response : WriteTransportResponse) : WriteObservation :=
  let payload := dict_of [("status", VInt (status response))] in
  if existsb (Z.eqb (status response)) _REDIRECTS then
    Observation DEFINITIVE_REJECTED (VStr "") payload (VStr "github_write_redirect_rejected")
  else if (status response =? 429)%Z then
    Observation DEFINITIVE_REJECTED (VStr "") payload (VStr "github_write_rate_limited")
  else if existsb (Z.eqb (status response)) _KNOWN_REJECTIONS then
    Observation DEFINITIVE_REJECTED (VStr "") payload (VStr "github_write_rejected")
  else Observation AMBIGUOUS (VStr "") payload (VStr "github_write_ambiguous").

Definition ambiguous (code : string) : WriteObservation := Observation AMBIGUOUS (VStr "") VNone (VStr code).
Definition success (e : evidence) : WriteObservation :=
  Observation DEFINITIVE_SUCCESS (VStr (_result_identity e)) (evidence_dict e) (VStr "").

Definition _normalize_response (response : WriteTransportResponse) (e : evidence) : result WriteObservation :=
  if (status response =? 201)%Z then
    let! object := _json_object response in
    Ok (match object with
        | None => ambiguous "github_write_response_invalid"
        | Some _ => success e
        end)
  else Ok (_classify_non_success response).

Definition bounded_int (v : pyval) : option Z :=
  match v with
  | VInt z => if (1 <=? z)%Z && (z <=? 10 ^ 20 - 1)%Z then Some z else None
  | _ => None
  end.

Definition control_char (c : ascii) : bool := in_range 0 31 c || in_range 127 127 c.

Definition bounded_node_id (v : pyval) : option string :=
  match v with
  | VStr s =>
      let n := py_len (py_strip s) in
      if (1 <=? n) && (n <=? MAX_NODE_ID_LENGTH) && all_bytes (λ c, negb (control_char c)) s then Some s else None
  | _ => None
  end.

(** The evidence of a created issue *)
Definition create_evidence (repository : string) (number : Z) (id : Z) (node : string) : evidence :=
  [("repository_identity", inl repository); ("issue_number", inr number); ("numeric_issue_id", inl (pretty id));
   ("node_id", inl node); ("executor_identity", inl WRITE_EXECUTOR_IDENTITY);
   ("contract_version", inl WRITE_CONTRACT_VERSION); ("response_status", inr 201%Z)].

(** A failed post: a [DriverError] keeps its code, any other exception does not; both
    leave the outcome unknown. *)
Definition failed_post (e : exn) : result WriteObservation :=
  match e with
  | DriverError code =>
      if bool_decide (code = "github_write_credential_required") then Err e else Ok (ambiguous code)
  | _ => Ok (ambiguous "github_write_transport_ambiguous")
  end.

Definition _create_result (repository : string) (network : string → string → result WriteTransportResponse)
    (token : result pyval) (body : string) : result WriteObservation :=
  let! _ := _credential_headers token in
  match (let! path := _path repository "" in post network path body) with
  | Err e => failed_post e
  | Ok response =>
      if negb (status response =? 201)%Z then Ok (_classify_non_success response)
      else
        let! object := _json_object response in
        match object with
        | None => Ok (ambiguous "github_write_response_invalid")
        | Some value =>
            match bounded_int (get value "id"), bounded_int (get value "number"),
                  bounded_node_id (get value "node_id") with
            | Some id, Some number, Some node => Ok (success (create_evidence repository number id node))
            | _, _, _ => Ok (ambiguous "github_write_response_invalid")
            end
        end
  end.

Definition _dispatch_relationship (network : string → string → result WriteTransportResponse)
    (token : result pyval) (path : string) (request : pyval) (e : evidence) : result WriteObservation :=
  let! _ := _credential_headers token in
  match (let! body := _request_body request in post network path body) with
  | Err e => failed_post e
  | Ok response => _normalize_response response e
  end.

(** ** The three operations *)
Definition MARKER_PREFIX : string := "<!-- delivery-system-request:".

Fixpoint contains (needle s : string) : bool :=
  startswith needle s || match s with "" => false | String _ s' => contains needle s' end.

Definition _create_issue_dispatch (c : CreateIssueCommand)
    (network : string → string → result WriteTransportResponse) (token : result pyval)
  : result WriteObservation :=
  let! repository := _validate_repository (cc_repository_identity c) in
  if negb (_REQUEST_ID (cc_request_identity c)) then Err (DriverError "write_correlation_invalid")
  else if contains MARKER_PREFIX (cc_body c) then Err (DriverError "write_correlation_reserved")
  else
    let! body := _request_body (dict_of
      [("body", VStr (cc_body c +:+ String LF (ch LF) +:+ MARKER_PREFIX +:+ cc_request_identity c +:+ " -->"));
       ("title", VStr (cc_title c))]) in
    _create_result repository network token body.

Definition relationship_evidence (repository number_key : string) (number : Z) (id_key : string) (id : Z)
    (direction : string) : evidence :=
  [("repository_identity", inl repository); (number_key, inr number); (id_key, inl (pretty id));
   ("direction", inl direction); ("executor_identity", inl WRITE_EXECUTOR_IDENTITY);
   ("contract_version", inl WRITE_CONTRACT_VERSION); ("response_status", inr 201%Z)].

Definition _sub_issue_dispatch (c : RelationshipCommand)
    (network : string → string → result WriteTransportResponse) (token : result pyval)
  : result WriteObservation :=
  let! repository := _validate_repository (rc_repository_identity c) in
  let! parent_number := _safe_issue_number (issue_number (rc_second c)) in
  let! child_id := _safe_decimal_id (numeric_issue_id (rc_first c)) in
  let! path := _path repository ("/" +:+ pretty parent_number +:+ "/sub_issues") in
  _dispatch_relationship network token path (dict_of [("sub_issue_id", VInt child_id)])
    (relationship_evidence repository "parent_issue_number" parent_number "child_numeric_issue_id" child_id
       "child_to_parent").

Definition _dependency_dispatch (c : RelationshipCommand)
    (network : string → string → result WriteTransportResponse) (token : result pyval)
  : result WriteObservation :=
  let! repository := _validate_repository (rc_repository_identity c) in
  let! dependent_number := _safe_issue_number (issue_number (rc_first c)) in
  let! prerequisite_id := _safe_decimal_id (numeric_issue_id (rc_second c)) in
  let! path := _path repository ("/" +:+ pretty dependent_number +:+ "/dependencies/blocked_by") in
  _dispatch_relationship network token path (dict_of [("issue_id", VInt prerequisite_id)])
    (relationship_evidence repository "dependent_issue_number" dependent_number "prerequisite_numeric_issue_id"
       prerequisite_id "dependent_to_prerequisite").
End driver.
