(* ===== verification/Applier.v ===== *)
(** * The applier (delivery_system/applier.py)

    [_apply] drives one application: it creates or resumes the durable state, and for
    each remaining operation claims it, materializes its command, dispatches it once and
    records the outcome.  The code is a program over [event]s: the store's transactions
    and reads, and the answers of the runtime service, the clock, [uuid4] and the remote
    executor.  Programs are finite trees, so a run is a sequence of answers; the steps of
    several processes interleave at events (module Interleaving). *)
From S2P Require Import Prelude PyValue Strings Canonical WriteOperations Identity Receipts ExecutionState.
From S2P Require Import Clock Context ExecutionStore ManagedStore WriteContract GithubWrite.
From Stdlib Require Import Ascii.

Record ApplyResult := Applied_result {
  res_application_id : string;
  res_state : exec_state;
  res_next_operation_index : nat;
  res_application_receipt_id : option string;
  res_recovery_code : option string;
}.

(** ** [render_create_issue] *)
Section render.
Context `{PyLib}.

Definition _json_value (v : pyval) : result string := dumps v.

Definition _source (item : pyval) (field : string) : result pyval :=
  let value := get item field in
  raise "sealed_item_field_invalid"
    when negb (is_mapping value && keys_are ["value"; "declared_source"; "provenance_status"] value) ;
  raise "sealed_item_provenance_invalid"
    when negb (py_eq (get value "provenance_status") (VStr "declared_unverified"))
         || negb (is_nonempty_str (get value "declared_source")) ;
  Ok (get value "value").

Definition RENDER_FIELDS : list string :=
  ["role"; "title"; "context_problem"; "outcome"; "scope"; "non_goals"; "acceptance_criteria";
   "verification"; "required_capabilities"; "write_metadata"].

Definition section_text (p : string * pyval) : result string :=
  let! encoded := _json_value (snd p) in
  Ok ("## " +:+ fst p +:+ String LF (ch LF) +:+ "    " +:+ encoded).

Definition render_create_issue (item : pyval) : result (string * string) :=
  match get item "client_ref" with
  | VStr client_ref =>
      raise "sealed_item_field_invalid" when bool_decide (client_ref = "") ;
      let! values := map_r (λ f, let! v := _source item f in Ok (f, v)) RENDER_FIELDS in
      let value f := get (dict_of values) f in
      match value "title" with
      | VStr title =>
          raise "sealed_item_field_invalid"
            when bool_decide (title = "") || negb (all_bytes (λ c, negb (control_char c)) title) ;
          raise "sealed_item_field_invalid"
            when existsb (λ f, negb (bool_decide (is_Some (as_sequence (value f)))))
                   ["non_goals"; "acceptance_criteria"; "required_capabilities"] ;
          let! parts := map_r section_text
            [("Client reference", VStr client_ref); ("Role", value "role");
             ("Context / Problem", value "context_problem"); ("Outcome", value "outcome");
             ("Scope", value "scope"); ("Non-goals", value "non_goals");
             ("Acceptance criteria", value "acceptance_criteria"); ("Verification", value "verification");
             ("Required capabilities", value "required_capabilities");
             ("Write metadata (informational only)", value "write_metadata")] in
          Ok (title, join (String LF (ch LF)) parts)
      | _ => Err (ValueError "sealed_item_field_invalid")
      end
  | _ => Err (ValueError "sealed_item_field_invalid")
  end.
End render.

(** ** [_trusted_success_result] *)
Section trusted.
Context `{PyLib}.

Definition is_int_value (v : pyval) (z : Z) : bool := py_eq v (VInt z).

Definition decimal_text (v : pyval) : bool := match v with VStr s => _DECIMAL_ID s | _ => false end.

Definition trusted_create_payload (repository : string) (payload : pyval) : bool :=
  keys_are ["repository_identity"; "issue_number"; "numeric_issue_id"; "node_id"; "executor_identity";
            "contract_version"; "response_status"] payload
  && py_eq (get payload "repository_identity") (VStr repository)
  && match get payload "issue_number" with VInt n => (0 <? n)%Z | _ => false end
  && decimal_text (get payload "numeric_issue_id")
  && is_nonempty_str (get payload "node_id")
  && py_eq (get payload "executor_identity") (VStr WRITE_EXECUTOR_IDENTITY)
  && is_str (get payload "contract_version")
  && is_int_value (get payload "response_status") 201.

Definition trusted_relationship_payload (repository : string) (payload : pyval) : bool :=
  py_eq (get payload "repository_identity") (VStr repository)
  && py_eq (get payload "executor_identity") (VStr WRITE_EXECUTOR_IDENTITY)
  && is_str (get payload "contract_version")
  && is_int_value (get payload "response_status") 201.

Definition _trusted_success_result (repository : string) (kind : string) (observation : WriteObservation)
  : result pyval :=
  let payload := ob_result_payload observation in
  raise "write_observation_invalid" when negb (is_mapping payload) ;
  let! _ :=
    if bool_decide (kind = "create_issue") then
      raise "write_observation_invalid" when negb (trusted_create_payload repository payload) ; Ok tt
    else if bool_decide (kind = "add_sub_issue" ∨ kind = "add_dependency") then
      raise "write_observation_invalid" when negb (trusted_relationship_payload repository payload) ; Ok tt
    else Err (ValueError "write_operation_kind_invalid") in
  raise "write_observation_invalid" when negb (is_nonempty_str (ob_result_identity observation)) ;
  let! d := digest payload in
  Ok (dict_of [("result_kind", VStr ("github." +:+ kind +:+ ".v1"));
               ("result_identity", ob_result_identity observation);
               ("result_digest", VStr d); ("result_payload", payload)]).
End trusted.

(** ** Events and programs *)
Inductive call `{PyLib} : Type → Type :=
| call_create (c : Context) (init : ApplicationExecutionState) : call ApplicationExecutionState
| call_claim (app digest : string) (c : Context) (owner now : string)
  : call (ApplicationExecutionState * OperationAttemptState)
| call_validate_claim (app sd id ad owner : string) (c : Context)
  : call (ApplicationExecutionState * OperationAttemptState)
| call_complete (app sd id ad owner : string) (c : Context) (receipt : OperationReceipt) (now : string)
  : call ApplicationExecutionState
| call_settle (app sd id ad owner : string) (c : Context) (target : exec_state) (code now : string)
  : call ApplicationExecutionState
| call_finalize (app sd : string) (c : Context) (now : string) : call ApplicationExecutionState
| call_get_execution (app : string) (expected : list operation) : call ApplicationExecutionState
| call_get_operation_receipt (app id : string) : call OperationReceipt
| call_get_application_receipt (app : string) : call ApplicationReceipt.

Definition reading {A} (r : result A) (db : Db) : result (A * Db) := let! a := r in Ok (a, db).

Definition run_call `{PyLib} {A} (st : SQLiteExecutionStore) (cap : _ApplierCapability)
    (valid : nat → authority_answer) (x : call A) (db : Db) : result (A * Db) :=
  match x with
  | call_create c init => create_execution_if_absent st cap valid c init db
  | call_claim app digest c owner now => claim_next_operation st cap valid app digest c owner now db
  | call_validate_claim app sd id ad owner c => reading (validate_claim st cap valid app sd id ad owner c db) db
  | call_complete app sd id ad owner c receipt now =>
      complete_operation_success st cap valid app sd id ad owner c receipt now db
  | call_settle app sd id ad owner c target code now =>
      settle_operation st cap valid app sd id ad owner c target code now db
  | call_finalize app sd c now => finalize_application st cap valid app sd c now db
  | call_get_execution app expected => reading (get_execution st app (Some expected) db) db
  | call_get_operation_receipt app id => reading (get_operation_receipt st app id db) db
  | call_get_application_receipt app => reading (get_application_receipt st app db) db
  end.

(** The remote side of one dispatch: the token provider's answer and the network *)
Record remote := Remote {
  rm_token : result pyval;
  rm_network : string → string → result WriteTransportResponse;
}.

(** [Dispatch] carries the key of the attempt it is made for, which the executor does not
    see. *)
Inductive event `{PyLib} : Type → Type :=
| CreateContext (authority_id : string) : event (result Context)
| ReadClock : event (result string)
| Uuid4 : event string
| AskAuthority : event authority_answer
| CheckCredential (c : Context) : event (result unit)
| RevalidateEndpoint (endpoint_ref kind : string) (references : list RemoteIssueReference)
  : event (option (result pyval))
| Dispatch (attempt : string * string * string) (kind : string) (cmd : command) : event remote
| Call {A} (x : call A) : event (result A).

Inductive prog `{PyLib} (A : Type) : Type :=
| Ret (r : result A)
| Vis {B} (e : event B) (k : B → prog A).
Arguments Ret {_ A} r.
Arguments Vis {_ A B} e k.

Fixpoint try_bind `{PyLib} {A B} (p : prog A) (f : result A → prog B) : prog B :=
  match p with
  | Ret r => f r
  | Vis e k => Vis e (λ b, try_bind (k b) f)
  end.

Definition bind `{PyLib} {A B} (p : prog A) (f : A → prog B) : prog B :=
  try_bind p (λ r, match r with Ok a => f a | Err e => Ret (Err e) end).

Definition lift `{PyLib} {A} (r : result A) : prog A := Ret r.
Definition trigger `{PyLib} {A} (e : event (result A)) : prog A := Vis e (λ r, Ret r).

Notation "'do!' x '<-' p ';' k" := (bind p (λ x, k))
  (at level 10, x pattern, p at level 99, k at level 200) : py_scope.
Notation "'try!' p 'with' r '=>' k" := (try_bind p (λ r, k))
  (at level 10, r name, p at level 99, k at level 200) : py_scope.

Section apply.
Context `{PyLib}.
Variable svc : RuntimeService.
Variable st : SQLiteExecutionStore.

Definition now : prog string := trigger ReadClock.

Definition require_current (c : Context) : prog unit :=
  Vis AskAuthority (λ answer, Ret (validate_execution_context svc answer c)).

(** ** References *)
Definition reference_of_receipt (c : Context) (receipt : OperationReceipt) : result RemoteIssueReference :=
  let payload := result_payload (or_remote_result receipt) in
  raise "write_reference_unavailable"
    when negb (bool_decide (result_kind (or_remote_result receipt) = "github.create_issue.v1"))
         || negb (py_eq (get payload "repository_identity") (VStr (ctx_repository_identity c))) ;
  let! repo := subscript payload "repository_identity" in
  let! number := subscript payload "issue_number" in
  let! numeric := subscript payload "numeric_issue_id" in
  let! node := subscript payload "node_id" in
  match repo with
  | VStr repo => make_reference repo number numeric node
  | _ => Err (ValueError "repository_identity_invalid")
  end.

(** The first create operation of [client_ref] at or after [index] *)
Fixpoint create_index (index : nat) (ops : list operation) (client_ref : string) : option (nat * operation) :=
  match ops with
  | [] => None
  | op :: ops' =>
      if bool_decide (operation_kind op = "create_issue") && bool_decide (client_refs op = [client_ref])
      then Some (index, op) else create_index (S index) ops' client_ref
  end.

Definition _reference_from_receipt (c : Context) (client_ref : string) : prog RemoteIssueReference :=
  match create_index 0 (_expected_operations c) client_ref with
  | None => Ret (Err (ValueError "write_reference_unavailable"))
  | Some (index, op) =>
      do! id <- lift (operation_identity (ctx_application_id c) index op) ;
      do! receipt <- trigger (Call (call_get_operation_receipt (ctx_application_id c) id)) ;
      lift (reference_of_receipt c receipt)
  end.

(** [str(value)] of a string or an integer *)
Definition str_of (v : pyval) : result string :=
  match v with VStr s => Ok s | VInt z => Ok (pretty z) | _ => Err (Unmodelled "str") end.

Definition _reference_from_existing_binding (c : Context) (endpoint_ref : string)
  : result RemoteIssueReference :=
  raise "write_reference_unavailable" when negb (py_eq (_canonical_version c) (VStr "2")) ;
  match find (λ b, py_eq (get b "endpoint_ref") (VStr endpoint_ref)) (_existing_endpoint_bindings c),
        _remote_snapshot c with
  | Some binding, VDict _ =>
      let records := default [] (as_sequence (get_default (_remote_snapshot c) "issue_records" (VList []))) in
      match find (λ r, py_eq (get r "issue_id") (get binding "issue_id")) records with
      | Some (VDict _ as record) =>
          let! d := digest record in
          raise "write_reference_unavailable"
            when negb (py_eq (VStr d) (get binding "remote_record_digest")) ;
          raise "write_reference_unavailable"
            when negb (py_eq (get record "repository_identity") (VStr (ctx_repository_identity c)))
                 || negb (py_eq (get record "item_type") (VStr "issue")) ;
          recode "write_reference_unavailable"
            (let! number := subscript record "issue_number" in
             let! numeric := subscript record "numeric_issue_id" in
             let! numeric := str_of numeric in
             let! node := subscript record "issue_id" in
             make_reference (ctx_repository_identity c) number (VStr numeric) node)
      | _ => Err (ValueError "write_reference_unavailable")
      end
  | _, _ => Err (ValueError "write_reference_unavailable")
  end.

(** [context.revalidate_existing_endpoint]: no verifier, or its answer *)
Definition revalidate_existing_endpoint (ref kind : string) (references : list RemoteIssueReference) : prog unit :=
  Vis (RevalidateEndpoint ref kind references) (λ answer,
    match answer with
    | None => Ret (Ok tt)
    | Some (Err e) => Ret (Err e)
    | Some (Ok (VBool false)) => Ret (Err (ValueError "existing_endpoint_semantic_stale"))
    | Some (Ok _) => Ret (Ok tt)
    end).

Fixpoint revalidate_all (refs : list string) (kind : string) (references : list RemoteIssueReference) : prog unit :=
  match refs with
  | [] => Ret (Ok tt)
  | ref :: refs' =>
      do! _ <- revalidate_existing_endpoint ref kind references ; revalidate_all refs' kind references
  end.

(** ** [_materialize]
    An attempt's operation holds only [operation_kind], [client_refs] and [depends_on], so
    the branch for typed operands is never taken. *)
Inductive resolved_ref := planned_ref (ref : string) | existing_ref (ref : string).

Definition resolve_ref (ref : string) : result resolved_ref :=
  match strip_prefix "work_item:" ref, strip_prefix "existing_issue:" ref with
  | Some r, _ => Ok (planned_ref r)
  | None, Some r => Ok (existing_ref r)
  | None, None => Err (ValueError "write_reference_unavailable")
  end.

Fixpoint references_v2 (c : Context) (refs : list resolved_ref)
  : prog (list RemoteIssueReference) :=
  match refs with
  | [] => Ret (Ok [])
  | planned_ref r :: refs' =>
      do! x <- _reference_from_receipt c r ; do! xs <- references_v2 c refs' ; Ret (Ok (x :: xs))
  | existing_ref r :: refs' =>
      do! x <- lift (_reference_from_existing_binding c r) ; do! xs <- references_v2 c refs' ; Ret (Ok (x :: xs))
  end.

Fixpoint references_v1 (c : Context) (refs : list string) : prog (list RemoteIssueReference) :=
  match refs with
  | [] => Ret (Ok [])
  | r :: refs' => do! x <- _reference_from_receipt c r ; do! xs <- references_v1 c refs' ; Ret (Ok (x :: xs))
  end.

Definition existing_refs (refs : list resolved_ref) : list string :=
  omap (λ r, match r with existing_ref x => Some x | planned_ref _ => None end) refs.

(** [items = {item["client_ref"]: item for ...}] and its lookups: the last item wins *)
Definition item_of (c : Context) (ref : string) : option pyval :=
  last (List.filter (λ i, py_eq (get i "client_ref") (VStr ref)) (canonical_items c)).

Definition _materialize (c : Context) (attempt : OperationAttemptState) : prog command :=
  let op := at_operation attempt in
  let kind := operation_kind op in
  let refs := client_refs op in
  if bool_decide (kind = "create_issue") then
    match refs with
    | [] => Ret (Err IndexError)
    | ref :: _ =>
        match item_of c ref with
        | None => Ret (Err (KeyError ref))
        | Some item =>
            do! (title, body) <- lift (render_create_issue item) ;
            do! cmd <- lift (make_create_command (ctx_repository_identity c) ref title body
                               (at_request_identity attempt)) ;
            Ret (Ok (CreateIssue cmd))
        end
    end
  else if bool_decide (kind = "add_sub_issue" ∨ kind = "add_dependency") then
    if py_eq (_canonical_version c) (VStr "2") then
      do! resolved <- lift (map_r resolve_ref refs) ;
      do! references <- references_v2 c resolved ;
      match references with
      | a :: b :: _ =>
          if bool_decide (a = b) then Ret (Err (ValueError "write_reference_unavailable")) else
          do! _ <- revalidate_all (existing_refs resolved) kind references ;
          do! cmd <- lift (make_relationship_command (ctx_repository_identity c) a b) ;
          Ret (Ok (Relationship cmd))
      | _ => Ret (Err IndexError)
      end
    else if existsb (λ r, bool_decide (item_of c r = None)) refs then
      Ret (Err (ValueError "write_reference_unavailable"))
    else
      do! references <- references_v1 c refs ;
      match references with
      | a :: b :: _ =>
          do! cmd <- lift (make_relationship_command (ctx_repository_identity c) a b) ;
          Ret (Ok (Relationship cmd))
      | _ => Ret (Err IndexError)
      end
  else Ret (Err (ValueError "write_operation_kind_invalid")).

(** ** [_ApplierCapability.dispatch] and the executor behind it *)
Definition driver_dispatch (kind : string) (cmd : command) (r : remote) : result WriteObservation :=
  match cmd with
  | CreateIssue c =>
      if bool_decide (kind = "create_issue") then _create_issue_dispatch c (rm_network r) (rm_token r)
      else Err (DriverError "write_command_invalid")
  | Relationship c =>
      if bool_decide (kind = "add_sub_issue") then _sub_issue_dispatch c (rm_network r) (rm_token r)
      else if bool_decide (kind = "add_dependency") then _dependency_dispatch c (rm_network r) (rm_token r)
      else Err (DriverError "write_command_invalid")
  end.

Definition dispatch (c : Context) (attempt : OperationAttemptState) (cmd : command) : prog WriteObservation :=
  let kind := operation_kind (at_operation attempt) in
  if negb (bool_decide (kind ∈ WRITE_OPERATION_KINDS)) then
    Ret (Err (ValueError "write_operation_kind_invalid"))
  else
    do! _ <- trigger (CheckCredential c) ;
    Vis (Dispatch (op_key st (at_application_id attempt) (at_operation_identity attempt)) kind cmd)
        (λ r, Ret (driver_dispatch kind cmd r)).

(** ** [_apply] *)
Definition CURRENTNESS : list string :=
  ["existing_endpoint_not_found"; "existing_endpoint_repository_mismatch"; "existing_endpoint_identity_mismatch";
   "existing_endpoint_write_address_invalid"; "existing_endpoint_semantic_stale"; "relationship_already_exists";
   "remote_observation_unavailable"].
Definition BLOCKED_MATERIALIZE : list string :=
  ["write_reference_unavailable"; "write_executor_invalid"; "runtime_authority_required"].
Definition CREDENTIAL_CODES : list string :=
  ["credential_capability_unregistered"; "credential_principal_mismatch"; "credential_instance_mismatch";
   "credential_repository_mismatch"; "credential_scope_mismatch"; "credential_capability_mismatch";
   "credential_currentness_mismatch"; "credential_expired"].
Definition BLOCKED_OBSERVATION : list string :=
  ["github_write_authority_rejected"; "github_write_target_unavailable"; "github_write_conflict";
   "github_write_rate_limited"; "github_write_redirect_rejected"].

Definition materialize_target (code : string) : exec_state :=
  if bool_decide (code ∈ CURRENTNESS ++ BLOCKED_MATERIALIZE) then Blocked else Failed.

Definition observation_code (o : WriteObservation) : string :=
  match ob_code o with
  | VStr code => if bool_decide (code = "") then
                   match ob_kind o with
                   | DEFINITIVE_REJECTED => "github_write_rejected"
                   | _ => "github_write_transport_ambiguous"
                   end
                 else code
  | _ => match ob_kind o with
         | DEFINITIVE_REJECTED => "github_write_rejected"
         | _ => "github_write_transport_ambiguous"
         end
  end.

Definition observation_target (o : WriteObservation) : exec_state :=
  match ob_kind o with
  | AMBIGUOUS => OutcomeUnknown
  | _ => if bool_decide (observation_code o ∈ BLOCKED_OBSERVATION) then Blocked else Failed
  end.

Definition result_for (s : ApplicationExecutionState) (app : string) (recovery : option string) : ApplyResult :=
  Applied_result app (as_state s) (as_next_operation_index s) None recovery.

Definition recovery_required (s : ApplicationExecutionState) (app : string) : prog ApplyResult :=
  Ret (Ok (result_for s app (Some "application_recovery_required"))).

(** [except ValueError as exc: if str(exc) != "runtime_authority_invalid": raise] *)
Definition unless_authority_invalid (s : ApplicationExecutionState) (app : string) (e : exn) : prog ApplyResult :=
  match e with
  | ValueError code =>
      if bool_decide (code = "runtime_authority_invalid") then recovery_required s app else Ret (Err e)
  | _ => Ret (Err e)
  end.

Definition settle_call (c : Context) (s : ApplicationExecutionState) (a : OperationAttemptState) (owner : string)
    (target : exec_state) (code : string) : prog ApplicationExecutionState :=
  do! t <- now ;
  trigger (Call (call_settle (ctx_application_id c) (as_state_digest s) (at_operation_identity a)
                   (at_attempt_digest a) owner c target code t)).

(** After a claim that lost a race: report the current state if it changed. *)
Definition claim_lost (c : Context) (s : ApplicationExecutionState) (e : exn) : prog ApplyResult :=
  let app := ctx_application_id c in
  do! current <- trigger (Call (call_get_execution app (_expected_operations c))) ;
  if bool_decide (as_state_digest current = as_state_digest s) && bool_decide (as_state current = as_state s)
     && bool_decide (as_next_operation_index current = as_next_operation_index s)
     && bool_decide (as_owner_id current = as_owner_id s)
     && bool_decide (as_current_attempt_id current = as_current_attempt_id s)
  then Ret (Err e)
  else if bool_decide (as_state current = Applied) then
    do! receipt <- trigger (Call (call_get_application_receipt app)) ;
    Ret (Ok (Applied_result app Applied (as_next_operation_index current)
               (Some (ar_application_receipt_id receipt)) None))
  else if bool_decide (as_state current = Applying ∨ as_state current = PartiallyApplied) then
    recovery_required current app
  else Ret (Ok (result_for current app (as_recovery_code current))).

(** The outcome of a dispatched operation: [inl] continues the loop with the new state *)
Definition record_outcome (c : Context) (s : ApplicationExecutionState) (a : OperationAttemptState)
    (owner : string) (o : WriteObservation) : prog (ApplicationExecutionState + ApplyResult) :=
  let app := ctx_application_id c in
  let stop (p : prog ApplyResult) : prog (ApplicationExecutionState + ApplyResult) :=
    do! r <- p ; Ret (Ok (inr r)) in
  match ob_kind o with
  | DEFINITIVE_SUCCESS =>
      try! (do! remote <- lift (_trusted_success_result (ctx_repository_identity c)
                                  (operation_kind (at_operation a)) o) ;
            do! t <- now ;
            Vis AskAuthority (λ v1, Vis AskAuthority (λ v2,
              do! receipt <- lift (new_receipt svc v1 v2 c (at_operation_index a) remote (at_started_at a) t) ;
              do! t2 <- now ;
              trigger (Call (call_complete app (as_state_digest s) (at_operation_identity a) (at_attempt_digest a)
                               owner c receipt t2)))))
      with r => match r with
                | Ok s' => Ret (Ok (inl s'))
                | Err e => stop (unless_authority_invalid s app e)
                end
  | _ =>
      let code := observation_code o in
      try! (settle_call c s a owner (observation_target o) code)
      with r => match r with
                | Ok s' => Ret (Ok (inr (result_for s' app (Some code))))
                | Err e => stop (unless_authority_invalid s app e)
                end
  end.

(** One claimed operation, from [validate_claim] to its recorded outcome *)
Definition execute_claim (c : Context) (s : ApplicationExecutionState) (a : OperationAttemptState) (owner : string)
  : prog (ApplicationExecutionState + ApplyResult) :=
  let app := ctx_application_id c in
  let stop (p : prog ApplyResult) : prog (ApplicationExecutionState + ApplyResult) :=
    do! r <- p ; Ret (Ok (inr r)) in
  try! (do! _ <- trigger (Call (call_validate_claim app (as_state_digest s) (at_operation_identity a)
                                  (at_attempt_digest a) owner c)) ;
        _materialize c a)
  with m =>
    match m with
    | Err e =>
        match e with
        | ValueError code =>
            do! s' <- settle_call c s a owner (materialize_target code) code ;
            Ret (Ok (inr (result_for s' app (Some code))))
        | JSONDecodeError => Ret (Err (Unmodelled "exception text"))
        | _ => Ret (Err e)
        end
    | Ok cmd =>
        try! (require_current c) with r1 =>
          match r1 with
          | Err e => stop (unless_authority_invalid s app e)
          | Ok _ =>
              try! (dispatch c a cmd) with d =>
                match d with
                | Err (ValueError code) =>
                    if bool_decide (code ∈ CREDENTIAL_CODES) then
                      do! s' <- settle_call c s a owner Blocked code ;
                      Ret (Ok (inr (result_for s' app (Some code))))
                    else Ret (Err (ValueError code))
                | Err e => Ret (Err e)
                | Ok o =>
                    try! (require_current c) with r2 =>
                      match r2 with
                      | Err e => stop (unless_authority_invalid s app e)
                      | Ok _ => record_outcome c s a owner o
                      end
                end
          end
    end.

Definition receipt_id (app : string) : prog string :=
  do! r <- trigger (Call (call_get_application_receipt app)) ; Ret (Ok (ar_application_receipt_id r)).

(** The loop, with fuel for its remaining iterations, and the finalization after it *)
Fixpoint apply_loop (fuel : nat) (c : Context) (s : ApplicationExecutionState) : prog ApplyResult :=
  let app := ctx_application_id c in
  if length (_expected_operations c) <=? as_next_operation_index s then
    do! t <- now ;
    do! s' <- trigger (Call (call_finalize app (as_state_digest s) c t)) ;
    do! rid <- receipt_id app ;
    Ret (Ok (Applied_result app (as_state s') (as_next_operation_index s') (Some rid) None))
  else match fuel with
  | 0 => Ret (Err (Unmodelled "fuel"))
  | S fuel =>
      Vis Uuid4 (λ hex,
        let owner := "execution-owner-" +:+ hex in
        try! (do! t <- now ; trigger (Call (call_claim app (as_state_digest s) c owner t))) with r =>
          match r with
          | Err e =>
              match e with
              | ValueError code =>
                  if bool_decide (code = "application_claim_unavailable" ∨ code = "application_state_stale")
                  then claim_lost c s e else Ret (Err e)
              | _ => Ret (Err e)
              end
          | Ok (s1, a) =>
              do! outcome <- execute_claim c s1 a owner ;
              match outcome with
              | inl s2 => apply_loop fuel c s2
              | inr res => Ret (Ok res)
              end
          end)
  end.

Definition _apply (authority_id : string) : prog ApplyResult :=
  do! c <- trigger (CreateContext authority_id) ;
  let app := ctx_application_id c in
  do! t <- now ;
  Vis AskAuthority (λ answer,
    do! init <- lift (new_execution_state svc answer c Pending 0 None None None [] t t None
                        (Some APPLIER_ORCHESTRATION_POLICY)) ;
    do! s <- trigger (Call (call_create c init)) ;
    if bool_decide (as_state s = Applied) then
      do! s' <- trigger (Call (call_get_execution app (_expected_operations c))) ;
      do! rid <- receipt_id app ;
      Ret (Ok (Applied_result app (as_state s') (as_next_operation_index s') (Some rid) None))
    else if bool_decide (as_state s = Applying) then recovery_required s app
    else if bool_decide (as_state s ∈ [Failed; Blocked; OutcomeUnknown]) then
      Ret (Ok (result_for s app (as_recovery_code s)))
    else apply_loop (S (length (_expected_operations c))) c s).
End apply.
