(* ===== verification/DriverFacts.v ===== *)
(** * What the write driver's observations mean

    Decimal identifiers survive the trip from a response through an evidence document to the
    next request; an observation is definitive only when the response is; a dispatch raises only
    before anything is sent, or in the cases of [escaped]; and the applier accepts every success
    the driver reports. *)
From S2P Require Import Prelude PyValue Strings Canonical Clock WriteContract GithubWrite Applier Decimal.
From Stdlib Require Import Ascii.

Section driver.
Context `{PyLib}.

Lemma pretty_decimal z : (1 ≤ z ≤ 10 ^ 20 - 1)%Z → _DECIMAL_ID (pretty z) = true.
Proof.
  intros Hz. destruct (pretty_pos_digits z ltac:(lia)) as [D F L _]. unfold _DECIMAL_ID. rewrite D.
  specialize (F ltac:(lia) ""). rewrite app_nil_str in F. rewrite F. simpl. apply Nat.leb_le.
  specialize (L 20%N ltac:(lia)). lia.
Qed.

(** C39: Decimal identifiers keep their value between a response and the next request: the text of
    any identifier the driver accepts from a response, a positive number of at most twenty
    digits, is a decimal identifier, and the driver reads the same number back from it. *)
Theorem decimal_id_roundtrip v z :
  bounded_int v = Some z → _DECIMAL_ID (pretty z) = true ∧ _safe_decimal_id (pretty z) = Ok z.
Proof.
  unfold bounded_int. destruct v; try discriminate. destruct (_ && _) eqn:B; [|discriminate]. intros [= ->].
  apply andb_true_iff in B as [B1 B2]. apply Z.leb_le in B1, B2. pose proof (pretty_decimal z ltac:(lia)) as Hd.
  split; [done|]. unfold _safe_decimal_id. rewrite Hd. cbn [negb].
  destruct (pretty_pos_digits z ltac:(lia)) as [_ _ _ V]. specialize (V "" 0%Z). rewrite app_nil_str in V.
  rewrite V. f_equal. lia.
Qed.

(** ** Definitive observations *)

(** The response a definitive observation rests on *)
Definition definitive (network : string → string → result WriteTransportResponse) (o : WriteObservation)
    (response : WriteTransportResponse) : Prop :=
  (∃ path body, valid_path path = true ∧ String.length body ≤ MAX_WRITE_REQUEST_BYTES
                ∧ network path body = Ok response)
  ∧ match ob_kind o with
    | DEFINITIVE_SUCCESS => status response = 201%Z ∧ ∃ d, _json_object response = Ok (Some (VDict d))
    | _ => status response ∈ _REDIRECTS ++ _KNOWN_REJECTIONS
    end.

Lemma post_Ok network path body response :
  post network path body = Ok response →
  ∃ path body, valid_path path = true ∧ String.length body ≤ MAX_WRITE_REQUEST_BYTES ∧ network path body = Ok response.
Proof.
  unfold post. intros E. destruct (negb (valid_path path)) eqn:P; [discriminate|].
  destruct (_ <? _) eqn:B; [discriminate|]. apply negb_false_iff in P. apply Nat.ltb_ge in B. eauto.
Qed.

Lemma existsb_Z_elem z l : existsb (Z.eqb z) l = true → z ∈ l.
Proof. intros (x & Hx & ->%Z.eqb_eq)%existsb_exists. by apply list_elem_of_In. Qed.

Lemma classify_definitive network response :
  (∃ path body, valid_path path = true ∧ String.length body ≤ MAX_WRITE_REQUEST_BYTES ∧ network path body = Ok response) →
  let o := _classify_non_success response in ob_kind o ≠ AMBIGUOUS → ob_kind o = DEFINITIVE_REJECTED ∧ definitive network o response.
Proof.
  intros R. unfold _classify_non_success. cbn zeta. destruct (existsb _ _REDIRECTS) eqn:A.
  { intros _. split; [done|]. split; [done|]. apply elem_of_app. left. by apply existsb_Z_elem. }
  destruct (status response =? 429)%Z eqn:B.
  { intros _. split; [done|]. split; [done|]. apply Z.eqb_eq in B. rewrite B. by apply elem_of_app; right; set_solver. }
  destruct (existsb _ _KNOWN_REJECTIONS) eqn:D; [|done].
  intros _. split; [done|]. split; [done|]. apply elem_of_app. right. by apply existsb_Z_elem.
Qed.

Lemma json_object_dict response v : _json_object response = Ok (Some v) → ∃ d, v = VDict d.
Proof.
  unfold _json_object. destruct (_valid_json_media_type _); [|done].
  destruct (body_json response) as [[[]|]|]; simpl; intros [= <-]; by eexists.
Qed.

Lemma failed_post_ambiguous e o : failed_post e = Ok o → ob_kind o = AMBIGUOUS.
Proof. unfold failed_post. destruct e; try (by intros [= <-]). by destruct (bool_decide _); intros [= <-]. Qed.

Lemma create_definitive repository network token body o :
  _create_result repository network token body = Ok o → ob_kind o ≠ AMBIGUOUS →
  ∃ response, definitive network o response ∧
    (ob_kind o = DEFINITIVE_SUCCESS → ∃ id number node v w,
       bounded_int v = Some id ∧ bounded_int w = Some number ∧ node ≠ "" ∧ o = success (create_evidence repository number id node)).
Proof.
  unfold _create_result. intros E Hk. destruct (_credential_headers token); [|discriminate].
  destruct (let! path := _ in _) as [response|e] eqn:P; [|by apply failed_post_ambiguous in E].
  destruct (_path repository "") as [path|]; [|discriminate]. apply post_Ok in P. exists response.
  destruct (negb (status response =? 201)%Z) eqn:S.
  { injection E as <-. destruct (classify_definitive network response P Hk) as [R D]. split; [done|]. by rewrite R. }
  apply negb_false_iff, Z.eqb_eq in S. destruct (_json_object response) as [[v|]|] eqn:J; [|by injection E as <-|discriminate].
  destruct (json_object_dict _ _ J) as [d ->].
  destruct (bounded_int (get _ "id")) as [id|] eqn:I; [|by injection E as <-].
  destruct (bounded_int (get _ "number")) as [number|] eqn:N; [|by injection E as <-].
  destruct (bounded_node_id (get _ "node_id")) as [node|] eqn:B; [|by injection E as <-]. injection E as <-.
  split; [by split; [done|]; split; [done|by exists d]|]. intros _.
  exists id, number, node, (get (VDict d) "id"), (get (VDict d) "number").
  split; [done|]. split; [done|]. split; [|done]. unfold bounded_node_id in B. destruct (get _ "node_id"); try done.
  destruct (_ && _) eqn:K; [|done]. injection B as <-. by intros ->.
Qed.

Lemma relationship_definitive network token path request e o :
  _dispatch_relationship network token path request e = Ok o → ob_kind o ≠ AMBIGUOUS →
  ∃ response, definitive network o response ∧ (ob_kind o = DEFINITIVE_SUCCESS → o = success e).
Proof.
  unfold _dispatch_relationship. intros E Hk. destruct (_credential_headers token); [|discriminate].
  destruct (let! body := _ in _) as [response|x] eqn:P; [|by apply failed_post_ambiguous in E].
  destruct (_request_body request) as [body|]; [|discriminate]. apply post_Ok in P. exists response.
  unfold _normalize_response in *. destruct (status response =? 201)%Z eqn:S.
  - apply Z.eqb_eq in S. destruct (_json_object response) as [[v|]|] eqn:J; [|by injection E as <-|discriminate].
    injection E as <-. destruct (json_object_dict _ _ J) as [d ->].
    split; [by split; [done|]; split; [done|by exists d]|done].
  - injection E as <-. destruct (classify_definitive network response P Hk) as [R D]. split; [done|]. by rewrite R.
Qed.

(** ** Exceptions of a dispatch *)

(** The exceptions that reach the caller although a request went out: the transport's own demand
    for a credential, and an exception of [json.loads] on the body of a 201 response *)
Definition escaped (network : string → string → result WriteTransportResponse) (e : exn) : Prop :=
  ∃ path body, valid_path path = true ∧ String.length body ≤ MAX_WRITE_REQUEST_BYTES ∧
    (network path body = Err (DriverError "github_write_credential_required") ∧ e = DriverError "github_write_credential_required"
     ∨ ∃ response, network path body = Ok response ∧ status response = 201%Z ∧ body_json response = Err e).

Lemma post_Err network path body e :
  post network path body = Err e →
  (∀ network', post network' path body = Err e) ∧ e ≠ DriverError "github_write_credential_required"
  ∨ valid_path path = true ∧ String.length body ≤ MAX_WRITE_REQUEST_BYTES ∧ network path body = Err e.
Proof.
  unfold post. destruct (negb (valid_path path)) eqn:P; [intros [= <-]; by left|].
  destruct (_ <? _) eqn:B; [intros [= <-]; by left|]. apply negb_false_iff in P. apply Nat.ltb_ge in B. by right.
Qed.

Lemma failed_post_Err e e' :
  failed_post e = Err e' → e = DriverError "github_write_credential_required" ∧ e' = DriverError "github_write_credential_required".
Proof. unfold failed_post. destruct e; try done. case_bool_decide; [|done]. by intros [= <-]; subst. Qed.

Lemma json_object_Err response e : _json_object response = Err e → body_json response = Err e.
Proof. unfold _json_object. destruct (_valid_json_media_type _); [|done]. by destruct (body_json response). Qed.

Lemma path_error repository suffix e : _path repository suffix = Err e → e ≠ DriverError "github_write_credential_required".
Proof.
  unfold _path, _validate_repository, normalize_repository_identity. intros E ->.
  repeat (discriminate E || case_match || simplify_eq).
Qed.

Lemma request_error value e : _request_body value = Err e → e ≠ DriverError "github_write_credential_required".
Proof. unfold _request_body. intros E ->. by repeat case_match; simplify_eq. Qed.

(** A failed post that is not reported as ambiguous *)
Lemma sent_error {A} (prepared : result A) (post_of : A → string * string) network e e' :
  (∀ x, prepared = Err x → x ≠ DriverError "github_write_credential_required") →
  (let! a := prepared in post network (fst (post_of a)) (snd (post_of a))) = Err e → failed_post e = Err e' → escaped network e'.
Proof.
  intros Hp E [-> ->]%failed_post_Err. destruct prepared as [a|x]; [|by injection E as ->; destruct (Hp _ eq_refl)].
  apply post_Err in E as [[_ []]|(P & B & E)]; [done|]. do 2 eexists. split; [exact P|]. split; [exact B|]. by left.
Qed.

Lemma create_error repository network token body e :
  _create_result repository network token body = Err e →
  (∀ network', _create_result repository network' token body = Err e) ∨ escaped network e.
Proof.
  unfold _create_result. intros E. destruct (_credential_headers token) as [h|]; [right|left; by injection E as ->].
  destruct (let! path := _ in _) as [response|x] eqn:P.
  2: { by eapply (sent_error (_path repository "") (λ p, (p, body))); [apply path_error| |]. }
  destruct (_path repository "") as [path|]; [|discriminate]. apply post_Ok in P as (path' & body' & Hp & Hb & Hn).
  destruct (negb (status response =? 201)%Z) eqn:S; [discriminate|]. apply negb_false_iff, Z.eqb_eq in S.
  destruct (_json_object response) as [[v|]|x] eqn:J; [by repeat case_match|discriminate|]. injection E as ->.
  apply json_object_Err in J. exists path', body'. split; [done|]. split; [done|]. right. by exists response.
Qed.

Lemma relationship_error network token path request ev e :
  _dispatch_relationship network token path request ev = Err e →
  (∀ network', _dispatch_relationship network' token path request ev = Err e) ∨ escaped network e.
Proof.
  unfold _dispatch_relationship. intros E. destruct (_credential_headers token) as [h|]; [right|left; by injection E as ->].
  destruct (let! body := _ in _) as [response|x] eqn:P.
  2: { by eapply (sent_error (_request_body request) (λ b, (path, b))); [apply request_error| |]. }
  destruct (_request_body request) as [body|]; [|discriminate]. apply post_Ok in P as (path' & body' & Hp & Hb & Hn).
  unfold _normalize_response in E. destruct (status response =? 201)%Z eqn:S; [|discriminate]. apply Z.eqb_eq in S.
  destruct (_json_object response) as [[v|]|x] eqn:J; try discriminate. injection E as ->.
  apply json_object_Err in J. exists path', body'. split; [done|]. split; [done|]. right. by exists response.
Qed.

Lemma dispatch_definitive kind cmd r o :
  driver_dispatch kind cmd r = Ok o → ob_kind o ≠ AMBIGUOUS → ∃ response, definitive (rm_network r) o response.
Proof.
  intros E Hk. unfold driver_dispatch in E. destruct cmd as [c|c].
  - destruct (bool_decide (kind = "create_issue")); [|done]. unfold _create_issue_dispatch in E. inv_ok.
    destruct (create_definitive _ _ _ _ _ E Hk) as (response & D & _). eauto.
  - destruct (bool_decide (kind = "add_sub_issue")); [|destruct (bool_decide (kind = "add_dependency")); [|done]];
      unfold _sub_issue_dispatch, _dependency_dispatch in E; inv_ok;
      destruct (relationship_definitive _ _ _ _ _ _ E Hk) as (response & D & _); eauto.
Qed.

(** A step before the dispatch fails alike whatever the network. *)
Ltac before_sending :=
  repeat match goal with
  | |- match ?c with Ok _ => _ | Err _ => _ end = _ → _ => destruct c; [|by intros E; left]
  | |- (if ?b then _ else _) = _ → _ => destruct b; [by intros E; left|]
  end.

Lemma dispatch_error_cases kind cmd r e :
  driver_dispatch kind cmd r = Err e →
  (∀ network, driver_dispatch kind cmd (Remote (rm_token r) network) = Err e) ∨ escaped (rm_network r) e.
Proof.
  unfold driver_dispatch. cbn [rm_token rm_network]. destruct cmd as [c|c].
  - destruct (bool_decide (kind = "create_issue")); [|by left]. unfold _create_issue_dispatch. before_sending.
    apply create_error.
  - destruct (bool_decide (kind = "add_sub_issue")); [|destruct (bool_decide (kind = "add_dependency")); [|by left]];
      unfold _sub_issue_dispatch, _dependency_dispatch; before_sending; apply relationship_error.
Qed.

(** C11: Every dispatch ends in one of three ways.  It reports a definitive outcome, and then a
    success rests on status 201 with a JSON object, a rejection on a redirect or one of the known
    client errors, received from a well-formed path with a bounded body; or it reports an
    ambiguous outcome; or it raises, and then either nothing was sent, the same exception being
    raised whatever the network would answer, or the exception is the transport's demand for a
    credential or one that [json.loads] raised on the body of a 201 response beside those the
    driver handles.  So no other failure of the network raises or is taken as definitive. *)
Theorem definitive_outcomes kind cmd r :
  match driver_dispatch kind cmd r with
  | Ok o => ob_kind o = AMBIGUOUS ∨ ∃ response, definitive (rm_network r) o response
  | Err e => (∀ network, driver_dispatch kind cmd (Remote (rm_token r) network) = Err e) ∨ escaped (rm_network r) e
  end.
Proof.
  destruct (driver_dispatch kind cmd r) as [o|e] eqn:E; [|by apply dispatch_error_cases].
  destruct (decide (ob_kind o = AMBIGUOUS)); [by left|right]. by eapply dispatch_definitive.
Qed.

(** ** The applier and the driver agree *)

(** The repository a command writes to, as the driver reports it *)
Definition command_repository (cmd : command) : string :=
  match cmd with CreateIssue c => cc_repository_identity c | Relationship c => rc_repository_identity c end.

Lemma create_payload_trusted repository number id node v w :
  bounded_int v = Some id → bounded_int w = Some number → node ≠ "" →
  trusted_create_payload repository (evidence_dict (create_evidence repository number id node)) = true.
Proof.
  intros Hv Hw Hn. assert (1 ≤ id ≤ 10 ^ 20 - 1)%Z as Hid.
  { unfold bounded_int in Hv. destruct v; try discriminate. destruct (_ && _) eqn:B; [|discriminate]. injection Hv as ->.
    apply andb_true_iff in B as [B1 B2]. by apply Z.leb_le in B1, B2. }
  assert (0 < number)%Z as Hnum.
  { unfold bounded_int in Hw. destruct w; try discriminate. destruct (_ && _) eqn:B; [|discriminate]. injection Hw as ->.
    apply andb_true_iff in B as [B1 _]. apply Z.leb_le in B1. lia. }
  unfold trusted_create_payload. simpl. rewrite (pretty_decimal id Hid), (proj2 (Z.ltb_lt _ _) Hnum).
  rewrite (bool_decide_eq_true_2 (repository = repository)) by done. by rewrite (bool_decide_eq_false_2 (node = "")).
Qed.

Lemma relationship_payload_trusted repository k1 number k2 id direction :
  k1 ∉ ["repository_identity"; "executor_identity"; "contract_version"; "response_status"] →
  k2 ∉ ["repository_identity"; "executor_identity"; "contract_version"; "response_status"] →
  trusted_relationship_payload repository
    (evidence_dict (relationship_evidence repository k1 number k2 id direction)) = true.
Proof.
  intros H1 H2. rewrite !not_elem_of_cons in H1, H2. destruct_and!.
  unfold trusted_relationship_payload, get. simpl.
  rewrite (bool_decide_eq_true_2 (repository = repository)) by done.
  by repeat rewrite bool_decide_eq_false_2 by congruence.
Qed.

(** C34: Whatever the driver reports as a success, the applier records: when the context names the
    repository the way the driver does, the checks of [_trusted_success_result] accept every
    successful observation, for a creation and for a relationship, and what it answers with
    carries the observation's evidence under its digest. *)
Theorem driver_success_trusted kind cmd r o repository :
  _validate_repository (command_repository cmd) = Ok repository →
  driver_dispatch kind cmd r = Ok o → ob_kind o = DEFINITIVE_SUCCESS →
  _trusted_success_result repository kind o =
  let! d := digest (ob_result_payload o) in
  Ok (dict_of [("result_kind", VStr ("github." +:+ kind +:+ ".v1")); ("result_identity", ob_result_identity o);
               ("result_digest", VStr d); ("result_payload", ob_result_payload o)]).
Proof.
  intros Hrep E Hk. assert (ob_kind o ≠ AMBIGUOUS) as Ha by (by rewrite Hk). unfold driver_dispatch in E.
  destruct cmd as [c|c]; simpl in Hrep.
  - destruct (bool_decide (kind = "create_issue")) eqn:K; [|done]. apply bool_decide_eq_true in K as ->.
    unfold _create_issue_dispatch in E. rewrite Hrep in E. inv_ok.
    destruct (create_definitive _ _ _ _ _ E Ha) as (_ & _ & Hs).
    destruct (Hs Hk) as (id & number & node & v & w & Hv & Hw & Hn & ->).
    unfold _trusted_success_result. simpl ob_result_payload. rewrite (create_payload_trusted _ _ _ _ _ _ Hv Hw Hn).
    reflexivity.
  - destruct (bool_decide (kind = "add_sub_issue")) eqn:K; [|destruct (bool_decide (kind = "add_dependency")) eqn:K'; [|done]].
    + apply bool_decide_eq_true in K as ->. unfold _sub_issue_dispatch in E. rewrite Hrep in E. inv_ok.
      destruct (relationship_definitive _ _ _ _ _ _ E Ha) as (_ & _ & Hs). rewrite (Hs Hk).
      unfold _trusted_success_result. simpl ob_result_payload.
      rewrite relationship_payload_trusted by (rewrite !not_elem_of_cons; repeat split; [done..|apply not_elem_of_nil]). reflexivity.
    + apply bool_decide_eq_true in K' as ->. unfold _dependency_dispatch in E. rewrite Hrep in E. inv_ok.
      destruct (relationship_definitive _ _ _ _ _ _ E Ha) as (_ & _ & Hs). rewrite (Hs Hk).
      unfold _trusted_success_result. simpl ob_result_payload.
      rewrite relationship_payload_trusted by (rewrite !not_elem_of_cons; repeat split; [done..|apply not_elem_of_nil]). reflexivity.
Qed.
End driver.
