(* ===== verification/Interleaving.v ===== *)
(** * Any number of appliers at once

    A system is a set of running appliers over shared tables.  At each step one process
    performs one event (its store transaction runs alone, as [BEGIN IMMEDIATE] makes it),
    or a process dies, or a new one starts, or another program rewrites the tables without
    removing attempt rows.  [dispatched] records the attempt keys handed to the remote
    executor.  The theorem: no attempt is ever dispatched twice. *)
From S2P Require Import Prelude PyValue Strings Canonical WriteOperations Identity Receipts ExecutionState.
From S2P Require Import Clock Context ExecutionStore ManagedStore WriteContract GithubWrite Applier.

Definition attempt_key : Type := string * string * string.

(** ** Permissions: the attempts a program has claimed and not dispatched yet *)
Section permissions.
Context `{PyLib}.
Variable st : SQLiteExecutionStore.

(** What a program may dispatch after an answer *)
Definition granted {A : Type} (x : call A) : result A → gset attempt_key :=
  match x in call A return result A → gset attempt_key with
  | call_claim _ _ _ _ _ => λ r,
      match r with
      | Ok (_, a) => {[op_key st (at_application_id a) (at_operation_identity a)]}
      | Err _ => ∅
      end
  | _ => λ _, ∅
  end.

(** [wp perm p Q]: run from the permissions [perm], every dispatch of [p] is permitted and
    uses its permission up, and [Q] holds at the end. *)
Fixpoint wp {A : Type} (perm : gset attempt_key) (p : prog A) (Q : gset attempt_key → result A → Prop) : Prop :=
  match p with
  | Ret r => Q perm r
  | Vis e k =>
      match e in event B return (B → prog A) → Prop with
      | Dispatch key _ _ => λ k, key ∈ perm ∧ ∀ b, wp (perm ∖ {[key]}) (k b) Q
      | Call x => λ k, ∀ b, wp (granted x b ∪ perm) (k b) Q
      | _ => λ k, ∀ b, wp perm (k b) Q
      end k
  end.

Definition guarded {A : Type} (perm : gset attempt_key) (p : prog A) : Prop := wp perm p (λ _ _, True).

Lemma wp_mono {A : Type} (p : prog A) (perm : gset attempt_key) (Q Q' : gset attempt_key → result A → Prop) :
  wp perm p Q → (∀ (perm : gset attempt_key) r, Q perm r → Q' perm r) → wp perm p Q'.
Proof.
  intros Hp HQ. revert perm Hp. induction p as [r|B e k IH]; intros perm; simpl; [apply HQ|].
  destruct e; simpl; try (intros Hp b; by apply IH, Hp).
  intros [Hin Hp]. split; [done|]. intros b. by apply IH, Hp.
Qed.

Lemma wp_try_bind {A B : Type} (p : prog A) (f : result A → prog B) (perm : gset attempt_key) (Q : gset attempt_key → result B → Prop) :
  wp perm p (λ (perm' : gset attempt_key) r, wp perm' (f r) Q) → wp perm (try_bind p f) Q.
Proof.
  revert perm. induction p as [r|C e k IH]; intros perm; simpl; [done|].
  destruct e; simpl; try (intros Hp b; by apply IH, Hp).
  intros [Hin Hp]. split; [done|]. intros b. by apply IH, Hp.
Qed.

Lemma wp_bind {A B : Type} (p : prog A) (f : A → prog B) (perm : gset attempt_key) (Q : gset attempt_key → result B → Prop) :
  wp perm p (λ (perm' : gset attempt_key) r, match r with Ok a => wp perm' (f a) Q | Err e => Q perm' (Err e) end) →
  wp perm (bind p f) Q.
Proof. intros Hp. apply wp_try_bind. eapply wp_mono; [exact Hp|]. by intros perm' []. Qed.

(** A program without claims and dispatches leaves the permissions alone. *)
Definition quiet {A : Type} (p : prog A) : Prop := ∀ perm : gset attempt_key, wp perm p (λ (perm' : gset attempt_key) _, perm' = perm).

Lemma quiet_wp {A : Type} (p : prog A) (perm : gset attempt_key) (Q : gset attempt_key → result A → Prop) :
  quiet p → (∀ r, Q perm r) → wp perm p Q.
Proof. intros Hp HQ. eapply wp_mono; [apply Hp|]. by intros ? r ->. Qed.

Lemma quiet_ret {A : Type} (r : result A) : quiet (Ret r).
Proof. intros perm. done. Qed.

Lemma quiet_try_bind {A B : Type} (p : prog A) (f : result A → prog B) :
  quiet p → (∀ r, quiet (f r)) → quiet (try_bind p f).
Proof. intros Hp Hf perm. apply wp_try_bind. apply quiet_wp; [done|]. intros r. apply Hf. Qed.

Lemma quiet_bind {A B : Type} (p : prog A) (f : A → prog B) :
  quiet p → (∀ a, quiet (f a)) → quiet (bind p f).
Proof. intros Hp Hf. apply quiet_try_bind; [done|]. intros []; [apply Hf|apply quiet_ret]. Qed.

Definition asks {B : Type} (e : event B) : bool :=
  match e with
  | Dispatch _ _ _ => false
  | Call x => match x with call_claim _ _ _ _ _ => false | _ => true end
  | _ => true
  end.

Lemma quiet_vis {A B : Type} (e : event B) (k : B → prog A) :
  asks e = true → (∀ b, quiet (k b)) → quiet (Vis e k).
Proof.
  intros He Hk perm. destruct e; simpl; try discriminate; try (intros b; apply Hk).
  destruct x; simpl; try discriminate; intros b; rewrite (left_id_L ∅ (∪)); apply Hk.
Qed.

Lemma wp_vis {A B : Type} (e : event B) (k : B → prog A) (perm : gset attempt_key)
    (Q : gset attempt_key → result A → Prop) :
  asks e = true → (∀ b, wp perm (k b) Q) → wp perm (Vis e k) Q.
Proof.
  intros He Hk. destruct e; simpl; try discriminate; try (intros b; apply Hk).
  destruct x; simpl; try discriminate; intros b; rewrite (left_id_L ∅ (∪)); apply Hk.
Qed.

Lemma wp_call {A B : Type} (x : call B) (k : result B → prog A) (perm : gset attempt_key)
    (Q : gset attempt_key → result A → Prop) :
  (∀ b, wp (granted x b ∪ perm) (k b) Q) → wp perm (Vis (Call x) k) Q.
Proof. done. Qed.

Lemma wp_ret {A : Type} (r : result A) (perm : gset attempt_key) (Q : gset attempt_key → result A → Prop) :
  Q perm r → wp perm (Ret r) Q.
Proof. done. Qed.
End permissions.

Create HintDb quiet.
#[export] Hint Resolve quiet_ret : quiet.
(** Decompose a program built from quiet events. *)
Ltac quiet :=
  repeat first
    [ apply quiet_ret
    | apply quiet_try_bind; [|intros ?]
    | apply quiet_bind; [|intros ?]
    | apply quiet_vis; [reflexivity|intros ?]
    | progress (eauto with quiet)
    | match goal with |- quiet _ (match ?x with _ => _ end) => destruct x end
    | match goal with |- quiet _ (if ?b then _ else _) => destruct b end ].

Section apply.
Context `{PyLib}.
Variable svc : RuntimeService.
Variable st : SQLiteExecutionStore.
Notation quiet := (quiet st).
Notation wp := (wp st).

Lemma quiet_trigger {A} (e : event (result A)) : asks e = true → quiet (trigger e).
Proof. intros. by apply quiet_vis; [|intros; apply quiet_ret]. Qed.

Lemma quiet_reference c ref : quiet (_reference_from_receipt c ref).
Proof. unfold _reference_from_receipt, lift, trigger. quiet. Qed.

Lemma quiet_revalidate_all refs kind rs : quiet (revalidate_all refs kind rs).
Proof. induction refs; simpl; unfold revalidate_existing_endpoint; quiet. Qed.

Lemma quiet_references_v1 c refs : quiet (references_v1 c refs).
Proof. induction refs; simpl; quiet; apply quiet_reference. Qed.

Lemma quiet_references_v2 c refs : quiet (references_v2 c refs).
Proof. induction refs as [|[]]; simpl; unfold lift; quiet; apply quiet_reference. Qed.

Lemma quiet_materialize c a : quiet (_materialize c a).
Proof.
  unfold _materialize, lift. quiet; auto using quiet_references_v1, quiet_references_v2, quiet_revalidate_all.
Qed.

Lemma quiet_require_current c : quiet (require_current svc c).
Proof. unfold require_current. quiet. Qed.

Lemma quiet_settle_call c s a owner target code : quiet (settle_call c s a owner target code).
Proof. unfold settle_call, now, trigger. quiet. Qed.

Lemma quiet_claim_lost c s e : quiet (claim_lost c s e).
Proof. unfold claim_lost, trigger, recovery_required. quiet. Qed.

Lemma quiet_unless c app e : quiet (unless_authority_invalid c app e).
Proof. unfold unless_authority_invalid, recovery_required. quiet. Qed.

Lemma quiet_record_outcome c s a owner o : quiet (record_outcome svc c s a owner o).
Proof.
  unfold record_outcome, now, trigger, lift. quiet; auto using quiet_unless, quiet_settle_call.
Qed.

Definition key_of (a : OperationAttemptState) : attempt_key :=
  op_key st (at_application_id a) (at_operation_identity a).

Lemma wp_dispatch (c : Context) (a : OperationAttemptState) (cmd : command) (perm : gset attempt_key) :
  key_of a ∈ perm → wp perm (dispatch st c a cmd) (λ _ _, True).
Proof.
  intros Hin. unfold dispatch. destruct (negb _); [done|].
  apply wp_bind. simpl. intros [[]|e]; simpl; [|done]. split; [exact Hin|done].
Qed.

(** A claimed operation is dispatched under its own attempt only. *)
Lemma wp_execute_claim (c : Context) (s : ApplicationExecutionState) (a : OperationAttemptState)
    (owner : string) (perm : gset attempt_key) :
  key_of a ∈ perm → wp perm (execute_claim svc st c s a owner) (λ _ _, True).
Proof.
  intros Hin. unfold execute_claim. apply wp_try_bind. apply quiet_wp.
  { apply quiet_bind; [by apply quiet_trigger|]. intros _. apply quiet_materialize. }
  intros [cmd|e].
  - apply wp_try_bind. apply quiet_wp; [apply quiet_require_current|]. intros [[]|e].
    + apply wp_try_bind. eapply wp_mono; [by apply wp_dispatch|]. intros perm' r _.
      apply quiet_wp; [|done]. destruct r as [o|e].
      * apply quiet_try_bind; [apply quiet_require_current|]. intros [].
        -- apply quiet_record_outcome.
        -- quiet; auto using quiet_unless.
      * destruct e; quiet; auto using quiet_settle_call.
    + apply quiet_wp; [|done]. quiet; auto using quiet_unless.
  - apply quiet_wp; [|done]. destruct e; quiet; auto using quiet_settle_call.
Qed.

Lemma guarded_apply_loop (fuel : nat) (c : Context) (s : ApplicationExecutionState)
    (perm : gset attempt_key) : guarded st perm (apply_loop svc st fuel c s).
Proof.
  unfold guarded. revert s perm. induction fuel as [|fuel IH]; intros s perm; cbn [apply_loop]; destruct (_ <=? _).
  1,3: apply quiet_wp; [|done]; unfold now, trigger, receipt_id; quiet.
  - done.
  - apply wp_vis; [done|]. intros hex. apply wp_try_bind, wp_bind, wp_vis; [done|]. intros r. apply wp_ret.
    destruct r as [t|e].
    + apply wp_call. intros r. apply wp_ret. destruct r as [[s1 a]|e].
      * apply wp_bind. eapply wp_mono; [apply wp_execute_claim; simpl; set_solver|].
        intros perm' [[s2|res]|e] _; [apply IH|done..].
      * apply quiet_wp; [|done]. destruct e; quiet; auto using quiet_claim_lost.
    + apply quiet_wp; [|done]. destruct e; quiet; auto using quiet_claim_lost.
Qed.

Lemma guarded_apply authority_id : guarded st ∅ (_apply svc st authority_id).
Proof.
  unfold _apply, guarded, lift, recovery_required.
  apply wp_bind, wp_vis; [done|]. intros r. apply wp_ret. destruct r as [c|e]; [|done].
  apply wp_bind, wp_vis; [done|]. intros r. apply wp_ret. destruct r as [t|e]; [|done].
  apply wp_vis; [done|]. intros answer. apply wp_bind, wp_ret.
  destruct (new_execution_state _ _ _ _ _ _ _ _ _ _ _ _ _) as [init|e]; [|done].
  apply wp_bind, wp_vis; [done|]. intros r. apply wp_ret. destruct r as [s|e]; [|done].
  destruct (bool_decide (as_state s = Applied)).
  { apply quiet_wp; [|done]. unfold trigger, receipt_id. quiet. }
  destruct (bool_decide (as_state s = Applying)); [done|].
  destruct (bool_decide _); [done|]. apply guarded_apply_loop.
Qed.
End apply.

(** ** Systems of appliers *)
Section system.
Context `{PyLib}.

Record process := Process {
  pr_store : SQLiteExecutionStore;
  pr_capability : _ApplierCapability;
  pr_program : prog ApplyResult;
}.

Record system := System {
  sy_db : Db;
  dispatched : list attempt_key;
  running : gmap nat process;
}.

Definition resume (i : nat) (P : process) (p : prog ApplyResult) (procs : gmap nat process) : gmap nat process :=
  <[i := Process (pr_store P) (pr_capability P) p]> procs.

Definition attempt_keys (db : Db) : gset attempt_key := dom (operation_attempts db).

(** An event answered by the environment alone *)
Definition external {B : Type} (e : event B) : bool :=
  match e with Dispatch _ _ _ | Call _ => false | _ => true end.

Inductive system_step : system → system → Prop :=
| sys_start db log procs i svc st cap authority_id :
    procs !! i = None →
    system_step (System db log procs)
                (System db log (<[i := Process st cap (_apply svc st authority_id)]> procs))
| sys_die db log procs i : system_step (System db log procs) (System db log (delete i procs))
| sys_answer db log procs i P B (e : event B) k b :
    procs !! i = Some P → pr_program P = Vis e k → external e = true →
    system_step (System db log procs) (System db log (resume i P (k b) procs))
| sys_commit db db' log procs i P B (x : call B) k valid b :
    procs !! i = Some P → pr_program P = Vis (Call x) k →
    run_call (pr_store P) (pr_capability P) valid x db = Ok (b, db') →
    system_step (System db log procs) (System db' log (resume i P (k (Ok b)) procs))
| sys_raise db log procs i P B (x : call B) k valid e :
    procs !! i = Some P → pr_program P = Vis (Call x) k →
    run_call (pr_store P) (pr_capability P) valid x db = Err e →
    system_step (System db log procs) (System db log (resume i P (k (Err e)) procs))
| sys_locked db log procs i P B (x : call B) k e :
    procs !! i = Some P → pr_program P = Vis (Call x) k →
    system_step (System db log procs) (System db log (resume i P (k (Err e)) procs))
| sys_dispatch db log procs i P key kind cmd k r :
    procs !! i = Some P → pr_program P = Vis (Dispatch key kind cmd) k →
    system_step (System db log procs) (System db (log ++ [key]) (resume i P (k r) procs))
| sys_other db db' log procs :
    attempt_keys db ⊆ attempt_keys db' → system_step (System db log procs) (System db' log procs).

(** The invariant: what was dispatched, and what may still be, have attempt rows; the
    permissions of different processes are disjoint and none is used up. *)
Definition safe (y : system) : Prop :=
  ∃ perms : gmap nat (gset attempt_key),
    NoDup (dispatched y) ∧
    (∀ key, key ∈ dispatched y → key ∈ attempt_keys (sy_db y)) ∧
    (∀ i P, running y !! i = Some P → ∃ perm, perms !! i = Some perm ∧ guarded (pr_store P) perm (pr_program P)) ∧
    (∀ i perm key, perms !! i = Some perm → key ∈ perm → key ∈ attempt_keys (sy_db y) ∧ key ∉ dispatched y) ∧
    (∀ i j pi pj, i ≠ j → perms !! i = Some pi → perms !! j = Some pj → pi ## pj).

(** ** Calls and attempt rows *)
#[local] Opaque digest digest_hex execution_state_from_doc attempt_from_doc operation_receipt_from_doc
  application_receipt_from_doc execution_state_doc attempt_doc operation_receipt_doc application_receipt_doc
  validate_execution_context _require_clock_not_before.

Lemma attempt_keys_put k r db : attempt_keys (put_attempt k r db) = {[k]} ∪ attempt_keys db.
Proof. apply dom_insert_L. Qed.

Lemma attempt_keys_put_subset k r db db' :
  operation_attempts db' = operation_attempts (put_attempt k r db) → attempt_keys db ⊆ attempt_keys db'.
Proof. intros E. unfold attempt_keys at 2. rewrite E. fold (attempt_keys (put_attempt k r db)).
  rewrite attempt_keys_put. set_solver. Qed.

Lemma insert_attempt_Ok k r db db' :
  insert_attempt k r db = Ok db' → k ∉ attempt_keys db ∧ attempt_keys db' = {[k]} ∪ attempt_keys db.
Proof.
  unfold insert_attempt. intros E. inv_ok. bools. split; [|apply attempt_keys_put].
  unfold attempt_keys. by rewrite elem_of_dom.
Qed.

Lemma claim_keys st cap valid app d c owner now db s a db' :
  claim_next_operation st cap valid app d c owner now db = Ok ((s, a), db') →
  op_key st (at_application_id a) (at_operation_identity a) ∉ attempt_keys db ∧
  attempt_keys db' = {[op_key st (at_application_id a) (at_operation_identity a)]} ∪ attempt_keys db.
Proof.
  unfold claim_next_operation. intros E. inv_ok.
  destruct (application_execution db !! app_key st app) as [r|]; [|done]. inv_ok.
  match goal with D : insert_attempt _ _ _ = Ok _ |- _ => apply insert_attempt_Ok in D as [Hn He] end.
  done.
Qed.

(** A committed call keeps every attempt row; the key it grants is new. *)
Lemma run_call_keys {B : Type} (st : SQLiteExecutionStore) cap valid (x : call B) db b db' :
  run_call st cap valid x db = Ok (b, db') →
  attempt_keys db ∪ granted st x (Ok b) ⊆ attempt_keys db' ∧ granted st x (Ok b) ## attempt_keys db.
Proof.
  destruct x; cbn [run_call granted]; intros E;
    try (unfold reading in E; inv_ok; set_solver).
  - unfold create_execution_if_absent in E. inv_ok.
    destruct (application_execution db !! _); inv_ok; set_solver.
  - destruct b as [s a]. apply claim_keys in E as [Hn ->]. set_solver.
  - unfold complete_operation_success in E. inv_ok.
    match goal with D : load_claim _ _ _ _ _ _ _ = Ok ?p |- _ => destruct p end. inv_ok.
    unfold insert_operation_receipt in *. inv_ok. rewrite (right_id_L ∅ (∪)). split; [|set_solver].
    by eapply attempt_keys_put_subset.
  - unfold settle_operation in E. inv_ok.
    match goal with D : load_claim _ _ _ _ _ _ _ = Ok ?p |- _ => destruct p end. inv_ok.
    rewrite (right_id_L ∅ (∪)). split; [|set_solver].
    by eapply attempt_keys_put_subset.
  - unfold finalize_application in E. inv_ok. destruct (application_execution db !! _); [|done]. inv_ok.
    unfold insert_application_receipt in *. inv_ok. set_solver.
Qed.

(** ** The invariant holds in every reachable system *)
Lemma safe_resume (db db' : Db) (log : list attempt_key) (i : nat) (P : process) (p : prog ApplyResult)
    (procs : gmap nat process) (perms : gmap nat (gset attempt_key)) (perm perm' : gset attempt_key) :
  NoDup log → (∀ key, key ∈ log → key ∈ attempt_keys db) →
  (∀ i P, procs !! i = Some P → ∃ perm, perms !! i = Some perm ∧ guarded (pr_store P) perm (pr_program P)) →
  (∀ i perm key, perms !! i = Some perm → key ∈ perm → key ∈ attempt_keys db ∧ key ∉ log) →
  (∀ i j pi pj, i ≠ j → perms !! i = Some pi → perms !! j = Some pj → pi ## pj) →
  procs !! i = Some P → perms !! i = Some perm → guarded (pr_store P) perm' p →
  attempt_keys db ⊆ attempt_keys db' → perm' ⊆ attempt_keys db' →
  perm' ∖ perm ## attempt_keys db →
  safe (System db' log (resume i P p procs)).
Proof.
  intros Hlog Hlogk Hprocs Hperms Hdisj HP Hperm Hg Hkeys Hperm' Hnew.
  exists (<[i := perm']> perms). simpl. split_and!.
  - done.
  - intros key Hk. by apply Hkeys, Hlogk.
  - intros j Q. unfold resume. destruct (decide (i = j)) as [<-|Hij].
    + rewrite !lookup_insert_eq. intros [= <-]. exists perm'. done.
    + rewrite !lookup_insert_ne by done. apply Hprocs.
  - intros j pj key. destruct (decide (i = j)) as [<-|Hij].
    + rewrite lookup_insert_eq. intros [= <-] Hin. split; [by apply Hperm'|]. intros Hl.
      destruct (decide (key ∈ perm)) as [Hp|Hp]; [by destruct (Hperms _ _ _ Hperm Hp)|].
      specialize (Hlogk _ Hl). set_solver.
    + rewrite lookup_insert_ne by done. intros Hj Hin. destruct (Hperms _ _ _ Hj Hin). split; [by apply Hkeys|done].
  - assert (∀ j pj, i ≠ j → perms !! j = Some pj → perm' ## pj) as Hd.
    { intros j pj Hij Hj key Hin Hin'. destruct (decide (key ∈ perm)) as [Hp|Hp].
      - exact (Hdisj _ _ _ _ Hij Hperm Hj key Hp Hin').
      - destruct (Hperms _ _ _ Hj Hin'). set_solver. }
    intros j k pj pk Hjk. destruct (decide (i = j)) as [<-|Hij], (decide (i = k)) as [<-|Hik]; [done|..].
    + rewrite lookup_insert_eq, lookup_insert_ne by done. intros [= <-] Hk. by apply (Hd k).
    + rewrite lookup_insert_eq, lookup_insert_ne by done. intros Hj [= <-]. symmetry. by apply (Hd j).
    + rewrite !lookup_insert_ne by done. by apply Hdisj.
Qed.

Lemma safe_step y y' : safe y → system_step y y' → safe y'.
Proof.
  intros (perms & Hlog & Hlogk & Hprocs & Hperms & Hdisj) Hstep. destruct Hstep as
    [db log procs i svc st cap aid Hi|db log procs i|db log procs i P B e k b HP Hp He
    |db db' log procs i P B x k valid b HP Hp Hrun|db log procs i P B x k valid e HP Hp Hrun
    |db log procs i P B x k e HP Hp|db log procs i P key kind cmd k r HP Hp|db db' log procs Hk]; simpl in *.
  - exists (<[i := ∅]> perms). simpl. split_and!; [done|done|..].
    + intros j Q. destruct (decide (i = j)) as [<-|Hij].
      * rewrite !lookup_insert_eq. intros [= <-]. exists ∅. split; [done|]. apply guarded_apply.
      * rewrite !lookup_insert_ne by done. apply Hprocs.
    + intros j pj key. destruct (decide (i = j)) as [<-|Hij].
      * rewrite lookup_insert_eq. intros [= <-]. set_solver.
      * rewrite lookup_insert_ne by done. apply Hperms.
    + intros j k pj pk Hjk. destruct (decide (i = j)) as [<-|Hij]; [rewrite lookup_insert_eq; intros [= <-]; set_solver|].
      destruct (decide (i = k)) as [<-|Hik]; [rewrite lookup_insert_eq; intros ? [= <-]; set_solver|].
      rewrite !lookup_insert_ne by done. by apply Hdisj.
  - exists perms. simpl. split_and!; try done. intros j Q [Hij HQ]%lookup_delete_Some. by apply Hprocs.
  - destruct (Hprocs _ _ HP) as (perm & Hperm & Hg). unfold guarded in Hg. rewrite Hp in Hg.
    eapply (safe_resume db db log i P (k b) procs perms perm perm); eauto.
    + unfold guarded. by destruct e; simpl in Hg; try discriminate He; apply Hg.
    + intros key Hin. by eapply Hperms.
    + set_solver.
  - destruct (Hprocs _ _ HP) as (perm & Hperm & Hg). unfold guarded in Hg. rewrite Hp in Hg. simpl in Hg.
    destruct (run_call_keys _ _ _ _ _ _ _ Hrun) as [Hsub Hnew].
    eapply (safe_resume db db' log i P (k (Ok b)) procs perms perm (granted (pr_store P) x (Ok b) ∪ perm)); eauto.
    + apply Hg.
    + set_solver.
    + intros key [Hin|Hin]%elem_of_union; [set_solver|]. apply Hsub. apply elem_of_union_l. by eapply Hperms.
    + set_solver.
  - destruct (Hprocs _ _ HP) as (perm & Hperm & Hg). unfold guarded in Hg. rewrite Hp in Hg. simpl in Hg.
    eapply (safe_resume db db log i P (k (Err e)) procs perms perm perm); eauto.
    + specialize (Hg (Err e)). destruct x; simpl in Hg; by rewrite (left_id_L ∅ (∪)) in Hg.
    + intros key Hin. by eapply Hperms.
    + set_solver.
  - destruct (Hprocs _ _ HP) as (perm & Hperm & Hg). unfold guarded in Hg. rewrite Hp in Hg. simpl in Hg.
    eapply (safe_resume db db log i P (k (Err e)) procs perms perm perm); eauto.
    + specialize (Hg (Err e)). destruct x; simpl in Hg; by rewrite (left_id_L ∅ (∪)) in Hg.
    + intros key Hin. by eapply Hperms.
    + set_solver.
  - destruct (Hprocs _ _ HP) as (perm & Hperm & Hg). unfold guarded in Hg. rewrite Hp in Hg. simpl in Hg.
    destruct Hg as [Hin Hg]. destruct (Hperms _ _ _ Hperm Hin) as [Hkey Hfresh].
    exists (<[i := perm ∖ {[key]}]> perms). simpl. split_and!.
    + apply NoDup_app. split_and!; [done| |apply NoDup_singleton]. intros key' Hk' ->%list_elem_of_singleton. done.
    + intros key' [Hk'| ->%list_elem_of_singleton]%elem_of_app; [by apply Hlogk|done].
    + intros j Q. unfold resume. destruct (decide (i = j)) as [<-|Hij].
      * rewrite !lookup_insert_eq. intros [= <-]. eexists. split; [done|]. apply Hg.
      * rewrite !lookup_insert_ne by done. apply Hprocs.
    + intros j pj key'. destruct (decide (i = j)) as [<-|Hij].
      * rewrite lookup_insert_eq. intros [= <-] [Hk' Hne]%elem_of_difference.
        destruct (Hperms _ _ _ Hperm Hk'). set_solver.
      * rewrite lookup_insert_ne by done. intros Hj Hk'. destruct (Hperms _ _ _ Hj Hk') as [? Hnl].
        split; [done|]. pose proof (Hdisj _ _ _ _ Hij Hperm Hj). set_solver.
    + intros j k' pj pk Hjk. destruct (decide (i = j)) as [<-|Hij], (decide (i = k')) as [<-|Hik]; [done|..].
      * rewrite lookup_insert_eq, lookup_insert_ne by done. intros [= <-] Hk.
        pose proof (Hdisj _ _ _ _ Hjk Hperm Hk). set_solver.
      * rewrite lookup_insert_eq, lookup_insert_ne by done. intros Hj [= <-].
        pose proof (Hdisj _ _ _ _ Hjk Hj Hperm). set_solver.
      * rewrite !lookup_insert_ne by done. by apply Hdisj.
  - exists perms. simpl. split_and!; try done; [intros key Hin; by apply Hk, Hlogk|].
    intros i perm key Hi Hin. destruct (Hperms _ _ _ Hi Hin). split; [by apply Hk|done].
Qed.

Lemma safe_start db : safe (System db [] ∅).
Proof.
  exists ∅. simpl. split_and!; [constructor|intros ? []%elem_of_nil|..].
  - intros i P HP. by rewrite lookup_empty in HP.
  - intros i perm key HP. by rewrite lookup_empty in HP.
  - intros i j pi pj _ HP. by rewrite lookup_empty in HP.
Qed.

Lemma system_safe db y : rtc system_step (System db [] ∅) y → safe y.
Proof.
  generalize (safe_start db). generalize (System db [] ∅). intros y0 H0 Hrun. induction Hrun; eauto using safe_step.
Qed.

(** C2: At most one dispatch per attempt: whatever appliers run over the same tables,
    however their events interleave, whenever they die or are started again, and whatever
    the services, clocks, credentials and networks answer, no attempt is handed to the
    remote executor twice, and every dispatched attempt has its durable row. *)
Theorem at_most_once db y :
  rtc system_step (System db [] ∅) y →
  NoDup (dispatched y) ∧ ∀ key, key ∈ dispatched y → key ∈ attempt_keys (sy_db y).
Proof.
  intros Hrun. by destruct (system_safe _ _ Hrun) as (perms & Hn & Hk & _).
Qed.
End system.
