(* ===== verification/Status.v ===== *)
(** * The application status service (delivery_system/runtime.py, RuntimeApplicationStatusService)

    A read-only projection of the durable execution records.  It re-checks every relation
    between the state, the attempts and the receipts before it reports them.  The
    operations come from the approved preview; their loading is an argument here, and
    StatusSound.v gives it the [_load_preview_operations] of the code. *)
From S2P Require Import Prelude PyValue Strings Canonical WriteOperations Identity Receipts ExecutionState.
From S2P Require Import Clock Context ExecutionStore ManagedStore GithubWrite.

Definition STATE_ERRORS : list string :=
  ["application_not_found"; "application_binding_conflict"; "state_integrity_invalid";
   "application_replay_validation_required"; "application_receipt_not_found"].

Definition _raise_state_error {A} (e : exn) : result A :=
  match e with
  | ValueError code =>
      Err (ValueError (if bool_decide (code ∈ STATE_ERRORS) then code else "state_integrity_invalid"))
  | _ => Err (ValueError "state_integrity_invalid")
  end.

(** [try: c except ValueError as exc: <handler of its code>
     except (TypeError, KeyError, JSONDecodeError): <ValueError(other)>] *)
Definition handling {A} (handler : string → exn) (other : string) (c : result A) : result A :=
  match c with
  | Ok a => Ok a
  | Err (ValueError code) => Err (handler code)
  | Err JSONDecodeError => Err (handler "")
  | Err (TypeError _) | Err (KeyError _) => Err (ValueError other)
  | Err e => Err e
  end.

(** [application-[0-9a-f]{64}] *)
Definition _APPLICATION_ID (s : string) : bool :=
  match strip_prefix "application-" s with
  | Some h => all_bytes is_lower_hex h && (String.length h =? 64)
  | None => false
  end.

Definition _validate_application_id (s : string) : result unit :=
  raise "application_id_invalid" when negb (_APPLICATION_ID s) ; Ok tt.

(** Every failure of a block becomes [ValueError(code)]. *)
Definition or_code {A} (code : string) (c : result A) : result A :=
  match c with
  | Ok a => Ok a
  | Err (ValueError _) | Err JSONDecodeError | Err (TypeError _) | Err (AttributeError _) => Err (ValueError code)
  | Err e => Err e
  end.

Definition some_text (o : option string) : bool :=
  match o with Some s => negb (bool_decide (s = "")) | None => false end.

(** ** [_validate_execution_state_invariants] *)
Definition state_shape_valid (s : ApplicationExecutionState) (total : nat) : bool :=
  let completed := as_next_operation_index s in
  let unowned := is_none (as_owner_id s) && is_none (as_current_attempt_id s) in
  match as_state s with
  | Pending => (completed =? 0) && unowned && is_none (as_recovery_code s) && is_none (as_completed_at s)
  | Applying => (completed <? total) && some_text (as_owner_id s) && some_text (as_current_attempt_id s)
                && is_none (as_recovery_code s) && is_none (as_completed_at s)
  | PartiallyApplied => (0 <? completed) && unowned && is_none (as_recovery_code s) && is_none (as_completed_at s)
  | Failed | Blocked | OutcomeUnknown =>
      (completed <? total) && is_none (as_owner_id s) && some_text (as_current_attempt_id s)
      && some_text (as_recovery_code s) && is_none (as_completed_at s)
  | Applied => (completed =? total) && unowned && is_none (as_recovery_code s) && negb (is_none (as_completed_at s))
  end.

Definition _validate_execution_state_invariants (s : ApplicationExecutionState) (total : nat) : result unit :=
  or_code "state_integrity_invalid"
    (let! started := _execution_timestamp (as_started_at s) in
     let! updated := _execution_timestamp (as_updated_at s) in
     raise "state_integrity_invalid" when (updated <? started)%Z ;
     let! _ := match as_completed_at s with
               | None => Ok tt
               | Some t =>
                   let! completed_at := _execution_timestamp t in
                   raise "state_integrity_invalid" when (completed_at <? updated)%Z ; Ok tt
               end in
     raise "state_integrity_invalid"
       when (total <? as_next_operation_index s)
            || negb (length (as_operation_receipt_refs s) =? as_next_operation_index s) ;
     raise "state_integrity_invalid" when negb (state_shape_valid s total) ;
     Ok tt).

(** ** [_authority_binding_matches_execution] *)
Definition _authority_binding_matches_execution (binding : AuthorityProvenance) (l : logical_values)
    (anchor : CredentialContinuityAnchor) (app : string) : bool :=
  bool_decide (pv_application_id binding = app)
  && bool_decide (pv_github_subject_identity binding = github_subject_identity l)
  && bool_decide (pv_driver_identity binding = driver_identity l)
  && bool_decide (pv_remote_authority binding = remote_authority l)
  && (if bool_decide (mode anchor = "PRINCIPAL") then
        bool_decide (Some (pv_credential_principal_identity binding) = anchor_values anchor !! 0)
      else if bool_decide (mode anchor = "LEGACY_INSTANCE") then
        bool_decide (Some (pv_issuer_id binding) = anchor_values anchor !! 0)
        && bool_decide (Some (pv_credential_instance_id binding) = anchor_values anchor !! 1)
      else false).

Section status.
Context `{PyLib}.
Variable st : SQLiteExecutionStore.

Definition _load_initial_records (app : string) (db : Db) : result LogicalApplicationIdentity :=
  match get_execution_bootstrap st app db with
  | Ok i => Ok i
  | Err ((ValueError _ | JSONDecodeError | TypeError _ | KeyError _) as e) => _raise_state_error e
  | Err e => Err e
  end.

Definition EXECUTION_ERRORS : list string :=
  ["application_not_found"; "application_binding_conflict"; "state_integrity_invalid";
   "application_replay_validation_required"; "receipt_integrity_invalid";
   "application_receipt_integrity_invalid"; "application_receipt_not_found"; "operation_receipt_not_found";
   "receipt_binding_conflict"; "workspace_mismatch"].

(** Codes outside [EXECUTION_ERRORS] are re-raised unchanged, so the handler only renames. *)
Definition _load_execution (app : string) (operations : list operation) (db : Db)
  : result ApplicationExecutionState :=
  handling (λ code, ValueError (if bool_decide (code = "application_replay_binding_invalid")
                                then "application_receipt_integrity_invalid" else code))
    "state_integrity_invalid" (get_execution st app (Some operations) db).

Definition _load_application_receipt (app : string) (db : Db) : result (option ApplicationReceipt) :=
  match get_application_receipt st app db with
  | Ok r => Ok (Some r)
  | Err (ValueError code) =>
      if bool_decide (code = "application_receipt_not_found") then Ok None
      else if bool_decide (code = "application_binding_conflict") then Err (ValueError code)
      else Err (ValueError "application_receipt_integrity_invalid")
  | Err (JSONDecodeError | TypeError _ | KeyError _) => Err (ValueError "application_receipt_integrity_invalid")
  | Err e => Err e
  end.

(** ** [_project_attempts] *)
Record attempt_view := AttemptView {
  av_operation_identity : string;
  av_operation_index : nat;
  av_state : exec_state;
  av_attempt_digest : string;
  av_started_at : string;
  av_updated_at : string;
  av_failure_code : option string;
}.

Definition claimed_states : list exec_state := [Applying; Failed; Blocked; OutcomeUnknown].
Definition settled_states : list exec_state := [Failed; Blocked; OutcomeUnknown].

(** The times of a record lie within those of the execution, in order. *)
Definition times_within (code started updated lower upper : string) : result unit :=
  or_code code
    (let! s := _execution_timestamp started in
     let! u := _execution_timestamp updated in
     raise code when (u <? s)%Z ;
     let! lo := _execution_timestamp lower in
     raise code when (s <? lo)%Z ;
     let! hi := _execution_timestamp upper in
     raise code when (hi <? u)%Z ; Ok tt).

Definition project_attempt (app : string) (s : ApplicationExecutionState) (index : nat) (op : operation)
    (operation_id request : string) (attempt : OperationAttemptState) : result attempt_view :=
  let completed := as_next_operation_index s in
  let l := _values (as_identity s) in
  raise "attempt_integrity_invalid"
    when (completed <? index) || negb (bool_decide (at_application_id attempt = app))
         || negb (bool_decide (_values (at_identity attempt) = l))
         || negb (bool_decide (at_operation_identity attempt = operation_id))
         || negb (bool_decide (at_operation attempt = op))
         || negb (bool_decide (at_request_identity attempt = request))
         || negb (bool_decide (at_driver_identity attempt = driver_identity l))
         || negb (bool_decide (at_remote_authority attempt = remote_authority l))
         || negb (_authority_binding_matches_execution (at_authority_binding attempt) l
                    (as_continuity_anchor s) app) ;
  raise "state_integrity_invalid" when bool_decide (as_state s = Pending) ;
  let expected_state := if index <? completed then Applied else as_state s in
  raise "state_integrity_invalid"
    when negb (bool_decide (at_state attempt = expected_state)) || negb (at_operation_index attempt =? index) ;
  raise "state_integrity_invalid"
    when (index =? completed) && bool_decide (as_state s ∈ claimed_states)
         && negb (bool_decide (as_current_attempt_id s = Some operation_id)) ;
  let! _ := times_within "attempt_integrity_invalid" (at_started_at attempt) (at_updated_at attempt)
              (as_started_at s) (as_updated_at s) in
  raise "attempt_integrity_invalid"
    when (if bool_decide (at_state attempt ∈ settled_states) then negb (some_text (at_failure_code attempt))
          else negb (is_none (at_failure_code attempt))) ;
  Ok (AttemptView (at_operation_identity attempt) (at_operation_index attempt) (at_state attempt)
        (at_attempt_digest attempt) (at_started_at attempt) (at_updated_at attempt) (at_failure_code attempt)).

Definition ATTEMPT_ERRORS : list string :=
  ["operation_attempt_invalid"; "operation_attempt_binding_invalid"; "operation_attempt_binding_conflict";
   "attempt_integrity_invalid"].

Fixpoint project_attempts_from (app : string) (s : ApplicationExecutionState) (index : nat)
    (operations : list operation) (db : Db) : result (list attempt_view) :=
  match operations with
  | [] => Ok []
  | op :: operations' =>
      let completed := as_next_operation_index s in
      let! operation_id := operation_identity app index op in
      match get_attempt st app operation_id db with
      | Err (ValueError code) =>
          if bool_decide (code ∈ ATTEMPT_ERRORS) then Err (ValueError "attempt_integrity_invalid")
          else if negb (bool_decide (code = "operation_attempt_not_found")) then Err (ValueError code)
          else if (index <? completed) || ((index =? completed) && bool_decide (as_state s ∈ claimed_states))
          then Err (ValueError code)
          else project_attempts_from app s (S index) operations' db
      | Err e => Err e
      | Ok attempt =>
          let! request := request_identity operation_id in
          let! view := project_attempt app s index op operation_id request attempt in
          let! rest := project_attempts_from app s (S index) operations' db in
          Ok (view :: rest)
      end
  end.

Definition _project_attempts (app : string) (s : ApplicationExecutionState) (operations : list operation)
    (db : Db) : result (list attempt_view) :=
  let completed := as_next_operation_index s in
  let total := length operations in
  raise "state_integrity_invalid"
    when (total <? completed) || negb (length (as_operation_receipt_refs s) =? completed) ;
  raise "state_integrity_invalid" when bool_decide (as_state s ∈ claimed_states) && (total <=? completed) ;
  raise "state_integrity_invalid"
    when bool_decide (as_state s ∈ [Pending; PartiallyApplied; Applied]) && negb (is_none (as_current_attempt_id s)) ;
  project_attempts_from app s 0 operations db.

(** ** [_project_operation_receipts] *)
Record receipt_view := ReceiptView {
  rv_operation_receipt_id : string;
  rv_receipt_digest : string;
  rv_operation_index : nat;
  rv_started_at : string;
  rv_completed_at : string;
}.

Definition project_receipt (app : string) (s : ApplicationExecutionState) (index : nat) (op : operation)
    (operation_id request : string) (receipt : OperationReceipt) : result receipt_view :=
  let l := _values (as_identity s) in
  raise "receipt_integrity_invalid"
    when negb (bool_decide (or_application_id receipt = app))
         || negb (bool_decide (_values (or_identity receipt) = l))
         || negb (bool_decide (or_operation_identity receipt = operation_id))
         || negb (bool_decide (or_canonical_operation receipt = op))
         || negb (or_operation_index receipt =? index)
         || negb (bool_decide (Some (or_operation_receipt_id receipt) = as_operation_receipt_refs s !! index))
         || negb (bool_decide (or_request_identity receipt = request))
         || negb (_authority_binding_matches_execution (or_authority_binding receipt) l
                    (as_continuity_anchor s) app) ;
  let! _ := times_within "receipt_integrity_invalid" (or_started_at receipt) (or_completed_at receipt)
              (as_started_at s) (as_updated_at s) in
  Ok (ReceiptView (or_operation_receipt_id receipt) (or_receipt_digest receipt) (or_operation_index receipt)
        (or_started_at receipt) (or_completed_at receipt)).

(** Operations below the progress index have their receipt; the others have none. *)
Fixpoint project_receipts_from (app : string) (s : ApplicationExecutionState) (index : nat)
    (operations : list operation) (db : Db) : result (list receipt_view) :=
  match operations with
  | [] => Ok []
  | op :: operations' =>
      let! operation_id := operation_identity app index op in
      if index <? as_next_operation_index s then
        match get_operation_receipt st app operation_id db with
        | Err (ValueError code) =>
            Err (ValueError
              (if bool_decide (code ∈ ["operation_receipt_invalid"; "operation_receipt_binding_invalid";
                                       "receipt_binding_conflict"; "workspace_mismatch"])
               then "receipt_integrity_invalid" else code))
        | Err e => Err e
        | Ok receipt =>
            let! request := request_identity operation_id in
            let! view := project_receipt app s index op operation_id request receipt in
            let! rest := project_receipts_from app s (S index) operations' db in
            Ok (view :: rest)
        end
      else
        match get_operation_receipt st app operation_id db with
        | Err (ValueError code) =>
            if bool_decide (code = "operation_receipt_not_found")
            then project_receipts_from app s (S index) operations' db
            else Err (ValueError "receipt_integrity_invalid")
        | Err JSONDecodeError | Ok _ => Err (ValueError "receipt_integrity_invalid")
        | Err e => Err e
        end
  end.

Definition _project_operation_receipts (app : string) (s : ApplicationExecutionState)
    (operations : list operation) (db : Db) : result (list receipt_view) :=
  project_receipts_from app s 0 operations db.

(** ** [_project_application_receipt] *)
Record application_receipt_view := ApplicationReceiptView {
  pv_application_receipt_id : string;
  pv_receipt_digest : string;
  pv_status : string;
  pv_operation_receipt_count : nat;
  pv_started : string;
  pv_completed : string;
}.

Definition _project_application_receipt (r : ApplicationReceipt) (s : ApplicationExecutionState)
  : result application_receipt_view :=
  match as_completed_at s with
  | None => Err (ValueError "application_receipt_integrity_invalid")
  | Some completed =>
      let! _ := times_within "application_receipt_integrity_invalid" (ar_started_at r) (ar_completed_at r)
                  (as_started_at s) completed in
      Ok (ApplicationReceiptView (ar_application_receipt_id r) (ar_receipt_digest r) (ar_status r)
            (length (ar_operation_receipt_refs r)) (ar_started_at r) (ar_completed_at r))
  end.

(** ** [get_status] *)
Record status_view := StatusView {
  sv_application_id : string;
  sv_preview_id : string;
  sv_revision : Z;
  sv_operation_set_digest : string;
  sv_state : exec_state;
  sv_next_operation_index : nat;
  sv_completed_operation_count : nat;
  sv_total_operation_count : nat;
  sv_attempt_count : nat;
  sv_recovery_code : option string;
  sv_application_receipt : option application_receipt_view;
  sv_operation_receipts : list receipt_view;
  sv_attempts : list attempt_view;
  sv_started_at : string;
  sv_updated_at : string;
  sv_completed_at : option string;
}.

Definition get_status (load_preview_operations : LogicalApplicationIdentity → result (list operation))
    (app : string) (db : Db) : result status_view :=
  let! _ := _validate_application_id app in
  let! identity := _load_initial_records app db in
  let values := _values identity in
  raise "application_binding_conflict" when negb (bool_decide (_application_id identity = app)) ;
  let! operations := load_preview_operations identity in
  let! s := _load_execution app operations db in
  raise "application_binding_conflict"
    when negb (bool_decide (as_application_id s = app))
         || negb (bool_decide (_values (as_identity s) = _values identity)) ;
  let! _ := _validate_execution_state_invariants s (length operations) in
  let! application_receipt := _load_application_receipt app db in
  let! operation_receipts := _project_operation_receipts app s operations db in
  let! attempts := _project_attempts app s operations db in
  let! projection :=
    if bool_decide (as_state s = Applied) then
      match application_receipt with
      | None => Err (ValueError "application_receipt_not_found")
      | Some r => let! view := _project_application_receipt r s in Ok (Some view)
      end
    else match application_receipt with
         | Some _ => Err (ValueError "application_receipt_integrity_invalid")
         | None => Ok None
         end in
  Ok (StatusView app (preview_id values) (revision values) (operation_set_digest values) (as_state s)
        (as_next_operation_index s) (length operation_receipts) (length operations) (length attempts)
        (as_recovery_code s) projection operation_receipts attempts (as_started_at s) (as_updated_at s)
        (as_completed_at s)).

Definition get_status_by_approved_context
    (load_preview_operations : LogicalApplicationIdentity → result (list operation))
    (preview : string) (rev : Z) (approval approvald : string) (db : Db) : result status_view :=
  let! app := resolve_application_id_by_approved_context st preview rev approval approvald db in
  get_status load_preview_operations app db.
End status.
