(* ===== verification/Progress.v ===== *)
(** * Invariants of the durable rows over a whole history

    Consequences of the refinement: final phases never change, an applied application has
    every receipt, each write is a transition the state module allows, and, as long as
    settlements are not stamped before the state they settle, every execution row passes
    the status service's checks.  The last condition is necessary: [settle_operation] does
    not compare its time with the stored ones. *)
From S2P Require Import Prelude PyValue Strings Canonical WriteOperations Identity Receipts ExecutionState.
From S2P Require Import Clock Context ExecutionStore ManagedStore ManagedSpec ManagedFacts Refinement Status.

#[local] Opaque digest digest_hex identity_from_dict anchor_from_dict provenance_from_dict
  execution_state_check attempt_check operation_receipt_check operation_identity request_identity
  execution_state_verify_integrity attempt_verify_integrity operation_receipt_verify_integrity
  execution_state_with_digest attempt_with_digest operation_receipt_with_digest
  continue_execution_state continue_attempt new_attempt live_digest_execution live_digest_attempt
  validate_execution_context _require_clock_not_before execution_state_from_doc attempt_from_doc
  operation_receipt_from_doc execution_state_doc attempt_doc operation_receipt_doc parse_time.

Section progress.
Context `{PyLib}.
Variable st : SQLiteExecutionStore.
Variable pl : plan.
Hypothesis Hdistinct : distinct_ids pl.
Notation n := (pl_count pl).
Notation app := (pl_app pl).

(** ** Histories *)
Lemma managed_steps_represent db db' p :
  represents st pl db p → rtc (managed_step st pl) db db' →
  ∃ p', represents st pl db' p' ∧ rtc (phase_step n) p p'.
Proof.
  intros Hr Hs. revert p Hr. induction Hs as [db|db db1 db2 Hs _ IH]; intros p Hr.
  - by exists p.
  - destruct (managed_step_represents _ _ _ _ _ Hdistinct Hr Hs) as (p1 & Hr1 & Hp).
    destruct (IH _ Hr1) as (p' & Hr' & Hp'). exists p'. split; [done|].
    destruct Hp as [->|Hp]; [done|]. by eapply rtc_l.
Qed.

Lemma final_phase_stuck p p' : rtc (phase_step n) p p' → (∃ k x, p = Settled k x) ∨ p = Finished → p' = p.
Proof. intros Hs Hp. inversion Hs as [|? ? ? Hstep]; subst; [done|]. destruct Hp as [(k & x & ->)| ->]; inversion Hstep. Qed.

Lemma phase_steps_count p p' : phase_wf pl p → rtc (phase_step n) p p' → applied_count n p ≤ applied_count n p'.
Proof.
  intros _ Hs. induction Hs as [|p p1 p2 Hs _ IH]; [done|]. etrans; [|exact IH].
  destruct Hs; simpl; lia.
Qed.

(** No row of the application *)
Definition no_rows (db : Db) : Prop :=
  application_execution db !! app_key st app = None ∧ application_receipts db !! app_key st app = None ∧
  ∀ i id, op_id_at pl i id →
    operation_attempts db !! op_key st app id = None ∧ operation_receipts db !! op_key st app id = None.

Lemma no_rows_absent db : no_rows db → represents st pl db Absent.
Proof.
  intros (He & Hf & Hops). split_and!; [done|exact He|..|exact Hf]; intros i id Hid; destruct (Hops i id Hid);
    simpl; [|done]. unfold attempt_phase. simpl. by destruct i.
Qed.

(** C4: The managed store refines the abstract machine: after any history of committed
    managed calls - create, claim, complete, settle, finalize, by contexts of one or many
    processes - on tables without rows of the application, the rows represent a phase
    that the abstract machine reaches from [Absent]. *)
Theorem managed_store_refines db db' :
  no_rows db → rtc (managed_step st pl) db db' →
  ∃ p, represents st pl db' p ∧ rtc (phase_step n) Absent p.
Proof. intros Hn. by apply managed_steps_represent, no_rows_absent. Qed.

(** C29: Final outcomes are final: once an application is applied, or an operation of it
    failed, was blocked or has an unknown outcome, no history of managed calls changes
    the phase the rows represent. *)
Theorem final_phases_absorbing db db' p :
  represents st pl db p → (∃ k x, p = Settled k x) ∨ p = Finished →
  rtc (managed_step st pl) db db' → represents st pl db' p.
Proof.
  intros Hr Hp Hs. destruct (managed_steps_represent _ _ _ Hr Hs) as (p' & Hr' & Hsteps).
  by rewrite <- (final_phase_stuck _ _ Hsteps Hp).
Qed.

(** Progress is monotone: along every history of managed calls the number of applied
    operations never decreases, and it never exceeds the number of operations. *)
Theorem progress_monotone db db' p :
  represents st pl db p → rtc (managed_step st pl) db db' →
  ∃ p', represents st pl db' p' ∧ applied_count n p ≤ applied_count n p' ≤ n.
Proof.
  intros Hr Hs. destruct (managed_steps_represent _ _ _ Hr Hs) as (p' & Hr' & Hsteps).
  exists p'. split; [done|]. split.
  - apply phase_steps_count; [apply Hr|done].
  - destruct Hr' as (Hw & _). destruct p'; simpl in *; lia.
Qed.

(** A represented application stored as applied is complete. *)
Definition complete_rows (db : Db) (s : ApplicationExecutionState) : Prop :=
  is_Some (application_receipts db !! app_key st app) ∧
  length (as_operation_receipt_refs s) = n ∧
  ∀ i id, op_id_at pl i id →
    ∃ a r, operation_attempts db !! op_key st app id = Some (Doc (attempt_doc a)) ∧
           attempt_for pl i id Applied a ∧
           operation_receipts db !! op_key st app id = Some (Doc (operation_receipt_doc r)) ∧
           receipt_for pl i id r ∧
           as_operation_receipt_refs s !! i = Some (or_operation_receipt_id r).

Lemma applied_rows db p s :
  represents st pl db p → found_execution st db app s → as_state s = Applied → complete_rows db s.
Proof.
  intros (Hw & He & Ha & Hrc & Hf) Hfound Hst.
  destruct (found_execution_for _ _ _ _ _ He Hfound) as [Hp Hfor].
  destruct Hfor as (_ & _ & _ & _ & _ & Hstate & Hnext & _ & _ & Hlen & Hrefs & _).
  rewrite Hst in Hstate. destruct p as [|[|k]|k o|k x|]; simpl in Hstate; try discriminate.
  { exfalso. destruct Hw as [_ Hw]. subst x. revert Hw. by apply (bool_decide_unpack _). }
  split; [exact Hf|]. split; [exact Hlen|]. intros i id Hid.
  assert (i < n) as Hi by (destruct Hid as (op & Hop & _); by eapply lookup_lt_Some).
  specialize (Ha i id Hid). specialize (Hrc i id Hid). unfold attempt_phase in Ha. simpl in *.
  destruct (Nat.ltb_spec i n); [|lia]. destruct Ha as (a & Hrow & Hafor). destruct Hrc as (r & Hrow' & Hrfor).
  exists a, r. split_and!; try done.
  destruct (Hrefs i id Hid Hi) as (rid & Hrid & Href). rewrite Href. f_equal.
  destruct Hrfor as ([(Hck & _) _] & _ & Hroid & _).
  destruct (operation_receipt_check_facts _ _ Hck) as (_ & _ & _ & _ & _ & Hid' & _).
  rewrite Hroid in Hid'. congruence.
Qed.

End progress.

Section rows.
Context `{PyLib}.
Variable st : SQLiteExecutionStore.
Variable pl : plan.
Notation app := (pl_app pl).

(** ** Rows before and after a write *)
Lemma found_unique db s s' : found_execution st db app s → found_execution st db app s' → s' = s.
Proof. intros (r & Hr & Hl & _) (r' & Hr' & Hl' & _). congruence. Qed.

Lemma found_put db s s' :
  execution_intact s →
  found_execution st (put_execution (app_key st app) (Doc (execution_state_doc s)) db) app s' →
  s' = execution_state_historical s.
Proof.
  intros Hi (r & Hr & Hl & _). rewrite execution_put_same in Hr. injection Hr as <-. simpl in Hl.
  rewrite execution_state_from_doc_doc in Hl by apply Hi. by injection Hl.
Qed.

(** The rows after a step: the state that was there, or one of the four writes *)
Inductive row_write (s : ApplicationExecutionState) : ApplicationExecutionState → Prop :=
| write_claim c owner id now d e :
    owner_wf owner = true → id ≠ "" →
    (as_state s = Pending ∨ as_state s = PartiallyApplied) → as_owner_id s = None →
    as_current_attempt_id s = None → clock_not_before now [as_started_at s; as_updated_at s] →
    row_write s (changed_state c s (claim_changes owner id now) d e)
| write_complete c rid now d e :
    as_state s = Applying → clock_not_before now [as_started_at s; as_updated_at s] →
    row_write s (changed_state c s (complete_changes s rid now) d e)
| write_settle c target code now d e :
    as_state s = Applying → target ∈ [Failed; Blocked; OutcomeUnknown] →
    row_write s (changed_state c s (settle_changes target code now) d e)
| write_finalize c now d e :
    as_state s = PartiallyApplied → clock_not_before now [as_started_at s; as_updated_at s] →
    row_write s (changed_state c s (finalize_changes now) d e).

Definition same_binding (s s' : ApplicationExecutionState) : Prop :=
  as_application_id s' = as_application_id s ∧ _values (as_identity s') = _values (as_identity s) ∧
  as_continuity_anchor s' = as_continuity_anchor s.

Lemma clock_not_before_prefix now l l' : clock_not_before now (l ++ l') → clock_not_before now l.
Proof. intros (t & Ht & Hl). exists t. split; [done|]. by apply Forall_app in Hl as [? _]. Qed.

End rows.

Section writes.
Context `{PyLib}.
Variable st : SQLiteExecutionStore.
Variable pl : plan.
Hypothesis Hdistinct : distinct_ids pl.
Notation n := (pl_count pl).
Notation app := (pl_app pl).

Lemma managed_step_write db db' p s s' :
  represents st pl db p → managed_step st pl db db' →
  found_execution st db app s → found_execution st db' app s' →
  s' = s ∨ ∃ w, row_write s w ∧ execution_intact w ∧ same_binding s w ∧ s' = execution_state_historical w.
Proof.
  intros Hr Hs Hfs Hfs'.
  assert (represents_execution st pl db p) as He by apply Hr.
  destruct (found_execution_for _ _ _ _ _ He Hfs) as [Hp _].
  destruct Hs as [? ? c ? ? ? ? x [<- Hc] Hi E|? ? c ? owner ? x a [<- Hc] E
    |? ? c ? ? ? owner ? ? x [<- Hc] Hwf E|? ? c ? ? ? owner target ? ? x [<- Hc] E|? ? c ? ? x [<- Hc] E].
  - left. destruct (create_represents _ _ _ _ Hc _ _ _ _ _ _ _ _ Hr Hi E) as [(-> & _)|(_ & -> & _)]; [done|].
    by eapply (found_unique _ (plan_of c)).
  - right. apply claim_Ok in E as (_ & Ho & previous & op & id & request & d & d' & Hfound & _ & Hst & Hown & Hat &
      _ & Hid & Hclock & Hv & Ha & Han & _ & _ & -> & Hsi & _ & ->); [|done].
    rewrite (found_unique _ (plan_of c) _ _ _ Hfs Hfound) in *. eexists. split_and!.
    + eapply write_claim; try done. by eapply operation_identity_nonempty.
    + exact Hsi.
    + by unfold same_binding; simpl.
    + by eapply (found_put _ (plan_of c)).
  - right. apply complete_Ok in E as (previous & a & d & Hclaim & _ & _ & _ & Hclock & _ & Hv & Ha & Han & _ & _ &
      -> & Hsi & _ & stored & a' & _ & _ & ->); [|done].
    destruct Hclaim as (Hfound & _ & _ & _ & Hst & _).
    rewrite (found_unique _ (plan_of c) _ _ _ Hfs Hfound) in *. eexists. split_and!.
    + eapply write_complete; [exact Hst|]. exact (clock_not_before_prefix _ [_; _] [_; _] Hclock).
    + exact Hsi.
    + by unfold same_binding; simpl.
    + by eapply (found_put _ (plan_of c)).
  - right. apply settle_Ok in E as (Ht & previous & a & d & Hclaim & Hv & Ha & Han & _ & _ & -> & Hsi & a' & _ & ->);
      [|done].
    destruct Hclaim as (Hfound & _ & _ & _ & Hst & _).
    rewrite (found_unique _ (plan_of c) _ _ _ Hfs Hfound) in *. eexists. split_and!.
    + by eapply write_settle.
    + exact Hsi.
    + by unfold same_binding; simpl.
    + by eapply (found_put _ (plan_of c)).
  - right. apply finalize_Ok in E as (previous & receipts & d & Hfound & _ & Hst & _ & _ & _ & _ & Hclock & Hv & Ha &
      Han & -> & Hsi & _ & svc & ans & ar & _ & ->); [|done].
    rewrite (found_unique _ (plan_of c) _ _ _ Hfs Hfound) in *. eexists. split_and!.
    + by eapply write_finalize.
    + exact Hsi.
    + by unfold same_binding; simpl.
    + by eapply (found_put _ (plan_of c)).
Qed.

(** The row a history starts with: created with one time *)
Lemma managed_step_created db db' s' :
  represents st pl db Absent → managed_step st pl db db' → found_execution st db' app s' →
  as_started_at s' = as_updated_at s' ∧ as_owner_id s' = None ∧ as_current_attempt_id s' = None ∧
  as_recovery_code s' = None.
Proof.
  intros Hr Hs Hf'.
  assert (∀ x, ¬ found_execution st db app x) as Hno.
  { intros x (r & Hrow & _). destruct Hr as (_ & He & _). simpl in He. congruence. }
  destruct Hs as [cap valid c svc ans now init x [<- Hc] Hi E|? ? c ? owner ? x a [<- Hc] E
    |? ? c ? ? ? owner ? ? x [<- Hc] Hwf E|? ? c ? ? ? owner target ? ? x [<- Hc] E|? ? c ? ? x [<- Hc] E].
  - assert (∃ d, x = execution_state_set_digest d init ∧ execution_intact x ∧
      db' = put_execution (app_key st (pl_app (plan_of c))) (Doc (execution_state_doc x)) db) as (d & -> & Hx & ->).
    { destruct (create_represents _ _ _ _ Hc _ _ _ _ _ _ _ _ Hr Hi E) as [(_ & _ & Hfor)|(? & _)]; [|done].
      pose proof Hfor as (Hin & _).
      unfold initial_state, new_execution_state in Hi. inv_ok.
      match goal with D : execution_state_check _ = Ok _ |- _ => apply execution_state_check_Ok in D as -> end.
      unfold create_execution_if_absent in E. inv_ok.
      match goal with D : execution_state_with_digest _ = Ok _ |- _ =>
        apply execution_state_with_digest_Ok in D as ([d ->] & _) end.
      simpl in E. change (ctx_application_id c) with (pl_app (plan_of c)) in E.
      destruct Hr as (_ & He & _). simpl in He. rewrite He in E. injection E as <- <-. by exists d. }
    rewrite (found_put _ (plan_of c) _ _ _ Hx Hf').
    unfold initial_state, new_execution_state in Hi. inv_ok.
    match goal with D : execution_state_check _ = Ok _ |- _ => by apply execution_state_check_Ok in D as -> end.
  - apply claim_Ok in E as (_ & _ & previous & op & id & request & d & d' & Hfound & _); [|done]. by destruct (Hno previous).
  - apply complete_Ok in E as (previous & a & d & [Hfound _] & _); [|done]. by destruct (Hno previous).
  - apply settle_Ok in E as (_ & previous & a & d & [Hfound _] & _); [|done]. by destruct (Hno previous).
  - apply finalize_Ok in E as (previous & receipts & d & Hfound & _); [|done]. by destruct (Hno previous).
Qed.

(** ** Times and texts *)
Definition timely (s : ApplicationExecutionState) : Prop :=
  clock_not_before (as_updated_at s) [as_started_at s] ∧
  as_owner_id s ≠ Some "" ∧ as_current_attempt_id s ≠ Some "" ∧ as_recovery_code s ≠ Some "".

(** A step on time: the starting time parses, and a settlement is not stamped before the
    claim it settles and carries a code. *)
Definition on_time_step (db db' : Db) : Prop :=
  managed_step st pl db db' ∧
  (∀ s', application_execution db !! app_key st app = None → found_execution st db' app s' →
     is_Some (parse_time (as_started_at s'))) ∧
  (∀ s s', found_execution st db app s → found_execution st db' app s' → as_state s = Applying →
     as_state s' ∈ settled_states →
     clock_not_before (as_updated_at s') [as_updated_at s] ∧ as_recovery_code s' ≠ Some "").

Lemma clock_refl t : is_Some (parse_time t) → clock_not_before t [t].
Proof. intros [z Hz]. exists z. split; [done|]. repeat constructor. exists z. split; [done|lia]. Qed.

Lemma clock_trans now mid old :
  clock_not_before now [mid] → clock_not_before mid [old] → clock_not_before now [old].
Proof.
  intros (t & Ht & Hf) (t' & Ht' & Hf'). apply Forall_singleton in Hf as (m & Hm & Hle).
  apply Forall_singleton in Hf' as (o & Ho & Hle'). rewrite Hm in Ht'. injection Ht' as ->.
  exists t. split; [done|]. repeat constructor. exists o. split; [done|lia].
Qed.

Lemma owner_wf_nonempty o : owner_wf o = true → o ≠ "".
Proof. by intros H0 ->. Qed.

Lemma timely_write s w : timely s → row_write s w →
  (as_state w ∈ settled_states → clock_not_before (as_updated_at w) [as_updated_at s] ∧ as_recovery_code w ≠ Some "") →
  timely w.
Proof.
  intros (Hclock & Hown & Hat & Hrec) Hw Hset. destruct Hw as
    [c owner id now d e Ho Hid _ _ _ Hnow|c rid now d e _ Hnow|c target code now d e _ Ht|c now d e _ Hnow].
  - apply owner_wf_nonempty in Ho.
    split_and!; simpl; [exact (clock_not_before_prefix _ [_] [_] Hnow)|congruence|congruence|done].
  - split_and!; simpl; [exact (clock_not_before_prefix _ [_] [_] Hnow)|done|done|done].
  - destruct (Hset Ht) as [Hlate Hcode].
    split_and!; simpl; [by eapply clock_trans|done|done|done].
  - split_and!; simpl; [exact (clock_not_before_prefix _ [_] [_] Hnow)|done|done|done].
Qed.
End writes.

Section status.
Context `{PyLib}.
Variable st : SQLiteExecutionStore.
Variable pl : plan.
Hypothesis Hdistinct : distinct_ids pl.
Notation n := (pl_count pl).
Notation app := (pl_app pl).

Lemma on_time_history db db' p :
  represents st pl db p → (∀ s, found_execution st db app s → timely s) →
  rtc (on_time_step st pl) db db' →
  ∃ p', represents st pl db' p' ∧ ∀ s, found_execution st db' app s → timely s.
Proof.
  intros Hr Ht Hs. revert p Hr Ht. induction Hs as [db|db db1 db2 (Hs & Hstart & Hlate) _ IH]; intros p Hr Ht.
  { by exists p. }
  destruct (managed_step_represents _ _ _ _ _ Hdistinct Hr Hs) as (p1 & Hr1 & _).
  apply (IH p1 Hr1). intros s1 Hf1.
  assert (p = Absent ∨ p ≠ Absent) as [->|Hp] by (destruct p; auto).
  - edestruct managed_step_created as (Htimes & Ho & Hc & Hrec); [exact Hdistinct|exact Hr|exact Hs|exact Hf1|].
    unfold timely. rewrite Ho, Hc, Hrec. split_and!; try done.
    rewrite <- Htimes. apply clock_refl. apply (Hstart s1); [|done]. apply Hr.
  - destruct (represents_found _ _ _ _ Hr Hp) as (s & Hf & _).
    destruct (managed_step_write _ _ Hdistinct _ _ _ _ _ Hr Hs Hf Hf1) as [->|(w & Hw & Hi & _ & ->)]; [by apply Ht|].
    change (timely w). eapply timely_write; [by apply Ht|exact Hw|].
    intros Hset. apply (Hlate s (execution_state_historical w)); try done.
    destruct Hw; try done; exfalso; revert Hset; simpl; by apply (bool_decide_unpack _).
Qed.

Lemma some_text_Some o : o ≠ Some "" → is_Some o → some_text o = true.
Proof. intros Ho [t ->]. simpl. rewrite bool_decide_eq_false_2; [done|congruence]. Qed.

Lemma state_for_shape p s :
  phase_wf pl p → p ≠ Absent → state_for pl p s → timely s → state_shape_valid s n = true.
Proof.
  intros Hw Hp Hfor (_ & Hown & Hcur & Hrec).
  destruct Hfor as (_ & _ & _ & _ & _ & Hst & Hn & Ho & Hc & _ & _ & Hcomp & Hr).
  unfold state_shape_valid. rewrite Hst, Hn.
  destruct p as [|[|k]|k o|k x|]; [done|..]; simpl in *.
  - by rewrite Ho, Hc, Hcomp, Hr.
  - by rewrite Ho, Hc, Hcomp, Hr.
  - destruct Hc as (id & _ & Hc). rewrite (some_text_Some (as_owner_id s)), (some_text_Some (as_current_attempt_id s))
      by (done || (rewrite ?Ho, ?Hc; by eexists)).
    rewrite Hcomp, Hr. by destruct (Nat.ltb_spec k n); [|lia].
  - destruct Hc as (id & _ & Hc). destruct Hw as [Hk Hx].
    rewrite (some_text_Some (as_current_attempt_id s)), (some_text_Some (as_recovery_code s))
      by (done || (rewrite ?Hc; by eexists)).
    rewrite Ho, Hcomp. destruct (Nat.ltb_spec k n); [|lia].
    by repeat (apply elem_of_cons in Hx as [->|Hx]); [..|by apply not_elem_of_nil in Hx].
  - rewrite Ho, Hc, Hcomp, Hr. by rewrite Nat.eqb_refl.
Qed.

Lemma state_for_invariants p s :
  phase_wf pl p → p ≠ Absent → state_for pl p s → timely s →
  _validate_execution_state_invariants s n = Ok tt.
Proof.
  intros Hw Hp Hfor Ht. pose proof (state_for_shape _ _ Hw Hp Hfor Ht) as Hshape.
  destruct Ht as [(u & Hu & Hf) _]. apply Forall_singleton in Hf as (t & Hstart & Hle).
  destruct Hfor as (_ & _ & _ & _ & _ & _ & Hn & _ & _ & Hlen & _ & Hcomp & _).
  unfold _validate_execution_state_invariants, _execution_timestamp. rewrite Hstart, Hu. simpl.
  destruct (Z.ltb_spec u t); [lia|]. rewrite Hlen, Hn, Nat.eqb_refl, Hshape.
  assert (applied_count n p ≤ n) as Hb by (destruct p; simpl in *; lia).
  destruct (Nat.ltb_spec n (applied_count n p)); [lia|].
  destruct (as_completed_at s) as [c|] eqn:Hc; [|done].
  assert (c = as_updated_at s) as -> by (destruct p; simpl in *; congruence).
  rewrite Hu. simpl. by rewrite Z.ltb_irrefl.
Qed.

(** C31: Every execution row that a history of managed calls on time leaves behind passes
    the status service's consistency checks - progress against receipts, ownership,
    recovery code and completion for its state, and the order of its times. *)
Theorem on_time_rows_pass_status db db' s :
  no_rows st pl db → rtc (on_time_step st pl) db db' → found_execution st db' app s →
  _validate_execution_state_invariants s n = Ok tt.
Proof.
  intros Hno Hs Hf. pose proof (no_rows_absent _ _ _ Hno) as Hr.
  destruct (on_time_history db db' Absent) as (p & Hr' & Ht); try done.
  { intros s' (r & Hrow & _). destruct Hno as [He _]. congruence. }
  pose proof Hr' as (Hw & He & _). destruct (found_execution_for _ _ _ _ _ He Hf) as [Hp Hfor].
  by apply (state_for_invariants p); try done; apply Ht.
Qed.

(** ** Writes as transitions of the state module *)
Lemma row_write_transition s w :
  row_write s w → same_binding s w → as_state w ≠ Applied → as_completed_at s = None →
  length (as_operation_receipt_refs s) = as_next_operation_index s →
  validate_application_transition s w = Ok tt.
Proof.
  intros Hw (Happ & Hv & Han) Hna Hcomp Hlen.
  destruct Hw as [c owner id now d e Ho Hid Hst Hown Hcur _|c rid now d e Hst _|c target code now d e Hst Ht|
    c now d e Hst _]; [..|done]; simpl in *.
  - apply owner_wf_nonempty in Ho. unfold validate_application_transition. simpl.
    rewrite Hown, Hcur, Hcomp, Hlen, Nat.eqb_refl, Z.sub_diag.
    rewrite !(bool_decide_eq_true_2 (_ = _)) by done.
    rewrite (bool_decide_eq_false_2 (owner = "")), (bool_decide_eq_false_2 (id = "")) by done.
    by destruct Hst as [-> | ->]; rewrite (bool_decide_eq_true_2 (as_operation_receipt_refs s = _)).
  - unfold validate_application_transition. simpl. rewrite Hst, Hcomp, length_app, Hlen, Nat.eqb_refl. simpl.
    rewrite Nat.eqb_refl, !(bool_decide_eq_true_2 (_ = _)) by done.
    replace (Z.of_nat (as_next_operation_index s + 1) - Z.of_nat (as_next_operation_index s))%Z with 1%Z by lia.
    rewrite Nat.add_sub. rewrite <- Hlen, take_app_length.
    by rewrite (bool_decide_eq_true_2 (as_operation_receipt_refs s = _)).
  - unfold validate_application_transition. simpl.
    rewrite Hst, Hcomp, Hlen, Nat.eqb_refl, Z.sub_diag, !(bool_decide_eq_true_2 (_ = _)) by done.
    rewrite (bool_decide_eq_true_2 (target ∈ [Failed; Blocked; OutcomeUnknown])) by done.
    rewrite !(bool_decide_eq_true_2 (as_operation_receipt_refs s = _)),
      (bool_decide_eq_true_2 (as_current_attempt_id s = _)) by done.
    repeat (apply elem_of_cons in Ht as [->|Ht]); [done..|by apply not_elem_of_nil in Ht].
Qed.

(** Every write of a managed call other than the finalization is a transition the
    state module's table and guards allow: the binding and the starting time stay, the
    receipts grow by the completed one only, and ownership follows the state. *)
Theorem managed_writes_are_transitions db db' p s s' :
  represents st pl db p → managed_step st pl db db' →
  found_execution st db app s → found_execution st db' app s' → s' ≠ s → as_state s' ≠ Applied →
  validate_application_transition s s' = Ok tt.
Proof.
  intros Hr Hs Hf Hf' Hne Hst.
  destruct (managed_step_write _ _ Hdistinct _ _ _ _ _ Hr Hs Hf Hf') as [->|(w & Hw & Hi & Hb & ->)]; [done|].
  pose proof Hr as (Hpw & He & _). destruct (found_execution_for _ _ _ _ _ He Hf) as [Hp Hfor].
  destruct Hfor as (_ & _ & _ & _ & _ & Hstate & Hn & _ & _ & Hlen & _ & Hcomp & _).
  assert (validate_application_transition s w = Ok tt) as Hv; [|exact Hv].
  apply row_write_transition; try done; [|by rewrite Hn].
  destruct p; try done. exfalso. destruct Hw as [? ? ? ? ? ? ? ? [?|?]|? ? ? ? ? ?|? ? ? ? ? ? ?|? ? ? ? ?];
    simpl in Hstate; congruence.
Qed.
End status.

Section backdated.
Context `{PyLib}.
Variable st : SQLiteExecutionStore.
Variable pl : plan.
Notation app := (pl_app pl).

(** C32: The time of a settlement is not checked: a claim settled with a time before the
    application's start is committed, and the row it leaves then fails the status
    service's consistency checks, whatever the number of operations. *)
Theorem settle_backdated_breaks_status cap valid c sd id ad owner target code now db db' s t t0 m :
  context_wf c → plan_of c = pl →
  settle_operation st cap valid app sd id ad owner c target code now db = Ok (s, db') →
  parse_time now = Some t → parse_time (as_started_at s) = Some t0 → (t < t0)%Z →
  application_execution db' !! app_key st app = Some (Doc (execution_state_doc s)) ∧
  _validate_execution_state_invariants s m = Err (ValueError "state_integrity_invalid").
Proof.
  intros Hc <- E Ht Ht0 Hlt.
  apply settle_Ok in E as (_ & previous & a & d & _ & _ & _ & _ & _ & _ & -> & _ & a' & _ & ->); [|done].
  split; [apply execution_put_same|]. simpl in Ht0.
  unfold _validate_execution_state_invariants, _execution_timestamp. simpl. rewrite Ht0, Ht. simpl.
  by destruct (Z.ltb_spec t t0); [|lia].
Qed.
End backdated.
