(* ===== verification/Deployment.v ===== *)
(** * Deployed appliers of one application refine the abstract machine

    [deployment_step] is a step of a system whose processes all apply one plan over one
    store: contexts answer the plan, and other programs may write the tables but not the
    rows of the application.  Every reachable system holds rows of a phase the abstract
    machine reaches, what was dispatched is bounded by that phase, and an application stored as
    applied has every attempt and receipt. *)
From S2P Require Import Prelude PyValue Strings Canonical WriteOperations Identity Receipts ExecutionState.
From S2P Require Import Clock Context ExecutionStore ManagedStore ManagedSpec ManagedFacts Refinement.
From S2P Require Import Progress WriteContract GithubWrite Applier Interleaving.

#[local] Opaque digest digest_hex identity_from_dict anchor_from_dict provenance_from_dict
  execution_state_check attempt_check operation_receipt_check operation_identity request_identity
  execution_state_with_digest attempt_with_digest operation_receipt_with_digest _remote_result
  validate_execution_context normalize_operation operation_receipt_id_of.

(** ** Receipts the applier builds are well formed *)
Section receipts.
Context `{PyLib}.

Lemma evidence_json e : json_value (evidence_dict e) = true.
Proof.
  unfold evidence_dict, dict_of. simpl. apply forallb_true. intros x Hx.
  apply list_elem_of_In, in_map_iff in Hx as [p [<- Hp]]. apply in_map_iff in Hp as [q [<- _]].
  simpl. by destruct (snd q).
Qed.

(** A successful observation of the driver reports evidence. *)
Lemma driver_success_evidence kind cmd r o :
  driver_dispatch kind cmd r = Ok o → ob_kind o = DEFINITIVE_SUCCESS → ∃ e, o = success e.
Proof.
  assert (∀ e o, failed_post e = Ok o → ob_kind o ≠ DEFINITIVE_SUCCESS) as Hfailed.
  { intros e o0. unfold failed_post. destruct e; try (by intros [= <-]). by destruct (bool_decide _); intros [= <-]. }
  assert (∀ res, ob_kind (_classify_non_success res) ≠ DEFINITIVE_SUCCESS) as Hclass.
  { intros res. unfold _classify_non_success. destruct (existsb _ _); [done|]. destruct (_ =? _)%Z; [done|]. by destruct (existsb _ _). }
  intros E Hk. unfold driver_dispatch in E. destruct cmd as [c|c].
  - destruct (bool_decide (kind = "create_issue")); [|done]. unfold _create_issue_dispatch, _create_result in E. inv_ok.
    match type of E with match ?x with _ => _ end = _ => destruct x as [res|e0] end; [|by apply Hfailed in E].
    destruct (negb (status res =? 201)%Z); [injection E as <-; by apply Hclass in Hk|].
    destruct (_json_object res) as [[value|]|]; [|by injection E as <-|discriminate].
    destruct (bounded_int (get value "id")); [|by injection E as <-].
    destruct (bounded_int (get value "number")); [|by injection E as <-].
    destruct (bounded_node_id (get value "node_id")); injection E as <-; [by eexists|done].
  - assert (∀ n t p b ev o, _dispatch_relationship n t p b ev = Ok o → ob_kind o = DEFINITIVE_SUCCESS →
              ∃ e, o = success e) as Hrel.
    { clear E Hk. intros n t p b ev o0 E0 Hk0. unfold _dispatch_relationship in E0. inv_ok.
      match type of E0 with match ?x with _ => _ end = _ => destruct x as [res|e0] end; [|by apply Hfailed in E0].
      unfold _normalize_response in *. destruct (status res =? 201)%Z; [|injection E0 as <-; by apply Hclass in Hk0].
      destruct (_json_object res) as [[v|]|]; [|by injection E0 as <-|discriminate]. injection E0 as <-. by eexists. }
    destruct (bool_decide (kind = "add_sub_issue")); [unfold _sub_issue_dispatch in E; inv_ok; by eapply Hrel|].
    destruct (bool_decide (kind = "add_dependency")); [unfold _dependency_dispatch in E; inv_ok; by eapply Hrel|done].
Qed.

Lemma trusted_payload repository kind o v :
  _trusted_success_result repository kind o = Ok v → get v "result_payload" = ob_result_payload o.
Proof. unfold _trusted_success_result. intros E. inv_ok; done. Qed.

Lemma new_receipt_wf svc v1 v2 c index remote t1 t2 r :
  context_wf c → json_value (get remote "result_payload") = true →
  new_receipt svc v1 v2 c index remote t1 t2 = Ok r → operation_receipt_wf r.
Proof.
  intros Hc Hj E. unfold new_receipt in E. inv_ok.
  match type of E with match ?x with _ => _ end = _ => destruct x as [op|]; [|discriminate E] end. inv_ok.
  match goal with D : operation_receipt_create _ _ _ _ _ _ _ _ = Ok _ |- _ => rename D into E end.
  unfold operation_receipt_create in E. inv_ok.
  match goal with D : normalize_operation _ = Ok _ |- _ => apply normalize_operation_wf in D end.
  match goal with D : _remote_result _ = Ok _ |- _ => apply _remote_result_wf in D; [|exact Hj] end.
  match goal with D : provenance_from_live_authority _ = Ok _ |- _ =>
    unfold provenance_from_live_authority in D; inv_ok end.
  match goal with D : provenance_from_source _ = Ok _ |- _ => apply provenance_from_source_wf in D end.
  match goal with D : operation_receipt_check _ = Ok _ |- _ =>
    pose proof (operation_receipt_check_facts _ _ D) as [-> _] end.
  destruct (operation_receipt_with_digest_Ok _ _ E) as ([d Hd] & Hck & _).
  destruct Hc as (Hi & _ & _ & _ & Happ & _).
  split; [by apply receipt_register_check|]. rewrite Hd. simpl. by split_and!.
Qed.
End receipts.

(** ** Programs that serve one plan *)
Section honest.
Context `{PyLib}.
Variable pl : plan.

(** The writing calls a process of the plan may make *)
Definition allowed {A : Type} (x : call A) : Prop :=
  match x with
  | call_create c init => serves pl c ∧ ∃ svc ans now, initial_state c svc ans now = Ok init
  | call_claim app _ c _ _ | call_settle app _ _ _ _ c _ _ _ | call_finalize app _ c _ =>
      serves pl c ∧ app = pl_app pl
  | call_complete app _ _ _ _ c receipt _ => serves pl c ∧ app = pl_app pl ∧ operation_receipt_wf receipt
  | _ => True
  end.

(** The service answers a request for a context with one of the plan. *)
Definition plan_answer {B : Type} (e : event B) : B → Prop :=
  match e in event B return B → Prop with
  | CreateContext _ => λ r, ∀ c, r = Ok c → serves pl c
  | _ => λ _, True
  end.

(** [honest p Q]: whatever the answers, the calls of [p] are allowed and [Q] holds at the end. *)
Fixpoint honest {A : Type} (p : prog A) (Q : result A → Prop) : Prop :=
  match p with
  | Ret r => Q r
  | Vis e k =>
      match e with Call x => allowed x | _ => True end ∧ ∀ b, plan_answer e b → honest (k b) Q
  end.

Lemma honest_mono {A : Type} (p : prog A) (Q Q' : result A → Prop) :
  honest p Q → (∀ r, Q r → Q' r) → honest p Q'.
Proof.
  intros Hp HQ. induction p as [r|B e k IH]; simpl; [by apply HQ|].
  destruct Hp as [Ha Hk]. split; [done|]. intros b Hb. by apply IH, Hk.
Qed.

Lemma honest_try_bind {A B : Type} (p : prog A) (f : result A → prog B) (Q : result B → Prop) :
  honest p (λ r, honest (f r) Q) → honest (try_bind p f) Q.
Proof.
  induction p as [r|C e k IH]; simpl; [done|]. intros [Ha Hk]. split; [done|]. intros b Hb. by apply IH, Hk.
Qed.

Lemma honest_bind {A B : Type} (p : prog A) (f : A → prog B) (Q : result B → Prop) :
  honest p (λ r, match r with Ok a => honest (f a) Q | Err e => Q (Err e) end) → honest (bind p f) Q.
Proof. intros Hp. apply honest_try_bind. eapply honest_mono; [exact Hp|]. by intros []. Qed.

Lemma honest_vis {A B : Type} (e : event B) (k : B → prog A) (Q : result A → Prop) :
  match e with Call x => allowed x | _ => True end → (∀ b, plan_answer e b → honest (k b) Q) →
  honest (Vis e k) Q.
Proof. by split. Qed.

Lemma honest_ret {A : Type} (r : result A) (Q : result A → Prop) : Q r → honest (Ret r) Q.
Proof. done. Qed.

(** Programs whose calls are all allowed *)
Definition lawful {A : Type} (p : prog A) : Prop := honest p (λ _, True).

Lemma lawful_ret {A : Type} (r : result A) : lawful (Ret r).
Proof. exact I. Qed.
Lemma lawful_try_bind {A B : Type} (p : prog A) (f : result A → prog B) :
  lawful p → (∀ r, lawful (f r)) → lawful (try_bind p f).
Proof. intros Hp Hf. apply honest_try_bind. eapply honest_mono; [exact Hp|]. intros r _. apply Hf. Qed.
Lemma lawful_bind {A B : Type} (p : prog A) (f : A → prog B) :
  lawful p → (∀ a, lawful (f a)) → lawful (bind p f).
Proof. intros Hp Hf. apply lawful_try_bind; [done|]. intros []; [apply Hf|apply lawful_ret]. Qed.
Lemma lawful_vis {A B : Type} (e : event B) (k : B → prog A) :
  match e with Call x => allowed x | _ => True end → (∀ b, lawful (k b)) → lawful (Vis e k).
Proof. intros He Hk. split; [done|]. intros b _. apply Hk. Qed.
Lemma lawful_honest {A : Type} (p : prog A) : lawful p ↔ honest p (λ _, True).
Proof. done. Qed.
Lemma lawful_after {A B : Type} (p : prog A) (f : result A → prog B) (Q : result A → Prop) :
  honest p Q → (∀ r, Q r → lawful (f r)) → lawful (try_bind p f).
Proof. intros Hp Hf. apply honest_try_bind. eapply honest_mono; [exact Hp|]. exact Hf. Qed.
Lemma lawful_lift {A B : Type} (x : result A) (f : A → prog B) :
  (∀ a, x = Ok a → lawful (f a)) → lawful (bind (lift x) f).
Proof. intros Hf. destruct x; [by apply Hf|exact I]. Qed.
Lemma lawful_ask {A B : Type} (e : event B) (k : B → prog A) :
  match e with Call x => allowed x | _ => True end → (∀ b, plan_answer e b → lawful (k b)) → lawful (Vis e k).
Proof. by split. Qed.
End honest.
#[local] Opaque lawful.

(** Decompose a program; the writing calls remain as goals. *)
Ltac lawful :=
  repeat first
    [ apply lawful_ret
    | apply lawful_try_bind; [|intros ?]
    | apply lawful_bind; [|intros ?]
    | apply lawful_vis; [first [exact I | idtac]|intros ?]
    | match goal with |- lawful _ (match ?x with _ => _ end) => destruct x end
    | match goal with |- lawful _ (if ?b then _ else _) => destruct b end ].

Section apply.
Context `{PyLib}.
Variable pl : plan.
Variable svc : RuntimeService.
Variable st : SQLiteExecutionStore.
Variable c : Context.
Hypothesis Hserves : serves pl c.
Notation lawful := (lawful pl).
Notation honest := (honest pl).

Lemma serves_app : ctx_application_id c = pl_app pl.
Proof. destruct Hserves as [<- _]. reflexivity. Qed.

Lemma lawful_reference ref : lawful (_reference_from_receipt c ref).
Proof. unfold _reference_from_receipt, lift, trigger. lawful. Qed.

Lemma lawful_references_v1 refs : lawful (references_v1 c refs).
Proof.
  induction refs as [|r refs IH]; [apply lawful_ret|].
  apply lawful_bind; [apply lawful_reference|]. intros x. apply lawful_bind; [exact IH|]. intros xs. apply lawful_ret.
Qed.

Lemma lawful_references_v2 refs : lawful (references_v2 c refs).
Proof.
  induction refs as [|[r|r] refs IH]; [apply lawful_ret|..]; cbn [references_v2].
  - apply lawful_bind; [apply lawful_reference|]. intros x. apply lawful_bind; [exact IH|]. intros xs. apply lawful_ret.
  - apply lawful_bind; [apply lawful_ret|]. intros x. apply lawful_bind; [exact IH|]. intros xs. apply lawful_ret.
Qed.

Lemma lawful_revalidate_all refs kind rs : lawful (revalidate_all refs kind rs).
Proof. induction refs; simpl; unfold revalidate_existing_endpoint; lawful; apply IHrefs. Qed.

Lemma lawful_materialize a : lawful (_materialize c a).
Proof.
  unfold _materialize, lift.
  lawful; auto using lawful_references_v1, lawful_references_v2, lawful_revalidate_all.
Qed.

Lemma lawful_require_current : lawful (require_current svc c).
Proof. unfold require_current. lawful. Qed.

Lemma lawful_settle_call s a owner target code : lawful (settle_call c s a owner target code).
Proof. unfold settle_call, now, trigger. lawful. simpl. split; [done|apply serves_app]. Qed.

Lemma lawful_unless s app e : lawful (unless_authority_invalid s app e).
Proof. unfold unless_authority_invalid, recovery_required. lawful. Qed.

Lemma lawful_claim_lost s e : lawful (claim_lost c s e).
Proof. unfold claim_lost, trigger, recovery_required. lawful. Qed.

#[local] Opaque settle_call unless_authority_invalid claim_lost.

(** The outcome of a driver's observation is recorded with a well-formed receipt. *)
Lemma lawful_record_outcome s a owner o :
  (ob_kind o = DEFINITIVE_SUCCESS → json_value (ob_result_payload o) = true) →
  lawful (record_outcome svc c s a owner o).
Proof.
  intros Ho. unfold record_outcome. destruct (ob_kind o).
  2,3: lawful; auto using lawful_unless, lawful_settle_call.
  apply lawful_try_bind; [|intros r; lawful; auto using lawful_unless].
  unfold now, trigger. apply lawful_lift. intros remote Ht. apply trusted_payload in Ht.
  apply lawful_bind; [lawful|]. intros t. apply lawful_vis; [exact I|]. intros v1. apply lawful_vis; [exact I|].
  intros v2. apply lawful_lift. intros receipt Hr. apply lawful_bind; [lawful|]. intros t2. lawful.
  simpl. split; [done|]. split; [apply serves_app|].
  eapply new_receipt_wf; [apply Hserves| |exact Hr]. rewrite Ht. by apply Ho.
Qed.

Lemma honest_dispatch a cmd :
  honest (dispatch st c a cmd) (λ r, ∀ o, r = Ok o → ob_kind o = DEFINITIVE_SUCCESS →
                                     json_value (ob_result_payload o) = true).
Proof.
  unfold dispatch. destruct (negb _); [done|]. apply honest_bind, honest_vis; [done|]. intros [[]|e] _; [|done].
  apply honest_vis; [done|]. intros r _ o Ho Hk.
  destruct (driver_success_evidence _ _ _ _ Ho Hk) as [ev ->]. apply evidence_json.
Qed.

Lemma lawful_execute_claim s a owner : lawful (execute_claim svc st c s a owner).
Proof.
  unfold execute_claim, trigger. apply lawful_try_bind.
  { lawful. apply lawful_materialize. }
  intros [cmd|e]; [|lawful; auto using lawful_settle_call].
  apply lawful_try_bind; [apply lawful_require_current|]. intros [[]|e]; [|lawful; auto using lawful_unless].
  eapply lawful_after; [apply honest_dispatch|]. intros [o|e] Ho.
  - apply lawful_try_bind; [apply lawful_require_current|]. intros [[]|e]; [|lawful; auto using lawful_unless].
    apply lawful_record_outcome. by apply Ho.
  - lawful; auto using lawful_settle_call.
Qed.

#[local] Opaque execute_claim.

Lemma lawful_apply_loop fuel s : lawful (apply_loop svc st fuel c s).
Proof.
  revert s. induction fuel as [|fuel IH]; intros s; cbn [apply_loop]; destruct (_ <=? _); unfold now, trigger, receipt_id.
  1,3: lawful; simpl; (split; [done|apply serves_app]).
  - lawful.
  - lawful; auto using lawful_claim_lost, lawful_execute_claim. split; [done|apply serves_app].
Qed.
End apply.

Lemma lawful_apply `{PyLib} pl svc st authority_id : lawful pl (_apply svc st authority_id).
Proof.
  unfold _apply. eapply lawful_after.
  { apply honest_vis; [exact I|]. intros r Hr. apply honest_ret. exact Hr. }
  intros [c|e] Hr; [|apply lawful_ret]. assert (serves pl c) as Hc by by apply Hr.
  change (lawful pl (do! t <- now ; Vis AskAuthority (λ answer,
    do! init <- lift (initial_state c svc answer t) ;
    do! s <- Vis (Call (call_create c init)) (λ b, Ret b) ;
    if bool_decide (as_state s = Applied) then
      do! s' <- Vis (Call (call_get_execution (ctx_application_id c) (_expected_operations c))) (λ b, Ret b) ;
      do! rid <- receipt_id (ctx_application_id c) ;
      Ret (Ok (Applied_result (ctx_application_id c) (as_state s') (as_next_operation_index s') (Some rid) None))
    else if bool_decide (as_state s = Applying) then recovery_required s (ctx_application_id c)
    else if bool_decide (as_state s ∈ [Failed; Blocked; OutcomeUnknown]) then
      Ret (Ok (result_for s (ctx_application_id c) (as_recovery_code s)))
    else apply_loop svc st (S (length (_expected_operations c))) c s))).
  unfold now, trigger. apply lawful_bind; [lawful|]. intros t. apply lawful_vis; [exact I|]. intros answer.
  apply lawful_lift. intros init Hi. apply lawful_bind; [lawful|intros s].
  { simpl. split; [done|]. by eexists _, _, _. }
  unfold recovery_required, receipt_id, trigger. lawful; auto using lawful_apply_loop.
Qed.

(** ** Rows of one application in the tables of several *)
Section rows.
Context `{PyLib}.
Variable st : SQLiteExecutionStore.
Variable pl : plan.

(** The tables agree on the application's rows. *)
Definition same_rows (db db' : Db) : Prop :=
  let app := pl_app pl in
  application_execution db' !! app_key st app = application_execution db !! app_key st app ∧
  application_receipts db' !! app_key st app = application_receipts db !! app_key st app ∧
  ∀ id, operation_attempts db' !! op_key st app id = operation_attempts db !! op_key st app id ∧
        operation_receipts db' !! op_key st app id = operation_receipts db !! op_key st app id.

Lemma same_rows_refl db : same_rows db db.
Proof. done. Qed.

Lemma represents_same_rows db db' p : same_rows db db' → represents st pl db p → represents st pl db' p.
Proof.
  intros (He & Hf & Hops) (Hw & HE & HA & HR & HF). split_and!.
  - done.
  - unfold represents_execution. by rewrite He.
  - intros i id Hid. specialize (HA i id Hid). destruct (Hops id) as [-> _]. exact HA.
  - intros i id Hid. specialize (HR i id Hid). destruct (Hops id) as [_ ->]. exact HR.
  - unfold represents_finish. by rewrite Hf.
Qed.

(** Rows depend on the store's workspace only. *)
Lemma represents_workspace st' db p :
  workspace st' = workspace st → represents st' pl db p ↔ represents st pl db p.
Proof.
  intros Hw. unfold represents, represents_execution, represents_attempts, represents_receipts,
    represents_finish, app_key, op_key. by rewrite Hw.
Qed.

Lemma create_writes svc ans cap valid c now init db s db' :
  initial_state c svc ans now = Ok init → create_execution_if_absent st cap valid c init db = Ok (s, db') →
  db' = db ∨ ∃ r, db' = put_execution (app_key st (ctx_application_id c)) r db.
Proof.
  intros Hi E. unfold initial_state, new_execution_state in Hi. inv_ok.
  match goal with D : execution_state_check _ = Ok _ |- _ => apply execution_state_check_Ok in D as -> end.
  unfold create_execution_if_absent in E. inv_ok.
  match goal with D : execution_state_with_digest _ = Ok ?x |- _ =>
    apply execution_state_with_digest_Ok in D as ([d Hd] & _); rename x into cand end.
  assert (as_application_id cand = ctx_application_id c) as Happ by by rewrite Hd. rewrite Happ in E.
  destruct (application_execution db !! _); inv_ok; [by left|]. right. by eexists.
Qed.
End rows.

Section isolation.
Context `{PyLib}.
Variable st st' : SQLiteExecutionStore.
Variable pl : plan.
Variable app' : string.
Hypothesis Hother : (workspace st', app') ≠ (workspace st, pl_app pl).

Lemma app_key_other : app_key st' app' ≠ app_key st (pl_app pl).
Proof. exact Hother. Qed.
Lemma op_key_other id id' : op_key st' app' id ≠ op_key st (pl_app pl) id'.
Proof. unfold op_key. intros E. apply Hother. by injection E as -> -> _. Qed.

Lemma same_rows_put_execution r db db' :
  same_rows st pl db db' → same_rows st pl db (put_execution (app_key st' app') r db').
Proof.
  intros (He & Hrest). split; [|exact Hrest]. simpl. rewrite lookup_insert_ne by apply app_key_other. exact He.
Qed.
Lemma same_rows_put_attempt id r db db' :
  same_rows st pl db db' → same_rows st pl db (put_attempt (op_key st' app' id) r db').
Proof.
  intros (He & Hf & Hops). split; [exact He|]. split; [exact Hf|]. intros id'. destruct (Hops id') as [Ha Hr].
  split; [|exact Hr]. simpl. rewrite lookup_insert_ne by apply op_key_other. exact Ha.
Qed.
Lemma same_rows_put_operation_receipt id r db db' :
  same_rows st pl db db' → same_rows st pl db (put_operation_receipt (op_key st' app' id) r db').
Proof.
  intros (He & Hf & Hops). split; [exact He|]. split; [exact Hf|]. intros id'. destruct (Hops id') as [Ha Hr].
  split; [exact Ha|]. simpl. rewrite lookup_insert_ne by apply op_key_other. exact Hr.
Qed.
Lemma same_rows_put_application_receipt r db db' :
  same_rows st pl db db' → same_rows st pl db (put_application_receipt (app_key st' app') r db').
Proof.
  intros (He & Hf & Hops). split; [exact He|]. split; [|exact Hops]. simpl.
  rewrite lookup_insert_ne by apply app_key_other. exact Hf.
Qed.

End isolation.
Create HintDb rows.
#[export] Hint Resolve same_rows_refl same_rows_put_execution same_rows_put_attempt same_rows_put_operation_receipt
  same_rows_put_application_receipt : rows.

(** A managed call of another application, or workspace, leaves the rows alone. *)
Lemma managed_step_same_rows `{PyLib} st st' pl pl' db db' :
  (workspace st', pl_app pl') ≠ (workspace st, pl_app pl) → managed_step st' pl' db db' → same_rows st pl db db'.
Proof.
  intros Hother Hs. destruct Hs as [? ? c ? ? ? ? s [Hpl Hc] Hi E|? ? c ? owner ? s a [Hpl Hc] E
    |? ? c ? ? ? owner ? ? s [Hpl Hc] Hwf E|? ? c ? ? ? owner target ? ? s [Hpl Hc] E|? ? c ? ? s [Hpl Hc] E].
  - assert (ctx_application_id c = pl_app pl') as Happ by (rewrite <- Hpl; reflexivity).
    destruct (create_writes _ _ _ _ _ _ _ _ _ _ _ Hi E) as [->|[r ->]]; [apply same_rows_refl|].
    rewrite Happ. eauto with rows.
  - apply claim_Ok in E as (_ & _ & ? & ? & ? & ? & ? & ? & _ & _ & _ & _ & _ & _ & _ & _ & _ & _ & _ & _ & _ & _ & _
      & _ & ->); [|done].
    eauto with rows.
  - apply complete_Ok in E as (? & ? & ? & _ & _ & _ & _ & _ & _ & _ & _ & _ & _ & _ & _ & _ & _ & ? & ? & _ & _ & ->);
      [|done].
    eauto 6 with rows.
  - apply settle_Ok in E as (_ & ? & ? & ? & _ & _ & _ & _ & _ & _ & _ & _ & ? & _ & ->); [|done].
    eauto with rows.
  - apply finalize_Ok in E as (? & ? & ? & _ & _ & _ & _ & _ & _ & _ & _ & _ & _ & _ & _ & _ & _ & ? & ? & ? & _ & ->);
      [|done].
    eauto with rows.
Qed.

(** An allowed call that commits is a managed step, or a read. *)
Lemma allowed_commit `{PyLib} {A} pl st cap valid (x : call A) db b db' :
  allowed pl x → run_call st cap valid x db = Ok (b, db') → db' = db ∨ managed_step st pl db db'.
Proof.
  intros Hx E. destruct x; cbn [run_call allowed] in *; try (unfold reading in E; inv_ok; by left); right.
  - destruct Hx as (Hc & svc & ans & now & Hi). by eapply managed_create.
  - destruct Hx as [Hc ->]. destruct b as [s a]. by eapply managed_claim.
  - destruct Hx as (Hc & -> & Hr). by eapply managed_complete.
  - destruct Hx as [Hc ->]. by eapply managed_settle.
  - destruct Hx as [Hc ->]. by eapply managed_finalize.
Qed.

(** ** Systems of appliers, each with its store and plan *)
Section system.
Context `{PyLib}.

(** The store and the plan of the process that runs under each number *)
Variable deploy : nat → SQLiteExecutionStore * plan.
(** The application observed *)
Variable st : SQLiteExecutionStore.
Variable pl : plan.
Notation n := (pl_count pl).
Notation app := (pl_app pl).

Inductive deployment_step : system → system → Prop :=
| dep_start db log procs i svc cap authority_id :
    procs !! i = None →
    deployment_step (System db log procs)
      (System db log (<[i := Process (fst (deploy i)) cap (_apply svc (fst (deploy i)) authority_id)]> procs))
| dep_die db log procs i : deployment_step (System db log procs) (System db log (delete i procs))
| dep_answer db log procs i P B (e : event B) k b :
    procs !! i = Some P → pr_program P = Vis e k → external e = true → plan_answer (snd (deploy i)) e b →
    deployment_step (System db log procs) (System db log (resume i P (k b) procs))
| dep_commit db db' log procs i P B (x : call B) k valid b :
    procs !! i = Some P → pr_program P = Vis (Call x) k →
    run_call (pr_store P) (pr_capability P) valid x db = Ok (b, db') →
    deployment_step (System db log procs) (System db' log (resume i P (k (Ok b)) procs))
| dep_raise db log procs i P B (x : call B) k e :
    procs !! i = Some P → pr_program P = Vis (Call x) k →
    deployment_step (System db log procs) (System db log (resume i P (k (Err e)) procs))
| dep_dispatch db log procs i P key kind cmd k r :
    procs !! i = Some P → pr_program P = Vis (Dispatch key kind cmd) k →
    deployment_step (System db log procs) (System db (log ++ [key]) (resume i P (k r) procs))
| dep_other db db' log procs :
    attempt_keys db ⊆ attempt_keys db' → same_rows st pl db db' →
    deployment_step (System db log procs) (System db' log procs).

Lemma deployment_system y y' : deployment_step y y' → system_step y y'.
Proof.
  intros []; [by apply sys_start|apply sys_die|by eapply sys_answer|by eapply sys_commit|by eapply sys_locked|
    by eapply sys_dispatch|by apply sys_other].
Qed.

(** Processes of the same workspace and application serve the same plan. *)
Definition coherent : Prop := ∀ i,
  workspace (fst (deploy i)) = workspace st → pl_app (snd (deploy i)) = app → snd (deploy i) = pl.

Definition processes_lawful (y : system) : Prop := ∀ i P,
  running y !! i = Some P → pr_store P = fst (deploy i) ∧ lawful (snd (deploy i)) (pr_program P).

Lemma processes_lawful_resume y i P p db log :
  processes_lawful y → running y !! i = Some P → lawful (snd (deploy i)) p →
  processes_lawful (System db log (resume i P p (running y))).
Proof.
  intros Hy HP Hp j Q. unfold resume. simpl. destruct (decide (i = j)) as [<-|Hij].
  - rewrite lookup_insert_eq. intros [= <-]. simpl. split; [by apply (Hy i)|done].
  - rewrite lookup_insert_ne by done. apply Hy.
Qed.

Lemma process_next y i P B (e : event B) k b :
  processes_lawful y → running y !! i = Some P → pr_program P = Vis e k → plan_answer (snd (deploy i)) e b →
  pr_store P = fst (deploy i) ∧ match e with Call x => allowed (snd (deploy i)) x | _ => True end ∧
  lawful (snd (deploy i)) (k b).
Proof.
  intros Hy HP Hp Hb. destruct (Hy i P HP) as [Hst Hl]. rewrite Hp in Hl. apply lawful_honest in Hl.
  destruct Hl as [Ha Hk]. split_and!; [done..|]. apply lawful_honest. by apply Hk.
Qed.

Lemma processes_lawful_step y y' : processes_lawful y → deployment_step y y' → processes_lawful y'.
Proof.
  intros Hy Hs. destruct Hs as [db log procs i svc cap aid Hi|db log procs i|db log procs i P B e k b HP Hp He Hb
    |db db' log procs i P B x k valid b HP Hp Hrun|db log procs i P B x k e HP Hp
    |db log procs i P key kind cmd k r HP Hp|db db' log procs _ _]; [| | | | | |exact Hy].
  - intros j Q. simpl. destruct (decide (i = j)) as [<-|Hij].
    + rewrite lookup_insert_eq. intros [= <-]. split; [done|apply lawful_apply].
    + rewrite lookup_insert_ne by done. apply Hy.
  - intros j Q. simpl. intros [_ HQ]%lookup_delete_Some. by apply Hy.
  - destruct (process_next _ _ _ _ _ _ b Hy HP Hp) as (_ & _ & Hk); [done|]. exact (processes_lawful_resume _ _ _ _ _ _ Hy HP Hk).
  - destruct (process_next _ _ _ _ _ _ (Ok b) Hy HP Hp) as (_ & _ & Hk); [done|]. exact (processes_lawful_resume _ _ _ _ _ _ Hy HP Hk).
  - destruct (process_next _ _ _ _ _ _ (Err e) Hy HP Hp) as (_ & _ & Hk); [done|]. exact (processes_lawful_resume _ _ _ _ _ _ Hy HP Hk).
  - destruct (process_next _ _ _ _ _ _ r Hy HP Hp) as (_ & _ & Hk); [done|]. exact (processes_lawful_resume _ _ _ _ _ _ Hy HP Hk).
Qed.

Hypothesis Hdistinct : distinct_ids pl.
Hypothesis Hcoherent : coherent.

(** The rows of the application hold a phase reached from [p0]. *)
Definition reached (p0 : phase) (y : system) : Prop :=
  processes_lawful y ∧ ∃ p, represents st pl (sy_db y) p ∧ rtc (phase_step n) p0 p.

Lemma committed_step db db' i p :
  represents st pl db p → managed_step (fst (deploy i)) (snd (deploy i)) db db' →
  ∃ p', represents st pl db' p' ∧ rtc (phase_step n) p p'.
Proof.
  intros Hr Hs.
  destruct (decide ((workspace (fst (deploy i)), pl_app (snd (deploy i))) = (workspace st, app))) as [E|Hne].
  - injection E as Hw Ha. pose proof (Hcoherent i Hw Ha) as Hpl. rewrite Hpl in Hs.
    apply (represents_workspace _ _ _ _ _ Hw) in Hr.
    destruct (managed_step_represents _ _ _ _ _ Hdistinct Hr Hs) as (p' & Hr' & Hp').
    exists p'. split; [by apply (represents_workspace _ _ _ _ _ Hw)|].
    destruct Hp' as [->|Hp']; [apply rtc_refl|by apply rtc_once].
  - exists p. split; [|apply rtc_refl]. eapply represents_same_rows; [|exact Hr]. by eapply managed_step_same_rows.
Qed.

Lemma reached_step p0 y y' : reached p0 y → deployment_step y y' → reached p0 y'.
Proof.
  intros (Hl & p & Hr & Hp) Hs. split; [by eapply processes_lawful_step|].
  destruct Hs as [| | |db db' log procs i P B x k valid b HP Hq Hrun| | |db db' log procs _ Hsame]; simpl in *; eauto.
  - destruct (process_next _ _ _ _ _ _ (Ok b) Hl HP Hq) as (Hst & Ha & _); [done|].
    rewrite Hst in Hrun. destruct (allowed_commit _ _ _ _ _ _ _ _ Ha Hrun) as [->|Hm]; [by eauto|].
    destruct (committed_step _ _ _ _ Hr Hm) as (p' & Hr' & Hp'). exists p'. split; [done|]. by etrans.
  - exists p. split; [by eapply represents_same_rows|done].
Qed.

Lemma reached_steps p0 y y' : reached p0 y → rtc deployment_step y y' → reached p0 y'.
Proof. intros Hy Hs. induction Hs; eauto using reached_step. Qed.

Lemma reached_start db p : represents st pl db p → reached p (System db [] ∅).
Proof.
  intros Hr. split; [|exists p; split; [done|apply rtc_refl]]. intros i P HP. simpl in HP.
  by rewrite lookup_empty in HP.
Qed.

(** C1: Deployed appliers implement the abstract machine: whatever processes apply the
    plan over the store, interleaved with each other, with appliers of other applications
    and with other writers, crashing, restarting, with any clock, authority, credential
    and network, the rows stay those of a phase the machine reaches from [Absent]; no
    attempt is dispatched twice; and an operation has been dispatched only if every
    operation before it is applied, with its receipt stored, and it is itself claimed,
    settled or applied. *)
Theorem deployment_sound db y :
  no_rows st pl db → rtc deployment_step (System db [] ∅) y →
  ∃ p, represents st pl (sy_db y) p ∧ rtc (phase_step n) Absent p ∧ NoDup (dispatched y) ∧
    ∀ i id, op_id_at pl i id → op_key st app id ∈ dispatched y →
      i < applied_count n p ∨ (∃ o, p = Claimed i o) ∨ ∃ x, p = Settled i x.
Proof.
  intros Hno Hs. pose proof (reached_start _ _ (no_rows_absent _ _ _ Hno)) as Hstart.
  destruct (reached_steps _ _ _ Hstart Hs) as (_ & p & Hr & Hp).
  assert (rtc system_step (System db [] ∅) y) as Hsys by exact (rtc_subrel _ _ _ _ deployment_system Hs).
  destruct (system_safe _ _ Hsys) as (perms & Hnd & Hkeys & _).
  exists p. split_and!; [done..|]. intros i id Hid Hin. apply Hkeys in Hin.
  unfold attempt_keys in Hin. apply elem_of_dom in Hin as [r Hrow].
  change (operation_attempts (sy_db y) !! op_key st app id = Some r) in Hrow.
  destruct Hr as (_ & _ & Ha & _). specialize (Ha i id Hid). rewrite Hrow in Ha.
  unfold attempt_phase in Ha. destruct (Nat.ltb_spec i (applied_count n p)); [by left|right].
  destruct (Nat.eqb_spec i (applied_count n p)) as [->|]; [|done].
  destruct p; try done; [left|right]; by eexists.
Qed.

(** C5: In every reachable system an application stored as applied is complete: starting
    without rows of the application, whatever appliers, crashes, restarts and other writers
    did, when its stored state is applied then at every operation of the plan there is an applied
    attempt and an intact receipt, the state lists exactly the receipts' identifiers in plan
    order, and the application receipt is stored. *)
Theorem applied_complete db y s :
  no_rows st pl db → rtc deployment_step (System db [] ∅) y →
  found_execution st (sy_db y) app s → as_state s = Applied → complete_rows st pl (sy_db y) s.
Proof.
  intros Hno Hs Hf Ha. pose proof (reached_start _ _ (no_rows_absent _ _ _ Hno)) as Hstart.
  destruct (reached_steps _ _ _ Hstart Hs) as (_ & p & Hr & _). by eapply applied_rows.
Qed.
End system.
