(* ===== verification/GenericFacts.v ===== *)
(** * The generic methods cannot touch a managed application

    Once an application's managed state is stored, no generic method changes its rows,
    whatever the service, context and artifact; and a recorded receipt is never replaced. *)
From S2P Require Import Prelude PyValue Strings Canonical WriteOperations Identity Receipts ExecutionState.
From S2P Require Import Clock Context ExecutionStore GenericStore ManagedStore ManagedSpec ManagedFacts.
From S2P Require Import Refinement Deployment.

#[local] Opaque digest digest_hex execution_state_from_doc attempt_from_doc operation_receipt_from_doc
  application_receipt_from_doc execution_state_doc attempt_doc operation_receipt_doc application_receipt_doc
  execution_state_check attempt_check operation_receipt_check application_receipt_check
  validate_execution_context validate_application_transition validate_attempt_transition
  execution_state_verify_integrity attempt_verify_integrity operation_receipt_verify_integrity.

Section generic.
Context `{PyLib}.
Variable st st' : SQLiteExecutionStore.
Variable contexts : nat → Context.

(** A stored managed state makes the guard of the generic methods fail. *)
Lemma durable_managed_rejects db app s :
  workspace st' = workspace st → found_execution st db app s → _reject_durable_managed st' db app ≠ Ok tt.
Proof.
  intros Hw (r & Hrow & Hload & Hv & Hm). unfold _reject_durable_managed, _durable_application_policy, app_key in *.
  rewrite Hw, Hrow, Hload. simpl. unfold intact_execution. rewrite Hv. simpl.
  unfold is_managed in Hm. apply bool_decide_eq_true in Hm. rewrite Hm. done.
Qed.

(** The writes of the generic methods: one row of the application *)
Inductive one_write (app : string) (db : Db) : Db → Prop :=
| no_write : one_write app db db
| write_execution_row r : one_write app db (put_execution (app_key st' app) r db)
| write_attempt_row id r : one_write app db (put_attempt (op_key st' app id) r db)
| write_operation_receipt_row id r : one_write app db (put_operation_receipt (op_key st' app id) r db)
| write_application_receipt_row r : one_write app db (put_application_receipt (app_key st' app) r db).
Hint Constructors one_write : core.

Lemma reject_generic_Ok u : _reject_generic_when_orchestrated st' = Ok u → orchestrated st' = false.
Proof. unfold _reject_generic_when_orchestrated. intros E. by inv_ok. Qed.

Ltac passed_guards :=
  repeat match goal with u : () |- _ => destruct u end;
  split; [by eapply reject_generic_Ok|]; split; [done|].

Lemma run_generic_effect answer x db db' :
  run_generic st' contexts answer x db = Ok db' →
  orchestrated st' = false ∧ _reject_durable_managed st' db (generic_app x) = Ok tt ∧ one_write (generic_app x) db db'.
Proof.
  destruct x; simpl; intros E; inv_ok; match goal with p : (_ * Db)%type |- _ => destruct p as [c db1] end;
    match goal with D : _ = Ok (_, _) |- _ => rename D into D0 end; simpl.
  - unfold save_execution in D0. inv_ok.
    passed_guards.
    destruct (application_execution db !! _); inv_ok; repeat case_match; inv_ok; eauto.
  - unfold save_attempt in D0. inv_ok.
    passed_guards.
    destruct (operation_attempts db !! _); inv_ok; repeat case_match; inv_ok; eauto.
  - unfold create_attempt_if_absent in D0. inv_ok.
    match goal with D : attempt_with_digest _ = Ok _ |- _ => apply attempt_with_digest_Ok in D as ([d ->] & _) end.
    simpl in *. passed_guards.
    unfold insert_attempt in *. inv_ok. eauto.
  - unfold transition_attempt in D0. inv_ok.
    destruct (operation_attempts db !! _); [|done]. inv_ok; passed_guards; eauto.
  - unfold transition_execution in D0. inv_ok.
    destruct (application_execution db !! _); [|done]. inv_ok; passed_guards; eauto.
  - unfold record_operation_receipt in D0. inv_ok.
    passed_guards.
    destruct (operation_receipts db !! _); inv_ok; eauto.
  - unfold record_application_receipt in D0. inv_ok.
    passed_guards.
    destruct (application_receipts db !! _); inv_ok; eauto.
Qed.

Lemma one_write_same_rows pl app db db' :
  (workspace st', app) ≠ (workspace st, pl_app pl) → one_write app db db' → same_rows st pl db db'.
Proof. intros Hne Hw. destruct Hw; eauto with rows. Qed.

(** C30: A managed application is out of reach of the generic persistence methods: as long
    as its state is stored, a generic call that returns - by any store object, service,
    context and artifact - leaves the application in its phase. *)
Theorem generic_calls_preserve_managed pl p answer x db db' :
  represents st pl db p → p ≠ Absent → run_generic st' contexts answer x db = Ok db' →
  represents st pl db' p ∧ orchestrated st' = false.
Proof.
  intros Hr Hp E. apply run_generic_effect in E as (Ho & Hguard & Hw). split; [|done].
  eapply represents_same_rows; [|exact Hr]. eapply one_write_same_rows; [|exact Hw]. intros [= Hws Happ].
  destruct (represents_found _ _ _ _ Hr Hp) as (s & Hf & _).
  apply (durable_managed_rejects _ _ _ Hws Hf). by rewrite <- Happ.
Qed.

(** A recorded operation receipt is never replaced: recording any receipt for the same
    operation again either returns the recorded one and writes nothing, or fails. *)
Theorem recorded_receipt_stays answer answer' r r' c c' db db' db'' :
  record_operation_receipt st contexts answer r db = Ok (c, db') →
  or_application_id r' = or_application_id r → or_operation_identity r' = or_operation_identity r →
  record_operation_receipt st contexts answer' r' db' = Ok (c', db'') →
  db'' = db' ∧ operation_receipt_doc c' = operation_receipt_doc c.
Proof.
  intros E Happ Hop E'. unfold record_operation_receipt in E, E'. inv_ok. rewrite Happ, Hop in E'.
  assert (operation_receipts db' !! op_key st (or_application_id r) (or_operation_identity r)
          = Some (Doc (operation_receipt_doc c))) as Hrow.
  { destruct (operation_receipts db !! _) as [x|] eqn:Hx; inv_ok; bools; [congruence|apply lookup_insert_eq]. }
  rewrite Hrow in E'. inv_ok. bools. split; [done|]. congruence.
Qed.
End generic.
