(* ===== verification/AuditRecords.v ===== *)
(** * Audit and approval records (delivery_system/audit_state.py, delivery_system/runtime.py)

    The records between an audited preview and a write: [AuditRecord] with its lifecycle,
    [ApprovalRecord], and the checks that tie an approval to an audit and to the current
    preview.  Fields the constructors do not type-check are dynamic values. *)
From S2P Require Import Prelude PyValue Strings PyOps Canonical Context FormalPreview.

Inductive AuditResult := PASSED | NEEDS_INFORMATION | CHANGES_REQUIRED | BLOCKED.
Inductive AuditStatus := ACTIVE | STALE | INVALID.
#[export] Instance AuditResult_eq_dec : EqDecision AuditResult.
Proof. solve_decision. Defined.
#[export] Instance AuditStatus_eq_dec : EqDecision AuditStatus.
Proof. solve_decision. Defined.

Definition result_value (r : AuditResult) : string :=
  match r with
  | PASSED => "Passed" | NEEDS_INFORMATION => "NeedsInformation"
  | CHANGES_REQUIRED => "ChangesRequired" | BLOCKED => "Blocked"
  end.
Definition status_value (s : AuditStatus) : string :=
  match s with ACTIVE => "Active" | STALE => "Stale" | INVALID => "Invalid" end.

(** [AuditResult(v)] and [AuditStatus(v)]: the member with the value, or [ValueError] *)
Definition audit_result_of (v : pyval) : result AuditResult :=
  match List.find (λ r, py_eq v (VStr (result_value r))) [PASSED; NEEDS_INFORMATION; CHANGES_REQUIRED; BLOCKED] with
  | Some r => Ok r
  | None => Err (ValueError "is not a valid AuditResult")
  end.
Definition audit_status_of (v : pyval) : result AuditStatus :=
  match List.find (λ s, py_eq v (VStr (status_value s))) [ACTIVE; STALE; INVALID] with
  | Some s => Ok s
  | None => Err (ValueError "is not a valid AuditStatus")
  end.

Section records.
Context `{PyLib}.

(** [datetime.fromisoformat(v.replace("Z", "+00:00"))] *)
Definition parse_iso (v : pyval) : result (Z * option Z) :=
  match v with
  | VStr s => match fromisoformat (replace_Z s) with Some t => Ok t | None => Err (ValueError "isoformat") end
  | VBytes _ => Err (TypeError "a bytes-like object is required")
  | _ => Err (AttributeError "replace")
  end.

(** ** [AuditRecord] *)
Record AuditRecord := MkAudit {
  ad_audit_id : string;
  ad_preview_id : string;
  ad_revision : Z;
  ad_plan_digest : string;
  ad_remote_snapshot_digest : option string;
  ad_audit_digest : string;
  ad_result : AuditResult;
  ad_operation_set_digest : string;
  ad_status : AuditStatus;
  ad_sealed_preview_digest : pyval;
  ad_workspace_identity : pyval;
  ad_audit_scope : pyval;
  ad_audit_payload_digest : pyval;
  ad_audit_context_digest : pyval;
  ad_rule_registry_version : pyval;
  ad_rule_registry_digest : pyval;
  ad_rule_evaluations : list pyval;
  ad_findings : list pyval;
  ad_evidence_refs : list pyval;
  ad_created_at : pyval;
}.

(** [__post_init__], on fields of their types *)
Definition audit_check (r : AuditRecord) : result AuditRecord :=
  raise "AuditRecord required fields are invalid"
    when (ad_revision r <? 1)%Z
         || existsb (λ s, bool_decide (s = "")) [ad_audit_id r; ad_preview_id r; ad_plan_digest r;
                                                  ad_audit_digest r; ad_operation_set_digest r]
         || bool_decide (ad_remote_snapshot_digest r = Some "") ;
  if truthy (ad_audit_payload_digest r) then
    raise "audit_record_formal_fields_invalid"
      when existsb (λ v, negb (truthy v)) [ad_sealed_preview_digest r; ad_workspace_identity r;
             ad_audit_context_digest r; ad_rule_registry_version r; ad_rule_registry_digest r; ad_created_at r] ;
    match parse_iso (ad_created_at r) with
    | Err (ValueError _ | TypeError _) => Err (ValueError "audit_created_at_invalid")
    | Err e => Err e
    | Ok (_, offset) =>
        raise "audit_created_at_invalid" when negb (bool_decide (offset = Some 0%Z)) ; Ok r
    end
  else Ok r.

Definition opt_str_value (o : option string) : pyval := match o with Some s => VStr s | None => VNone end.

Definition audit_computed_digest (r : AuditRecord) : result string :=
  digest (dict_of
    [("audit_id", VStr (ad_audit_id r)); ("preview_id", VStr (ad_preview_id r));
     ("revision", VInt (ad_revision r)); ("plan_digest", VStr (ad_plan_digest r));
     ("remote_snapshot_digest", opt_str_value (ad_remote_snapshot_digest r));
     ("operation_set_digest", VStr (ad_operation_set_digest r));
     ("sealed_preview_digest", ad_sealed_preview_digest r);
     ("result", VStr (result_value (ad_result r))); ("status", VStr (status_value (ad_status r)));
     ("workspace_identity", ad_workspace_identity r); ("audit_scope", ad_audit_scope r);
     ("audit_payload_digest", ad_audit_payload_digest r);
     ("audit_context_digest", ad_audit_context_digest r);
     ("rule_registry_version", ad_rule_registry_version r);
     ("rule_registry_digest", ad_rule_registry_digest r)]).

(** [replace(self, audit_digest=..)] and [replace(self, status=..)]: the checks run again *)
Definition audit_set_digest (d : string) (r : AuditRecord) : AuditRecord :=
  MkAudit (ad_audit_id r) (ad_preview_id r) (ad_revision r) (ad_plan_digest r) (ad_remote_snapshot_digest r) d
    (ad_result r) (ad_operation_set_digest r) (ad_status r) (ad_sealed_preview_digest r) (ad_workspace_identity r)
    (ad_audit_scope r) (ad_audit_payload_digest r) (ad_audit_context_digest r) (ad_rule_registry_version r)
    (ad_rule_registry_digest r) (ad_rule_evaluations r) (ad_findings r) (ad_evidence_refs r) (ad_created_at r).
Definition audit_set_status (s : AuditStatus) (r : AuditRecord) : AuditRecord :=
  MkAudit (ad_audit_id r) (ad_preview_id r) (ad_revision r) (ad_plan_digest r) (ad_remote_snapshot_digest r)
    (ad_audit_digest r) (ad_result r) (ad_operation_set_digest r) s (ad_sealed_preview_digest r)
    (ad_workspace_identity r) (ad_audit_scope r) (ad_audit_payload_digest r) (ad_audit_context_digest r)
    (ad_rule_registry_version r) (ad_rule_registry_digest r) (ad_rule_evaluations r) (ad_findings r)
    (ad_evidence_refs r) (ad_created_at r).

(** [_with_digest], and [create], whose record starts with the digest ["pending"] *)
Definition audit_with_digest (r : AuditRecord) : result AuditRecord :=
  let! d := audit_computed_digest r in audit_check (audit_set_digest d r).
Definition audit_create (r : AuditRecord) : result AuditRecord :=
  let! pending := audit_check (audit_set_status ACTIVE (audit_set_digest "pending" r)) in
  audit_with_digest pending.

Definition audit_verify_digest (r : AuditRecord) : result bool :=
  if bool_decide (ad_audit_digest r = "") then Ok false
  else let! d := audit_computed_digest r in Ok (bool_decide (ad_audit_digest r = d)).

Definition audit_with_status (s : AuditStatus) (r : AuditRecord) : result AuditRecord :=
  audit_check (audit_set_status s r).

(** [transition] *)
Definition audit_transitions (s : AuditStatus) : list AuditStatus :=
  match s with ACTIVE => [STALE; INVALID] | STALE => [INVALID] | INVALID => [] end.

Definition audit_transition (s : AuditStatus) (r : AuditRecord) : result AuditRecord :=
  if bool_decide (s = ad_status r) then Ok r
  else
    raise "invalid audit status transition" when negb (bool_decide (s ∈ audit_transitions (ad_status r))) ;
    let! r := audit_with_status s r in
    let! pending := audit_check (audit_set_digest "pending" r) in
    audit_with_digest pending.

Definition approval_eligible (r : AuditRecord) : bool :=
  py_eq (ad_audit_scope r) (VStr WRITE_ELIGIBLE)
  && bool_decide (ad_status r = ACTIVE) && bool_decide (ad_result r = PASSED).

(** [to_dict] and [from_dict] *)
Definition audit_to_dict (r : AuditRecord) : pyval :=
  dict_of
    [("audit_id", VStr (ad_audit_id r)); ("preview_id", VStr (ad_preview_id r));
     ("revision", VInt (ad_revision r)); ("plan_digest", VStr (ad_plan_digest r));
     ("remote_snapshot_digest", opt_str_value (ad_remote_snapshot_digest r));
     ("audit_digest", VStr (ad_audit_digest r)); ("result", VStr (result_value (ad_result r)));
     ("operation_set_digest", VStr (ad_operation_set_digest r)); ("status", VStr (status_value (ad_status r)));
     ("sealed_preview_digest", ad_sealed_preview_digest r); ("workspace_identity", ad_workspace_identity r);
     ("audit_scope", ad_audit_scope r); ("audit_payload_digest", ad_audit_payload_digest r);
     ("audit_context_digest", ad_audit_context_digest r); ("rule_registry_version", ad_rule_registry_version r);
     ("rule_registry_digest", ad_rule_registry_digest r);
     ("rule_evaluations", VTuple (ad_rule_evaluations r)); ("findings", VTuple (ad_findings r));
     ("evidence_refs", VTuple (ad_evidence_refs r)); ("created_at", ad_created_at r)].

Definition FORMAL_FIELDS : list string :=
  ["sealed_preview_digest"; "workspace_identity"; "audit_scope"; "audit_payload_digest";
   "audit_context_digest"; "rule_registry_version"; "rule_registry_digest"; "created_at"].

Definition invalid_fields {A} : result A := Err (ValueError "AuditRecord required fields are invalid").
Definition str_value (v : pyval) : result string := match v with VStr s => Ok s | _ => invalid_fields end.
Definition int_value (v : pyval) : result Z := match v with VInt z => Ok z | _ => invalid_fields end.
Definition opt_value (v : pyval) : result (option string) :=
  match v with VNone => Ok None | VStr s => Ok (Some s) | _ => invalid_fields end.

Definition audit_from_dict (data : pyval) : result AuditRecord :=
  let formal := forallb (has_key data) FORMAL_FIELDS in
  let field k dflt := if formal then get_default data k dflt else dflt in
  let! id := subscript data "audit_id" in
  let! preview := subscript data "preview_id" in
  let! rev := subscript data "revision" in
  let! plan := subscript data "plan_digest" in
  let! remote := subscript data "remote_snapshot_digest" in
  let! d := subscript data "audit_digest" in
  let! res := subscript data "result" in
  let! res := audit_result_of res in
  let! ops := subscript data "operation_set_digest" in
  let! status := subscript data "status" in
  let! status := audit_status_of status in
  let! evaluations := tuple_of (field "rule_evaluations" (VTuple [])) in
  let! findings := tuple_of (field "findings" (VTuple [])) in
  let! refs := tuple_of (field "evidence_refs" (VTuple [])) in
  let! rev := int_value rev in
  let! id := str_value id in
  let! preview := str_value preview in
  let! plan := str_value plan in
  let! d := str_value d in
  let! ops := str_value ops in
  let! remote := opt_value remote in
  audit_check
    (MkAudit id preview rev plan remote d res ops status (field "sealed_preview_digest" (VStr ""))
       (field "workspace_identity" (VStr "")) (field "audit_scope" (VStr "Conceptual"))
       (field "audit_payload_digest" (VStr "")) (field "audit_context_digest" (VStr ""))
       (field "rule_registry_version" VNone) (field "rule_registry_digest" VNone)
       evaluations findings refs (field "created_at" (VStr ""))).
End records.
