(* ===== verification/Approvals.v ===== *)
(** * Approvals and the audit boundary (delivery_system/audit_state.py, delivery_system/runtime.py)

    [ApprovalRecord], the authority chain from an approval through its audit to the current
    preview, and the checks of a formal audit before the store commits it.  The fields of
    an approval are not type-checked by its constructor and are dynamic values. *)
From S2P Require Import Prelude PyValue Strings PyOps Canonical WriteOperations FormalPreview AuditRecords.
From Stdlib Require Import Ascii.

Record ApprovalRecord := Approval {
  ap_approval_id : pyval;
  ap_audit_id : pyval;
  ap_audit_digest : pyval;
  ap_audit_result : pyval;          (** the member, equal to its value, or any other value *)
  ap_preview_id : pyval;
  ap_revision : pyval;
  ap_plan_digest : pyval;
  ap_remote_snapshot_digest : pyval;
  ap_operation_set_digest : pyval;
  ap_repository_identity : pyval;
  ap_approval_command : pyval;
  ap_approver_claim : pyval;
  ap_approved_at : pyval;
  ap_status : pyval;
}.

Definition APPROVE_WRITE : string := "批准写入".

Section approvals.
Context `{PyLib}.

(** ** [ApprovalRecord] *)
Definition approval_command_for (preview revision : pyval) : result string :=
  let! p := py_format preview in
  let! r := py_format revision in
  Ok (APPROVE_WRITE +:+ " " +:+ p +:+ " " +:+ r).

Definition approval_texts (a : ApprovalRecord) : list pyval :=
  [ap_approval_id a; ap_audit_id a; ap_audit_digest a; ap_preview_id a; ap_plan_digest a;
   ap_remote_snapshot_digest a; ap_operation_set_digest a; ap_approval_command a; ap_approver_claim a;
   ap_approved_at a].

Definition is_structurally_valid (a : ApprovalRecord) : result bool :=
  match audit_result_of (ap_audit_result a) with
  | Err _ => Ok false
  | Ok res =>
      match parse_iso (ap_approved_at a) with
      | Err (ValueError _ | TypeError _) => Ok false
      | Err e => Err e
      | Ok (_, offset) =>
          if negb (bool_decide (res = PASSED)) then Ok false
          else
            let! command := approval_command_for (ap_preview_id a) (ap_revision a) in
            Ok (py_eq (ap_approval_command a) (VStr command)
                && match ap_repository_identity a with
                   | VStr s => negb (bool_decide (py_strip s = ""))
                   | _ => false
                   end
                && bool_decide (is_Some offset)
                && py_eq (ap_status a) (VStr "valid")
                && forallb is_nonempty_str (approval_texts a))
      end
  end.

Definition approval_validate_against (a : ApprovalRecord) (audit : AuditRecord) : result bool :=
  let! valid := is_structurally_valid a in
  if negb valid then Ok false
  else if negb (py_eq (ap_audit_result a) (VStr (result_value PASSED))
                && bool_decide (ad_result audit = PASSED) && bool_decide (ad_status audit = ACTIVE)) then Ok false
  else
    let! intact := audit_verify_digest audit in
    Ok (intact
        && py_eq (ap_audit_id a) (VStr (ad_audit_id audit))
        && py_eq (ap_audit_digest a) (VStr (ad_audit_digest audit))
        && py_eq (ap_preview_id a) (VStr (ad_preview_id audit))
        && py_eq (ap_revision a) (VInt (ad_revision audit))
        && py_eq (ap_plan_digest a) (VStr (ad_plan_digest audit))
        && py_eq (ap_remote_snapshot_digest a) (opt_str_value (ad_remote_snapshot_digest audit))
        && py_eq (ap_operation_set_digest a) (VStr (ad_operation_set_digest audit))).

Definition approval_create (approval_id : pyval) (audit : AuditRecord)
    (repository claim approved_at command : pyval) : result ApprovalRecord :=
  raise "approval_requires_passed_active_audit"
    when negb (bool_decide (ad_result audit = PASSED)) || negb (bool_decide (ad_status audit = ACTIVE)) ;
  match ad_remote_snapshot_digest audit with
  | None | Some "" => Err (ValueError "approval_requires_remote_snapshot_digest")
  | Some remote =>
      Ok (Approval approval_id (VStr (ad_audit_id audit)) (VStr (ad_audit_digest audit))
            (VStr (result_value (ad_result audit))) (VStr (ad_preview_id audit)) (VInt (ad_revision audit))
            (VStr (ad_plan_digest audit)) (VStr remote) (VStr (ad_operation_set_digest audit))
            repository command claim approved_at (VStr "valid"))
  end.

Definition APPROVAL_FIELDS : list string :=
  ["approval_id"; "audit_id"; "audit_digest"; "audit_result"; "preview_id"; "revision"; "plan_digest";
   "remote_snapshot_digest"; "operation_set_digest"; "repository_identity"; "approval_command";
   "approver_claim"; "approved_at"; "status"].

Definition approval_to_dict (a : ApprovalRecord) : pyval :=
  dict_of
    [("approval_id", ap_approval_id a); ("audit_id", ap_audit_id a); ("audit_digest", ap_audit_digest a);
     ("audit_result", ap_audit_result a); ("preview_id", ap_preview_id a); ("revision", ap_revision a);
     ("plan_digest", ap_plan_digest a); ("remote_snapshot_digest", ap_remote_snapshot_digest a);
     ("operation_set_digest", ap_operation_set_digest a); ("repository_identity", ap_repository_identity a);
     ("approval_command", ap_approval_command a); ("approver_claim", ap_approver_claim a);
     ("approved_at", ap_approved_at a); ("status", ap_status a)].

Definition approval_from_dict (data : pyval) : result ApprovalRecord :=
  raise "approval_invalid" when negb (is_mapping data) ;
  raise "approval_invalid" when negb (keys_are APPROVAL_FIELDS data) ;
  match audit_result_of (get data "audit_result") with
  | Err _ => Err (ValueError "approval_invalid")
  | Ok res =>
      Ok (Approval (get data "approval_id") (get data "audit_id") (get data "audit_digest")
            (VStr (result_value res)) (get data "preview_id") (get data "revision") (get data "plan_digest")
            (get data "remote_snapshot_digest") (get data "operation_set_digest")
            (get data "repository_identity") (get data "approval_command") (get data "approver_claim")
            (get data "approved_at") (get data "status"))
  end.

(** ** [_preview_is_approval_eligible] *)
Definition sequence_or_type_error (v : pyval) : result (list pyval) :=
  match v with
  | VList l | VTuple l => Ok l
  | VNone | VBool _ | VInt _ | VFloat _ => Err (TypeError "not iterable")
  | _ => Err (Unmodelled "iteration")
  end.

(** The evaluation's eligibility, and the digests it fixes *)
Definition eligible_v2 (canonical : pyval) : result (bool * string * string) :=
  let! intents := subscript canonical "operation_intents" in
  let! items := subscript canonical "items" in
  let! semantic := subscript canonical "semantic_payload" in
  let remote := if truthy (get canonical "remote_snapshot") then get canonical "remote_snapshot" else dict_of [] in
  if negb (is_mapping remote) then Err (AttributeError "get") else
  let! items := sequence_or_type_error items in
  let! bindings := sequence_or_type_error (get_default canonical "existing_endpoint_bindings" (VList [])) in
  let! records := sequence_or_type_error (get_default remote "relationship_records" (VList [])) in
  let! evaluation := evaluate_write_operations_v2 intents items semantic bindings records in
  let! payload := operation_set_digest_payload_v2 (VTuple (map operation_v2_dict (operations evaluation))) in
  let! operation_digest := digest payload in
  let! plan_digest := digest (dict_of [("canonical_version", VStr "2"); ("semantic_payload", semantic)]) in
  Ok (eligible evaluation, operation_digest, plan_digest).

Definition eligible_v1 (canonical : pyval) : result (bool * string * string) :=
  let! intents := subscript canonical "operation_intents" in
  let! items := subscript canonical "items" in
  let! semantic := subscript canonical "semantic_payload" in
  let! items := sequence_or_type_error items in
  let! evaluation := evaluate_write_operations intents items semantic in
  let! payload := operation_set_digest_payload (VTuple (map operation_dict (operations evaluation))) in
  let! operation_digest := digest payload in
  let! plan_digest := digest semantic in
  Ok (eligible evaluation, operation_digest, plan_digest).

Definition without_key (k : string) (v : pyval) : pyval :=
  match v with VDict d => VDict (List.filter (λ p, negb (py_eq (fst p) (VStr k))) d) | _ => v end.

Definition _preview_is_approval_eligible (preview : pyval) : result bool :=
  let canonical := get preview "canonical_payload" in
  if negb (is_mapping canonical) || negb (py_eq (get canonical "preview_level") (VStr WRITE_ELIGIBLE)) then Ok false
  else if negb (is_str (get canonical "workspace_identity")) || negb (is_str (get canonical "repository_identity"))
          || negb (is_str (get canonical "remote_snapshot_digest"))
          || negb (py_eq (get canonical "blockers") (VList [])) then Ok false
  else
    match (let! (ok, operation_digest, plan_digest) :=
             if py_eq (get canonical "canonical_version") (VStr "2") then eligible_v2 canonical
             else eligible_v1 canonical in
           if negb (ok && py_eq (get canonical "operation_set_digest") (VStr operation_digest)
                    && py_eq (get canonical "plan_digest") (VStr plan_digest)) then Ok false
           else
             let! sealed := digest (without_key "sealed_preview_digest" canonical) in
             Ok (py_eq (get canonical "sealed_preview_digest") (VStr sealed))) with
    | Ok b => Ok b
    | Err e => if is_key_type_value_error e then Ok false else Err e
    end.

(** ** [_validate_approval_against_current_preview] *)
Definition audit_matches_preview (audit : AuditRecord) (canonical : pyval) (workspace : string) : bool :=
  py_eq (ad_audit_scope audit) (VStr WRITE_ELIGIBLE)
  && py_eq (ad_workspace_identity audit) (VStr workspace)
  && py_eq (get canonical "workspace_identity") (VStr workspace)
  && py_eq (VStr (ad_preview_id audit)) (get canonical "preview_id")
  && py_eq (VInt (ad_revision audit)) (get canonical "revision")
  && py_eq (ad_sealed_preview_digest audit) (get canonical "sealed_preview_digest")
  && py_eq (VStr (ad_plan_digest audit)) (get canonical "plan_digest")
  && py_eq (VStr (ad_operation_set_digest audit)) (get canonical "operation_set_digest")
  && py_eq (opt_str_value (ad_remote_snapshot_digest audit)) (get canonical "remote_snapshot_digest").

Definition _validate_approval_against_current_preview (approval : ApprovalRecord) (audit : AuditRecord)
    (preview : pyval) (workspace : string) : result bool :=
  let canonical := get preview "canonical_payload" in
  if negb (is_mapping canonical) then Ok false
  else
    let! valid := approval_validate_against approval audit in
    if negb valid then Ok false
    else
      let! intact := audit_verify_digest audit in
      if negb (intact && approval_eligible audit && audit_matches_preview audit canonical workspace
               && py_eq (ap_repository_identity approval) (get canonical "repository_identity")) then Ok false
      else _preview_is_approval_eligible preview.
End approvals.
