(* ===== verification/PreviewValidation.v ===== *)
(** * Validation of sealed previews (delivery_system/preview_validation.py, runtime_authority.py)

    What a store checks of a preview document before it keeps it: the schema, the endpoint
    bindings, every digest, the evidence and the promotion; and the reconstruction of a
    promotion from stored evidence (delivery_system/runtime.py). *)
From S2P Require Import Prelude PyValue Strings PyOps Canonical Evidence RemoteSnapshot FormalPreview.
From S2P Require Import Endpoints WriteOperations Preflight Approvals.

Section validation.
Context `{PyLib}.

Definition is_v2 (canonical : pyval) : bool := py_eq (get canonical "canonical_version") (VStr "2").

(** ** [_validate_v2_endpoint_authority] *)
Fixpoint endpoint_refs (code : string) (l : list pyval) : result (list string) :=
  match l with
  | [] => Ok []
  | d :: l' =>
      raise code when negb (is_mapping d) || negb (nonblank (get d "endpoint_ref")) ;
      let! refs := endpoint_refs code l' in Ok (the_str (get d "endpoint_ref") :: refs)
  end.

Definition list_or (code : string) (v : pyval) : result (list pyval) :=
  match v with VList l => Ok l | _ => Err (ValueError code) end.

Definition _validate_v2_endpoint_authority (canonical : pyval) : result unit :=
  if negb (is_v2 canonical) then Ok tt
  else
    let semantic := get canonical "semantic_payload" in
    raise "sealed_preview_endpoint_declarations_invalid" when negb (is_mapping semantic) ;
    let! declarations := list_or "sealed_preview_endpoint_declarations_invalid"
                           (get semantic "existing_issue_endpoints") in
    let! declared := endpoint_refs "sealed_preview_endpoint_declaration_invalid" declarations in
    raise "sealed_preview_endpoint_declaration_duplicate" when negb (no_dups declared) ;
    let! bindings := list_or "sealed_preview_endpoint_bindings_invalid" (get canonical "existing_endpoint_bindings") in
    let! bound := endpoint_refs "sealed_preview_endpoint_binding_invalid" bindings in
    raise "sealed_preview_endpoint_binding_duplicate" when negb (no_dups bound) ;
    raise "sealed_preview_endpoint_binding_undeclared"
      when existsb (λ ref, negb (bool_decide (ref ∈ declared))) bound ;
    let! complete := in_str_set (get canonical "preview_level") [REPOSITORY_AWARE; WRITE_ELIGIBLE] in
    raise "sealed_preview_endpoint_binding_coverage_invalid" when complete && negb (same_set declared bound) ;
    Ok tt.

(** ** [validate_sealed_preview_invariants] *)
Definition validate_sealed_preview_invariants (canonical : pyval) (workspace : string)
    (promotion : option RuntimePromotion) : result unit :=
  let field := get canonical in
  raise "sealed_preview_required" when negb (is_mapping canonical) ;
  raise "preview_provenance_invalid" when negb (py_eq (field "provenance_status") (VStr "declared_unverified")) ;
  raise "workspace_identity_mismatch" when negb (py_eq (field "workspace_identity") (VStr workspace)) ;
  let! level := in_str_set (field "preview_level") PREVIEW_LEVELS in
  raise "preview_level_unverified" when negb level ;
  if py_eq (field "preview_level") (VStr CONCEPTUAL) then
    raise "conceptual_repository_forbidden"
      when existsb (λ k, negb (bool_decide (field k = VNone)))
             ["repository_identity"; "remote_snapshot"; "remote_snapshot_digest"; "remote_authority"] ;
    Ok tt
  else
    raise "repository_identity_mismatch"
      when negb (nonblank (field "repository_identity")) || negb (is_mapping (field "remote_snapshot"))
           || negb (is_nonempty_str (field "remote_snapshot_digest")) ;
    raise "repository_identity_mismatch"
      when negb (py_eq (get (field "remote_snapshot") "repository_identity") (field "repository_identity")) ;
    let! issues := py_iter (get_default (field "remote_snapshot") "issue_records" (VList [])) in
    let! foreign :=
      any_r (λ issue, let! r := get_attr issue "repository_identity" in
                      Ok (negb (py_eq r (field "repository_identity")))) issues in
    raise "repository_identity_mismatch" when foreign ;
    match promotion with
    | None => Err (ValueError "preview_level_unverified")
    | Some p =>
        let! authority := remote_authority (pr_trust_context p) in
        raise "driver_trust_context_mismatch" when negb (py_eq (field "remote_authority") (VStr authority)) ;
        raise "remote_snapshot_digest_mismatch"
          when negb (py_eq (field "remote_snapshot_digest") (VStr (pr_remote_snapshot_digest p))) ;
        Ok tt
    end.

(** ** [_runtime_preview_level] *)
Definition level_evaluation (canonical : pyval) : result bool :=
  let intents := get_default canonical "operation_intents" (VList []) in
  let semantic := get_default canonical "semantic_payload" (dict_of []) in
  let remote := if truthy (get canonical "remote_snapshot") then get canonical "remote_snapshot" else dict_of [] in
  let! items := sequence_or_type_error (get_default canonical "items" (VList [])) in
  if is_v2 canonical then
    let! bindings := sequence_or_type_error (get_default canonical "existing_endpoint_bindings" (VList [])) in
    let! records := sequence_or_type_error (get_default remote "relationship_records" (VList [])) in
    let! e := evaluate_write_operations_v2 intents items semantic bindings records in Ok (eligible e)
  else let! e := evaluate_write_operations intents items semantic in Ok (eligible e).

Definition _runtime_preview_level (canonical : pyval) : result string :=
  let remote := get canonical "remote_snapshot" in
  if negb (is_mapping remote) || bool_decide (get canonical "remote_snapshot_digest" = VNone) then Ok CONCEPTUAL
  else if bool_decide (get remote "query_complete" = VBool true)
          && bool_decide (get remote "pagination_complete" = VBool true) then
    match level_evaluation canonical with
    | Ok true => if truthy (get canonical "blockers") then Ok REPOSITORY_AWARE else Ok WRITE_ELIGIBLE
    | Ok false => Ok REPOSITORY_AWARE
    | Err (TypeError _ | ValueError _ | JSONDecodeError) => Ok REPOSITORY_AWARE
    | Err e => Err e
    end
  else Ok CONCEPTUAL.

(** ** [_validate_preview_payload] *)

(** The snapshot read back from a preview: [from_records] of the fields of a mapping *)
Definition snapshot_of (v2 : bool) (repository : string) (remote : pyval) : result any_snapshot :=
  let fields k := get_default remote k (VList []) in
  let fields_dict k := get_default remote k (dict_of []) in
  if v2 then
    let! s := snapshot_v2_from_records repository (fields_dict "query_scope") (get remote "query_complete")
                (get remote "pagination_complete") (fields "issue_records") (fields_dict "permissions")
                (fields "capabilities") (fields "relationship_records") (fields "evidence_ids")
                (get remote "observed_at") in Ok (SnapshotV2 s)
  else
    let! s := snapshot_from_records repository (fields_dict "query_scope") (get remote "query_complete")
                (get remote "pagination_complete") (fields "issue_records") (fields_dict "permissions")
                (fields "capabilities") (fields "relationship_records") (fields "evidence_ids")
                (get remote "observed_at") in Ok (SnapshotV1 s).

Definition BINDING_FIELDS : list string :=
  ["endpoint_ref"; "selector_digest"; "issue_id"; "remote_record_digest"; "identity_digest";
   "write_address_digest"; "semantic_digest"].

(** [records.get(binding.get("issue_id"))]: of the records with one issue id the last stays *)
Definition find_record (records : list pyval) (issue_id : pyval) : result (option pyval) :=
  if hashable issue_id && forallb (λ r, hashable (get r "issue_id")) records then
    Ok (List.find (λ r, py_eq (get r "issue_id") issue_id) (reverse records))
  else Err (TypeError "unhashable").

Fixpoint validate_bindings (records bindings : list pyval) : result unit :=
  match bindings with
  | [] => Ok tt
  | binding :: bindings' =>
      raise "sealed_preview_endpoint_binding_invalid"
        when negb (is_mapping binding) || negb (keys_are BINDING_FIELDS binding) ;
      let! record := find_record records (get binding "issue_id") in
      match record with
      | None => Err (ValueError "sealed_preview_endpoint_binding_invalid")
      | Some record =>
          let! d := digest record in
          raise "sealed_preview_endpoint_binding_invalid"
            when negb (py_eq (VStr d) (get binding "remote_record_digest")) ;
          let! identity := identity_digest record in
          raise "sealed_preview_endpoint_binding_invalid"
            when negb (py_eq (VStr identity) (get binding "identity_digest")) ;
          let! address := write_address_digest record in
          raise "sealed_preview_endpoint_binding_invalid"
            when negb (py_eq (VStr address) (get binding "write_address_digest")) ;
          let! semantic := semantic_digest record in
          raise "sealed_preview_endpoint_binding_invalid"
            when negb (py_eq (VStr semantic) (get binding "semantic_digest")) ;
          validate_bindings records bindings'
      end
  end.

Definition validate_remote (canonical remote_digest : pyval) : result unit :=
  let remote := get canonical "remote_snapshot" in
  if bool_decide (remote = VNone) then Ok tt
  else
    raise "remote_snapshot_invalid" when negb (is_mapping remote) ;
    raise "remote_snapshot_invalid"
      when negb (is_bool (get remote "query_complete")) || negb (is_bool (get remote "pagination_complete")) ;
    let! repository := py_format (get_default remote "repository_identity" (VStr "")) in
    let! snapshot := snapshot_of (py_eq (get remote "schema_version") (VStr "remote-snapshot-v2")) repository remote in
    let! d := any_snapshot_digest snapshot in
    raise "remote_snapshot_digest_mismatch" when negb (py_eq (VStr d) remote_digest) ;
    if is_v2 canonical then
      let! bindings := list_or "sealed_preview_endpoint_bindings_invalid" (get canonical "existing_endpoint_bindings") in
      let! records := py_iter (get_default remote "issue_records" (VList [])) in
      validate_bindings (List.filter is_mapping records) bindings
    else Ok tt.

Fixpoint validate_evidence (records : list pyval) (workspace : string) (preview_id revision : pyval)
    (promotion : option RuntimePromotion) : result unit :=
  match records with
  | [] => Ok tt
  | record :: records' =>
      let! kind := get_attr record "source_kind" in
      let! known := in_str_set kind ["declared"; "driver"] in
      raise "controlled_evidence_source" when negb known ;
      let! parsed := evidence_from_dict record in
      raise "evidence_scope_mismatch"
        when negb (bool_decide (ev_workspace_identity parsed = workspace))
             || negb (py_eq (VStr (ev_preview_id parsed)) preview_id)
             || negb (py_eq (VInt (ev_revision parsed)) revision) ;
      let! _ :=
        if py_eq kind (VStr "driver") then
          match promotion with
          | None => Err (ValueError "repository_aware_promotion_required")
          | Some p =>
              raise "repository_aware_promotion_required"
                when negb (bool_decide (ev_evidence_id parsed = ev_evidence_id (pr_evidence_record p))) ;
              raise "driver_trust_context_mismatch"
                when negb (bool_decide (ev_source_identity parsed = trusted_driver_identity (pr_trust_context p))) ;
              raise "remote_content_digest_mismatch" when bool_decide (ev_payload parsed = VNone) ;
              let! d := digest (ev_payload parsed) in
              raise "remote_content_digest_mismatch" when negb (bool_decide (d = pr_remote_content_digest p)) ;
              Ok tt
          end
        else Ok tt in
      validate_evidence records' workspace preview_id revision promotion
  end.

Definition validate_evidence_ids (canonical : pyval) (records : list pyval) : result unit :=
  let! ids := map_r (λ r, let! i := get_attr r "evidence_id" in py_format i) records in
  raise "duplicate_evidence_id" when negb (no_dups ids) ;
  let! canonical_ids := py_iter (get_default canonical "evidence_ids" (VList [])) in
  let! canonical_ids := map_r py_format canonical_ids in
  raise "duplicate_evidence_id" when negb (no_dups canonical_ids) ;
  raise "evidence_reference_mismatch"
    when negb (bool_decide (sorted_strings canonical_ids = sorted_strings ids)) ;
  Ok tt.

Definition preview_arguments_valid (request_id preview_id revision plan operation_set remote_digest repository : pyval)
  : bool :=
  is_nonempty_str request_id && is_nonempty_str preview_id && positive_int revision && is_nonempty_str plan
  && is_nonempty_str operation_set && none_or is_nonempty_str remote_digest && none_or nonblank repository.

Definition validate_plan (canonical plan operation_set : pyval) : result unit :=
  let semantic := get canonical "semantic_payload" in
  let operations := get canonical "operation_intents" in
  raise "sealed_preview_incomplete" when negb (is_mapping semantic) || negb (is_list operations) ;
  let! expected := digest (if is_v2 canonical
                           then dict_of [("canonical_version", VStr "2"); ("semantic_payload", semantic)]
                           else semantic) in
  raise "plan_digest_mismatch"
    when negb (py_eq (VStr expected) plan) || negb (py_eq (get canonical "plan_digest") plan) ;
  let! payload := if is_v2 canonical then operation_set_digest_payload_v2 operations
                  else operation_set_digest_payload operations in
  let! d := digest payload in
  raise "operation_set_digest_mismatch"
    when negb (py_eq (VStr d) operation_set) || negb (py_eq (get canonical "operation_set_digest") operation_set) ;
  Ok tt.

Definition _validate_preview_payload (canonical request_id preview_id revision plan operation_set remote_digest
    repository : pyval) (evidence_records : list pyval) (workspace : string) (promotion : option RuntimePromotion)
  : result pyval :=
  raise "sealed_preview_required" when negb (is_mapping canonical) ;
  raise "sealed_preview_argument_invalid"
    when negb (preview_arguments_valid request_id preview_id revision plan operation_set remote_digest repository) ;
  let! parsed := preview_from_dict canonical in
  let! normalized := preview_to_dict parsed in
  raise "sealed_preview_not_canonical" when negb (py_eq normalized canonical) ;
  let field := get normalized in
  raise "preview_identity_mismatch"
    when negb (py_eq (field "request_id") request_id) || negb (py_eq (field "preview_id") preview_id)
         || negb (py_eq (field "revision") revision) ;
  raise "workspace_identity_mismatch" when negb (py_eq (field "workspace_identity") (VStr workspace)) ;
  let! _ := validate_sealed_preview_invariants normalized workspace promotion in
  let! _ := _validate_v2_endpoint_authority normalized in
  let! _ := validate_plan normalized plan operation_set in
  raise "remote_snapshot_digest_mismatch" when negb (py_eq (field "remote_snapshot_digest") remote_digest) ;
  raise "repository_identity_mismatch" when negb (py_eq (field "repository_identity") repository) ;
  let! _ := validate_remote normalized remote_digest in
  let! _ := validate_evidence_ids normalized evidence_records in
  let! _ := validate_evidence evidence_records workspace preview_id revision promotion in
  let! sealed := digest (without_key "sealed_preview_digest" normalized) in
  raise "sealed_preview_digest_mismatch" when negb (py_eq (field "sealed_preview_digest") (VStr sealed)) ;
  Ok normalized.

(** ** [_reload_promotion]: the V1 form of runtime_authority.py and the V2 form of runtime.py *)
Definition driver_record (evidence : list pyval) : result (list pyval) :=
  py_filter (λ r, let! k := get_attr r "source_kind" in Ok (py_eq k (VStr "driver"))) evidence.

Definition rebuild_promotion (trust : DriverTrustContext) (canonical driver : pyval) : result RuntimePromotion :=
  let! record := evidence_from_dict driver in
  raise "driver_trust_context_mismatch"
    when negb (bool_decide (ev_source_identity record = trusted_driver_identity trust)) ;
  let remote := get canonical "remote_snapshot" in
  raise "remote_snapshot_invalid" when negb (is_mapping remote) ;
  let! repository := py_format (get remote "repository_identity") in
  let! snapshot := snapshot_of (is_v2 canonical) repository remote in
  let! evidence := py_sorted (any_snapshot_evidence snapshot) in
  raise "snapshot_evidence_mismatch" when negb (bool_decide (evidence = [VStr (ev_evidence_id record)])) ;
  let! _ :=
    if is_v2 canonical then Ok tt
    else
      let! ids := py_iter (get_default canonical "evidence_ids" (VList [])) in
      let! known := in_set (VStr (ev_evidence_id record)) ids in
      raise "evidence_reference_mismatch" when negb known ; Ok tt in
  let! content := digest (ev_payload record) in
  let! d := any_snapshot_digest snapshot in
  let! authority := remote_authority trust in
  raise "driver_trust_context_mismatch"
    when negb (py_eq (get canonical "remote_authority") (VStr authority))
         || negb (py_eq (get canonical "remote_snapshot_digest") (VStr d)) ;
  Ok (Promotion trust record snapshot content d false).

Definition _reload_promotion (trust : option DriverTrustContext) (canonical : pyval) (evidence : list pyval)
  : result (option RuntimePromotion) :=
  let! aware := in_str_set (get canonical "preview_level") [REPOSITORY_AWARE; WRITE_ELIGIBLE] in
  if negb aware then Ok None
  else
    raise "driver_trust_context_required" when negb (is_v2 canonical) && bool_decide (trust = None) ;
    let! drivers := driver_record evidence in
    match trust, drivers with
    | Some trust, [driver] => let! p := rebuild_promotion trust canonical driver in Ok (Some p)
    | _, _ => Err (ValueError "repository_aware_promotion_required")
    end.
End validation.
