(* ===== verification/AuditBoundary.v ===== *)
(** * The audit commit boundary (delivery_system/runtime.py, delivery_system/audit_commit_authority.py)

    The checks between a formal audit and its commit: the record against the sealed preview,
    the digest of the context it was made in, and the ephemeral authority minted for it. *)
From S2P Require Import Prelude PyValue Strings PyOps Canonical FormalPreview AuditRecords Preflight.
From S2P Require Import PreviewValidation.

(** [AuditCommitAuthority]: [ca_id] is the identity of the object, by which the table of
    minted authorities finds it *)
Record AuditCommitAuthority := CommitAuthority {
  ca_id : nat;
  authority_domain : string;
  ca_audit_backend_scope : string;
  ca_workspace_identity : pyval;
  ca_audit_id : pyval;
  ca_audit_payload_digest : pyval;
  ca_preview_id : pyval;
  ca_revision : pyval;
  ca_audit_scope : pyval;
  ca_sealed_preview_digest : pyval;
  ca_plan_digest : pyval;
  ca_operation_set_digest : pyval;
  ca_remote_snapshot_digest : pyval;
  ca_audit_context_digest : pyval;
  ca_rule_registry_version : pyval;
  ca_rule_registry_digest : pyval;
  ca_evidence_bindings : list (string * string);
  ca_repository_identity : pyval;
  ca_remote_authority : pyval;
}.

Definition _AUTHORITY_DOMAIN : string := "audit-commit-authority-v1".

Section boundary.
Context `{PyLib}.

(** ** The payload of an audit and its expected result *)
Definition _audit_projection (a : AuditRecord) : pyval :=
  dict_of
    [("workspace_identity", ad_workspace_identity a); ("preview_id", VStr (ad_preview_id a));
     ("revision", VInt (ad_revision a)); ("audit_scope", ad_audit_scope a);
     ("sealed_preview_digest", ad_sealed_preview_digest a); ("plan_digest", VStr (ad_plan_digest a));
     ("operation_set_digest", VStr (ad_operation_set_digest a));
     ("remote_snapshot_digest", opt_str_value (ad_remote_snapshot_digest a));
     ("audit_context_digest", ad_audit_context_digest a);
     ("rule_registry_version", ad_rule_registry_version a); ("rule_registry_digest", ad_rule_registry_digest a);
     ("semantic_evaluations", VList (ad_rule_evaluations a)); ("findings", VList (ad_findings a));
     ("result", VStr (result_value (ad_result a)))].

Definition expected_result (outcomes : list pyval) : AuditResult :=
  if existsb (py_eq (VStr "Blocked")) outcomes then BLOCKED
  else if existsb (py_eq (VStr "Unknown")) outcomes then NEEDS_INFORMATION
  else if existsb (py_eq (VStr "Failed")) outcomes then CHANGES_REQUIRED else PASSED.

Definition finding_malformed (finding : pyval) : result bool :=
  match finding with
  | VDict _ => Ok (has_key finding "finding_ref" || negb (truthy (get finding "finding_id")))
  | VNone | VBool _ | VInt _ | VFloat _ => Err (TypeError "not iterable")
  | _ => Err (Unmodelled "in")
  end.

Definition foreign_finding_ref (evaluation : pyval) : result bool :=
  let! refs := get_attr_default evaluation "finding_refs" (VTuple []) in
  let! refs := py_iter refs in
  any_r (λ ref, let! s := py_format ref in Ok (negb (startswith "finding_" s))) refs.

Definition boundary : exn := ValueError "audit_commit_boundary_required".

(** ** [_validate_formal_audit_boundary] *)
Definition _validate_formal_audit_boundary (a : AuditRecord) (canonical : pyval) (workspace : string) : result unit :=
  let field := get canonical in
  if negb (truthy (ad_audit_payload_digest a)) || negb (truthy (ad_audit_context_digest a))
     || negb (truthy (ad_sealed_preview_digest a)) then Err boundary else
  if negb (py_eq (ad_workspace_identity a) (VStr workspace)) then Err boundary else
  if negb (py_eq (VStr (ad_preview_id a)) (field "preview_id"))
     || negb (py_eq (VInt (ad_revision a)) (field "revision")) then Err boundary else
  let! scoped := in_str_set (ad_audit_scope a) PREVIEW_LEVELS in
  if negb scoped || negb (py_eq (ad_audit_scope a) (field "preview_level")) then Err boundary else
  if negb (py_eq (ad_sealed_preview_digest a) (field "sealed_preview_digest")) then Err boundary else
  if negb (py_eq (VStr (ad_plan_digest a)) (field "plan_digest"))
     || negb (py_eq (VStr (ad_operation_set_digest a)) (field "operation_set_digest")) then Err boundary else
  if negb (py_eq (opt_str_value (ad_remote_snapshot_digest a)) (field "remote_snapshot_digest")) then Err boundary else
  if negb (truthy (ad_rule_registry_version a)) || negb (truthy (ad_rule_registry_digest a)) then Err boundary else
  if bool_decide (ad_rule_evaluations a = []) || negb (truthy (ad_created_at a)) then Err boundary else
  let! offset := match parse_iso (ad_created_at a) with
                 | Ok (_, offset) => Ok offset
                 | Err (ValueError _ | TypeError _) => Err boundary
                 | Err e => Err e
                 end in
  if negb (bool_decide (offset = Some 0%Z)) then Err boundary else
  let! malformed := any_r finding_malformed (ad_findings a) in
  if malformed then Err boundary else
  let! ids := py_iter (get_default canonical "evidence_ids" (VList [])) in
  let! refs := py_sorted (ad_evidence_refs a) in
  let! ids := py_sorted ids in
  if negb (py_eq (VList refs) (VList ids)) then Err boundary else
  let! distinct := set_distinct (ad_evidence_refs a) in
  if negb distinct then Err boundary else
  let! foreign := any_r foreign_finding_ref (ad_rule_evaluations a) in
  if foreign then Err boundary else
  let! untyped := any_r (λ e, let! rule := get_attr e "rule_id" in
                              Ok (negb (is_str rule) || negb (is_str (get e "outcome")))) (ad_rule_evaluations a) in
  if untyped then Err boundary else
  let outcomes := map (λ e, get e "outcome") (ad_rule_evaluations a) in
  if negb (bool_decide (ad_result a = expected_result outcomes)) then Err boundary else
  let! d := digest (_audit_projection a) in
  if negb (py_eq (VStr d) (ad_audit_payload_digest a)) then Err boundary else
  let! intact := audit_verify_digest a in
  if negb intact then Err boundary else Ok tt.

(** ** The context of an audit *)
Definition evidence_pairs (records : list pyval) : result (list (string * string)) :=
  map_r (λ r, let! i := str_at r "evidence_id" in let! d := str_at r "evidence_digest" in Ok (i, d)) records.
Definition pair_value (p : string * string) : pyval := VTuple [VStr (fst p); VStr (snd p)].

Definition build_audit_context_payload (workspace preview_id revision sealed : pyval)
    (evidence_records : list pyval) (registry_version registry_digest audit_scope : pyval) : result pyval :=
  let! pairs := evidence_pairs evidence_records in
  Ok (dict_of
    ([("workspace_identity", workspace); ("preview_id", preview_id); ("revision", revision);
      ("sealed_preview_digest", sealed); ("rule_registry_version", registry_version);
      ("rule_registry_digest", registry_digest); ("evidence", VList (map pair_value (sort_by fst pairs)))]
     ++ if bool_decide (audit_scope = VNone) then [] else [("audit_scope", audit_scope)])).

Definition compute_audit_context_digest (workspace preview_id revision sealed : pyval)
    (evidence_records : list pyval) (registry_version registry_digest audit_scope : pyval) : result string :=
  let! payload := build_audit_context_payload workspace preview_id revision sealed evidence_records registry_version
                    registry_digest audit_scope in
  digest payload.

(** ** The commit authority *)

(** [tuple(sorted((str(id), str(digest)) for record in records))] *)
Definition _evidence_bindings (records : list pyval) : result (list (string * string)) :=
  let! pairs := evidence_pairs records in Ok (sort_by fst (sort_by snd pairs)).

Definition _mint_audit_commit_authority (id : nat) (a : AuditRecord) (canonical : pyval) (evidence : list pyval)
    (backend_scope : string) : result AuditCommitAuthority :=
  let! bindings := _evidence_bindings evidence in
  Ok (CommitAuthority id _AUTHORITY_DOMAIN backend_scope (ad_workspace_identity a) (VStr (ad_audit_id a))
        (ad_audit_payload_digest a) (VStr (ad_preview_id a)) (VInt (ad_revision a)) (ad_audit_scope a)
        (ad_sealed_preview_digest a) (VStr (ad_plan_digest a)) (VStr (ad_operation_set_digest a))
        (opt_str_value (ad_remote_snapshot_digest a)) (ad_audit_context_digest a) (ad_rule_registry_version a)
        (ad_rule_registry_digest a) bindings (get canonical "repository_identity") (get canonical "remote_authority")).

(** [_verify_authority_identity]; [minted] are the authorities minted in this process that
    are still alive *)
Definition _verify_authority_identity (minted : list nat) (authority : AuditCommitAuthority) : result unit :=
  if bool_decide (ca_id authority ∈ minted) then Ok tt else Err boundary.

Definition authority_values (c : AuditCommitAuthority) : list pyval :=
  [ca_workspace_identity c; ca_audit_id c; ca_audit_payload_digest c; ca_preview_id c; ca_revision c;
   ca_audit_scope c; ca_sealed_preview_digest c; ca_plan_digest c; ca_operation_set_digest c;
   ca_remote_snapshot_digest c; ca_audit_context_digest c; ca_rule_registry_version c; ca_rule_registry_digest c;
   ca_repository_identity c; ca_remote_authority c].

(** [expected]: what minting for this candidate would bind *)
Definition authority_matches (c expected : AuditCommitAuthority) : bool :=
  bool_decide (ca_audit_backend_scope c = ca_audit_backend_scope expected)
  && py_eq (VList (authority_values c)) (VList (authority_values expected))
  && bool_decide (ca_evidence_bindings c = ca_evidence_bindings expected).

(** [canonical_bindings], against the authority and against the audit where it has the field *)
Definition canonical_matches (c : AuditCommitAuthority) (a : AuditRecord) (canonical : pyval) : bool :=
  let both authority_value audit_value k :=
    py_eq authority_value (get canonical k) && py_eq audit_value (get canonical k) in
  both (ca_workspace_identity c) (ad_workspace_identity a) "workspace_identity"
  && both (ca_preview_id c) (VStr (ad_preview_id a)) "preview_id"
  && both (ca_revision c) (VInt (ad_revision a)) "revision"
  && both (ca_audit_scope c) (ad_audit_scope a) "preview_level"
  && both (ca_sealed_preview_digest c) (ad_sealed_preview_digest a) "sealed_preview_digest"
  && both (ca_plan_digest c) (VStr (ad_plan_digest a)) "plan_digest"
  && both (ca_operation_set_digest c) (VStr (ad_operation_set_digest a)) "operation_set_digest"
  && both (ca_remote_snapshot_digest c) (opt_str_value (ad_remote_snapshot_digest a)) "remote_snapshot_digest"
  && py_eq (ca_repository_identity c) (get canonical "repository_identity")
  && py_eq (ca_remote_authority c) (get canonical "remote_authority").

Definition _verify_candidate (minted : list nat) (a : AuditRecord) (authority : AuditCommitAuthority)
    (canonical : pyval) (evidence : list pyval) (backend_scope : string) : result unit :=
  let! _ := _verify_authority_identity minted authority in
  if negb (bool_decide (authority_domain authority = _AUTHORITY_DOMAIN)) then Err boundary else
  if negb (bool_decide (ad_status a = ACTIVE)) then Err boundary else
  let! d := digest (_audit_projection a) in
  if negb (py_eq (ad_audit_payload_digest a) (VStr d)) then Err boundary else
  let! intact := audit_verify_digest a in
  if negb intact then Err boundary else
  let! expected := _mint_audit_commit_authority (ca_id authority) a canonical evidence backend_scope in
  if negb (authority_matches authority expected) then Err boundary else
  if negb (canonical_matches authority a canonical) then Err boundary else Ok tt.

(** ** [_validate_current_audit_context] *)
Definition _validate_current_audit_context (minted : list nat) (a : AuditRecord) (authority : AuditCommitAuthority)
    (preview : pyval) (evidence : list pyval) (promotion : option RuntimePromotion) (workspace : string)
  : result pyval :=
  let! _ := _verify_authority_identity minted authority in
  raise "sealed_preview_unavailable" when negb (is_mapping preview) ;
  let preview_id := VStr (ad_preview_id a) in
  let revision := VInt (ad_revision a) in
  raise "preview_identity_mismatch"
    when negb (py_eq (get preview "preview_id") preview_id) || negb (py_eq (get preview "revision") revision) ;
  let canonical := get preview "canonical_payload" in
  raise "sealed_preview_unavailable" when negb (is_mapping canonical) ;
  raise "preview_identity_mismatch"
    when negb (py_eq (get canonical "preview_id") preview_id) || negb (py_eq (get canonical "revision") revision)
         || negb (py_eq (get canonical "workspace_identity") (VStr workspace)) ;
  let! normalized :=
    _validate_preview_payload canonical (get preview "request_id") preview_id revision (VStr (ad_plan_digest a))
      (VStr (ad_operation_set_digest a)) (opt_str_value (ad_remote_snapshot_digest a))
      (get canonical "repository_identity") evidence workspace promotion in
  let! sealed := subscript normalized "sealed_preview_digest" in
  let! current := compute_audit_context_digest (VStr workspace) preview_id revision sealed evidence
                    (ad_rule_registry_version a) (ad_rule_registry_digest a) (get normalized "preview_level") in
  raise "audit_context_stale"
    when negb (py_eq (VStr current) (ad_audit_context_digest a))
         || negb (py_eq (VStr current) (ca_audit_context_digest authority)) ;
  Ok normalized.
End boundary.
