(* ===== verification/PreviewStore.v ===== *)
(** * The preview store (delivery_system/runtime.py, delivery_system/store_reads.py)

    [SQLitePreviewStore]: previews, evidence and approvals in the table [records], item
    lineage, and the event history of every audit.  The two keyed tables are finite maps;
    the events of an audit are a list in the order of their numbers, since every insertion
    is number one of a new audit or the successor of the largest number.  Times and reasons
    of events are written and never read.  An operation is a function to a result with the
    new tables: an exception before [commit] leaves the tables as they were. *)
From S2P Require Import Prelude PyValue Strings PyOps Canonical Receipts FormalPreview ExecutionStore.
From S2P Require Import AuditRecords Evidence Preflight Approvals PreviewValidation AuditBoundary.

(** [(workspace_identity, record_type, record_id, revision)] *)
Definition record_key : Type := string * string * string * Z.
(** [(workspace_identity, preview_id, revision, client_ref)] to the item id and tombstone *)
Definition lineage_key : Type := string * string * Z * string.

Record PreviewDb := MkPreviewDb {
  records : gmap record_key row;
  item_lineage : gmap lineage_key (pyval * bool);
  audit_history : gmap (string * string) (list row);
}.
#[export] Instance preview_db_eq_dec : EqDecision PreviewDb.
Proof. solve_decision. Defined.

Definition empty_preview_db : PreviewDb := MkPreviewDb ∅ ∅ ∅.

Definition put_record k r (db : PreviewDb) : PreviewDb :=
  MkPreviewDb (<[k := r]> (records db)) (item_lineage db) (audit_history db).
Definition put_lineage k v (db : PreviewDb) : PreviewDb :=
  MkPreviewDb (records db) (<[k := v]> (item_lineage db)) (audit_history db).
Definition put_history k l (db : PreviewDb) : PreviewDb :=
  MkPreviewDb (records db) (item_lineage db) (<[k := l]> (audit_history db)).

Definition insert_record (k : record_key) (r : row) (db : PreviewDb) : result PreviewDb :=
  if bool_decide (is_Some (records db !! k)) then Err (IntegrityError "records") else Ok (put_record k r db).
Definition insert_lineage (k : lineage_key) (item : pyval) (db : PreviewDb) : result PreviewDb :=
  if bool_decide (is_Some (item_lineage db !! k)) then Err (IntegrityError "item_lineage")
  else Ok (put_lineage k (item, false) db).

(** The events of an audit; event one, and the event after the last *)
Definition events (k : string * string) (db : PreviewDb) : list row := default [] (audit_history db !! k).
Definition insert_first_event (k : string * string) (r : row) (db : PreviewDb) : result PreviewDb :=
  match events k db with [] => Ok (put_history k [r] db) | _ => Err (IntegrityError "audit_history") end.
Definition append_event (k : string * string) (r : row) (db : PreviewDb) : PreviewDb :=
  put_history k (events k db ++ [r]) db.

(** [json.dumps(v, sort_keys=True)] as a row *)
Definition encode_row (v : pyval) : result row := let! d := json_encode v in Ok (Doc d).
(** [json.loads] *)
Definition decode_row : row → result pyval := load (λ v, Ok v).

(** [SELECT revision ... WHERE workspace_identity=? AND record_type=? AND record_id=?] *)
Definition revisions (ws rtype id : string) (db : PreviewDb) : list Z :=
  omap (λ p, match fst p with
             | (w, t, i, r) => if bool_decide (w = ws ∧ t = rtype ∧ i = id) then Some r else None
             end) (map_to_list (records db)).
Definition max_revision (l : list Z) : option Z :=
  foldr (λ z o, match o with Some m => Some (Z.max z m) | None => Some z end) None l.
Definition latest_revision (ws rtype id : string) (db : PreviewDb) : option Z := max_revision (revisions ws rtype id db).
Definition least_revision (ws rtype id : string) (db : PreviewDb) : option Z :=
  Z.opp <$> max_revision (map Z.opp (revisions ws rtype id db)).

(** A row of one record: at a revision, at the latest, at the least (primary key order) *)
Definition record_at (ws rtype id : string) (rev : Z) (db : PreviewDb) : option row := records db !! (ws, rtype, id, rev).
Definition record_of (rev : option Z) (ws rtype id : string) (db : PreviewDb) : option row :=
  match rev with Some r => record_at ws rtype id r db | None => None end.

(** The store object *)
Record SQLitePreviewStore := PStore {
  ps_workspace : string;
  ps_trust_context : option DriverTrustContext;
  ps_audit_backend_scope : string;
}.

(** A [str] bound to a TEXT column, an integer bound to an INTEGER column of 64 bits *)
Definition sql_text (v : pyval) : result string :=
  match v with VStr s => Ok s | _ => Err (Unmodelled "sql text") end.
Definition sql_int (v : pyval) : result Z :=
  match v with
  | VInt z => if (- 2 ^ 63 <=? z)%Z && (z <? 2 ^ 63)%Z then Ok z else Err OverflowError
  | VBool b => Ok (if b then 1 else 0)%Z
  | _ => Err (Unmodelled "sql integer")
  end.
Lemma sql_int_eq v z : sql_int v = Ok z → py_eq v (VInt z) = true.
Proof.
  destruct v as [|[]|x| | | | | | | |]; try discriminate; [by intros [= <-]..|].
  unfold sql_int. destruct (_ && _); [|discriminate]. intros [= <-]. apply Z.eqb_refl.
Qed.

(** [except ValueError: raise; except Exception as exc: raise ValueError(code) from exc] *)
Definition or_value_error {A} (code : string) (c : result A) : result A :=
  match c with
  | Ok a => Ok a
  | Err e => match e with
             | ValueError _ | JSONDecodeError | ProviderError _ | Unmodelled _ => Err e
             | _ => Err (ValueError code)
             end
  end.

Section store.
Context `{PyLib}.
Variable st : SQLitePreviewStore.
Notation ws := (ps_workspace st).

(** ** Reads *)

(** [result[k] = v] on a decoded document *)
Definition set_item (k : string) (v doc : pyval) : result pyval :=
  match doc with VDict _ => Ok (dict_set doc k v) | _ => Err (TypeError "item assignment") end.

Definition read_sqlite_preview_latest (id : string) (db : PreviewDb) : result pyval :=
  match latest_revision ws "preview" id db with
  | Some rev =>
      match record_at ws "preview" id rev db with
      | Some r => let! doc := decode_row r in set_item "revision" (VInt rev) doc
      | None => Err (ValueError "preview_not_found")
      end
  | None => Err (ValueError "preview_not_found")
  end.
Definition read_sqlite_preview_revision (id : string) (rev : Z) (db : PreviewDb) : result pyval :=
  match record_at ws "preview" id rev db with
  | Some r => decode_row r
  | None => Err (ValueError "preview_not_found")
  end.

Definition read_evidence (rev : option Z) (db : PreviewDb) (id : pyval) : result pyval :=
  let! id := sql_text id in
  let rev := match rev with Some r => Some r | None => latest_revision ws "evidence" id db end in
  match record_of rev ws "evidence" id db with
  | Some r => decode_row r
  | None => Err (ValueError "evidence_not_found")
  end.
Definition read_sqlite_evidence_records (ids : list pyval) (rev : option Z) (db : PreviewDb) : result (list pyval) :=
  map_r (read_evidence rev db) ids.

Definition get_evidence_records (workspace : string) (ids : list pyval) (db : PreviewDb) : result (list pyval) :=
  raise "evidence_workspace_mismatch" when negb (bool_decide (workspace = ws)) ;
  read_sqlite_evidence_records ids None db.

Definition get_preview_revision (workspace id : string) (rev : option Z) (db : PreviewDb) : result pyval :=
  raise "preview crosses Workspace boundary" when negb (bool_decide (workspace = ws)) ;
  let! doc := match rev with
              | None => read_sqlite_preview_latest id db
              | Some r => let! doc := read_sqlite_preview_revision id r db in set_item "revision" (VInt r) doc
              end in
  let! canonical := get_attr doc "canonical_payload" in
  if is_mapping canonical && py_eq (get canonical "preview_level") (VStr REPOSITORY_AWARE) then
    raise "driver_trust_context_required" when bool_decide (ps_trust_context st = None) ;
    let! ids := py_iter (get_default canonical "evidence_ids" (VList [])) in
    let! evidence := get_evidence_records workspace ids db in
    let! _ := _reload_promotion (ps_trust_context st) canonical evidence in
    Ok doc
  else Ok doc.
Definition get_preview (workspace id : string) (db : PreviewDb) : result pyval :=
  get_preview_revision workspace id None db.
Definition _read_preview_revision_for_status (workspace id : string) (rev : Z) (db : PreviewDb) : result pyval :=
  raise "preview crosses Workspace boundary" when negb (bool_decide (workspace = ws)) ;
  let! doc := read_sqlite_preview_revision id rev db in set_item "revision" (VInt rev) doc.

Definition resolve_item_id (workspace previous_preview client_ref : string) (rev : option Z) (db : PreviewDb)
  : result pyval :=
  raise "previous_client_ref crosses Workspace boundary" when negb (bool_decide (workspace = ws)) ;
  let rev := match rev with Some r => Some r | None => latest_revision ws "preview" previous_preview db end in
  match rev with
  | None => Err (ValueError "lineage_not_found")
  | Some r =>
      match item_lineage db !! (ws, previous_preview, r, client_ref) with
      | Some (item, false) => Ok item
      | _ => Err (ValueError "lineage_not_found")
      end
  end.

(** ** Audits *)
Definition audit_key (audit_id : string) : string * string := (ws, audit_id).

(** [AuditRecord.from_dict(json.loads(payload))] *)
Definition load_audit (r : row) : result AuditRecord := load audit_from_dict r.
Definition audit_row (a : AuditRecord) : result row := encode_row (audit_to_dict a).

Definition latest_event (audit_id : string) (db : PreviewDb) : result AuditRecord :=
  match last (events (audit_key audit_id) db) with
  | None => Err (ValueError "audit_not_found")
  | Some r => load_audit r
  end.

Definition get_audit (workspace audit_id : string) (db : PreviewDb) : result AuditRecord :=
  raise "audit_workspace_mismatch" when negb (bool_decide (workspace = ws)) ;
  latest_event audit_id db.

(** [ORDER BY audit_id, event_no]: the audits with events, by identity *)
Definition audit_ids (workspace : string) (db : PreviewDb) : list string :=
  sorted_strings
    (omap (λ p, if bool_decide (fst (fst p) = workspace ∧ snd p ≠ []) then Some (snd (fst p)) else None)
       (map_to_list (audit_history db))).

(** The last record of one audit; every event of it is read *)
Definition current_audit (workspace : string) (db : PreviewDb) (audit_id : string)
  : result (string * AuditRecord) :=
  let! l := map_r load_audit (events (workspace, audit_id) db) in
  match last l with Some a => Ok (audit_id, a) | None => Err (ValueError "audit_not_found") end.
Definition latest_audits (workspace : string) (db : PreviewDb) : result (list (string * AuditRecord)) :=
  map_r (current_audit workspace db) (audit_ids workspace db).
Definition _current_audits (workspace : string) (db : PreviewDb) : result (list AuditRecord) :=
  let! l := latest_audits workspace db in Ok (map snd l).

Definition of_preview (preview_id : string) (revision : Z) (a : AuditRecord) : bool :=
  bool_decide (ad_preview_id a = preview_id) && bool_decide (ad_revision a = revision).
Definition is_active (a : AuditRecord) : bool := bool_decide (ad_status a = ACTIVE).

Definition find_audit_by_payload (workspace preview_id : string) (revision : Z) (payload_digest : pyval)
    (db : PreviewDb) : result (option AuditRecord) :=
  let! l := _current_audits workspace db in
  Ok (List.find (λ a, of_preview preview_id revision a && py_eq (ad_audit_payload_digest a) payload_digest) l).

Definition list_active_audits (workspace preview_id : string) (revision : Z) (db : PreviewDb)
  : result (list AuditRecord) :=
  let! l := _current_audits workspace db in
  Ok (List.filter (λ a, of_preview preview_id revision a && is_active a) l).

(** [record_audit]: the legacy boundary takes no formal audit *)
Definition record_audit (a : AuditRecord) (db : PreviewDb) : result PreviewDb :=
  raise "audit_commit_boundary_required" when truthy (ad_audit_payload_digest a) ;
  let! valid := if is_active a then audit_verify_digest a else Ok false in
  raise "audit_record_invalid" when negb valid ;
  let! r := audit_row a in
  insert_first_event (audit_key (ad_audit_id a)) r db.

Definition commit_audit (a : AuditRecord) : result AuditRecord := Err boundary.

Definition transition_audit_status (audit_id : string) (status : AuditStatus) (db : PreviewDb)
  : result (AuditRecord * PreviewDb) :=
  let! current := latest_event audit_id db in
  let! updated := audit_transition status current in
  let! r := audit_row updated in
  Ok (updated, append_event (audit_key audit_id) r db).

(** ** [_apply_audit_commit_atomic] *)
Fixpoint stale_all (l : list (string * AuditRecord)) (a : AuditRecord) (workspace : string) (db : PreviewDb)
  : result PreviewDb :=
  match l with
  | [] => Ok db
  | (_, active) :: l' =>
      if of_preview (ad_preview_id a) (ad_revision a) active && is_active active then
        let! stale := audit_transition STALE active in
        let! r := audit_row stale in
        stale_all l' a workspace (append_event (workspace, ad_audit_id active) r db)
      else stale_all l' a workspace db
  end.

Definition existing_commit (l : list (string * AuditRecord)) (a : AuditRecord) : option AuditRecord :=
  List.find (λ v, of_preview (ad_preview_id a) (ad_revision a) v
                  && py_eq (ad_audit_payload_digest v) (ad_audit_payload_digest a) && is_active v) (map snd l).

Definition commit_transaction (minted : list nat) (a : AuditRecord) (authority : AuditCommitAuthority)
    (db : PreviewDb) : result (AuditRecord * PreviewDb) :=
  match latest_revision ws "preview" (ad_preview_id a) db with
  | None => Err (ValueError "preview_not_found")
  | Some latest =>
      raise "audit_context_stale" when negb (bool_decide (latest = ad_revision a)) ;
      let! preview := read_sqlite_preview_revision (ad_preview_id a) (ad_revision a) db in
      let! canonical := get_attr preview "canonical_payload" in
      raise "sealed_preview_unavailable" when negb (is_mapping canonical) ;
      let! ids := py_iter (get_default canonical "evidence_ids" (VList [])) in
      let! ids := map_r py_format ids in
      let! evidence := read_sqlite_evidence_records (map VStr ids) (Some (ad_revision a)) db in
      let! promotion := _reload_promotion (ps_trust_context st) canonical evidence in
      let! _ := _validate_current_audit_context minted a authority preview evidence promotion ws in
      let! _ := _verify_candidate minted a authority canonical evidence (ps_audit_backend_scope st) in
      let! workspace := sql_text (ad_workspace_identity a) in
      let! current := latest_audits workspace db in
      match existing_commit current a with
      | Some existing => Ok (existing, db)
      | None =>
          let! db := stale_all current a workspace db in
          raise "audit_persistence_failed" when bool_decide (ad_audit_id a ∈ map fst current) ;
          let! r := audit_row a in
          let! db := insert_first_event (workspace, ad_audit_id a) r db in
          Ok (a, db)
      end
  end.

Definition _apply_audit_commit_atomic (minted : list nat) (a : AuditRecord) (authority : AuditCommitAuthority)
    (db : PreviewDb) : result (AuditRecord * PreviewDb) :=
  or_value_error "audit_persistence_failed" (commit_transaction minted a authority db).

(** ** [_save_preview_revision_impl] *)
Definition preview_document (request_id preview_id : string) (revision : Z) (canonical : pyval) : pyval :=
  dict_of [("request_id", VStr request_id); ("preview_id", VStr preview_id); ("revision", VInt revision);
           ("canonical_payload", canonical)].

(** The checks before the transaction: the normalized document *)
Definition check_save (request_id preview_id : string) (revision : Z) (plan : string) (remote : option string)
    (operation_set : string) (repository : option string) (items : list pyval) (workspace : option string)
    (canonical : option pyval) (preview_level : option string) (evidence : list pyval)
    (promotion : option RuntimePromotion) : result pyval :=
  raise "workspace_identity_mismatch"
    when match workspace with Some w => negb (bool_decide (w = ws)) | None => false end ;
  match canonical with
  | None => Err (ValueError "sealed_preview_required")
  | Some canonical =>
      raise "preview_level_runtime_owned" when bool_decide (is_Some preview_level) ;
      let! normalized :=
        _validate_preview_payload canonical (VStr request_id) (VStr preview_id) (VInt revision) (VStr plan)
          (VStr operation_set) (opt_value_of remote) (opt_value_of repository) evidence ws promotion in
      let! level := _runtime_preview_level normalized in
      raise "preview_level_runtime_owned" when negb (py_eq (get normalized "preview_level") (VStr level)) ;
      raise "canonical_projection_mismatch" when negb (py_eq (get normalized "items") (VList items)) ;
      let! refs := map_r (λ item, get_attr item "client_ref") items in
      let! distinct := set_distinct refs in
      raise "preview_revision_write_failed" when negb distinct ;
      Ok normalized
  end.

Fixpoint insert_items (preview_id : string) (revision : Z) (items : list pyval) (db : PreviewDb) : result PreviewDb :=
  match items with
  | [] => Ok db
  | item :: items' =>
      let! client_ref := subscript item "client_ref" in
      let! item_id := subscript item "item_id" in
      let! client_ref := sql_text client_ref in
      let! _ := sql_text item_id in
      let! db := insert_lineage (ws, preview_id, revision, client_ref) item_id db in
      insert_items preview_id revision items' db
  end.

Fixpoint insert_evidence (revision : Z) (evidence : list pyval) (db : PreviewDb) : result PreviewDb :=
  match evidence with
  | [] => Ok db
  | e :: evidence' =>
      let! id := subscript e "evidence_id" in
      let! id := sql_text id in
      let! r := encode_row e in
      let! db := insert_record (ws, "evidence", id, revision) r db in
      insert_evidence revision evidence' db
  end.

(** An active audit of the preview whose binding the new revision changes *)
Definition binding_changed (data : pyval) (revision : Z) (plan : string) (remote : option string)
    (operation_set : string) : result bool :=
  let! r := subscript data "revision" in
  if negb (py_eq r (VInt revision)) then Ok true
  else
    let! p := subscript data "plan_digest" in
    if negb (py_eq p (VStr plan)) then Ok true
    else
      let! s := subscript data "remote_snapshot_digest" in
      if negb (py_eq s (opt_value_of remote)) then Ok true
      else
        let! o := subscript data "operation_set_digest" in
        Ok (negb (py_eq o (VStr operation_set))).

(** [AuditRecord(..)] of the first nine fields only; the others take their defaults *)
Definition rebuilt_audit (data : pyval) : result AuditRecord :=
  let! id := subscript data "audit_id" in
  let! preview := subscript data "preview_id" in
  let! rev := subscript data "revision" in
  let! plan := subscript data "plan_digest" in
  let! remote := subscript data "remote_snapshot_digest" in
  let! d := subscript data "audit_digest" in
  let! res := subscript data "result" in
  let! res := audit_result_of res in
  let! ops := subscript data "operation_set_digest" in
  let! status := subscript data "status" in
  let! status := audit_status_of status in
  let! rev := int_value rev in
  let! id := str_value id in
  let! preview := str_value preview in
  let! plan := str_value plan in
  let! d := str_value d in
  let! ops := str_value ops in
  let! remote := opt_value remote in
  audit_check (MkAudit id preview rev plan remote d res ops status (VStr "") (VStr "") (VStr CONCEPTUAL) (VStr "")
                 (VStr "") VNone VNone [] [] [] (VStr "")).

(** One row of the query for active audits: skipped unless its last event is active and of
    this preview *)
Definition stale_one (preview_id : string) (revision : Z) (plan : string) (remote : option string)
    (operation_set : string) (db : PreviewDb) (audit_id : string) : result PreviewDb :=
  match last (events (audit_key audit_id) db) with
  | None => Ok db
  | Some Garbage => Err (Unmodelled "malformed JSON")
  | Some (Doc data) =>
      if negb (py_eq (get data "status") (VStr "Active")) || negb (py_eq (get data "preview_id") (VStr preview_id))
      then Ok db
      else
        let! changed := binding_changed data revision plan remote operation_set in
        if negb changed then Ok db
        else
          let! current := rebuilt_audit data in
          let! stale := audit_transition STALE current in
          let! r := audit_row stale in
          Ok (append_event (audit_key audit_id) r db)
  end.

Fixpoint fold_r {A B} (f : B → A → result B) (l : list A) (b : B) : result B :=
  match l with [] => Ok b | x :: l' => let! b := f b x in fold_r f l' b end.

Definition save_transaction (request_id preview_id : string) (revision : Z) (plan : string) (remote : option string)
    (operation_set : string) (items evidence : list pyval) (normalized : pyval) (db : PreviewDb) : result PreviewDb :=
  let! encoded := encode_row (preview_document request_id preview_id revision normalized) in
  match record_at ws "preview" preview_id revision db with
  | Some existing =>
      match existing, encoded with
      | Doc a, Doc b => raise "preview_revision_conflict" when negb (same_text a b) ; Ok db
      | _, _ => Err (ValueError "preview_revision_conflict")
      end
  | None =>
      raise "preview_revision_conflict"
        when match latest_revision ws "preview" preview_id db with Some l => (revision <=? l)%Z | None => false end ;
      let! db := insert_items preview_id revision items db in
      let! db := insert_record (ws, "preview", preview_id, revision) encoded db in
      let! db := insert_evidence revision evidence db in
      fold_r (stale_one preview_id revision plan remote operation_set) (audit_ids ws db) db
  end.

Definition _save_preview_revision_impl (request_id preview_id : string) (revision : Z) (plan : string)
    (remote : option string) (operation_set : string) (repository : option string) (items : list pyval)
    (workspace : option string) (canonical : option pyval) (preview_level : option string) (evidence : list pyval)
    (promotion : option RuntimePromotion) (db : PreviewDb) : result PreviewDb :=
  let! normalized := check_save request_id preview_id revision plan remote operation_set repository items workspace
                       canonical preview_level evidence promotion in
  or_value_error "preview_revision_write_failed"
    (save_transaction request_id preview_id revision plan remote operation_set items evidence normalized db).

(** [save_preview_revision]: the entry without a promotion *)
Definition save_preview_revision (request_id preview_id : string) (revision : Z) (plan : string)
    (remote : option string) (operation_set : string) (repository : option string) (items : list pyval)
    (workspace : option string) (canonical : option pyval) (preview_level : option string) (evidence : list pyval)
    (db : PreviewDb) : result PreviewDb :=
  _save_preview_revision_impl request_id preview_id revision plan remote operation_set repository items workspace
    canonical preview_level evidence None db.

(** [_validate_promotion] *)
Definition _validate_promotion (p : RuntimePromotion) (preview_id : string) (revision : Z) (remote : option string)
    (workspace : option string) (canonical : option pyval) : result unit :=
  raise "workspace_identity_mismatch" when negb (bool_decide (workspace = Some ws)) ;
  raise "repository_aware_promotion_required"
    when negb (bool_decide (preview_id = ev_preview_id (pr_evidence_record p)))
         || negb (bool_decide (revision = ev_revision (pr_evidence_record p))) ;
  raise "remote_snapshot_digest_mismatch" when negb (bool_decide (remote = Some (pr_remote_snapshot_digest p))) ;
  match canonical with
  | Some (VDict d) =>
      let! authority := remote_authority (pr_trust_context p) in
      raise "driver_trust_context_mismatch" when negb (py_eq (get (VDict d) "remote_authority") (VStr authority)) ; Ok tt
  | _ => Err (ValueError "driver_trust_context_mismatch")
  end.

(** [_bind_and_save_repository_aware_preview]: the promotion is used up before the save, which
    may still fail *)
Definition _bind_and_save_repository_aware_preview (p : RuntimePromotion) (request_id preview_id : string)
    (revision : Z) (plan : string) (remote : option string) (operation_set : string) (repository : option string)
    (items : list pyval) (workspace : option string) (canonical : option pyval) (preview_level : option string)
    (evidence : list pyval) (db : PreviewDb) : RuntimePromotion * result PreviewDb :=
  match (raise "driver_trust_context_required" when bool_decide (ps_trust_context st = None) ;
         raise "driver_trust_context_mismatch"
           when negb (bool_decide (ps_trust_context st = Some (pr_trust_context p))) ;
         let! _ := _validate_promotion p preview_id revision remote workspace canonical in
         consume p) with
  | Err e => (p, Err e)
  | Ok used =>
      (used, _save_preview_revision_impl request_id preview_id revision plan remote operation_set repository items
               workspace canonical preview_level evidence (Some used) db)
  end.

(** ** Approvals *)
Definition approval_row (a : ApprovalRecord) : result row := encode_row (approval_to_dict a).
Definition load_approval (r : row) : result ApprovalRecord := load approval_from_dict r.

(** [existing.to_dict() == approval.to_dict()] *)
Definition same_approval (a b : ApprovalRecord) : bool := py_eq (approval_to_dict a) (approval_to_dict b).

(** On an [IntegrityError] the code reads the approval again: this transaction has just found
    no row of that identity, so the second read finds none either. *)
Definition approval_transaction (a : ApprovalRecord) (db : PreviewDb) : result PreviewDb :=
  let! audit_id := sql_text (ap_audit_id a) in
  let! audit := latest_event audit_id db in
  let! intact := audit_verify_digest audit in
  raise "approval_stale" when negb intact || negb (is_active audit) ;
  let! preview_id := sql_text (ap_preview_id a) in
  let! revision := sql_int (ap_revision a) in
  match record_at ws "preview" preview_id revision db with
  | None => Err (ValueError "preview_not_found")
  | Some r =>
      let! preview := decode_row r in
      let! bound := _validate_approval_against_current_preview a audit preview ws in
      raise "approval_binding_mismatch" when negb bound ;
      raise "approval_stale" when negb (bool_decide (latest_revision ws "preview" preview_id db = Some revision)) ;
      let! approval_id := sql_text (ap_approval_id a) in
      match record_of (latest_revision ws "approval" approval_id db) ws "approval" approval_id db with
      | Some r =>
          let! existing := load_approval r in
          raise "approval_binding_conflict" when negb (same_approval existing a) ; Ok db
      | None =>
          let! r := approval_row a in
          match insert_record (ws, "approval", approval_id, revision) r db with
          | Ok db => Ok db
          | Err (IntegrityError _) => Err (ValueError "approval_invalid")
          | Err e => Err e
          end
      end
  end.

Definition store_record_approval (a : ApprovalRecord) (db : PreviewDb) : result PreviewDb :=
  let! valid := is_structurally_valid a in
  raise "approval_invalid" when negb valid ;
  approval_transaction a db.

Definition get_approval (workspace approval_id : string) (db : PreviewDb) : result ApprovalRecord :=
  raise "approval_workspace_mismatch" when negb (bool_decide (workspace = ws)) ;
  match record_of (least_revision ws "approval" approval_id db) ws "approval" approval_id db with
  | None => Err (ValueError "approval_not_found")
  | Some r => load_approval r
  end.

(** [validate_approval_current]: any [ValueError] of the reads makes it false *)
Definition approval_current_checks (a : ApprovalRecord) (db : PreviewDb) : result bool :=
  let! audit_id := sql_text (ap_audit_id a) in
  let! audit := get_audit ws audit_id db in
  let! preview_id := sql_text (ap_preview_id a) in
  let! preview := get_preview ws preview_id db in
  if negb (is_int (get preview "revision")) || negb (py_eq (get preview "revision") (ap_revision a)) then Ok false
  else _validate_approval_against_current_preview a audit preview ws.

Definition validate_approval_current (a : ApprovalRecord) (db : PreviewDb) : result bool :=
  let! valid := is_structurally_valid a in
  if negb valid then Ok false
  else match approval_current_checks a db with
       | Ok b => Ok b
       | Err e => if is_value_error e then Ok false else Err e
       end.
End store.
