(* ===== verification/ApprovalService.v ===== *)
(** * The approval service (delivery_system/runtime.py)

    The part of [RuntimeApprovalAuthorityService] that records a human approval and reads its
    status, over the preview store.  [clock] is the host's time: the UTC time of an aware
    [datetime], or [None] for a naive one. *)
From S2P Require Import Prelude PyValue Strings PyOps Canonical Receipts FormalPreview ExecutionStore.
From S2P Require Import AuditRecords Approvals PreviewStore.

Record ApprovalService := MkApprovalService {
  as_store : SQLitePreviewStore;
  as_registry_version : string;
  as_registry_digest : string;
}.

Inductive ApprovalStatus := NO_CURRENT_APPROVAL | CURRENT (approval : pyval).

Section service.
Context `{PyLib}.
Variable svc : ApprovalService.
Notation store := (as_store svc).
Notation ws := (ps_workspace (as_store svc)).

Definition _approval_id (a : AuditRecord) : result string :=
  let! hex :=
    digest_hex (dict_of
      [("domain", VStr "delivery-system:human-approval:v1"); ("workspace_identity", ad_workspace_identity a);
       ("audit_id", VStr (ad_audit_id a)); ("audit_digest", VStr (ad_audit_digest a));
       ("preview_id", VStr (ad_preview_id a)); ("revision", VInt (ad_revision a))]) in
  Ok ("approval-" +:+ hex).

Definition _approval_digest (a : ApprovalRecord) : result string :=
  digest (dict_of [("domain", VStr "delivery-system:approval-binding:v1"); ("approval", approval_to_dict a)]).

Definition _utc (clock : option Z) : result string :=
  match clock with
  | None => Err (ValueError "approval_invalid")
  | Some t => Ok (py_replace "+00:00" "Z" (utc_isoformat t))
  end.

Definition _resolve_audit (preview_id : string) (revision : Z) (db : PreviewDb) : result (pyval * AuditRecord) :=
  let! preview :=
    match get_preview store ws preview_id db with
    | Ok p => Ok p
    | Err e => if is_value_error e then Err (ValueError "preview_not_found") else Err e
    end in
  raise "preview_stale" when negb (py_eq (get preview "revision") (VInt revision)) ;
  let! audits := list_active_audits ws preview_id revision db in
  match audits with
  | [] => Err (ValueError "audit_not_found")
  | [a] =>
      let! intact := audit_verify_digest a in
      raise "audit_stale" when negb intact ;
      raise "audit_not_approval_eligible" when negb (approval_eligible a) ;
      Ok (preview, a)
  | _ => Err (ValueError "approval_audit_ambiguous")
  end.

(** [record_approval] *)
Definition approval_candidate (preview_id : string) (revision : Z) (command claim : string) (clock : option Z)
    (db : PreviewDb) : result (AuditRecord * string * ApprovalRecord) :=
  let! (preview, audit) := _resolve_audit preview_id revision db in
  raise "approval_command_invalid"
    when negb (bool_decide (command = APPROVE_WRITE +:+ " " +:+ preview_id +:+ " " +:+ pretty revision)) ;
  let canonical := get preview "canonical_payload" in
  let repository := if is_mapping canonical then get canonical "repository_identity" else VNone in
  raise "approval_binding_mismatch" when negb (is_nonempty_str repository) ;
  let! id := _approval_id audit in
  let! now := _utc clock in
  let! candidate := approval_create (VStr id) audit repository (VStr claim) (VStr now) (VStr command) in
  Ok (audit, id, candidate).

Definition record_new_approval (audit : AuditRecord) (id : string) (candidate : ApprovalRecord) (db : PreviewDb)
  : result (ApprovalRecord * PreviewDb) :=
  raise "audit_stale"
    when negb (py_eq (ad_rule_registry_version audit) (VStr (as_registry_version svc)))
         || negb (py_eq (ad_rule_registry_digest audit) (VStr (as_registry_digest svc))) ;
  let! db := store_record_approval store candidate db in
  let! stored := get_approval store ws id db in
  Ok (stored, db).

Definition keep_approval (existing candidate : ApprovalRecord) (db : PreviewDb) : result (ApprovalRecord * PreviewDb) :=
  let! current := validate_approval_current store existing db in
  raise "approval_stale" when negb current ;
  raise "approval_binding_conflict"
    when negb (py_eq (without_key "approved_at" (approval_to_dict existing))
                     (without_key "approved_at" (approval_to_dict candidate))) ;
  Ok (existing, db).

Definition record_approval (preview_id revision command claim : pyval) (clock : option Z) (db : PreviewDb)
  : result (ApprovalRecord * PreviewDb) :=
  match preview_id, revision, command, claim with
  | VStr preview_id, VInt revision, VStr command, VStr claim =>
      raise "approval_invalid"
        when bool_decide (preview_id = "") || (revision <? 1)%Z || bool_decide (py_strip claim = "") ;
      let! (audit, id, candidate) := approval_candidate preview_id revision command (py_strip claim) clock db in
      match get_approval store ws id db with
      | Ok existing => keep_approval existing candidate db
      | Err e => if bool_decide (e = ValueError "approval_not_found") then record_new_approval audit id candidate db
                 else Err e
      end
  | _, _, _, _ => Err (ValueError "approval_invalid")
  end.

(** [get_approval_status] *)
Definition get_approval_status (preview_id revision : pyval) (db : PreviewDb) : result ApprovalStatus :=
  match preview_id, revision with
  | VStr preview_id, VInt revision =>
      raise "approval_invalid" when bool_decide (preview_id = "") || (revision <? 1)%Z ;
      let! (preview, audit) := _resolve_audit preview_id revision db in
      let! id := _approval_id audit in
      match get_approval store ws id db with
      | Err e => if bool_decide (e = ValueError "approval_not_found") then Ok NO_CURRENT_APPROVAL else Err e
      | Ok approval =>
          let! valid := is_structurally_valid approval in
          raise "approval_invalid" when negb valid ;
          raise "approval_invalid" when negb (py_eq (ap_approval_id approval) (VStr id)) ;
          let! current := validate_approval_current store approval db in
          raise "approval_stale" when negb current ;
          let! bound := _validate_approval_against_current_preview approval audit preview ws in
          raise "approval_stale" when negb bound ;
          Ok (CURRENT (approval_to_dict approval))
      end
  | _, _ => Err (ValueError "approval_invalid")
  end.
End service.
