(* ===== verification/Rules.v ===== *)
(** * The rule registry of the audit contract (delivery_system/rules.py)

    Rule definitions, the registry of version 1 with its digest, and the dictionaries the
    auditor builds over it. *)
From S2P Require Import Prelude PyValue Strings PyOps Canonical.

Inductive RuleCategory := RUNTIME_GATE | SEMANTIC.
#[export] Instance RuleCategory_eq_dec : EqDecision RuleCategory.
Proof. solve_decision. Defined.
Definition category_value (c : RuleCategory) : string :=
  match c with RUNTIME_GATE => "RuntimeGate" | SEMANTIC => "Semantic" end.

(** Both enumerations are [str] enumerations: a member equals its value. *)
Inductive SemanticOutcome := OUT_PASSED | OUT_FAILED | OUT_UNKNOWN | OUT_BLOCKED | OUT_NOT_APPLICABLE.
#[export] Instance SemanticOutcome_eq_dec : EqDecision SemanticOutcome.
Proof. solve_decision. Defined.
Definition outcome_value (o : SemanticOutcome) : string :=
  match o with
  | OUT_PASSED => "Passed" | OUT_FAILED => "Failed" | OUT_UNKNOWN => "Unknown" | OUT_BLOCKED => "Blocked"
  | OUT_NOT_APPLICABLE => "NotApplicable"
  end.

Inductive ResultClass :=
| WORK_ITEM_CONTENT_GAP | DECOMPOSITION_RISK | ACCEPTANCE_CRITERIA_GAP | ASSUMPTION_CLARITY_GAP | RELATIONSHIP_RISK
| DEPENDENCY_RISK | DUPLICATE_OVERLAP_RISK | MISSING_INFORMATION | SEMANTIC_BLOCKER.
Definition class_value (c : ResultClass) : string :=
  match c with
  | WORK_ITEM_CONTENT_GAP => "work_item_content_gap"
  | DECOMPOSITION_RISK => "decomposition_risk"
  | ACCEPTANCE_CRITERIA_GAP => "acceptance_criteria_gap"
  | ASSUMPTION_CLARITY_GAP => "assumption_clarity_gap"
  | RELATIONSHIP_RISK => "relationship_risk"
  | DEPENDENCY_RISK => "dependency_risk"
  | DUPLICATE_OVERLAP_RISK => "duplicate_overlap_risk"
  | MISSING_INFORMATION => "missing_information"
  | SEMANTIC_BLOCKER => "semantic_blocker"
  end.

(** [SemanticOutcome(s)] and [ResultClass(s)] *)
Definition semantic_outcome_of (s : string) : result SemanticOutcome :=
  match List.find (λ o, bool_decide (s = outcome_value o))
          [OUT_PASSED; OUT_FAILED; OUT_UNKNOWN; OUT_BLOCKED; OUT_NOT_APPLICABLE] with
  | Some o => Ok o
  | None => Err (ValueError "is not a valid SemanticOutcome")
  end.
Definition result_class_of (s : string) : result ResultClass :=
  match List.find (λ c, bool_decide (s = class_value c))
          [WORK_ITEM_CONTENT_GAP; DECOMPOSITION_RISK; ACCEPTANCE_CRITERIA_GAP; ASSUMPTION_CLARITY_GAP;
           RELATIONSHIP_RISK; DEPENDENCY_RISK; DUPLICATE_OVERLAP_RISK; MISSING_INFORMATION; SEMANTIC_BLOCKER] with
  | Some c => Ok c
  | None => Err (ValueError "is not a valid ResultClass")
  end.

Record RuleDefinition := MkRule {
  rule_id : string;
  rule_version : string;
  category : RuleCategory;
  mandatory : bool;
  applicability : string;
  allowed_outcomes : list string;
  input_scope : string;
  evaluation_contract : string;
  failed_result_class : option string;
  unknown_result_class : option string;
  blocked_result_class : option string;
}.

Definition class_field (o : option string) : pyval := match o with Some s => VStr s | None => VNone end.
Definition rule_to_dict (r : RuleDefinition) : pyval :=
  dict_of
    [("rule_id", VStr (rule_id r)); ("rule_version", VStr (rule_version r));
     ("category", VStr (category_value (category r))); ("mandatory", VBool (mandatory r));
     ("applicability", VStr (applicability r)); ("allowed_outcomes", VList (map VStr (allowed_outcomes r)));
     ("input_scope", VStr (input_scope r)); ("evaluation_contract", VStr (evaluation_contract r));
     ("failed_result_class", class_field (failed_result_class r));
     ("unknown_result_class", class_field (unknown_result_class r));
     ("blocked_result_class", class_field (blocked_result_class r))].

Record RuleRegistry := MkRegistry { registry_version : string; rules : list RuleDefinition }.

Definition runtime_rules (r : RuleRegistry) : list RuleDefinition :=
  List.filter (λ x, bool_decide (category x = RUNTIME_GATE)) (rules r).
Definition semantic_rules (r : RuleRegistry) : list RuleDefinition :=
  List.filter (λ x, bool_decide (category x = SEMANTIC)) (rules r).
Definition registry_get (r : RuleRegistry) (id : string) : result RuleDefinition :=
  match List.find (λ x, bool_decide (rule_id x = id)) (rules r) with
  | Some x => Ok x
  | None => Err (ValueError "invalid_input")
  end.

Definition registry_digest `{PyLib} (r : RuleRegistry) : result string :=
  digest (dict_of [("registry_version", VStr (registry_version r)); ("rules", VList (map rule_to_dict (rules r)))]).

(** ** [build_registry_v1] *)
Definition RUNTIME_RULE_IDS : list string :=
  ["RT-PREVIEW-SCHEMA"; "RT-PREVIEW-DIGESTS"; "RT-PREVIEW-REVISION-CURRENT"; "RT-PREVIEW-WORKSPACE";
   "RT-PREVIEW-REMOTE-BINDING"; "RT-PREVIEW-EVIDENCE-REFERENCES"; "RT-AUDIT-CONTEXT-FRESH"; "RT-AUDIT-COVERAGE"].

Definition _semantic (id contract scope failed applies version : string) : RuleDefinition :=
  MkRule id version SEMANTIC true applies ["Passed"; "Failed"; "Unknown"; "Blocked"] scope contract (Some failed)
    (Some (class_value MISSING_INFORMATION)) (Some (class_value SEMANTIC_BLOCKER)).

Definition gate (id : string) : RuleDefinition :=
  MkRule id "1.0" RUNTIME_GATE true "Always" ["Pass"; "Fail"] "Runtime-owned validation" "Runtime gate validation" None None
    None.

Definition semantic_rules_v1 : list RuleDefinition :=
  [_semantic "SEM-WORK-ITEM-COMPLETENESS"
     ("Checks that each Work Item satisfies its role-specific content contract, with explicit " +:+
      "Context/Problem, Outcome, Scope, Acceptance Criteria, and Verification; undeclared inference " +:+
      "is not treated as a user fact.")
     "Work Item fields and provenance" (class_value WORK_ITEM_CONTENT_GAP) "Applicable" "1.0";
   _semantic "SEM-WORK-ITEM-DECOMPOSITION"
     ("Checks that each Work Item represents one coherent, bounded, independently meaningful, and " +:+
      "verifiable governed outcome; one coherent outcome is not split merely across implementation " +:+
      "layers, files, modules, steps, or commits; independent governed outcomes are not collapsed; " +:+
      "decomposition stops before implementation fragments; bounded technical outcomes are valid; " +:+
      "and a shared capability is separate only when it is itself an independently governable and " +:+
      "verifiable outcome.")
     "Work Item collection, Scope, and Outcome" (class_value DECOMPOSITION_RISK) "Applicable" "1.1";
   _semantic "SEM-ACCEPTANCE-CRITERIA"
     ("Checks that Acceptance Criteria are observable, verifiable, and bounded, and that " +:+
      "Verification can prove the result rather than merely describe implementation steps.")
     "Acceptance Criteria and Verification" (class_value ACCEPTANCE_CRITERIA_GAP) "Applicable" "1.0";
   _semantic "SEM-ASSUMPTION-CLARITY"
     ("Checks that User Asserted, Model Proposed, and Model Assumption values remain distinct; " +:+
      "unconfirmed facts affecting scope, acceptance, or relationships must request clarification.")
     "Provenance and assumptions" (class_value ASSUMPTION_CLARITY_GAP) "Applicable" "1.0";
   _semantic "SEM-PARENT-SUBISSUE"
     ("Checks that a child genuinely serves a distinct parent integration/system outcome, that " +:+
      "hierarchy is necessary, that parent acceptance is not merely child completion, and that " +:+
      "there is no tracking-only container, semantic inversion, orphan child, or unreasonable " +:+
      "depth.")
     "Parent/Sub-issue candidates and relationships" (class_value RELATIONSHIP_RISK) "Runtime" "1.1";
   _semantic "SEM-DEPENDENCY"
     ("Checks that dependency direction, blocking cause, and necessity have evidence; " +:+
      "implementation-order proximity alone is insufficient.")
     "Dependency candidates and relationships" (class_value DEPENDENCY_RISK) "Runtime" "1.0";
   _semantic "SEM-DUPLICATE-OVERLAP"
     ("Uses current Remote Evidence to assess Duplicate, Partial Overlap, Related, or other " +:+
      "relationships; title, keyword overlap, or similarity alone cannot establish duplication.")
     "Remote Evidence and Work Items" (class_value DUPLICATE_OVERLAP_RISK) "Runtime" "1.0"].

Definition build_registry_v1 : RuleRegistry := MkRegistry "1.0" (map gate RUNTIME_RULE_IDS ++ semantic_rules_v1).

(** ** Dictionaries with string keys, in insertion order *)
Fixpoint dict_set {A} (k : string) (v : A) (d : list (string * A)) : list (string * A) :=
  match d with
  | [] => [(k, v)]
  | (k', w) :: d' => if bool_decide (k = k') then (k', v) :: d' else (k', w) :: dict_set k v d'
  end.
Fixpoint dict_get {A} (k : string) (d : list (string * A)) : option A :=
  match d with
  | [] => None
  | (k', v) :: d' => if bool_decide (k = k') then Some v else dict_get k d'
  end.

(** [{key(x): x for x in l}] *)
Definition dict_by {A} (key : A → string) (l : list A) : list (string * A) :=
  fold_left (λ d x, dict_set (key x) x d) l [].

Lemma dict_set_new {A} k (v : A) d : k ∉ map fst d → dict_set k v d = d ++ [(k, v)].
Proof.
  induction d as [|[k' w] d IH]; simpl; intros Hk; [done|]. apply not_elem_of_cons in Hk as [Hne Hk].
  rewrite bool_decide_eq_false_2 by done. by rewrite IH.
Qed.
Lemma dict_by_app {A} (key : A → string) l d :
  NoDup (map fst d ++ map key l) → fold_left (λ d x, dict_set (key x) x d) l d = d ++ map (λ x, (key x, x)) l.
Proof.
  revert d; induction l as [|x l IH]; intros d Hd; simpl; [by rewrite app_nil_r|].
  rewrite dict_set_new by (apply NoDup_app in Hd as (_ & Hd & _); intros Hx; apply (Hd _ Hx); by left).
  rewrite IH; [by rewrite <- app_assoc|]. rewrite map_app, <- app_assoc. exact Hd.
Qed.

(** Without repeated keys the dictionary is the list itself *)
Lemma dict_by_distinct {A} (key : A → string) l : NoDup (map key l) → dict_by key l = map (λ x, (key x, x)) l.
Proof. intros Hl. unfold dict_by. by rewrite dict_by_app. Qed.

Lemma dict_set_elem {A} (k k' : string) (v w : A) d : (k', w) ∈ dict_set k v d → (k', w) = (k, v) ∨ (k', w) ∈ d.
Proof.
  induction d as [|[k2 w2] d IH]; simpl.
  - rewrite elem_of_cons, elem_of_nil. naive_solver.
  - case_bool_decide; subst; rewrite !elem_of_cons; naive_solver.
Qed.

(** A dictionary built by a key maps each key to an element that has it *)
Lemma dict_by_elem {A} (key : A → string) l k v : (k, v) ∈ dict_by key l → k = key v ∧ v ∈ l.
Proof.
  assert (∀ d, (k, v) ∈ fold_left (λ d x, dict_set (key x) x d) l d → (k, v) ∈ d ∨ (k = key v ∧ v ∈ l)) as Hf.
  { induction l as [|x l IH]; intros d; simpl; [by left|]. intros [Hd|[-> Hin]]%IH.
    - apply dict_set_elem in Hd as [[= -> ->]|Hd]; [right; split; [done|by left]|by left].
    - right. split; [done|by right]. }
  intros [Hd|Hd]%Hf; [by apply elem_of_nil in Hd|done].
Qed.

Lemma dict_get_elem {A} (k : string) (v : A) d : dict_get k d = Some v → (k, v) ∈ d.
Proof.
  induction d as [|[k' w] d IH]; simpl; [done|]. case_bool_decide; [intros [= ->]; subst; by left|].
  intros Hd. right. by apply IH.
Qed.

(** The rules of version 1 have distinct identifiers, and every class a rule names exists *)
Lemma registry_v1_distinct : no_dups (map rule_id (rules build_registry_v1)) = true.
Proof. vm_compute. reflexivity. Qed.
Lemma registry_v1_classes :
  forallb (λ r, forallb (λ c, match c with Some s => is_ok (result_class_of s) | None => false end)
                  [failed_result_class r; unknown_result_class r; blocked_result_class r])
    (semantic_rules build_registry_v1) = true.
Proof. vm_compute. reflexivity. Qed.
