(* ===== verification/Auditor.v ===== *)
(** * The auditor (delivery_system/auditor.py, AuditContextService of delivery_system/runtime.py)

    Semantic decisions are drafts a model submits; the runtime checks them against the rule
    registry and the sealed preview, derives the audit record, validates the record once more
    and commits it.  The fields of drafts have their annotated types; an outcome or a result
    class is the text of the [str] enumeration member. *)
From S2P Require Import Prelude PyValue Strings PyOps Canonical FormalPreview Evidence WriteOperations Rules.
From S2P Require Import AuditRecords Preflight PreviewValidation AuditBoundary PreviewStore.

Record RuleEvaluationDraft := EvaluationDraft {
  re_rule_id : string;
  re_rule_version : string;
  re_outcome : string;
  re_rationale : string;
  re_finding_refs : list string;
  re_evidence_refs : list string;
}.

Record FindingDraft := MkFindingDraft {
  fd_finding_ref : string;
  fd_rule_id : string;
  fd_result_class : string;
  fd_severity : string;
  fd_title : string;
  fd_rationale : string;
  fd_evidence_refs : list string;
  fd_affected_item_ids : list string;
  fd_required_action : string;
  fd_suggested_resolution : option string;
}.

Definition SEVERITIES : list string := ["Blocker"; "High"; "Medium"; "Low"].

(** ** [_validate_audit_children]: every failure is the same error *)
Definition _EVALUATION_FIELDS : list string :=
  ["rule_id"; "rule_version"; "outcome"; "rationale"; "finding_refs"; "evidence_refs"].
Definition _FINDING_FIELDS : list string :=
  ["finding_id"; "rule_id"; "rule_version"; "outcome"; "result_class"; "severity"; "title"; "rationale";
   "evidence_refs"; "affected_item_ids"; "required_action"; "suggested_resolution"].

Definition text_list (v : pyval) : list string := map the_str (the_list v).
Definition distinct_texts (v : pyval) : bool := list_all is_nonempty_str v && no_dups (text_list v).

Definition evaluation_valid (entry : pyval) : bool :=
  is_mapping entry && keys_are _EVALUATION_FIELDS entry
  && forallb (λ k, is_nonempty_str (get entry k)) ["rule_id"; "rule_version"; "outcome"; "rationale"]
  && forallb (λ k, distinct_texts (get entry k)) ["finding_refs"; "evidence_refs"].

Definition finding_valid (finding : pyval) : bool :=
  is_mapping finding && keys_are _FINDING_FIELDS finding
  && forallb (λ k, is_nonempty_str (get finding k))
       ["finding_id"; "rule_id"; "rule_version"; "outcome"; "result_class"; "severity"; "title"; "rationale";
        "required_action"]
  && none_or is_str (get finding "suggested_resolution")
  && forallb (λ k, distinct_texts (get finding k)) ["evidence_refs"; "affected_item_ids"].

Definition _validate_audit_children (evaluations findings : list pyval) : result unit :=
  if forallb evaluation_valid evaluations && forallb finding_valid findings then Ok tt else Err boundary.

Section auditor.
Context `{PyLib}.

(** ** [build_finding_id] *)
Definition build_finding_id (workspace : pyval) (preview_id : string) (revision : Z)
    (rule version outcome result_class severity title rationale : string) (evidence_refs affected : list string)
    (required_action : string) (suggested : option string) : result string :=
  raise "invalid_input" when (revision <? 1)%Z ;
  raise "invalid_input"
    when negb (is_nonempty_str workspace)
         || existsb (λ s, bool_decide (s = "")) [preview_id; rule; version; severity; title; rationale; required_action] ;
  raise "invalid_input" when negb (bool_decide (severity ∈ SEVERITIES)) ;
  raise "invalid_input" when existsb (λ s, bool_decide (s = "")) (evidence_refs ++ affected) ;
  raise "invalid_input" when negb (no_dups evidence_refs) || negb (no_dups affected) ;
  let! outcome := semantic_outcome_of outcome in
  let! class := result_class_of result_class in
  let! h := digest_hex (dict_of
    [("domain", VStr "delivery-system:finding-id:v1"); ("workspace_identity", workspace);
     ("preview_id", VStr preview_id); ("revision", VInt revision); ("rule_id", VStr rule);
     ("rule_version", VStr version); ("outcome", VStr (outcome_value outcome));
     ("result_class", VStr (class_value class)); ("severity", VStr severity); ("title", VStr title);
     ("rationale", VStr rationale); ("evidence_refs", vstrs (sorted_strings evidence_refs));
     ("affected_item_ids", vstrs (sorted_strings affected)); ("required_action", VStr required_action);
     ("suggested_resolution", class_field suggested)]) in
  Ok ("finding_" +:+ h).

(** ** [rule_is_applicable] *)
Definition some_kind (kinds : list string) (relationships : pyval) : result bool :=
  let! l := py_iter relationships in
  any_r (λ value, let! kind := get_attr value "kind" in in_str_set kind kinds) l.

Definition rule_is_applicable (rule : RuleDefinition) (canonical : pyval) : result bool :=
  if bool_decide (applicability rule = "Applicable") then Ok true
  else
    let! relationships :=
      get_attr_default (get_default canonical "semantic_payload" (dict_of [])) "planned_relationships" (VList []) in
    if bool_decide (rule_id rule = "SEM-PARENT-SUBISSUE") then
      some_kind ["planned_parent"; "planned_parent_candidate"] relationships
    else if bool_decide (rule_id rule = "SEM-DEPENDENCY") then
      some_kind ["planned_dependency"; "planned_dependency_candidate"] relationships
    else if bool_decide (rule_id rule = "SEM-DUPLICATE-OVERLAP") then
      Ok (negb (py_eq (get canonical "preview_level") (VStr CONCEPTUAL)))
    else Ok false.

(** [{record[k] for record in l}] *)
Definition field_set (k : string) (l : list pyval) : result (list pyval) :=
  map_r (λ r, let! x := subscript r k in if hashable x then Ok x else Err (TypeError "unhashable")) l.
Definition item_id_set (canonical : pyval) : result (list pyval) :=
  let! items := py_iter (get_default canonical "items" (VList [])) in field_set "item_id" items.

(** The class the rule expects of a finding, by the outcome *)
Definition expected_class (rule : RuleDefinition) (outcome : SemanticOutcome) : option string :=
  match outcome with
  | OUT_FAILED => failed_result_class rule
  | OUT_UNKNOWN => unknown_result_class rule
  | OUT_BLOCKED => blocked_result_class rule
  | _ => None
  end.

Definition unknown_ref (known : list pyval) (ref : string) : bool := negb (existsb (py_eq (VStr ref)) known).

Definition rule_table (registry : RuleRegistry) : list (string * RuleDefinition) := dict_by rule_id (semantic_rules registry).

(** ** [validate_committed_audit]
    After [_validate_audit_children] the fields read below are texts and lists of texts. *)
Definition field_text (k : string) (v : pyval) : string := the_str (get v k).
Definition find_entry (k value : string) (l : list pyval) : option pyval :=
  List.find (λ e, bool_decide (field_text k e = value)) l.

(** One rule of the registry against its evaluation *)
Definition rule_covered (canonical : pyval) (evidence_ids evaluations : list pyval) (rule : RuleDefinition)
  : result unit :=
  match find_entry "rule_id" (rule_id rule) evaluations with
  | None => Err (KeyError (rule_id rule))
  | Some entry =>
      if negb (bool_decide (field_text "rule_version" entry = rule_version rule)) then Err boundary else
      let! applicable := rule_is_applicable rule canonical in
      let outcome := field_text "outcome" entry in
      if (if applicable
          then negb (bool_decide (outcome ∈ map outcome_value [OUT_PASSED; OUT_FAILED; OUT_UNKNOWN; OUT_BLOCKED]))
          else negb (bool_decide (outcome = outcome_value OUT_NOT_APPLICABLE))
               || negb (bool_decide (text_list (get entry "finding_refs") = []))
               || negb (bool_decide (text_list (get entry "evidence_refs") = []))) then Err boundary else
      if existsb (unknown_ref evidence_ids) (text_list (get entry "evidence_refs")) then Err boundary else Ok tt
  end.

(** The references of one evaluation *)
Definition references_valid (findings : list pyval) (entry : pyval) : bool :=
  let refs := text_list (get entry "finding_refs") in
  let clean := bool_decide (field_text "outcome" entry ∈ map outcome_value [OUT_PASSED; OUT_NOT_APPLICABLE]) in
  Bool.eqb clean (bool_decide (refs = []))
  && forallb (λ ref, match find_entry "finding_id" ref findings with
                     | Some finding => bool_decide (field_text "rule_id" finding = field_text "rule_id" entry)
                     | None => false
                     end) refs.

(** One finding against the rule and the evaluation it belongs to *)
Definition finding_covered (a : AuditRecord) (table : list (string * RuleDefinition))
    (evidence_ids item_ids evaluations : list pyval) (finding : pyval) : result unit :=
  let id := field_text "rule_id" finding in
  match dict_get id table, find_entry "rule_id" id evaluations with
  | Some rule, Some entry =>
      let outcome := field_text "outcome" entry in
      if bool_decide (outcome = outcome_value OUT_NOT_APPLICABLE) then Err boundary else
      if negb (bool_decide (field_text "rule_version" finding = rule_version rule))
         || negb (bool_decide (field_text "outcome" finding = outcome))
         || negb (bool_decide (field_text "severity" finding ∈ SEVERITIES)) then Err boundary else
      let! member := semantic_outcome_of outcome in
      if negb (bool_decide (expected_class rule member = Some (field_text "result_class" finding)))
         || existsb (unknown_ref evidence_ids) (text_list (get finding "evidence_refs"))
         || existsb (unknown_ref item_ids) (text_list (get finding "affected_item_ids")) then Err boundary else
      let! computed :=
        build_finding_id (ad_workspace_identity a) (ad_preview_id a) (ad_revision a) id (rule_version rule) outcome
          (field_text "result_class" finding) (field_text "severity" finding) (field_text "title" finding)
          (field_text "rationale" finding) (text_list (get finding "evidence_refs"))
          (text_list (get finding "affected_item_ids")) (field_text "required_action" finding)
          (the_opt_str (get finding "suggested_resolution")) in
      if negb (bool_decide (computed = field_text "finding_id" finding)) then Err boundary else Ok tt
  | _, _ => Err boundary
  end.

Fixpoint all_r {A} (f : A → result unit) (l : list A) : result unit :=
  match l with [] => Ok tt | x :: l' => let! _ := f x in all_r f l' end.

Definition committed_payload (a : AuditRecord) (version digest : string) : pyval :=
  dict_of
    [("workspace_identity", ad_workspace_identity a); ("preview_id", VStr (ad_preview_id a));
     ("revision", VInt (ad_revision a)); ("audit_scope", ad_audit_scope a);
     ("sealed_preview_digest", ad_sealed_preview_digest a); ("plan_digest", VStr (ad_plan_digest a));
     ("operation_set_digest", VStr (ad_operation_set_digest a));
     ("remote_snapshot_digest", opt_str_value (ad_remote_snapshot_digest a));
     ("audit_context_digest", ad_audit_context_digest a); ("rule_registry_version", VStr version);
     ("rule_registry_digest", VStr digest); ("semantic_evaluations", VList (ad_rule_evaluations a));
     ("findings", VList (ad_findings a)); ("result", VStr (result_value (ad_result a)))].

Definition validate_committed_audit (a : AuditRecord) (canonical : pyval) (evidence : list pyval)
    (registry : RuleRegistry) : result unit :=
  let evaluations := ad_rule_evaluations a in
  let findings := ad_findings a in
  let! _ := _validate_audit_children evaluations findings in
  let! d := registry_digest registry in
  let version := registry_version registry in
  if negb (py_eq (ad_rule_registry_version a) (VStr version)) || negb (py_eq (ad_rule_registry_digest a) (VStr d))
  then Err boundary else
  let! context := compute_audit_context_digest (ad_workspace_identity a) (VStr (ad_preview_id a)) (VInt (ad_revision a))
                    (ad_sealed_preview_digest a) evidence (VStr version) (VStr d) (ad_audit_scope a) in
  if negb (py_eq (ad_audit_context_digest a) (VStr context)) then Err boundary else
  let table := rule_table registry in
  let evaluated := map (field_text "rule_id") evaluations in
  if negb (no_dups evaluated) then Err boundary else
  if negb (same_set evaluated (map fst table)) then Err boundary else
  let! evidence_ids := field_set "evidence_id" evidence in
  let! item_ids := item_id_set canonical in
  let! _ := all_r (rule_covered canonical evidence_ids evaluations) (map snd table) in
  let ids := map (field_text "finding_id") findings in
  if negb (no_dups ids) then Err boundary else
  if negb (forallb (references_valid findings) evaluations) then Err boundary else
  let referenced := concat (map (λ e, text_list (get e "finding_refs")) evaluations) in
  if negb (bool_decide (sorted_strings referenced = sorted_strings ids)) then Err boundary else
  let! _ := all_r (finding_covered a table evidence_ids item_ids evaluations) findings in
  if negb (bool_decide (ad_result a = expected_result (map (λ e, get e "outcome") evaluations))) then Err boundary else
  let! payload := digest (committed_payload a version d) in
  if negb (py_eq (VStr payload) (ad_audit_payload_digest a)) then Err boundary else
  let! intact := audit_verify_digest a in
  if negb intact then Err boundary else Ok tt.

(** ** [validate_current_commit_context] *)
Definition validate_current_commit_context (a : AuditRecord) (envelope : pyval) (evidence : list pyval)
    (registry : RuleRegistry) (workspace : string) (promotion : option RuntimePromotion) : result unit :=
  if negb (bool_decide (ad_status a = ACTIVE)) then Err boundary else
  if negb (is_mapping envelope) || negb (keys_are ["request_id"; "preview_id"; "revision"; "canonical_payload"] envelope)
  then Err boundary else
  let request_id := get envelope "request_id" in
  let preview_id := get envelope "preview_id" in
  let revision := get envelope "revision" in
  let canonical := get envelope "canonical_payload" in
  if negb (is_nonempty_str request_id) || negb (is_nonempty_str preview_id) || negb (positive_int revision)
     || negb (is_mapping canonical) then Err boundary else
  let field := get canonical in
  if negb (py_eq request_id (field "request_id")) || negb (py_eq preview_id (field "preview_id"))
     || negb (py_eq revision (field "revision")) || negb (py_eq (ad_workspace_identity a) (VStr workspace))
     || negb (py_eq (VStr (ad_preview_id a)) preview_id) || negb (py_eq (VInt (ad_revision a)) revision)
     || negb (py_eq (ad_audit_scope a) (field "preview_level"))
     || negb (py_eq (VStr (ad_plan_digest a)) (field "plan_digest"))
     || negb (py_eq (VStr (ad_operation_set_digest a)) (field "operation_set_digest"))
     || negb (py_eq (opt_str_value (ad_remote_snapshot_digest a)) (field "remote_snapshot_digest"))
     || negb (py_eq (ad_sealed_preview_digest a) (field "sealed_preview_digest")) then Err boundary else
  let ids := field "evidence_ids" in
  if negb (distinct_texts ids)
     || negb (py_eq (VTuple (ad_evidence_refs a)) (VTuple (map VStr (sorted_strings (text_list ids))))) then Err boundary else
  if negb (is_str (field "plan_digest")) || negb (is_str (field "operation_set_digest")) then Err boundary else
  let! normalized :=
    _validate_preview_payload canonical request_id preview_id revision (field "plan_digest") (field "operation_set_digest")
      (field "remote_snapshot_digest") (field "repository_identity") evidence workspace promotion in
  if negb (py_eq normalized canonical) then Err boundary else
  let! _ := _validate_formal_audit_boundary a canonical workspace in
  let! _ := _validate_audit_children (ad_rule_evaluations a) (ad_findings a) in
  validate_committed_audit a canonical evidence registry.

(** ** [AuditContextService] *)
Record AuditContext := MkAuditContext {
  cx_preview_id : string;
  cx_revision : Z;
  cx_sealed_preview : pyval;
  cx_evidence_records : list pyval;
  cx_audit_context_digest : string;
}.

(** [sorted(evidence, key=lambda record: str(record["evidence_id"]))] *)
Definition sorted_evidence (evidence : list pyval) : result (list pyval) :=
  let! keyed := map_r (λ r, let! k := str_at r "evidence_id" in Ok (k, r)) evidence in
  Ok (map snd (sort_by fst keyed)).

Definition DIGEST_ERRORS : list string :=
  ["plan_digest_mismatch"; "operation_set_digest_mismatch"; "remote_snapshot_digest_mismatch";
   "sealed_preview_digest_mismatch"; "preview_identity_mismatch"].
Definition preview_digest_error {A} (c : result A) : result A :=
  match c with
  | Err (ValueError code) =>
      Err (ValueError (if bool_decide (code ∈ DIGEST_ERRORS) then "preview_digest_mismatch" else code))
  | _ => c
  end.

(** [workspace] is that of the runtime context, [trust] the trust context of the service: that of
    the store unless another is given *)
Definition audit_context (workspace : string) (st : SQLitePreviewStore) (trust : option DriverTrustContext)
    (preview_id : string) (revision : Z) (db : PreviewDb) : result AuditContext :=
  let! latest := get_preview st workspace preview_id db in
  raise "context_stale"
    when negb (is_int (get latest "revision")) || negb (py_eq (get latest "revision") (VInt revision)) ;
  let! preview := get_preview_revision st workspace preview_id (Some revision) db in
  let canonical := get preview "canonical_payload" in
  raise "sealed_preview_unavailable" when negb (is_mapping canonical) ;
  let! ids := py_iter (get_default canonical "evidence_ids" (VList [])) in
  let! ids := map_r py_format ids in
  let! evidence := get_evidence_records st workspace (map VStr ids) db in
  let! promotion := _reload_promotion (ps_trust_context st) canonical evidence in
  raise "driver_trust_context_mismatch"
    when match promotion with
         | Some p => negb (bool_decide (trust = Some (pr_trust_context p)))
         | None => false
         end ;
  let! _ := preview_digest_error
    (let! request_id := str_at preview "request_id" in
     let! plan := py_format (get canonical "plan_digest") in
     let! operation_set := py_format (get canonical "operation_set_digest") in
     _validate_preview_payload canonical (VStr request_id) (VStr preview_id) (VInt revision) (VStr plan)
       (VStr operation_set) (get canonical "remote_snapshot_digest") (get canonical "repository_identity") evidence
       workspace promotion) in
  let! sealed := subscript canonical "sealed_preview_digest" in
  let! d := compute_audit_context_digest (VStr workspace) (VStr preview_id) (VInt revision) sealed evidence VNone VNone VNone in
  let! evidence := sorted_evidence evidence in
  Ok (MkAuditContext preview_id revision canonical evidence d).

(** ** [RuntimeAuditor] *)
Record RuntimeAuditor := MkAuditor {
  au_workspace : string;
  au_store : SQLitePreviewStore;
  au_registry : RuleRegistry;
  au_trust_context : option DriverTrustContext;
}.

(** [__init__] *)
Definition make_auditor (workspace : string) (st : SQLitePreviewStore) (registry : RuleRegistry)
    (trust : option DriverTrustContext) : result RuntimeAuditor :=
  raise "driver_trust_context_mismatch"
    when bool_decide (is_Some trust) && negb (bool_decide (ps_trust_context st = trust)) ;
  Ok (MkAuditor workspace st registry match trust with Some t => Some t | None => ps_trust_context st end).

Record SemanticRuleContext := RuleContext {
  rc_rule_id : string;
  rc_rule_version : string;
  rc_applicability : string;
  rc_applicability_reason : string;
  rc_mandatory : bool;
  rc_input_scope : string;
  rc_evaluation_contract : string;
  rc_allowed_outcomes : list string;
  rc_allowed_result_classes : list string;
}.

Definition rule_context (canonical : pyval) (rule : RuleDefinition) : result SemanticRuleContext :=
  let! applicable := rule_is_applicable rule canonical in
  Ok (RuleContext (rule_id rule) (rule_version rule) (if applicable then "Applicable" else "NotApplicable")
        (if applicable then "required by registry" else "no matching relationship or remote evidence")
        (mandatory rule) (input_scope rule) (evaluation_contract rule) (allowed_outcomes rule)
        (omap id [failed_result_class rule; unknown_result_class rule; blocked_result_class rule])).

(** What [get_context] adds to the context of the service *)
Record AuditorContext := MkAuditorContext {
  ac_context : AuditContext;
  ac_audit_scope : pyval;
  ac_rule_registry_digest : string;
  ac_rule_contexts : list SemanticRuleContext;
  ac_audit_context_digest : string;
}.

Definition get_context (u : RuntimeAuditor) (preview_id : string) (revision : Z) (db : PreviewDb) : result AuditorContext :=
  raise "invalid_input" when (revision <? 1)%Z ;
  let! context := audit_context (au_workspace u) (au_store u) (au_trust_context u) preview_id revision db in
  let canonical := cx_sealed_preview context in
  let! contexts := map_r (rule_context canonical) (semantic_rules (au_registry u)) in
  let! scope := subscript canonical "preview_level" in
  let! d := registry_digest (au_registry u) in
  let! sealed := subscript canonical "sealed_preview_digest" in
  let! current :=
    compute_audit_context_digest (VStr (au_workspace u)) (VStr preview_id) (VInt revision) sealed
      (cx_evidence_records context) (VStr (registry_version (au_registry u))) (VStr d) scope in
  Ok (MkAuditorContext context scope d contexts current).

(** ** [_validate] *)
Definition find_draft (id : string) (l : list RuleEvaluationDraft) : option RuleEvaluationDraft :=
  List.find (λ e, bool_decide (re_rule_id e = id)) l.

(** The checks on all evaluations before the findings are looked at *)
Definition check_evaluations (registry : RuleRegistry) (contexts : list SemanticRuleContext) (evidence_ids : list pyval)
    (evaluations : list RuleEvaluationDraft) : result unit :=
  let table := rule_table registry in
  let submitted := map re_rule_id evaluations in
  raise "invalid_runtime_rule_submission"
    when existsb (λ id, bool_decide (id ∈ map rule_id (runtime_rules registry))) submitted ;
  raise "invalid_input" when existsb (λ id, bool_decide (id ∉ map fst table)) submitted ;
  raise "invalid_input" when negb (no_dups submitted) ;
  raise "invalid_not_applicable_submission"
    when existsb (λ e, bool_decide (re_outcome e = outcome_value OUT_NOT_APPLICABLE)) evaluations ;
  raise "invalid_input"
    when existsb (λ e, negb (bool_decide (Some (re_rule_version e) = rule_version <$> dict_get (re_rule_id e) table)))
           evaluations ;
  raise "invalid_input" when existsb (λ e, existsb (unknown_ref evidence_ids) (re_evidence_refs e)) evaluations ;
  all_r (λ c,
    let submitted_rule := bool_decide (rc_rule_id c ∈ submitted) in
    raise "audit_coverage_incomplete"
      when bool_decide (rc_applicability c = "Applicable") && rc_mandatory c && negb submitted_rule ;
    raise "invalid_input" when bool_decide (rc_applicability c = "NotApplicable") && submitted_rule ;
    Ok tt) (map snd (dict_by rc_rule_id contexts)).

(** [try: .. except ValueError: raise ValueError("invalid_input")] around the two conversions *)
Definition invalid_member {A} (c : result A) : result A :=
  match c with Err e => if is_value_error e then Err (ValueError "invalid_input") else Err e | _ => c end.

(** One finding: its reference and its identity *)
Definition identified_finding (workspace : string) (context : AuditContext) (table : list (string * RuleDefinition))
    (evidence_ids item_ids : list pyval) (evaluations : list RuleEvaluationDraft) (f : FindingDraft)
  : result (string * string) :=
  match find_draft (fd_rule_id f) evaluations, dict_get (fd_rule_id f) table with
  | Some e, Some rule =>
      raise "invalid_input" when existsb (unknown_ref item_ids) (fd_affected_item_ids f) ;
      raise "invalid_input" when existsb (unknown_ref evidence_ids) (fd_evidence_refs f) ;
      let! class := invalid_member (result_class_of (fd_result_class f)) in
      let! outcome := invalid_member (semantic_outcome_of (re_outcome e)) in
      raise "invalid_input" when negb (bool_decide (expected_class rule outcome = Some (class_value class))) ;
      raise "invalid_input" when negb (bool_decide (fd_severity f ∈ SEVERITIES)) ;
      let! id :=
        build_finding_id (VStr workspace) (cx_preview_id context) (cx_revision context) (fd_rule_id f) (rule_version rule)
          (outcome_value outcome) (class_value class) (fd_severity f) (fd_title f) (fd_rationale f) (fd_evidence_refs f)
          (fd_affected_item_ids f) (fd_required_action f) (fd_suggested_resolution f) in
      Ok (fd_finding_ref f, id)
  | _, _ => Err (ValueError "invalid_input")
  end.

(** The references of one evaluation to the submitted findings *)
Definition check_references (findings : list FindingDraft) (e : RuleEvaluationDraft) : result unit :=
  let! outcome := semantic_outcome_of (re_outcome e) in
  let refs := re_finding_refs e in
  raise "invalid_input"
    when bool_decide (outcome ∈ [OUT_FAILED; OUT_UNKNOWN; OUT_BLOCKED]) && bool_decide (refs = []) ;
  raise "invalid_input" when bool_decide (outcome = OUT_PASSED) && negb (bool_decide (refs = [])) ;
  raise "invalid_input"
    when existsb (λ ref, match List.find (λ f, bool_decide (fd_finding_ref f = ref)) findings with
                         | Some f => negb (bool_decide (fd_rule_id f = re_rule_id e))
                         | None => true
                         end) refs ;
  Ok tt.

Definition evaluation_entry (rule version : string) (outcome : SemanticOutcome) (rationale : string)
    (finding_refs evidence_refs : list string) : pyval :=
  dict_of
    [("rule_id", VStr rule); ("rule_version", VStr version); ("outcome", VStr (outcome_value outcome));
     ("rationale", VStr rationale); ("finding_refs", vstrs finding_refs); ("evidence_refs", vstrs evidence_refs)].

Definition draft_entry (ids : list (string * string)) (e : RuleEvaluationDraft) : result pyval :=
  let! outcome := semantic_outcome_of (re_outcome e) in
  let! refs := map_r (λ ref, match dict_get ref ids with Some id => Ok id | None => Err (KeyError ref) end)
                 (re_finding_refs e) in
  Ok (evaluation_entry (re_rule_id e) (re_rule_version e) outcome (re_rationale e) (sorted_strings refs)
        (sorted_strings (re_evidence_refs e))).

Definition not_applicable_entry (c : SemanticRuleContext) (rule : RuleDefinition) : pyval :=
  evaluation_entry (rc_rule_id c) (rule_version rule) OUT_NOT_APPLICABLE (rc_applicability_reason c) [] [].

(** The entries the runtime adds for the rules that do not apply *)
Definition not_applicable_entries (table : list (string * RuleDefinition)) (contexts : list SemanticRuleContext)
  : list pyval :=
  omap (λ c, if bool_decide (rc_applicability c = "NotApplicable")
             then not_applicable_entry c <$> dict_get (rc_rule_id c) table else None)
    (map snd (dict_by rc_rule_id contexts)).

Definition finding_entry (f : FindingDraft) (id version outcome : string) : pyval :=
  dict_of
    [("finding_id", VStr id); ("rule_id", VStr (fd_rule_id f)); ("rule_version", VStr version);
     ("outcome", VStr outcome); ("result_class", VStr (fd_result_class f)); ("severity", VStr (fd_severity f));
     ("title", VStr (fd_title f)); ("rationale", VStr (fd_rationale f));
     ("evidence_refs", vstrs (sorted_strings (fd_evidence_refs f)));
     ("affected_item_ids", vstrs (sorted_strings (fd_affected_item_ids f)));
     ("required_action", VStr (fd_required_action f));
     ("suggested_resolution", class_field (fd_suggested_resolution f))].

(** The lookups succeed: every finding was identified against its rule and evaluation *)
Definition draft_finding (ids : list (string * string)) (table : list (string * RuleDefinition))
    (evaluations : list RuleEvaluationDraft) (f : FindingDraft) : result pyval :=
  match dict_get (fd_finding_ref f) ids, dict_get (fd_rule_id f) table, find_draft (fd_rule_id f) evaluations with
  | Some id, Some rule, Some e => Ok (finding_entry f id (rule_version rule) (re_outcome e))
  | _, _, _ => Err (KeyError (fd_finding_ref f))
  end.

Definition _validate (u : RuntimeAuditor) (context : AuditorContext) (evaluations : list RuleEvaluationDraft)
    (findings : list FindingDraft) : result (list pyval * list pyval) :=
  let table := rule_table (au_registry u) in
  let base := ac_context context in
  let! evidence_ids := field_set "evidence_id" (cx_evidence_records base) in
  let! _ := check_evaluations (au_registry u) (ac_rule_contexts context) evidence_ids evaluations in
  let refs := map fd_finding_ref findings in
  raise "invalid_input" when negb (no_dups refs) ;
  let! item_ids := item_id_set (cx_sealed_preview base) in
  let! ids := map_r (identified_finding (au_workspace u) base table evidence_ids item_ids evaluations) findings in
  raise "invalid_input" when negb (no_dups (map snd ids)) ;
  let! _ := all_r (check_references findings) evaluations in
  raise "invalid_input" when negb (same_set (concat (map re_finding_refs evaluations)) refs) ;
  let! submitted := map_r (draft_entry ids) evaluations in
  let! entries := map_r (draft_finding ids table evaluations) findings in
  Ok (sort_by (field_text "rule_id") (submitted ++ not_applicable_entries table (ac_rule_contexts context)),
      sort_by (field_text "finding_id") entries).

(** ** [record_audit]
    [uuid] is [uuid4().hex], [now] the host's time in UTC as text, and [token] the identity of
    the commit authority minted for the candidate. *)
Definition is_sha256 (s : string) : bool :=
  match strip_prefix "sha256:" s with
  | Some h => all_bytes is_lower_hex h && (String.length h =? 64)
  | None => false
  end.

Definition audit_payload (u : RuntimeAuditor) (context : AuditorContext) (expected : string)
    (evaluations findings : list pyval) (res : AuditResult) : result pyval :=
  let sealed := cx_sealed_preview (ac_context context) in
  let! sealed_digest := subscript sealed "sealed_preview_digest" in
  let! plan := subscript sealed "plan_digest" in
  let! operation_set := subscript sealed "operation_set_digest" in
  Ok (dict_of
    [("workspace_identity", VStr (au_workspace u)); ("preview_id", VStr (cx_preview_id (ac_context context)));
     ("revision", VInt (cx_revision (ac_context context))); ("audit_scope", ac_audit_scope context);
     ("sealed_preview_digest", sealed_digest); ("plan_digest", plan); ("operation_set_digest", operation_set);
     ("remote_snapshot_digest", get sealed "remote_snapshot_digest"); ("audit_context_digest", VStr expected);
     ("rule_registry_version", VStr (registry_version (au_registry u)));
     ("rule_registry_digest", VStr (ac_rule_registry_digest context)); ("semantic_evaluations", VList evaluations);
     ("findings", VList findings); ("result", VStr (result_value res))]).

(** The record built from the checked drafts *)
Definition audit_candidate (u : RuntimeAuditor) (context : AuditorContext) (expected uuid now : string)
    (evaluations findings : list pyval) : result AuditRecord :=
  let res := expected_result (map (λ e, get e "outcome") evaluations) in
  let! payload := audit_payload u context expected evaluations findings res in
  let! payload_digest := digest payload in
  let! refs := map_r (λ r, subscript r "evidence_id") (cx_evidence_records (ac_context context)) in
  let! refs := py_sorted refs in
  let! plan := str_value (get payload "plan_digest") in
  let! operation_set := str_value (get payload "operation_set_digest") in
  let! remote := opt_value (get payload "remote_snapshot_digest") in
  audit_create
    (MkAudit ("audit-" +:+ uuid) (cx_preview_id (ac_context context)) (cx_revision (ac_context context)) plan remote
       "pending" res operation_set ACTIVE (get payload "sealed_preview_digest") (VStr (au_workspace u))
       (ac_audit_scope context) (VStr payload_digest) (VStr expected) (VStr (registry_version (au_registry u)))
       (VStr (ac_rule_registry_digest context)) evaluations findings refs (VStr now)).

Definition auditor_record_audit (u : RuntimeAuditor) (minted : list nat) (token : nat) (uuid now preview_id : string)
    (revision : Z) (expected : string) (evaluations : list RuleEvaluationDraft) (findings : list FindingDraft)
    (db : PreviewDb) : result (AuditRecord * PreviewDb) :=
  raise "invalid_input" when (revision <? 1)%Z ;
  raise "invalid_input" when negb (is_sha256 expected) ;
  let! context := get_context u preview_id revision db in
  raise "audit_context_stale" when negb (bool_decide (expected = ac_audit_context_digest context)) ;
  let! (entries, finding_entries) := _validate u context evaluations findings in
  let! a := audit_candidate u context expected uuid now entries finding_entries in
  let base := ac_context context in
  let! _ := validate_committed_audit a (cx_sealed_preview base) (cx_evidence_records base) (au_registry u) in
  let! authority :=
    _mint_audit_commit_authority token a (cx_sealed_preview base) (cx_evidence_records base)
      (ps_audit_backend_scope (au_store u)) in
  _apply_audit_commit_atomic (au_store u) (token :: minted) a authority db.
End auditor.
