(* ===== verification/AttestationRecords.v ===== *)
(** * Stored attestations (delivery_system/attestation_persistence.py)

    The records an attestation leaves behind: the artifact that holds the verified claims
    with their proof, the reference that ties it to the binding it was verified for, and the
    events of later revalidations; then the boundary that hands out revalidation attempts.
    A record is built from a dict of dynamic values or from another record, whose fields are
    all checked again.  [PersistenceContractError] is the [ValueError] of one of three codes
    here, which [from_untrusted] lets through; every other exception becomes the second. *)
From S2P Require Import Prelude PyValue Strings PyOps Canonical AuditRecords SafeText AuthorityBinding Attestation.
From Stdlib Require Import Ascii.

Definition ARTIFACT_CONTRACT_VERSION : string := "offline-attestation-artifact-v1".
Definition REFERENCE_CONTRACT_VERSION : string := "attestation-binding-reference-v1".
Definition REFERENCE_V2_CONTRACT_VERSION : string := "attestation-binding-reference-v2".
Definition EVENT_IDENTITY_VERSION : string := "1".
Definition EVENT_PAYLOAD_VERSION : string := "1".
Definition ARTIFACT_ID_DOMAIN : string := "delivery-system:attestation-artifact-identity:v1".
Definition ARTIFACT_CONTENT_DOMAIN : string := "delivery-system:attestation-artifact-content:v1".
Definition REFERENCE_ID_DOMAIN : string := "delivery-system:attestation-binding-reference-identity:v1".
Definition REFERENCE_CONTENT_DOMAIN : string := "delivery-system:attestation-binding-reference-content:v1".
Definition EVENT_ID_DOMAIN : string := "delivery-system:attestation-revalidation-event-identity:v1".
Definition EVENT_CONTENT_DOMAIN : string := "delivery-system:attestation-revalidation-event-content:v1".
Definition ATTEMPT_CONTRACT_VERSION : string := "revalidation-attempt-v1".

Definition ATTESTATION_REVALIDATION_FAILURE_CODES : list string :=
  ["attestation_revalidation_preview_stale"; "attestation_revalidation_audit_stale";
   "attestation_revalidation_evidence_mismatch"; "attestation_revalidation_expired"; "attestation_revalidation_revoked";
   "attestation_revalidation_verifier_unavailable"; "attestation_revalidation_revocation_unavailable";
   "attestation_signature_invalid"; "credential_capability_insufficient"].

Definition PAYLOAD_INVALID : string := "attestation_persistence_payload_invalid".
Definition TYPE_INVALID : string := "attestation_persistence_type_invalid".
Definition KEYSET_INVALID : string := "attestation_persistence_keyset_invalid".

(** [^attempt-[0-9a-f]{32}$] and the identifiers made of a digest *)
Definition ATTEMPT_RE (s : string) : bool :=
  match strip_prefix "attempt-" s with Some r => (String.length r =? 32) && all_bytes is_lower_hex r | None => false end.
Definition EVENT_RE : string → bool := prefixed_hex "revalidation-event-".
Definition REFERENCE_RE : string → bool := prefixed_hex "binding-reference-".

(** [except PersistenceContractError: raise except Exception: _error(...)] *)
Definition is_contract_error (e : exn) : bool :=
  match e with ValueError code => bool_decide (code ∈ [PAYLOAD_INVALID; TYPE_INVALID; KEYSET_INVALID]) | _ => false end.
Definition contract_error {A} (c : result A) : result A :=
  match c with
  | Ok a => Ok a
  | Err (Unmodelled what) => Err (Unmodelled what)
  | Err e => if is_contract_error e then Err e else Err (ValueError PAYLOAD_INVALID)
  end.
(** [except Exception: _error(...)] *)
Definition payload_error {A} (c : result A) : result A :=
  match c with Ok a => Ok a | Err (Unmodelled what) => Err (Unmodelled what) | Err _ => Err (ValueError PAYLOAD_INVALID) end.

(** ** The records *)
Record Artifact := MkArtifact {
  ar_artifact_id : string;
  ar_workspace_identity : string;
  ar_attestation_id : string;
  ar_claims : Claims;
  ar_detached_proof : string;
  ar_claims_digest : string;
  ar_artifact_digest : string;
  ar_original_verified_at : string;
  ar_created_at : string;
}.
#[export] Instance artifact_eq_dec : EqDecision Artifact.
Proof. solve_decision. Defined.

Record Reference := MkReference {
  rf_contract_version : string;
  rf_reference_id : string;
  rf_workspace_identity : string;
  rf_artifact_id : string;
  rf_artifact_digest : string;
  rf_binding_id : string;
  rf_repository_identity : string;
  rf_github_subject_identity : string;
  rf_driver_identity : string;
  rf_remote_authority : string;
  rf_preview_id : string;
  rf_revision : Z;
  rf_plan_digest : string;
  rf_sealed_preview_digest : string;
  rf_operation_set_digest : string;
  rf_remote_snapshot_digest : string;
  rf_audit_id : string;
  rf_audit_digest : string;
  rf_evidence_id : string;
  rf_evidence_digest : string;
  rf_original_verified_at : string;
  rf_binding_reference_digest : string;
  rf_credential_principal_identity : string;
  rf_challenge_digest : string;
}.
#[export] Instance reference_eq_dec : EqDecision Reference.
Proof. solve_decision. Defined.

(** The versions of an event are constants of one that was built. *)
Record Event := MkEvent {
  re_event_id : string;
  re_workspace_identity : string;
  re_artifact_id : string;
  re_artifact_digest : string;
  re_attempt_id : string;
  re_context_digest : string;
  re_reference_digest : string;
  re_outcome : string;
  re_revalidated_at : string;
  re_failure_code : option string;
  re_result_digest : option string;
  re_payload_digest : string;
}.
#[export] Instance event_eq_dec : EqDecision Event.
Proof. solve_decision. Defined.

Definition ARTIFACT_FIELDS : list string :=
  ["artifact_contract_version"; "artifact_id"; "workspace_identity"; "attestation_id"; "claims_payload"; "detached_proof";
   "claims_digest"; "artifact_digest"; "original_verified_at"; "created_at"].
Definition REFERENCE_CONTENT_FIELDS : list string :=
  ["workspace_identity"; "artifact_id"; "artifact_digest"; "binding_id"; "repository_identity"; "github_subject_identity";
   "driver_identity"; "remote_authority"; "preview_id"; "revision"; "plan_digest"; "sealed_preview_digest";
   "operation_set_digest"; "remote_snapshot_digest"; "audit_id"; "audit_digest"; "evidence_id"; "evidence_digest";
   "original_verified_at"].
Definition REFERENCE_EXTENSION_FIELDS : list string := ["credential_principal_identity"; "challenge_digest"].
Definition REFERENCE_FIELDS : list string :=
  ["reference_contract_version"; "reference_id"] ++ REFERENCE_CONTENT_FIELDS ++ ["binding_reference_digest"]
  ++ REFERENCE_EXTENSION_FIELDS.
Definition EVENT_FIELDS : list string :=
  ["event_identity_version"; "event_payload_version"; "event_id"; "workspace_identity"; "artifact_id"; "artifact_digest";
   "revalidation_attempt_id"; "revalidation_context_digest"; "binding_reference_digest"; "outcome"; "revalidated_at";
   "failure_code"; "result_digest"; "event_payload_digest"].
Definition opt_text (o : option string) : pyval := match o with Some s => VStr s | None => VNone end.

Section records.
Context `{PyLib}.
(** [isoformat(timespec="microseconds")] of a time in UTC *)
Variable isoformat_micros : Z → string.

(** ** [_text], [_integer], [_digest_value], [_timestamp], [_prefixed_id], [_sha_id] *)
Definition stored_text (v : pyval) : result string :=
  match v with
  | VStr s =>
      raise TYPE_INVALID when bool_decide (s = "") ;
      let normalized := text s in
      raise PAYLOAD_INVALID when bool_decide (normalized = "") || negb (no_control normalized) ; Ok normalized
  | _ => Err (ValueError TYPE_INVALID)
  end.
Definition stored_integer (v : pyval) : result Z :=
  match v with
  | VInt z => raise TYPE_INVALID when (z <? 1)%Z ; Ok z
  | _ => Err (ValueError TYPE_INVALID)
  end.
Definition prefixed_id (re : string → bool) (v : pyval) : result string :=
  match v with
  | VStr s => raise PAYLOAD_INVALID when negb (re s) ; Ok s
  | _ => Err (ValueError PAYLOAD_INVALID)
  end.
Definition stored_digest (v : pyval) : result string := prefixed_id DIGEST_RE v.
Definition micros_text (t : Z) : string := py_replace "+00:00" "Z" (isoformat_micros t).
Definition stored_timestamp (v : pyval) : result string :=
  match v with
  | VStr s =>
      match fromisoformat (replace_Z s) with
      | Some (t, Some offset) => Ok (micros_text (t - offset))
      | _ => Err (ValueError PAYLOAD_INVALID)
      end
  | _ => Err (ValueError TYPE_INVALID)
  end.
(** [datetime.fromisoformat(s.replace("Z", "+00:00"))], compared with other aware times *)
Definition stored_time (s : string) : result Z :=
  let! (t, o) := parse_iso (VStr s) in
  match o with Some offset => Ok (t - offset)%Z | None => Err (Unmodelled "local time") end.
Definition sha_id (domain : string) (payload : pyval) (prefix : string) : result string :=
  let! h := digest_hex (dict_of [("domain", VStr domain); ("payload", payload)]) in Ok (prefix +:+ h).

(** ** [_claims_fields], [_claims_object] and [_claims_payload] *)
Definition CLAIM_DIGESTS : list string :=
  ["remote_authority"; "operation_set_digest"; "remote_snapshot_digest"; "evidence_digest"; "source_verification_digest";
   "challenge_digest"].

(** The fields and where they are read: a claims object, or a dict with its domain *)
Definition claims_source (value : Claims + pyval) : result (list string * pyval) :=
  match value with
  | inl c => Ok (if claims_v2 c then V2_CLAIMS_FIELDS else V1_CLAIMS_FIELDS, claims_fields c)
  | inr outer =>
      raise TYPE_INVALID when negb (is_mapping outer) ;
      raise KEYSET_INVALID when negb (keys_are ["domain"; "claims"] outer) ;
      match get outer "domain" with
      | VStr domain =>
          let fields := if bool_decide (domain = ATTESTATION_V2_DOMAIN) then V2_CLAIMS_FIELDS else V1_CLAIMS_FIELDS in
          raise PAYLOAD_INVALID when negb (bool_decide (domain ∈ [ATTESTATION_DOMAIN; ATTESTATION_V2_DOMAIN])) ;
          raise KEYSET_INVALID when negb (keys_are fields (get outer "claims")) ; Ok (fields, get outer "claims")
      | _ => Err (ValueError TYPE_INVALID)
      end
  end.

Definition claim_field (source : pyval) (field : string) : result (string * pyval) :=
  let v := get source field in
  if bool_decide (field = "revision") then let! _ := stored_integer v in Ok (field, v)
  else if bool_decide (field ∈ CLAIM_DIGESTS) then let! _ := stored_digest v in Ok (field, v)
  else if bool_decide (field ∈ ["issued_at"; "expires_at"]) then let! s := stored_timestamp v in Ok (field, VStr s)
  else let! s := stored_text v in Ok (field, VStr s).

Definition claim_capabilities (v : pyval) : result (list string) :=
  match v with
  | VList items =>
      raise PAYLOAD_INVALID when bool_decide (items = []) || negb (forallb is_str items) ;
      let! texts := map_r stored_text items in
      raise PAYLOAD_INVALID when negb (no_dups (sorted_strings texts)) ; Ok (sorted_strings texts)
  | _ => Err (ValueError TYPE_INVALID)
  end.

Definition _claims_fields (value : Claims + pyval) : result Claims :=
  let! (fields, source) := claims_source value in
  let! granted := claim_capabilities (get source "granted_capabilities") in
  let! checked := map_r (claim_field source) (List.filter (λ f, negb (bool_decide (f = "granted_capabilities"))) fields) in
  let raw := dict_of (("granted_capabilities", VTuple (map VStr granted)) :: checked) in
  raise PAYLOAD_INVALID
    when negb (existsb (λ v, py_eq (get raw "attestation_version") (VStr v)) [ATTESTATION_VERSION_V1; ATTESTATION_VERSION_V2])
         || negb (existsb (λ a, py_eq (get raw "signature_algorithm") (VStr a)) SUPPORTED_SIGNATURE_ALGORITHMS) ;
  payload_error (make_claims raw).

(** Both build the claims once more from their fields. *)
Definition _claims_object (value : Claims + pyval) : result Claims :=
  let! c := _claims_fields value in payload_error (make_claims (claims_fields c)).
Definition _claims_payload (value : Claims + pyval) : result pyval :=
  let! c := _claims_fields value in
  let! c := make_claims (claims_fields c) in Ok (claims_to_payload c).

(** ** [PersistedAttestationArtifact] *)
Definition artifact_content (workspace attestation_id : string) (claims_payload : pyval)
    (proof claims_digest original created : string) : pyval :=
  dict_of [("domain", VStr ARTIFACT_CONTENT_DOMAIN); ("artifact_contract_version", VStr ARTIFACT_CONTRACT_VERSION);
           ("workspace_identity", VStr workspace); ("attestation_id", VStr attestation_id);
           ("claims_payload", claims_payload); ("detached_proof", VStr proof); ("claims_digest", VStr claims_digest);
           ("original_verified_at", VStr original); ("created_at", VStr created)].

Definition artifact_identity (workspace attestation_id : string) : result string :=
  sha_id ARTIFACT_ID_DOMAIN
    (dict_of [("identity_version", VStr "1"); ("workspace_identity", VStr workspace); ("attestation_id", VStr attestation_id)])
    "artifact-".
Definition artifact_id_for (workspace attestation_id : pyval) : result string :=
  let! w := stored_text workspace in
  let! a := stored_text attestation_id in artifact_identity w a.

(** [issued <= original < expires and created >= original] *)
Definition times_ordered (c : Claims) (original created : string) : result bool :=
  let! issued := stored_timestamp (VStr (cl_issued_at c)) in
  let! expires := stored_timestamp (VStr (cl_expires_at c)) in
  let! i := stored_time issued in
  let! o := stored_time original in
  let! e := stored_time expires in
  let! k := stored_time created in
  Ok ((i <=? o)%Z && (o <? e)%Z && (o <=? k)%Z).

(** [__post_init__] over the constructor's arguments: the claims, and a dict of the rest *)
Definition make_artifact (claims : Claims + pyval) (m : pyval) : result Artifact :=
  raise PAYLOAD_INVALID
    when negb (bool_decide (get m "artifact_contract_version" = VStr ARTIFACT_CONTRACT_VERSION)) ;
  let! workspace := stored_text (get m "workspace_identity") in
  let! claims := _claims_object claims in
  let! proof := proof_text PAYLOAD_INVALID (get m "detached_proof") in
  let! attestation_id := stored_text (get m "attestation_id") in
  raise PAYLOAD_INVALID when negb (bool_decide (attestation_id = cl_attestation_id claims)) ;
  let! payload := _claims_payload (inl claims) in
  let! given := stored_digest (get m "claims_digest") in
  let! expected := claims_digest claims in
  raise PAYLOAD_INVALID when negb (bool_decide (given = expected)) ;
  let! original := stored_timestamp (get m "original_verified_at") in
  let! created := stored_timestamp (get m "created_at") in
  let! ordered := times_ordered claims original created in
  raise PAYLOAD_INVALID when negb ordered ;
  let! expected_digest := digest (artifact_content workspace attestation_id payload proof given original created) in
  let! artifact_digest := stored_digest (get m "artifact_digest") in
  let! artifact_id := prefixed_id ARTIFACT_ID_RE (get m "artifact_id") in
  raise PAYLOAD_INVALID when negb (bool_decide (artifact_digest = expected_digest)) ;
  let! expected_id := artifact_identity workspace attestation_id in
  raise PAYLOAD_INVALID when negb (bool_decide (artifact_id = expected_id)) ;
  Ok (MkArtifact artifact_id workspace (the_str (get m "attestation_id")) claims proof given artifact_digest original created).

(** The fields of an object, the claims apart *)
Definition artifact_values (a : Artifact) : list (string * pyval) :=
  [("artifact_contract_version", VStr ARTIFACT_CONTRACT_VERSION); ("artifact_id", VStr (ar_artifact_id a));
   ("workspace_identity", VStr (ar_workspace_identity a)); ("attestation_id", VStr (ar_attestation_id a));
   ("detached_proof", VStr (ar_detached_proof a)); ("claims_digest", VStr (ar_claims_digest a));
   ("artifact_digest", VStr (ar_artifact_digest a)); ("original_verified_at", VStr (ar_original_verified_at a));
   ("created_at", VStr (ar_created_at a))].

Definition artifact_from_untrusted (value : Artifact + pyval) : result Artifact :=
  match value with
  | inl a => contract_error (make_artifact (inl (ar_claims a)) (dict_of (artifact_values a)))
  | inr v =>
      raise TYPE_INVALID when negb (is_mapping v) ;
      raise KEYSET_INVALID when negb (keys_are ARTIFACT_FIELDS v) ;
      contract_error (make_artifact (inr (get v "claims_payload")) v)
  end.

(** [create] *)
Definition artifact_create (workspace : pyval) (claims : Claims) (proof original created : pyval) : result Artifact :=
  let! workspace := stored_text workspace in
  let! claims := _claims_object (inl claims) in
  let! proof := proof_text PAYLOAD_INVALID proof in
  let! original := stored_timestamp original in
  let! created := stored_timestamp created in
  let! d := claims_digest claims in
  let content :=
    artifact_content workspace (cl_attestation_id claims) (claims_to_payload claims) proof d original created in
  let! id := artifact_id_for (VStr workspace) (VStr (cl_attestation_id claims)) in
  let! content_digest := digest content in
  make_artifact (inl claims)
    (dict_of (artifact_values (MkArtifact id workspace (cl_attestation_id claims) claims proof d content_digest original created))).

(** [to_payload] and [content_payload] *)
Definition artifact_to_payload (a : Artifact) : result pyval :=
  let! a := artifact_from_untrusted (inl a) in
  let! payload := _claims_payload (inl (ar_claims a)) in
  Ok (dict_of (("claims_payload", payload) :: artifact_values a)).
Definition artifact_content_payload (a : Artifact) : result pyval :=
  let! a := artifact_from_untrusted (inl a) in
  let! payload := _claims_payload (inl (ar_claims a)) in
  Ok (artifact_content (ar_workspace_identity a) (ar_attestation_id a) payload (ar_detached_proof a) (ar_claims_digest a)
        (ar_original_verified_at a) (ar_created_at a)).

(** ** [AttestationBindingReference] *)
(** [_content_payload_for], from a dict of values *)
Definition reference_content (values : pyval) : result pyval :=
  let! version := subscript values "reference_contract_version" in
  let fields := REFERENCE_CONTENT_FIELDS
                ++ (if py_eq version (VStr REFERENCE_V2_CONTRACT_VERSION) then REFERENCE_EXTENSION_FIELDS else []) in
  let! version := subscript values "reference_contract_version" in
  let! items := map_r (λ k, let! v := subscript values k in Ok (k, v)) fields in
  Ok (dict_of (("domain", VStr REFERENCE_CONTENT_DOMAIN) :: ("reference_contract_version", version) :: items)).

Definition reference_identity (version : string) (workspace artifact_id binding_id : pyval) : result string :=
  sha_id REFERENCE_ID_DOMAIN
    (dict_of [("reference_version", VStr (if bool_decide (version = REFERENCE_V2_CONTRACT_VERSION) then "2" else "1"));
              ("workspace_identity", workspace); ("artifact_id", artifact_id); ("binding_id", binding_id)])
    "binding-reference-".

Definition reference_values (r : Reference) : list (string * pyval) :=
  [("reference_contract_version", VStr (rf_contract_version r)); ("reference_id", VStr (rf_reference_id r));
   ("workspace_identity", VStr (rf_workspace_identity r)); ("artifact_id", VStr (rf_artifact_id r));
   ("artifact_digest", VStr (rf_artifact_digest r)); ("binding_id", VStr (rf_binding_id r));
   ("repository_identity", VStr (rf_repository_identity r));
   ("github_subject_identity", VStr (rf_github_subject_identity r)); ("driver_identity", VStr (rf_driver_identity r));
   ("remote_authority", VStr (rf_remote_authority r)); ("preview_id", VStr (rf_preview_id r));
   ("revision", VInt (rf_revision r)); ("plan_digest", VStr (rf_plan_digest r));
   ("sealed_preview_digest", VStr (rf_sealed_preview_digest r)); ("operation_set_digest", VStr (rf_operation_set_digest r));
   ("remote_snapshot_digest", VStr (rf_remote_snapshot_digest r)); ("audit_id", VStr (rf_audit_id r));
   ("audit_digest", VStr (rf_audit_digest r)); ("evidence_id", VStr (rf_evidence_id r));
   ("evidence_digest", VStr (rf_evidence_digest r)); ("original_verified_at", VStr (rf_original_verified_at r));
   ("binding_reference_digest", VStr (rf_binding_reference_digest r));
   ("credential_principal_identity", VStr (rf_credential_principal_identity r));
   ("challenge_digest", VStr (rf_challenge_digest r))].

(** The fields of version 2; version 1 has them empty *)
Definition reference_extension (version : string) (m : pyval) : result (string * string) :=
  if bool_decide (version = REFERENCE_V2_CONTRACT_VERSION) then
    let! principal := stored_text (get m "credential_principal_identity") in
    let! challenge := stored_digest (get m "challenge_digest") in
    Ok (principal, challenge)
  else
    raise PAYLOAD_INVALID when truthy (get m "credential_principal_identity") || truthy (get m "challenge_digest") ;
    Ok ("", "").

(** [__post_init__] *)
Definition make_reference (m : pyval) : result Reference :=
  match get m "reference_contract_version" with
  | VStr version =>
      raise PAYLOAD_INVALID
        when negb (bool_decide (version ∈ [REFERENCE_CONTRACT_VERSION; REFERENCE_V2_CONTRACT_VERSION])) ;
      let! workspace := stored_text (get m "workspace_identity") in
      let! _ := stored_text (get m "artifact_id") in
      let! _ := stored_text (get m "binding_id") in
      let! repository := stored_text (get m "repository_identity") in
      let! subject := stored_text (get m "github_subject_identity") in
      let! driver := stored_text (get m "driver_identity") in
      let! preview := stored_text (get m "preview_id") in
      let! audit := stored_text (get m "audit_id") in
      let! evidence := stored_text (get m "evidence_id") in
      let! artifact := prefixed_id ARTIFACT_ID_RE (get m "artifact_id") in
      let! binding := prefixed_id BINDING_ID_RE (get m "binding_id") in
      let! artifact_digest := stored_digest (get m "artifact_digest") in
      let! authority := stored_digest (get m "remote_authority") in
      let! plan := stored_digest (get m "plan_digest") in
      let! sealed := stored_digest (get m "sealed_preview_digest") in
      let! operations := stored_digest (get m "operation_set_digest") in
      let! snapshot := stored_digest (get m "remote_snapshot_digest") in
      let! audit_digest := stored_digest (get m "audit_digest") in
      let! evidence_digest := stored_digest (get m "evidence_digest") in
      let! revision := stored_integer (get m "revision") in
      let! original := stored_timestamp (get m "original_verified_at") in
      let! (principal, challenge) := reference_extension version m in
      let normalized d id :=
        MkReference version id workspace artifact artifact_digest binding repository subject driver authority preview revision
          plan sealed operations snapshot audit audit_digest evidence evidence_digest original d principal challenge in
      let! content := reference_content (dict_of (reference_values (normalized "" ""))) in
      let! expected_digest := digest content in
      let! given_digest := stored_digest (get m "binding_reference_digest") in
      let! given_id := prefixed_id REFERENCE_RE (get m "reference_id") in
      raise PAYLOAD_INVALID when negb (bool_decide (given_digest = expected_digest)) ;
      let! expected_id := reference_identity version (VStr workspace) (VStr artifact) (VStr binding) in
      raise PAYLOAD_INVALID when negb (bool_decide (given_id = expected_id)) ;
      Ok (normalized given_digest given_id)
  | _ => Err (ValueError PAYLOAD_INVALID)
  end.

Definition LEGACY_REFERENCE_FIELDS : list string :=
  List.filter (λ k, negb (bool_decide (k ∈ REFERENCE_EXTENSION_FIELDS))) REFERENCE_FIELDS.
Definition reference_from_untrusted (value : Reference + pyval) : result Reference :=
  match value with
  | inl r => contract_error (make_reference (dict_of (reference_values r)))
  | inr (VDict d) =>
      let legacy := VDict (d ++ [(VStr "credential_principal_identity", VStr ""); (VStr "challenge_digest", VStr "")]) in
      if keys_are LEGACY_REFERENCE_FIELDS (VDict d) then contract_error (make_reference legacy)
      else
        raise KEYSET_INVALID when negb (keys_are REFERENCE_FIELDS (VDict d)) ; contract_error (make_reference (VDict d))
  | inr _ => Err (ValueError TYPE_INVALID)
  end.

(** [create]: the values of a binding, in the order the code reads them *)
Definition BOUND_VALUE_FIELDS : list string :=
  ["binding_id"; "repository_identity"; "github_subject_identity"; "driver_identity"; "remote_authority"; "preview_id";
   "revision"; "plan_digest"; "sealed_preview_digest"; "operation_set_digest"; "remote_snapshot_digest"; "audit_id";
   "audit_digest"; "evidence_id"; "evidence_digest"].
Definition reference_create_values (a : Artifact) (binding : pyval) : result (list (string * pyval)) :=
  raise PAYLOAD_INVALID when negb (is_mapping binding) ;
  let! attested := subscript binding "attestation_version" in
  let! known := in_str_set attested [ATTESTATION_VERSION_V1; ATTESTATION_VERSION_V2] in
  raise PAYLOAD_INVALID when negb known ;
  let version := if py_eq attested (VStr ATTESTATION_VERSION_V2) then REFERENCE_V2_CONTRACT_VERSION
                 else REFERENCE_CONTRACT_VERSION in
  let! bound := map_r (λ k, let! v := subscript binding k in Ok (k, v)) BOUND_VALUE_FIELDS in
  let! extension :=
    if bool_decide (version = REFERENCE_V2_CONTRACT_VERSION) then
      map_r (λ k, let! v := subscript binding k in Ok (k, v)) REFERENCE_EXTENSION_FIELDS
    else Ok (map (λ k, (k, VStr "")) REFERENCE_EXTENSION_FIELDS) in
  let values :=
    [("reference_contract_version", VStr version); ("workspace_identity", VStr (ar_workspace_identity a));
     ("artifact_id", VStr (ar_artifact_id a)); ("artifact_digest", VStr (ar_artifact_digest a))]
    ++ bound ++ [("original_verified_at", VStr (ar_original_verified_at a))] ++ extension in
  let! content := reference_content (dict_of values) in
  let! d := digest content in
  let! id := reference_identity version (VStr (ar_workspace_identity a)) (VStr (ar_artifact_id a)) (get binding "binding_id") in
  Ok (("reference_id", VStr id) :: ("binding_reference_digest", VStr d) :: values).
Definition reference_create (artifact : Artifact) (binding : pyval) : result Reference :=
  let! a := artifact_from_untrusted (inl artifact) in
  contract_error (let! values := reference_create_values a binding in make_reference (dict_of values)).

(** [_reference_projection]: the values have the names of the fields asked for, so that
    [content_payload] hands [_content_payload_for] a dict without the version it reads. *)
Definition reference_v2 (r : Reference) : bool := bool_decide (rf_contract_version r = REFERENCE_V2_CONTRACT_VERSION).
Definition with_fields (names : list string) (values : list (string * pyval)) : pyval :=
  dict_of (List.filter (λ p, bool_decide (fst p ∈ names)) values).
Definition reference_content_payload (r : Reference) : result pyval :=
  let! r := reference_from_untrusted (inl r) in
  reference_content
    (with_fields (REFERENCE_CONTENT_FIELDS ++ (if reference_v2 r then REFERENCE_EXTENSION_FIELDS else []))
       (reference_values r)).
Definition reference_to_payload (r : Reference) : result pyval :=
  let! r := reference_from_untrusted (inl r) in
  Ok (with_fields (if reference_v2 r then REFERENCE_FIELDS else LEGACY_REFERENCE_FIELDS) (reference_values r)).

(** ** [validate_artifact_aggregate] *)
Definition reference_matches (a : Artifact) (r : Reference) : bool :=
  let c := ar_claims a in
  bool_decide (ar_workspace_identity a = rf_workspace_identity r) && bool_decide (ar_artifact_id a = rf_artifact_id r)
  && bool_decide (ar_artifact_digest a = rf_artifact_digest r)
  && bool_decide (rf_repository_identity r = cl_repository_identity c)
  && bool_decide (rf_github_subject_identity r = cl_github_subject_identity c)
  && bool_decide (rf_driver_identity r = cl_driver_identity c) && bool_decide (rf_remote_authority r = cl_remote_authority c)
  && bool_decide (rf_preview_id r = cl_preview_id c) && bool_decide (rf_revision r = cl_revision c)
  && bool_decide (rf_operation_set_digest r = cl_operation_set_digest c)
  && bool_decide (rf_remote_snapshot_digest r = cl_remote_snapshot_digest c)
  && bool_decide (rf_evidence_digest r = cl_evidence_digest c)
  && bool_decide (rf_original_verified_at r = ar_original_verified_at a)
  && negb (claims_v2 c
           && negb (reference_v2 r
                    && bool_decide (rf_credential_principal_identity r = cl_credential_principal_identity c)
                    && bool_decide (rf_challenge_digest r = cl_challenge_digest c))).

Definition validate_artifact_aggregate (artifact : Artifact + pyval) (reference : Reference + pyval)
  : result (Artifact * Reference) :=
  let! a := artifact_from_untrusted artifact in
  let! r := reference_from_untrusted reference in
  raise PAYLOAD_INVALID when negb (reference_matches a r) ; Ok (a, r).

(** ** [AttestationRevalidationEvent] *)
Definition event_identity (workspace artifact_id attempt_id : string) : result string :=
  let! h := digest_hex (dict_of [("domain", VStr EVENT_ID_DOMAIN); ("event_identity_version", VStr EVENT_IDENTITY_VERSION);
                                 ("workspace_identity", VStr workspace); ("artifact_id", VStr artifact_id);
                                 ("revalidation_attempt_id", VStr attempt_id)]) in
  Ok ("revalidation-event-" +:+ h).
Definition event_content (workspace artifact_id artifact_digest attempt_id context reference : string) (outcome : pyval)
    (timestamp : string) (failure_code result_digest : pyval) : pyval :=
  dict_of [("domain", VStr EVENT_CONTENT_DOMAIN); ("event_payload_version", VStr EVENT_PAYLOAD_VERSION);
           ("workspace_identity", VStr workspace); ("artifact_id", VStr artifact_id);
           ("artifact_digest", VStr artifact_digest); ("revalidation_attempt_id", VStr attempt_id);
           ("revalidation_context_digest", VStr context); ("binding_reference_digest", VStr reference);
           ("outcome", outcome); ("revalidated_at", VStr timestamp); ("failure_code", failure_code);
           ("result_digest", result_digest)].

(** The outcome with what it carries: a result, or one of the failure codes *)
Definition event_outcome (outcome failure_code result_digest : pyval) : result (string * option string * option string) :=
  match outcome with
  | VStr outcome =>
      raise PAYLOAD_INVALID when negb (bool_decide (outcome ∈ ["Successful"; "Failed"])) ;
      if bool_decide (outcome = "Successful") then
        raise PAYLOAD_INVALID when negb (bool_decide (failure_code = VNone)) ;
        let! d := stored_digest result_digest in Ok (outcome, None, Some d)
      else
        match failure_code with
        | VStr code =>
            raise PAYLOAD_INVALID when negb (bool_decide (code ∈ ATTESTATION_REVALIDATION_FAILURE_CODES)) ;
            raise PAYLOAD_INVALID when negb (bool_decide (result_digest = VNone)) ; Ok (outcome, Some code, None)
        | _ => Err (ValueError PAYLOAD_INVALID)
        end
  | _ => Err (ValueError PAYLOAD_INVALID)
  end.

(** [__post_init__] *)
Definition make_event (m : pyval) : result Event :=
  raise PAYLOAD_INVALID when negb (bool_decide (get m "event_identity_version" = VStr EVENT_IDENTITY_VERSION)) ;
  raise PAYLOAD_INVALID when negb (bool_decide (get m "event_payload_version" = VStr EVENT_PAYLOAD_VERSION)) ;
  let! workspace := stored_text (get m "workspace_identity") in
  let! artifact := prefixed_id ARTIFACT_ID_RE (get m "artifact_id") in
  let! artifact_digest := stored_digest (get m "artifact_digest") in
  let! attempt := prefixed_id ATTEMPT_RE (get m "revalidation_attempt_id") in
  let! context := stored_digest (get m "revalidation_context_digest") in
  let! reference := stored_digest (get m "binding_reference_digest") in
  let! timestamp := stored_timestamp (get m "revalidated_at") in
  let! (outcome, code, result) := event_outcome (get m "outcome") (get m "failure_code") (get m "result_digest") in
  let! expected_id := event_identity workspace artifact attempt in
  let! event_id := prefixed_id EVENT_RE (get m "event_id") in
  let! payload_digest := stored_digest (get m "event_payload_digest") in
  raise PAYLOAD_INVALID when negb (bool_decide (event_id = expected_id)) ;
  let! expected :=
    digest (event_content workspace artifact artifact_digest attempt context reference (VStr outcome) timestamp
              (opt_text code) (opt_text result)) in
  raise PAYLOAD_INVALID when negb (bool_decide (payload_digest = expected)) ;
  Ok (MkEvent event_id workspace artifact artifact_digest attempt context reference outcome timestamp code result
        payload_digest).

Definition event_values (e : Event) : pyval :=
  dict_of [("event_identity_version", VStr EVENT_IDENTITY_VERSION); ("event_payload_version", VStr EVENT_PAYLOAD_VERSION);
           ("event_id", VStr (re_event_id e)); ("workspace_identity", VStr (re_workspace_identity e));
           ("artifact_id", VStr (re_artifact_id e)); ("artifact_digest", VStr (re_artifact_digest e));
           ("revalidation_attempt_id", VStr (re_attempt_id e));
           ("revalidation_context_digest", VStr (re_context_digest e));
           ("binding_reference_digest", VStr (re_reference_digest e)); ("outcome", VStr (re_outcome e));
           ("revalidated_at", VStr (re_revalidated_at e)); ("failure_code", opt_text (re_failure_code e));
           ("result_digest", opt_text (re_result_digest e)); ("event_payload_digest", VStr (re_payload_digest e))].

Definition event_from_untrusted (value : Event + pyval) : result Event :=
  match value with
  | inl e => contract_error (make_event (event_values e))
  | inr v =>
      raise TYPE_INVALID when negb (is_mapping v) ;
      raise KEYSET_INVALID when negb (keys_are EVENT_FIELDS v) ; contract_error (make_event v)
  end.

(** [create] *)
Definition event_create (workspace artifact_id artifact_digest attempt_id context reference outcome revalidated_at failure_code
    result_digest : pyval) : result Event :=
  let! w := stored_text workspace in
  let! artifact := prefixed_id ARTIFACT_ID_RE artifact_id in
  let! attempt := prefixed_id ATTEMPT_RE attempt_id in
  let! event_id := event_identity w artifact attempt in
  let! timestamp := stored_timestamp revalidated_at in
  let! artifact_d := stored_digest artifact_digest in
  let! context_d := stored_digest context in
  let! reference_d := stored_digest reference in
  let! payload_digest :=
    digest (event_content w artifact artifact_d attempt context_d reference_d outcome timestamp failure_code result_digest) in
  make_event
    (dict_of [("event_identity_version", VStr EVENT_IDENTITY_VERSION); ("event_payload_version", VStr EVENT_PAYLOAD_VERSION);
              ("event_id", VStr event_id); ("workspace_identity", VStr w); ("artifact_id", VStr artifact);
              ("artifact_digest", artifact_digest); ("revalidation_attempt_id", VStr attempt);
              ("revalidation_context_digest", context); ("binding_reference_digest", reference); ("outcome", outcome);
              ("revalidated_at", VStr timestamp); ("failure_code", failure_code); ("result_digest", result_digest);
              ("event_payload_digest", VStr payload_digest)]).

Definition event_to_payload (e : Event) : result pyval :=
  let! e := event_from_untrusted (inl e) in Ok (event_values e).
Definition event_content_payload (e : Event) : result pyval :=
  let! e := event_from_untrusted (inl e) in
  Ok (event_content (re_workspace_identity e) (re_artifact_id e) (re_artifact_digest e) (re_attempt_id e)
        (re_context_digest e) (re_reference_digest e) (VStr (re_outcome e)) (re_revalidated_at e)
        (opt_text (re_failure_code e)) (opt_text (re_result_digest e))).
(** [_event_snapshot]: every field of the record built again *)
Definition event_snapshot (e : Event) : result Event := event_from_untrusted (inl e).
End records.

(** ** [RevalidationAttempt] and [RevalidationAttemptBoundary]
    An attempt is an object: its identity, the values its fields have when it is used, which
    code may have written to, and the token of the boundary that made it. *)
Record Attempt := MkAttempt {
  tt_object : nat;
  tt_attempt_id : pyval;
  tt_workspace : pyval;
  tt_artifact : pyval;
  tt_token : nat;
}.

(** An entry of the boundary: the object, its workspace and artifact, and the event it was
    finalized with, beside the snapshot taken then *)
Record AttemptEntry := MkEntry {
  te_object : nat;
  te_workspace : string;
  te_artifact : string;
  te_event : option (Event * Event);
}.
Record AttemptState := MkAttempts {
  ts_attempts : gmap string AttemptEntry;
  ts_tombstones : gset string;
  ts_next : nat;
}.
Definition no_attempts : AttemptState := MkAttempts ∅ ∅ 0.

Definition BOUNDARY_MISMATCH : string := "attestation_attempt_boundary_mismatch".
Definition TAMPERED : string := "attestation_attempt_tampered".

(** [bytes.hex] *)
Fixpoint bytes_hex (s : string) : string :=
  match s with
  | "" => ""
  | String c s' =>
      let n := N_of_ascii c in String (hex_digit (N.div n 16)) (String (hex_digit (N.modulo n 16)) (bytes_hex s'))
  end.

Section attempts.
Context `{PyLib}.
Variable isoformat_micros : Z → string.
Variable token : nat.                    (** the boundary *)

(** [create_attempt], with what the source of entropy answers *)
Definition create_attempt (entropy : result pyval) (workspace artifact : pyval) (st : AttemptState)
  : result (Attempt * AttemptState) :=
  let! w := stored_text workspace in
  let! a := prefixed_id ARTIFACT_ID_RE artifact in
  match entropy with
  | Err (Unmodelled what) => Err (Unmodelled what)
  | Ok (VBytes bytes) =>
      raise "attestation_attempt_entropy_unavailable" when negb (String.length bytes =? 16) ;
      let id := "attempt-" +:+ bytes_hex bytes in
      raise "attestation_attempt_id_collision" when bool_decide (id ∈ ts_tombstones st) ;
      Ok (MkAttempt (ts_next st) (VStr id) (VStr w) (VStr a) token,
          MkAttempts (<[id := MkEntry (ts_next st) w a None]> (ts_attempts st)) ({[id]} ∪ ts_tombstones st) (S (ts_next st)))
  | _ => Err (ValueError "attestation_attempt_entropy_unavailable")
  end.

(** [_owned]: the identifier and the entry of an attempt of this boundary *)
Definition checked_attempt (t : Attempt) : result (string * string * string) :=
  let! id := prefixed_id ATTEMPT_RE (tt_attempt_id t) in
  let! w := stored_text (tt_workspace t) in
  let! a := prefixed_id ARTIFACT_ID_RE (tt_artifact t) in
  Ok (id, w, a).
Definition _owned (t : Attempt) (st : AttemptState) : result (string * AttemptEntry) :=
  match checked_attempt t with
  | Err _ => Err (ValueError TAMPERED)
  | Ok (id, w, a) =>
      raise TAMPERED
        when negb (bool_decide (tt_attempt_id t = VStr id) && bool_decide (tt_workspace t = VStr w)
                   && bool_decide (tt_artifact t = VStr a)) ;
      match ts_attempts st !! id with
      | Some entry =>
          raise BOUNDARY_MISMATCH when negb (te_object entry =? tt_object t) || negb (tt_token t =? token) ;
          raise TAMPERED when negb (bool_decide (te_workspace entry = w) && bool_decide (te_artifact entry = a)) ;
          Ok (id, entry)
      | None => Err (ValueError BOUNDARY_MISMATCH)
      end
  end.
Definition owns (t : Attempt) (st : AttemptState) : bool := is_ok (_owned t st).

(** [to_payload] of an attempt, asked of the boundary of its token *)
Definition attempt_to_payload (t : Attempt) (st : AttemptState) : result pyval :=
  let! _ := _owned t st in
  Ok (dict_of [("attempt_contract_version", VStr ATTEMPT_CONTRACT_VERSION); ("revalidation_attempt_id", tt_attempt_id t);
               ("workspace_identity", tt_workspace t); ("artifact_id", tt_artifact t)]).

(** [finalize] *)
Definition finalize (t : Attempt) (event : Event + pyval) (st : AttemptState) : result (Event * AttemptState) :=
  let! (id, entry) := _owned t st in
  let! e := event_from_untrusted isoformat_micros event in
  raise BOUNDARY_MISMATCH
    when negb (bool_decide (re_attempt_id e = id) && bool_decide (re_workspace_identity e = te_workspace entry)
               && bool_decide (re_artifact_id e = te_artifact entry)) ;
  match te_event entry with
  | None =>
      let! snapshot := event_snapshot isoformat_micros e in
      Ok (e, MkAttempts (<[id := MkEntry (te_object entry) (te_workspace entry) (te_artifact entry) (Some (e, snapshot))]>
                           (ts_attempts st)) (ts_tombstones st) (ts_next st))
  | Some (registered, snapshot) =>
      let! again := match event_snapshot isoformat_micros registered with
                    | Err (ValueError _) => Err (ValueError PAYLOAD_INVALID)
                    | c => c
                    end in
      raise PAYLOAD_INVALID when negb (bool_decide (again = snapshot)) ;
      raise "attestation_revalidation_event_conflict"
        when negb (bool_decide (re_payload_digest registered = re_payload_digest e)) ;
      Ok (registered, st)
  end.

(** ** A run of a boundary: attempts made, and events given for attempts *)
Inductive attempt_call :=
| CreateAttempt (entropy : result pyval) (workspace artifact : pyval)
| FinalizeAttempt (t : Attempt) (event : Event + pyval).
Inductive attempt_answer := Created (t : Attempt) | Finalized (e : Event) | AttemptError (e : exn).

Definition attempt_step (c : attempt_call) (st : AttemptState) : attempt_answer * AttemptState :=
  match c with
  | CreateAttempt entropy workspace artifact =>
      match create_attempt entropy workspace artifact st with
      | Ok (t, st') => (Created t, st') | Err e => (AttemptError e, st)
      end
  | FinalizeAttempt t event =>
      match finalize t event st with Ok (e, st') => (Finalized e, st') | Err e => (AttemptError e, st) end
  end.
Fixpoint attempt_run (l : list attempt_call) (st : AttemptState) : list attempt_answer * AttemptState :=
  match l with
  | [] => ([], st)
  | c :: l => let '(a, st) := attempt_step c st in let '(answers, st) := attempt_run l st in (a :: answers, st)
  end.
End attempts.
