(* ===== verification/AttestationStore.v ===== *)
(** * The store of attestations (delivery_system/attestation_persistence_store.py)

    [InMemoryAttestationPersistenceStore]: per artifact the canonical texts of the artifact
    and of its reference, and the numbered texts of its revalidation events.  Every read
    decodes the texts again and compares them with what they say, so that a store whose
    dicts were written to from outside answers with an error.  The keys of the dicts are
    pairs of texts here; the checks of their types are left out. *)
From S2P Require Import Prelude PyValue Strings PyOps Canonical Json SafeText AuthorityBinding Attestation AttestationRecords.
From stdpp Require Import sorting.

Definition AGGREGATE_CORRUPT : string := "attestation_artifact_aggregate_corrupt".
Definition EVENTS_CORRUPT : string := "attestation_revalidation_event_corrupt".
Definition ARTIFACT_NOT_FOUND : string := "attestation_artifact_not_found".
Definition EVENT_CONFLICT : string := "attestation_revalidation_event_conflict".

(** [except Exception: _store_error(code)] *)
Definition store_error {A} (code : string) (c : result A) : result A :=
  match c with Ok a => Ok a | Err (Unmodelled what) => Err (Unmodelled what) | Err _ => Err (ValueError code) end.

Notation history_key := (string * string)%type.
(** The records of a partition: the number and the text of each event, under its identifier *)
Notation event_records := (list (string * (Z * string))).

Record AttestationStore := MkAttestationStore {
  hs_artifacts : gmap history_key string;
  hs_references : gmap history_key string;
  hs_keys : gset history_key;
  hs_events : gmap history_key event_records;
  hs_partitions : gset history_key;
}.
Definition empty_history : AttestationStore := MkAttestationStore ∅ ∅ ∅ ∅ ∅.

Section store.
Context `{PyLib}.
Variable isoformat_micros : Z → string.
Notation from_artifact := (artifact_from_untrusted isoformat_micros).
Notation from_reference := (reference_from_untrusted isoformat_micros).
Notation from_event := (event_from_untrusted isoformat_micros).

(** ** [AttestationArtifactAggregate] and [SequencedAttestationRevalidationEvent] *)
Definition make_aggregate (a : Artifact) (r : Reference) : result (Artifact * Reference) :=
  validate_artifact_aggregate isoformat_micros (inl a) (inl r).
Definition aggregate_to_payload (aggregate : Artifact * Reference) : result pyval :=
  let! a := from_artifact (inl (fst aggregate)) in
  let! r := from_reference (inl (snd aggregate)) in
  let! (a, r) := contract_error (make_aggregate a r) in
  let! artifact := artifact_to_payload isoformat_micros a in
  let! reference := reference_to_payload isoformat_micros r in
  Ok (dict_of [("artifact", artifact); ("binding_reference", reference)]).
Definition make_sequenced (sequence : Z) (e : Event) : result (Z * Event) :=
  raise TYPE_INVALID when (sequence <? 1)%Z ; let! e := from_event (inl e) in Ok (sequence, e).
Definition sequenced_to_payload (s : Z * Event) : result pyval :=
  let! (sequence, e) := contract_error (make_sequenced (fst s) (snd s)) in
  let! event := event_to_payload isoformat_micros e in
  Ok (dict_of [("event_sequence", VInt sequence); ("event", event)]).

(** ** Snapshots *)
Definition artifact_snapshot (a : Artifact) : result string :=
  let! p := artifact_to_payload isoformat_micros a in canonical_payload p.
Definition reference_snapshot (r : Reference) : result string :=
  let! p := reference_to_payload isoformat_micros r in canonical_payload p.
Definition event_text (e : Event) : result string :=
  let! p := event_to_payload isoformat_micros e in canonical_payload p.
Definition _json_snapshot (code snapshot : string) : result pyval :=
  let! parsed := store_error code (json_loads last_wins snapshot) in
  raise code when negb (is_mapping parsed) ; Ok parsed.

(** ** The containers: every key is the canonical pair of a workspace and an artifact *)
Definition partition_ok (key : history_key) : bool :=
  match stored_text (VStr (fst key)) with
  | Ok w => bool_decide (w = fst key) && ARTIFACT_ID_RE (snd key)
  | Err _ => false
  end.
Definition _key (workspace artifact_id : pyval) : result history_key :=
  let! w := stored_text workspace in
  let! a := prefixed_id ARTIFACT_ID_RE artifact_id in Ok (w, a).

Definition aggregate_keys_ok (st : AttestationStore) : bool :=
  forallb (λ p, partition_ok (fst p)) (map_to_list (hs_artifacts st))
  && forallb (λ p, partition_ok (fst p)) (map_to_list (hs_references st)) && forallb partition_ok (elements (hs_keys st)).
Definition event_keys_ok (st : AttestationStore) : bool :=
  forallb (λ p, partition_ok (fst p)) (map_to_list (hs_events st)) && forallb partition_ok (elements (hs_partitions st)).

(** ** [_event_state_locked], [_read_aggregate_locked] and [_read_events_locked] *)
Definition event_state (key : history_key) (st : AttestationStore) : result (option event_records) :=
  raise EVENTS_CORRUPT when negb (event_keys_ok st) ;
  match hs_events st !! key, bool_decide (key ∈ hs_partitions st) with
  | None, false => Ok None
  | Some records, true => raise EVENTS_CORRUPT when bool_decide (records = []) ; Ok (Some records)
  | _, _ => Err (ValueError EVENTS_CORRUPT)
  end.

Definition decode_aggregate (key : history_key) (artifact reference : string) : result (Artifact * Reference) :=
  let! parsed := _json_snapshot AGGREGATE_CORRUPT artifact in
  let! a := from_artifact (inr parsed) in
  let! parsed := _json_snapshot AGGREGATE_CORRUPT reference in
  let! r := from_reference (inr parsed) in
  let! (a, r) := make_aggregate a r in
  raise AGGREGATE_CORRUPT when negb (bool_decide (key = (ar_workspace_identity a, ar_artifact_id a))) ;
  let! text_a := artifact_snapshot a in
  raise AGGREGATE_CORRUPT when negb (bool_decide (artifact = text_a)) ;
  let! text_r := reference_snapshot r in
  raise AGGREGATE_CORRUPT when negb (bool_decide (reference = text_r)) ;
  make_aggregate a r.
Definition read_aggregate (key : history_key) (st : AttestationStore) : result (option (Artifact * Reference)) :=
  raise AGGREGATE_CORRUPT when negb (aggregate_keys_ok st) ;
  match bool_decide (key ∈ hs_keys st), hs_artifacts st !! key, hs_references st !! key with
  | false, None, None => Ok None
  | true, Some artifact, Some reference =>
      let! aggregate := store_error AGGREGATE_CORRUPT (decode_aggregate key artifact reference) in Ok (Some aggregate)
  | _, _, _ => Err (ValueError AGGREGATE_CORRUPT)
  end.

Definition event_bound (e : Event) (aggregate : Artifact * Reference) : bool :=
  bool_decide (re_artifact_digest e = ar_artifact_digest (fst aggregate))
  && bool_decide (re_reference_digest e = rf_binding_reference_digest (snd aggregate)).
Definition decode_event (key : history_key) (aggregate : Artifact * Reference) (record : string * (Z * string))
  : result (string * (Z * Event)) :=
  let '(id, (sequence, snapshot)) := record in
  raise EVENTS_CORRUPT when (sequence <? 1)%Z ;
  let! parsed := _json_snapshot EVENTS_CORRUPT snapshot in
  let! e := from_event (inr parsed) in
  raise EVENTS_CORRUPT when negb (bool_decide (re_event_id e = id)) ;
  raise EVENTS_CORRUPT when negb (bool_decide ((re_workspace_identity e, re_artifact_id e) = key)) ;
  raise EVENTS_CORRUPT when negb (event_bound e aggregate) ;
  let! again := event_text e in
  raise EVENTS_CORRUPT when negb (bool_decide (snapshot = again)) ; Ok (id, (sequence, e)).
Definition numbered (sequences : list Z) : bool :=
  no_dups sequences && bool_decide (merge_sort Z.le sequences = map Z.of_nat (seq 1 (length sequences))).
Definition read_events (key : history_key) (aggregate : Artifact * Reference) (st : AttestationStore)
  : result (list (string * (Z * Event))) :=
  let! records := event_state key st in
  match records with
  | None => Ok []
  | Some records =>
      store_error EVENTS_CORRUPT
        (let! parsed := map_r (decode_event key aggregate) records in
         raise EVENTS_CORRUPT when negb (numbered (map (λ p, fst (snd p)) parsed)) ; Ok parsed)
  end.

(** No events without their artifact *)
Definition no_events (key : history_key) (st : AttestationStore) : result unit :=
  let! records := event_state key st in
  raise EVENTS_CORRUPT when bool_decide (is_Some records) ; Ok tt.

(** ** [persist_artifact] and [get_artifact_aggregate] *)
Definition put_aggregate (key : history_key) (artifact reference : string) (st : AttestationStore) : AttestationStore :=
  MkAttestationStore (<[key := artifact]> (hs_artifacts st)) (<[key := reference]> (hs_references st))
    ({[key]} ∪ hs_keys st) (hs_events st) (hs_partitions st).

(** The candidate, its key and its texts *)
Definition artifact_candidate (artifact : Artifact) (reference : Reference)
  : result ((Artifact * Reference) * history_key * string * string) :=
  let! a := from_artifact (inl artifact) in
  let! r := from_reference (inl reference) in
  let! (a, r) := make_aggregate a r in
  let! (a, r) := make_aggregate a r in
  let! text_a := artifact_snapshot a in
  let! text_r := reference_snapshot r in
  Ok ((a, r), (ar_workspace_identity a, ar_artifact_id a), text_a, text_r).
(** What is stored under the key already; a new aggregate may not have events. *)
Definition stored_before (key : history_key) (st : AttestationStore) : result (option (Artifact * Reference)) :=
  let! _ := event_state key st in
  let! existing := read_aggregate key st in
  match existing with
  | None => let! _ := no_events key st in Ok None
  | Some aggregate => Ok (Some aggregate)
  end.
Definition same_aggregate (candidate existing : Artifact * Reference) (text_a text_r : string) : result (Artifact * Reference) :=
  let '((a, r), (a', r')) := (candidate, existing) in
  let! text_a' := artifact_snapshot a' in
  raise "attestation_artifact_conflict"
    when negb (bool_decide (ar_artifact_digest a' = ar_artifact_digest a)) || negb (bool_decide (text_a' = text_a)) ;
  let! text_r' := reference_snapshot r' in
  raise "attestation_binding_reference_conflict"
    when negb (bool_decide (rf_binding_reference_digest r' = rf_binding_reference_digest r))
         || negb (bool_decide (text_r' = text_r)) ;
  make_aggregate a' r'.

Definition persist_artifact (artifact : Artifact) (reference : Reference) (st : AttestationStore)
  : result (Artifact * Reference) * AttestationStore :=
  match (let! (candidate, key, text_a, text_r) := artifact_candidate artifact reference in
         let! existing := stored_before key st in Ok (candidate, key, text_a, text_r, existing)) with
  | Err e => (Err e, st)
  | Ok (candidate, key, text_a, text_r, existing) =>
      match existing with
      | Some existing => (same_aggregate candidate existing text_a text_r, st)
      | None => (make_aggregate (fst candidate) (snd candidate), put_aggregate key text_a text_r st)
      end
  end.

Definition get_artifact_aggregate (workspace artifact_id : pyval) (st : AttestationStore)
  : result (option (Artifact * Reference)) :=
  let! key := _key workspace artifact_id in
  let! aggregate := read_aggregate key st in
  let! _ := match aggregate with
            | None => no_events key st
            | Some _ => let! _ := event_state key st in Ok tt
            end in
  Ok aggregate.

(** ** [append_revalidation_event] and [get_latest_revalidation_event] *)
Definition put_event (key : history_key) (id : string) (sequence : Z) (snapshot : string) (st : AttestationStore)
  : AttestationStore :=
  MkAttestationStore (hs_artifacts st) (hs_references st) (hs_keys st)
    (<[key := default [] (hs_events st !! key) ++ [(id, (sequence, snapshot))]]> (hs_events st))
    ({[key]} ∪ hs_partitions st).

Definition existing_aggregate (key : history_key) (st : AttestationStore) : result (Artifact * Reference) :=
  let! aggregate := read_aggregate key st in
  match aggregate with
  | Some aggregate => Ok aggregate
  | None => let! _ := no_events key st in Err (ValueError ARTIFACT_NOT_FOUND)
  end.

Definition event_under (id : string) (events : list (string * (Z * Event))) : option (Z * Event) :=
  snd <$> List.find (λ p, bool_decide (fst p = id)) events.

Definition event_candidate (event : Event) (st : AttestationStore)
  : result (Event * history_key * list (string * (Z * Event)) * string) :=
  let! e := from_event (inl event) in
  let key := (re_workspace_identity e, re_artifact_id e) in
  let! aggregate := existing_aggregate key st in
  raise "attestation_revalidation_event_binding_mismatch" when negb (event_bound e aggregate) ;
  let! events := read_events key aggregate st in
  let! snapshot := event_text e in
  Ok (e, key, events, snapshot).

Definition append_revalidation_event (event : Event) (st : AttestationStore) : result (Z * Event) * AttestationStore :=
  match event_candidate event st with
  | Err e => (Err e, st)
  | Ok (e, key, events, snapshot) =>
      match event_under (re_event_id e) events with
      | Some (sequence, stored) =>
          (let! again := event_text stored in
           raise EVENT_CONFLICT when negb (bool_decide (again = snapshot)) ; make_sequenced sequence stored, st)
      | None =>
          let sequence := (Z.of_nat (length events) + 1)%Z in
          (make_sequenced sequence e, put_event key (re_event_id e) sequence snapshot st)
      end
  end.

(** [max(events, key=sequence)]: the first of the greatest *)
Definition later (best : option (Z * Event)) (p : string * (Z * Event)) : option (Z * Event) :=
  match best with
  | Some b => if (fst b <? fst (snd p))%Z then Some (snd p) else best
  | None => Some (snd p)
  end.
Definition get_latest_revalidation_event (workspace artifact_id : pyval) (st : AttestationStore)
  : result (option (Z * Event)) :=
  let! key := _key workspace artifact_id in
  let! aggregate := existing_aggregate key st in
  let! events := read_events key aggregate st in
  match foldl later None events with
  | None => Ok None
  | Some (sequence, e) => let! answer := make_sequenced sequence e in Ok (Some answer)
  end.

(** ** A run of a store *)
Inductive history_call :=
| PersistArtifact (a : Artifact) (r : Reference)
| AppendEvent (e : Event)
| GetAggregate (workspace artifact_id : pyval)
| GetLatest (workspace artifact_id : pyval).
Definition history_step (c : history_call) (st : AttestationStore) : AttestationStore :=
  match c with
  | PersistArtifact a r => snd (persist_artifact a r st)
  | AppendEvent e => snd (append_revalidation_event e st)
  | GetAggregate _ _ | GetLatest _ _ => st
  end.
Definition history_run (l : list history_call) (st : AttestationStore) : AttestationStore :=
  foldl (λ st c, history_step c st) st l.
End store.
