(* ===== verification/HistoryFacts.v ===== *)
(** * Stored attestations: what holds of them

    Over any calls on a store, the texts of an artifact and of its reference never change, and
    the events of an artifact are numbered from one in the order they were appended
    ([history_append_only]).  An attempt is finalized with at most one event
    ([attempt_finalized_once]).  The content of a reference cannot be asked for
    ([reference_content_unavailable]). *)
From S2P Require Import Prelude PyValue Strings PyOps Canonical Json AuditRecords SafeText AuthorityBinding Attestation.
From S2P Require Import AttestationRecords AttestationStore.

(** ** The history of an attestation only grows *)
Section history.
Context `{PyLib}.
Variable isoformat_micros : Z → string.
Notation step' := (history_step isoformat_micros).
Notation run := (history_run isoformat_micros).
Notation records_at key st := (default [] (hs_events st !! key)).

(** The records of a partition: one per identifier, numbered in order *)
Definition well_numbered (l : event_records) : Prop :=
  NoDup (map fst l) ∧ ∀ i p, l !! i = Some p → fst (snd p) = (Z.of_nat i + 1)%Z.
Definition history_inv (st : AttestationStore) : Prop := ∀ key, well_numbered (records_at key st).

Definition grows (st st' : AttestationStore) : Prop :=
  (∀ key t, hs_artifacts st !! key = Some t → hs_artifacts st' !! key = Some t) ∧
  (∀ key t, hs_references st !! key = Some t → hs_references st' !! key = Some t) ∧
  ∀ key, records_at key st `prefix_of` records_at key st'.

#[export] Instance grows_preorder : PreOrder grows.
Proof.
  unfold grows. split; [by intros a; split_and!|]. intros a b c (A1 & A2 & A3) (B1 & B2 & B3). split_and!.
  - intros key t Hk. by apply B1, A1.
  - intros key t Hk. by apply B2, A2.
  - intros key. etrans; [apply A3|apply B3].
Qed.

Lemma empty_history_inv : history_inv empty_history.
Proof. intros key. simpl. rewrite lookup_empty. split; [constructor|by intros [|i] p]. Qed.

Lemma store_error_Ok {A} code (c : result A) x : store_error code c = Ok x → c = Ok x.
Proof. by destruct c as [|[]]. Qed.

Lemma stored_before_None key st :
  stored_before isoformat_micros key st = Ok None → hs_artifacts st !! key = None ∧ hs_references st !! key = None.
Proof.
  unfold stored_before. intros E. inv_ok. destruct a0 as [aggregate|]; [discriminate|].
  match goal with E : read_aggregate _ _ _ = Ok None |- _ => unfold read_aggregate in E; rename E into Er end.
  destruct (negb (aggregate_keys_ok st)); [discriminate|].
  destruct (bool_decide (key ∈ hs_keys st)), (hs_artifacts st !! key), (hs_references st !! key); by inv_ok.
Qed.

(** What an append reads: the records of the partition, with their identifiers *)
Lemma decode_event_id key aggregate record p :
  decode_event isoformat_micros key aggregate record = Ok p → fst p = fst record.
Proof. destruct record as [id [n t]]. unfold decode_event. intros E. by inv_checks. Qed.

Lemma read_events_facts key aggregate st events :
  read_events isoformat_micros key aggregate st = Ok events → map fst events = map fst (records_at key st).
Proof.
  unfold read_events, event_state. intros E. destruct (negb (event_keys_ok st)); [discriminate|].
  destruct (hs_events st !! key) as [records|], (bool_decide (key ∈ hs_partitions st)); try discriminate.
  - destruct (bool_decide (records = [])); [discriminate|]. apply store_error_Ok in E. inv_ok.
    match goal with E : map_r _ _ = Ok _ |- _ => apply map_r_Ok_Forall2 in E; rename E into Hd end. simpl.
    clear -Hd. induction Hd as [|x y l m Hx _ IH]; simpl; [done|]. apply decode_event_id in Hx. by rewrite Hx, IH.
  - by injection E as <-.
Qed.

Lemma event_under_None id events : event_under id events = None → id ∉ map fst events.
Proof.
  unfold event_under. intros E Hin. destruct (List.find _ events) eqn:Ef; [discriminate|].
  apply list_elem_of_fmap in Hin as (p & -> & Hp). apply list_elem_of_In in Hp.
  apply (List.find_none _ _ Ef) in Hp. by apply bool_decide_eq_false in Hp.
Qed.

Lemma put_event_grows key id n t st : grows st (put_event key id n t st).
Proof.
  split_and!; [done|done|]. intros k. simpl. destruct (decide (k = key)) as [->|Hne].
  - rewrite lookup_insert_eq. simpl. by apply prefix_app_r.
  - by rewrite lookup_insert_ne.
Qed.

Lemma put_event_inv key id t st :
  history_inv st → id ∉ map fst (records_at key st) →
  history_inv (put_event key id (Z.of_nat (length (records_at key st)) + 1) t st).
Proof.
  intros Hi Hid k. simpl. destruct (decide (k = key)) as [->|Hne]; [|rewrite lookup_insert_ne by done; apply Hi].
  rewrite lookup_insert_eq. simpl. destruct (Hi key) as [Hd Hn]. split.
  - rewrite map_app. apply NoDup_app. split_and!; [done| |apply NoDup_singleton].
    intros x Hx Hx'. apply list_elem_of_singleton in Hx'. by subst.
  - intros i p Hp. apply lookup_app_Some in Hp as [Hp|[Hlen Hp]]; [by apply Hn|].
    apply list_lookup_singleton_Some in Hp as [Hz <-]. simpl. f_equal. lia.
Qed.

Lemma append_facts e st answer st' :
  append_revalidation_event isoformat_micros e st = (answer, st') → history_inv st →
  history_inv st' ∧ grows st st'.
Proof.
  unfold append_revalidation_event. intros E Hi.
  destruct (event_candidate isoformat_micros e st) as [[[[x key] events] snapshot]|] eqn:Ec; [|by simplify_eq].
  destruct (event_under (re_event_id x) events) as [[n stored]|] eqn:Eu; simplify_eq; [done|].
  split; [|apply put_event_grows]. unfold event_candidate in Ec. inv_ok.
  match goal with E : read_events _ _ _ _ = Ok _ |- _ => apply read_events_facts in E; rename E into Hr end.
  apply event_under_None in Eu. rewrite Hr in Eu.
  replace (length events) with (length (records_at (re_workspace_identity x, re_artifact_id x) st)).
  - by apply put_event_inv.
  - apply (f_equal length) in Hr. by rewrite !length_map in Hr.
Qed.

Lemma persist_facts a r st answer st' :
  persist_artifact isoformat_micros a r st = (answer, st') → history_inv st → history_inv st' ∧ grows st st'.
Proof.
  unfold persist_artifact. intros E Hi.
  destruct (let! x := artifact_candidate _ _ _ in _) as [[[[[candidate key] ta] tr] [existing|]]|] eqn:Ec; simplify_eq; try done.
  inv_checks. match goal with E : stored_before _ _ _ = Ok None |- _ => apply stored_before_None in E as [Ha Hr] end.
  split; [done|]. split_and!; [| |done]; intros k t Hk; simpl; (rewrite lookup_insert_ne; [done|]); intros ->; congruence.
Qed.

Lemma history_step_facts c st : history_inv st → history_inv (step' c st) ∧ grows st (step' c st).
Proof.
  intros Hi. destruct c as [a r|e| |]; simpl; [| |done|done].
  - destruct (persist_artifact _ a r st) as [x st'] eqn:E. by eapply persist_facts.
  - destruct (append_revalidation_event _ e st) as [x st'] eqn:E. by eapply append_facts.
Qed.

Lemma history_run_facts l st : history_inv st → history_inv (run l st) ∧ grows st (run l st).
Proof.
  revert st; induction l as [|c l IH]; intros st Hi; simpl; [done|]. destruct (history_step_facts c st Hi) as [H1 H2].
  destruct (IH _ H1) as [H3 H4]. split; [done|]. by transitivity (step' c st).
Qed.

(** C24: Over any calls on a store, the stored texts of an artifact and of its reference never
    change, the events of an artifact are only appended to, and they are numbered one, two,
    three and so on with no identifier twice. *)
Theorem history_append_only before after :
  let st := run before empty_history in
  let st' := run after st in
  (∀ key t, hs_artifacts st !! key = Some t → hs_artifacts st' !! key = Some t) ∧
  (∀ key t, hs_references st !! key = Some t → hs_references st' !! key = Some t) ∧
  (∀ key, records_at key st `prefix_of` records_at key st') ∧
  ∀ key, NoDup (map fst (records_at key st')) ∧
    ∀ i p, records_at key st' !! i = Some p → fst (snd p) = (Z.of_nat i + 1)%Z.
Proof.
  destruct (history_run_facts before _ empty_history_inv) as [H1 _].
  destruct (history_run_facts after _ H1) as [H2 (Ha & Hr & Hp)]. by split_and!.
Qed.
End history.

(** ** The boundary of revalidation attempts *)
Section attempts.
Context `{PyLib}.
Variable isoformat_micros : Z → string.
Variable token : nat.
Notation step' := (attempt_step isoformat_micros token).
Notation run := (attempt_run isoformat_micros token).

(** The event an attempt was finalized with *)
Definition registered (st : AttemptState) (id : string) (e : Event) : Prop :=
  ∃ entry snapshot, ts_attempts st !! id = Some entry ∧ te_event entry = Some (e, snapshot).

Record attempts_inv (st : AttemptState) : Prop := {
  ti_tombstones : ∀ id, is_Some (ts_attempts st !! id) → id ∈ ts_tombstones st;
  ti_events : ∀ id e, registered st id e → re_attempt_id e = id;
}.

Lemma no_attempts_inv : attempts_inv no_attempts.
Proof.
  split; simpl.
  - intros id [x Hx]. by rewrite lookup_empty in Hx.
  - intros id e (entry & s & Hx & _). simpl in Hx. by rewrite lookup_empty in Hx.
Qed.

Lemma create_attempt_facts entropy w a st t st' :
  create_attempt token entropy w a st = Ok (t, st') →
  ∃ id entry, tt_attempt_id t = VStr id ∧ te_event entry = None ∧ id ∉ ts_tombstones st ∧
    ts_attempts st' = <[id := entry]> (ts_attempts st) ∧ ts_tombstones st' = {[id]} ∪ ts_tombstones st.
Proof.
  unfold create_attempt. intros E. inv_ok. destruct entropy as [[]|[]]; try discriminate. inv_ok. bools. simplify_eq/=.
  eexists _, (MkEntry _ _ _ None). by split_and!; try reflexivity.
Qed.

Lemma owned_facts t st id entry : _owned token t st = Ok (id, entry) → ts_attempts st !! id = Some entry.
Proof.
  unfold _owned. destruct (checked_attempt t) as [[[i w] a]|]; [|discriminate]. intros E. inv_ok.
  destruct (ts_attempts st !! i) eqn:El; [|discriminate]. inv_ok. by simplify_eq.
Qed.

Lemma finalize_facts t event st e st' :
  finalize isoformat_micros token t event st = Ok (e, st') →
  ∃ id entry, ts_attempts st !! id = Some entry ∧
    ((∃ snapshot, te_event entry = Some (e, snapshot) ∧ st' = st)
     ∨ (te_event entry = None ∧ re_attempt_id e = id ∧ ts_tombstones st' = ts_tombstones st ∧
        ∃ entry' snapshot, te_event entry' = Some (e, snapshot) ∧ ts_attempts st' = <[id := entry']> (ts_attempts st))).
Proof.
  unfold finalize. intros E. inv_checks. match goal with E : _owned _ _ _ = Ok _ |- _ => apply owned_facts in E end.
  bools. do 2 eexists. split; [done|]. destruct (te_event _) as [[registered snapshot]|]; inv_ok.
  - left. by eexists.
  - right. split_and!; [done|done|done|]. by eexists (MkEntry _ _ _ (Some _)), _.
Qed.

Lemma attempt_step_facts c st a st' :
  step' c st = (a, st') → attempts_inv st →
  attempts_inv st' ∧ (∀ id e, registered st id e → registered st' id e) ∧
  (∀ e, a = Finalized e → registered st' (re_attempt_id e) e) ∧
  (∀ id, id ∈ ts_tombstones st → id ∈ ts_tombstones st') ∧
  (∀ t, a = Created t → ∃ id, tt_attempt_id t = VStr id ∧ id ∉ ts_tombstones st ∧ id ∈ ts_tombstones st').
Proof.
  intros E Hi. destruct c as [entropy w art|t event]; simpl in E.
  - destruct (create_attempt _ _ _ _ _) as [[t st1]|e] eqn:Ec; simplify_eq; [|by split_and!].
    apply create_attempt_facts in Ec as (id & entry & Hid & He & Hn & Ha & Ht). destruct Hi as [Hi1 Hi2].
    assert (ts_attempts st !! id = None) as Hfree.
    { destruct (ts_attempts st !! id) eqn:El; [|done]. exfalso. apply Hn, Hi1. by eexists. }
    split_and!.
    + split.
      * intros i [x Hx]. rewrite Ha in Hx. rewrite Ht. apply lookup_insert_Some in Hx as [[<- _]|[_ Hx]]; [set_solver|].
        apply elem_of_union_r, Hi1. by eexists.
      * intros i e (en & s & Hx & Hs). rewrite Ha in Hx. apply lookup_insert_Some in Hx as [[_ <-]|[_ Hx]]; [congruence|].
        apply Hi2. by do 2 eexists.
    + intros i e (en & s & Hx & Hs). exists en, s. rewrite Ha. split; [|done]. rewrite lookup_insert_ne; [done|]. by intros ->; rewrite Hfree in Hx.
    + done.
    + intros i. rewrite Ht. set_solver.
    + intros ? [= <-]. exists id. rewrite Ht. set_solver.
  - destruct (finalize _ _ _ _ _) as [[e st1]|e] eqn:Ef; simplify_eq; [|by split_and!].
    apply finalize_facts in Ef as (id & entry & Hl & [(s & Hs & ->)|(Hn & Hid & Ht & entry' & s & Hs & Ha)]).
    + assert (registered st id e) as Hr by by do 2 eexists. split_and!; try done. intros ? [= <-].
      by rewrite (ti_events _ Hi _ _ Hr).
    + destruct Hi as [Hi1 Hi2]. split_and!.
      * split.
        -- intros i [x Hx]. rewrite Ha in Hx. rewrite Ht. apply Hi1. apply lookup_insert_Some in Hx as [[<- _]|[_ Hx]]; by eexists.
        -- intros i x (en & s' & Hx & Hs'). rewrite Ha in Hx. apply lookup_insert_Some in Hx as [[<- <-]|[_ Hx]]; [congruence|].
           apply Hi2. by do 2 eexists.
      * intros i x (en & s' & Hx & Hs'). exists en, s'. rewrite Ha. split; [|done]. rewrite lookup_insert_ne; [done|].
        intros ->. congruence.
      * intros ? [= <-]. rewrite Hid. exists entry', s. rewrite Ha. split; [apply lookup_insert_eq|done].
      * intros i. by rewrite Ht.
      * done.
Qed.

Lemma attempt_run_facts l st answers st' :
  run l st = (answers, st') → attempts_inv st →
  attempts_inv st' ∧ (∀ id e, registered st id e → registered st' id e) ∧
  (∀ e, Finalized e ∈ answers → registered st' (re_attempt_id e) e) ∧
  (∀ id, id ∈ ts_tombstones st → ∀ t, Created t ∈ answers → tt_attempt_id t ≠ VStr id) ∧
  NoDup (omap (λ a, match a with Created t => Some (tt_attempt_id t) | _ => None end) answers).
Proof.
  revert st answers; induction l as [|c l IH]; intros st answers E Hi; simpl in E.
  - simplify_eq. split_and!; try done; [intros e He|intros id _ t He|constructor]; by apply elem_of_nil in He.
  - destruct (step' c st) as [a st1] eqn:Es. destruct (run l st1) as [rest st2] eqn:Er. simplify_eq.
    destruct (attempt_step_facts _ _ _ _ Es Hi) as (Hi1 & Hk & Hf & Htomb & Hc).
    destruct (IH _ _ Er Hi1) as (Hi2 & Hk2 & Hf2 & Hn & Hd). split_and!; auto.
    + intros e [He|He]%elem_of_cons; [apply Hk2, Hf|]; auto.
    + intros id Hid t [Ht|Ht]%elem_of_cons; [|by eapply Hn; auto]. destruct (Hc _ (eq_sym Ht)) as (i & -> & Hni & _).
      intros [= <-]. done.
    + simpl. destruct a as [t| |]; try done. constructor; [|done]. intros Ht.
      apply list_elem_of_omap in Ht as (x & Hx & Hxt). destruct x as [t'| |]; try discriminate. injection Hxt as Hxt.
      destruct (Hc _ eq_refl) as (i & Hti & _ & Hi'). apply (Hn i Hi' t' Hx). congruence.
Qed.

(** C25: Over any calls on a boundary, the identifiers of the attempts it makes are distinct, and
    every finalization of an attempt that succeeds returns one and the same event: an attempt
    settles with a single event, repeated or not, whatever events are offered for it and
    whatever was written to the attempt objects. *)
Theorem attempt_finalized_once l :
  let '(answers, _) := run l no_attempts in
  NoDup (omap (λ a, match a with Created t => Some (tt_attempt_id t) | _ => None end) answers) ∧
  ∀ e e', Finalized e ∈ answers → Finalized e' ∈ answers → re_attempt_id e = re_attempt_id e' → e = e'.
Proof.
  destruct (run l no_attempts) as [answers st] eqn:E.
  destruct (attempt_run_facts _ _ _ _ E no_attempts_inv) as (_ & _ & Hf & _ & Hd). split; [done|].
  intros e e' He He' Hid. destruct (Hf _ He) as (n & s & Hn & Hs). destruct (Hf _ He') as (n' & s' & Hn' & Hs').
  rewrite Hid in Hn. congruence.
Qed.
End attempts.

(** ** The content of a reference *)
(** [content_payload] of a sound reference raises: the values it passes on lack the version
    that is read from them. *)
Theorem reference_content_unavailable `{PyLib} isoformat_micros r :
  is_ok (reference_from_untrusted isoformat_micros (inl r)) = true →
  reference_content_payload isoformat_micros r = Err (KeyError "reference_contract_version").
Proof.
  unfold reference_content_payload. destruct (reference_from_untrusted _ _) as [x|]; [|done]. intros _.
  by destruct (reference_v2 x).
Qed.
