(* ===== verification/AttestationRuntime.v ===== *)
(** * Runtime attestation (delivery_system/attestation_runtime.py)

    [RuntimeAttestationOrchestrationService]: it loads the sealed preview, its audit and its
    driver evidence, has a provider attest the credential, verifies and spends the
    attestation at the boundary of AttestationBoundary.v and registers the result as a
    binding.  A binding is an object with dynamic fields; the registries hold its identity,
    a number, and [rt_objects] the fields it has now, so that code that writes to the object
    behind the service's back changes what every registry reads.  The weak dictionaries keep
    an entry as long as its binding lives, which [bindings_by_id] keeps for good. *)
From S2P Require Import Prelude PyValue Strings PyOps Canonical FormalPreview Evidence RemoteSnapshot.
From S2P Require Import AuditRecords Preflight WriteOperations Approvals SafeText Attestation.
From S2P Require Import AttestationBoundary PreviewStore Auditor.

(** [RuntimeCredentialCapabilityBinding.__slots__] *)
Definition BINDING_SLOTS : list string :=
  ["binding_id"; "workspace_identity"; "attestation_version"; "attestation_id"; "claims_digest";
   "credential_instance_id"; "issuer_id"; "key_id"; "algorithm"; "credential_class";
   "credential_principal_identity"; "challenge_digest"; "repository_identity"; "github_subject_identity";
   "required_capabilities"; "granted_capabilities"; "driver_identity"; "remote_authority"; "preview_id"; "revision";
   "plan_digest"; "sealed_preview_digest"; "operation_set_digest"; "remote_snapshot_digest";
   "evidence_id"; "evidence_digest"; "audit_id"; "audit_digest"; "source_verification_digest";
   "issued_at"; "expires_at"; "verified_at"].
Definition CAPABILITY_FIELDS : list string := ["required_capabilities"; "granted_capabilities"].
Definition DIGEST_FIELDS : list string :=
  ["claims_digest"; "plan_digest"; "sealed_preview_digest"; "operation_set_digest"; "remote_snapshot_digest";
   "evidence_digest"; "audit_digest"; "source_verification_digest"; "remote_authority"].
Definition TIME_FIELDS : list string := ["issued_at"; "expires_at"; "verified_at"].
Definition LEGACY_FIELDS : list string := ["challenge_digest"; "credential_principal_identity"].
Definition BINDING_DOMAIN : string := "delivery-system:runtime-attestation-binding:v1".
Definition INTEGRITY_FAILED : string := "attestation_binding_integrity_failed".

(** An entry of the registry: each field with the tag of its type, and the identity *)
Definition contract : Type := list (string * string * pyval) * string.

(** [VerifiedRuntimeCredentialContext]: the event, and the identities of the binding and the owner *)
Record VerifiedContext := MkVerifiedContext {
  vc_object : nat;
  vc_event : VerifiedEvent;
  vc_binding : nat;
  vc_owner : nat;
}.

(** ** The state of the service *)
Definition state_key : Type := string * string * Z * list string.

Record RuntimeState := MkRuntime {
  rt_boundary : BoundaryState;
  rt_objects : gmap nat pyval;               (** the fields of the binding objects *)
  rt_by_id : gmap string nat;                (** [bindings_by_id] *)
  rt_by_state : gmap state_key nat;          (** [bindings_by_state] *)
  rt_registry : gmap nat contract;           (** [binding_registry] *)
  rt_events : gmap nat VerifiedEvent;        (** [binding_events] *)
  rt_contexts : gmap nat VerifiedContext;    (** [contexts_by_binding] *)
  rt_next : nat;                             (** the identity of the next object *)
}.
Definition empty_runtime : RuntimeState := MkRuntime empty_boundary ∅ ∅ ∅ ∅ ∅ ∅ 0.
Definition with_boundary (b : BoundaryState) (st : RuntimeState) : RuntimeState :=
  MkRuntime b (rt_objects st) (rt_by_id st) (rt_by_state st) (rt_registry st) (rt_events st) (rt_contexts st) (rt_next st).

(** [RuntimeAttestationResult]: a binding with its context, or the one failure *)
Inductive attestation_result :=
| Attested (binding : nat) (context : VerifiedContext)
| AttestationFailed (code : string).

(** What one call takes from outside: the resolver, the provider, the clocks and the
    random values.  The provider answers with an object of the module or any other value; a
    naive clock reading is [None]. *)
Record Surroundings := MkSurroundings {
  sr_resolve : list pyval → result pyval;
  sr_attest : Request → result (SignedAttestation + pyval);
  sr_clock : result (option Z);
  sr_challenge : string;
  sr_monotonic : Z * Z * Z;
  sr_token : string;
}.

Section integrity.
Context `{PyLib}.

(** ** [_typed_binding_snapshot] *)
Definition integrity_error {A} : result A := Err (ValueError INTEGRITY_FAILED).

Definition utc_text (v : pyval) : bool :=
  match parse_iso v with Ok (_, Some offset) => (offset =? 0)%Z | _ => false end.

Definition typed_field (fields : pyval) (name : string) : result (string * string * pyval) :=
  let value := get fields name in
  if bool_decide (name = "revision") then
    match value with
    | VInt z => raise INTEGRITY_FAILED when (z <? 1)%Z ; Ok (name, "int", value)
    | _ => integrity_error
    end
  else if bool_decide (name ∈ CAPABILITY_FIELDS) then
    match value with
    | VTuple l =>
        match nonempty_strs l with
        | Some caps =>
            raise INTEGRITY_FAILED when bool_decide (caps = []) ;
            raise INTEGRITY_FAILED when negb (bool_decide (sorted_strings caps = caps)) || negb (no_dups caps) ;
            Ok (name, "tuple[str]", value)
        | None => integrity_error
        end
    | _ => integrity_error
    end
  else if bool_decide (name ∈ TIME_FIELDS) then
    raise INTEGRITY_FAILED when negb (is_nonempty_str value) || negb (utc_text value) ; Ok (name, "str:utc", value)
  else if bool_decide (name ∈ LEGACY_FIELDS) && py_eq (get fields "attestation_version") (VStr "1") then
    raise INTEGRITY_FAILED when negb (py_eq value (VStr "")) ; Ok (name, "legacy-empty", value)
  else
    match value with
    | VStr s =>
        raise INTEGRITY_FAILED when bool_decide (s = "") ;
        raise INTEGRITY_FAILED when bool_decide (name ∈ DIGEST_FIELDS) && negb (DIGEST_RE s) ;
        Ok (name, "str", value)
    | _ => integrity_error
    end.

Definition _typed_binding_snapshot (fields : pyval) : result (list (string * string * pyval)) :=
  map_r (typed_field fields) BINDING_SLOTS.

(** ** [_binding_contract]: the fields without the identity and the time of verification are
    hashed.  [_make_binding] hashes the same fields; the canonical text sorts the keys. *)
Definition binding_identity (fields : pyval) : result string :=
  let! h := digest_hex (dict_of [("domain", VStr BINDING_DOMAIN);
                                 ("binding", without_key "verified_at" (without_key "binding_id" fields))]) in
  Ok ("binding-" +:+ h).

Definition _binding_contract (fields : pyval) : result contract :=
  let! _ := _typed_binding_snapshot fields in
  let! recomputed := binding_identity fields in
  let! snapshot := _typed_binding_snapshot fields in
  raise INTEGRITY_FAILED when negb (py_eq (get fields "binding_id") (VStr recomputed)) ;
  Ok (snapshot, recomputed).

(** ** [_registered_binding_is_intact] of an object *)
Definition _registered_binding_is_intact (object : nat) (st : RuntimeState) : bool :=
  match rt_objects st !! object, rt_registry st !! object with
  | Some fields, Some entry =>
      bool_decide (rt_by_id st !! the_str (get fields "binding_id") = Some object)
      && bool_decide (_binding_contract fields = Ok entry)
  | _, _ => false
  end.

(** [_concrete_accepts_verified_event_binding] and [_concrete_accepts_verified_context]; the
    service of the context is the one asked. *)
Definition same_event (st : RuntimeState) (binding : nat) (event : VerifiedEvent) : bool :=
  bool_decide (ev_object <$> rt_events st !! binding = Some (ev_object event)).
Definition accepts_verified_event_binding (event : VerifiedEvent) (binding : nat) (st : RuntimeState) : bool :=
  accepts_verified_event event (rt_boundary st) && _registered_binding_is_intact binding st
  && same_event st binding event.
Definition accepts_verified_context (service : nat) (context : VerifiedContext) (st : RuntimeState) : bool :=
  (vc_owner context =? service)
  && bool_decide (vc_object <$> rt_contexts st !! vc_binding context = Some (vc_object context))
  && same_event st (vc_binding context) (vc_event context)
  && accepts_verified_event_binding (vc_event context) (vc_binding context) st.

(** ** [lookup_binding] and [resolve_registered_binding] *)
Definition lookup_binding (binding_id : string) (st : RuntimeState) : option nat :=
  match rt_by_id st !! binding_id with
  | Some object => if _registered_binding_is_intact object st then Some object else None
  | None => None
  end.
Definition resolve_registered_binding (binding_id : pyval) (st : RuntimeState) : result nat :=
  match binding_id with
  | VStr id =>
      raise "credential_binding_mismatch" when bool_decide (id = "") ;
      match lookup_binding id st with Some object => Ok object | None => Err (ValueError "credential_binding_mismatch") end
  | _ => Err (ValueError "credential_binding_mismatch")
  end.
Definition accepts_binding (object : nat) (st : RuntimeState) : bool := _registered_binding_is_intact object st.
End integrity.

(** ** Requirements: [_normalise_requirements] and [_subject_from_payload] *)
Definition _normalise_requirements (v : pyval) : result (list string) :=
  let invalid := "attestation_capability_requirement_invalid" in
  match as_sequence v with
  | None | Some [] => Err (ValueError invalid)
  | Some l =>
      raise invalid when negb (forallb nonblank l) ;
      let normalised := map (λ x, py_strip (the_str x)) l in
      raise invalid when negb (no_dups normalised) || negb (bool_decide (sorted_strings normalised = normalised)) ;
      Ok normalised
  end.

Definition SUBJECT_FIELDS : list string := ["authenticated_user_node_id"; "authenticated_user_id"; "authenticated_subject"].
Definition _subject_from_payload (payload : pyval) : option string :=
  if is_mapping payload then
    (λ v, py_strip (the_str v)) <$> List.find nonblank (map (get payload) SUBJECT_FIELDS)
  else None.

Section service.
Context `{PyLib}.
Variable isoformat_micros : Z → string.
Variable policies : Policies.
Variable boundary_id : nat.
Variable service_id : nat.
Variable ws : string.                  (** the workspace of the runtime context *)
Variable store : SQLitePreviewStore.
Variable trust : DriverTrustContext.

(** ** [_load_runtime_state] *)
Definition ACCEPTED_LEVELS : list string := [REPOSITORY_AWARE; WRITE_ELIGIBLE].
Definition PREVIEW_INVALID : string := "attestation_preview_integrity_invalid".

(** The exception handlers of the two reads *)
Definition stored_preview (preview_id : string) (db : PreviewDb) : step pyval :=
  match get_preview store ws preview_id db with
  | Ok v => Pass v
  | Err (Unmodelled what) => Raised (Unmodelled what)
  | Err (KeyError _) => Failure "attestation_preview_not_found"
  | Err e => Failure (if bool_decide (e = ValueError "preview_not_found") then "attestation_preview_not_found"
                      else PREVIEW_INVALID)
  end.

Definition sealed_context (preview_id : string) (revision : Z) (db : PreviewDb) : step AuditContext :=
  match (raise "driver_trust_context_mismatch" when negb (bool_decide (ps_trust_context store = Some trust)) ;
         audit_context ws store (Some trust) preview_id revision db) with
  | Ok c => Pass c
  | Err (Unmodelled what) => Raised (Unmodelled what)
  | Err (ValueError code) =>
      Failure (if bool_decide (code = "context_stale") then "attestation_preview_stale"
               else if bool_decide (code ∈ ["evidence_missing"; "evidence_not_found"]) then "attestation_evidence_missing"
               else PREVIEW_INVALID)
  | Err _ => Failure PREVIEW_INVALID
  end.

(** The preview the store has now *)
Definition check_stored (preview_id : string) (revision : Z) (db : PreviewDb) : step unit :=
  step! stored := stored_preview preview_id db in
  let inner := if is_mapping stored then get stored "canonical_payload" else VNone in
  let canonical := if is_mapping inner then inner else stored in
  fail PREVIEW_INVALID when negb (is_mapping canonical) ;
  fail PREVIEW_INVALID when negb (py_eq (get canonical "workspace_identity") (VStr ws)) ;
  fail PREVIEW_INVALID when negb (positive_int (get canonical "revision")) ;
  fail "attestation_preview_stale" when negb (py_eq (get canonical "revision") (VInt revision)) ;
  step! level := lift (in_str_set (get canonical "preview_level") ACCEPTED_LEVELS) in
  fail "attestation_preview_not_repository_aware" when negb level ; Pass tt.

(** The sealed preview of the audit context *)
Definition check_sealed (preview_id : string) (revision : Z) (canonical : pyval) : step unit :=
  fail PREVIEW_INVALID when negb (py_eq (get canonical "workspace_identity") (VStr ws)) ;
  step! level := lift (in_str_set (get canonical "preview_level") ACCEPTED_LEVELS) in
  fail "attestation_preview_not_repository_aware" when negb level ;
  fail "attestation_preview_stale"
    when negb (py_eq (get canonical "preview_id") (VStr preview_id)) || negb (py_eq (get canonical "revision") (VInt revision)) ;
  fail PREVIEW_INVALID
    when negb (forallb (λ k, is_nonempty_str (get canonical k))
                 ["plan_digest"; "operation_set_digest"; "sealed_preview_digest"; "remote_snapshot_digest"; "remote_authority"]) ;
  Pass tt.

(** The one active audit *)
Definition audit_bound (a : AuditRecord) (preview_id : string) (revision : Z) (canonical : pyval) : bool :=
  py_eq (ad_workspace_identity a) (VStr ws) && bool_decide (ad_preview_id a = preview_id)
  && bool_decide (ad_revision a = revision) && py_eq (VStr (ad_plan_digest a)) (get canonical "plan_digest")
  && py_eq (VStr (ad_operation_set_digest a)) (get canonical "operation_set_digest")
  && py_eq (opt_str_value (ad_remote_snapshot_digest a)) (get canonical "remote_snapshot_digest")
  && py_eq (ad_sealed_preview_digest a) (get canonical "sealed_preview_digest").

Definition current_audit_of (preview_id : string) (revision : Z) (canonical : pyval) (db : PreviewDb) : step AuditRecord :=
  step! audits := or_failure "attestation_audit_missing" (list_active_audits ws preview_id revision db) in
  match audits with
  | [] => Failure "attestation_audit_missing"
  | [a] =>
      fail "attestation_audit_not_active" when negb (bool_decide (ad_status a = ACTIVE)) ;
      fail "attestation_audit_not_passed" when negb (bool_decide (ad_result a = PASSED)) ;
      fail "attestation_audit_binding_mismatch"
        when negb (py_eq (ad_audit_scope a) (get canonical "preview_level")) || negb (truthy (ad_audit_context_digest a)) ;
      step! intact := lift (audit_verify_digest a) in
      fail "attestation_audit_binding_mismatch" when negb intact ;
      fail "attestation_audit_binding_mismatch" when negb (audit_bound a preview_id revision canonical) ;
      Pass a
  | _ => Failure "attestation_audit_ambiguous"
  end.

(** The one driver record among the evidence *)
Definition driver_evidence (preview_id : string) (revision : Z) (canonical : pyval) (records : list pyval)
  : step EvidenceRecord :=
  match List.filter (λ r, is_mapping r && py_eq (get r "source_kind") (VStr "driver")) records with
  | [] => Failure "attestation_evidence_missing"
  | [record] =>
      step! e := or_failure "attestation_evidence_binding_mismatch" (evidence_from_dict record) in
      fail "attestation_evidence_binding_mismatch"
        when negb (bool_decide (ev_evidence_type e = "driver_remote_read"))
             || negb (bool_decide (ev_verification_status e = "driver_verified"))
             || negb (bool_decide (ev_source_identity e = trusted_driver_identity trust))
             || negb (bool_decide (ev_workspace_identity e = ws)) || negb (bool_decide (ev_preview_id e = preview_id))
             || negb (bool_decide (ev_revision e = revision))
             || negb (py_eq (ev_repository_identity e) (get canonical "repository_identity")) ;
      Pass e
  | _ => Failure "attestation_evidence_ambiguous"
  end.

Definition _load_runtime_state (preview_id : string) (revision : Z) (db : PreviewDb)
  : step (pyval * AuditRecord * EvidenceRecord * string) :=
  step! _ := check_stored preview_id revision db in
  step! context := sealed_context preview_id revision db in
  let canonical := cx_sealed_preview context in
  step! _ := check_sealed preview_id revision canonical in
  step! a := current_audit_of preview_id revision canonical db in
  step! e := driver_evidence preview_id revision canonical (cx_evidence_records context) in
  match _subject_from_payload (ev_payload e) with
  | None => Failure "attestation_subject_unavailable"
  | Some subject => Pass (canonical, a, e, subject)
  end.

(** ** [_create_request]: the requirements, then the request of the boundary *)
Definition capability_requirements (resolve : list pyval → result pyval) (canonical : pyval) : step (list string) :=
  let invalid := "attestation_capability_requirement_invalid" in
  match get canonical "operation_intents" with
  | VList l =>
      fail invalid when bool_decide (l = []) || negb (forallb is_mapping l) ;
      match (let! v := resolve l in _normalise_requirements v) with
      | Ok required => Pass required
      | Err (Unmodelled what) => Raised (Unmodelled what)
      | Err e => Failure (if bool_decide (e = ValueError invalid) then invalid
                          else "attestation_capability_resolution_unavailable")
      end
  | _ => Failure invalid
  end.

Definition request_values (canonical : pyval) (e : EvidenceRecord) (subject : string) (required : list string)
  : result pyval :=
  let! repository := subscript canonical "repository_identity" in
  let! authority := subscript canonical "remote_authority" in
  let! preview := subscript canonical "preview_id" in
  let! revision := subscript canonical "revision" in
  let! operations := subscript canonical "operation_set_digest" in
  let! snapshot := subscript canonical "remote_snapshot_digest" in
  Ok (dict_of [("repository_identity", repository); ("github_subject_identity", VStr subject);
               ("required_capabilities", VTuple (map VStr required)); ("driver_identity", VStr (ev_source_identity e));
               ("remote_authority", authority); ("preview_id", preview); ("revision", revision);
               ("operation_set_digest", operations); ("remote_snapshot_digest", snapshot);
               ("evidence_digest", VStr (ev_evidence_digest e))]).

Definition _create_request (env : Surroundings) (canonical : pyval) (e : EvidenceRecord) (subject : string)
    (b : BoundaryState) : step (Request * BoundaryState) :=
  step! required := capability_requirements (sr_resolve env) canonical in
  or_failure "attestation_capability_requirement_invalid"
    (let! values := request_values canonical e subject required in
     create_request policies boundary_id values (sr_challenge env) (fst (fst (sr_monotonic env))) b).

(** ** [_make_binding]: the fields of the new object, in the order of its slots *)
Definition binding_values (event : VerifiedEvent) (request : RequestValues) (canonical : pyval) (a : AuditRecord)
    (e : EvidenceRecord) (binding_id claims_digest : string) : pyval :=
  let c := held_value (ev_claims event) in
  dict_of
    [("binding_id", VStr binding_id); ("workspace_identity", VStr ws);
     ("attestation_version", VStr (cl_attestation_version c)); ("attestation_id", VStr (cl_attestation_id c));
     ("claims_digest", VStr claims_digest); ("credential_instance_id", VStr (cl_credential_instance_id c));
     ("issuer_id", VStr (cl_issuer_id c)); ("key_id", VStr (cl_key_id c));
     ("algorithm", VStr (cl_signature_algorithm c)); ("credential_class", VStr (cl_credential_class c));
     ("credential_principal_identity", VStr (cl_credential_principal_identity c));
     ("challenge_digest", VStr (cl_challenge_digest c)); ("repository_identity", VStr (cl_repository_identity c));
     ("github_subject_identity", VStr (cl_github_subject_identity c));
     ("required_capabilities", VTuple (map VStr (rv_required_capabilities request)));
     ("granted_capabilities", VTuple (map VStr (cl_granted_capabilities c)));
     ("driver_identity", VStr (cl_driver_identity c)); ("remote_authority", VStr (cl_remote_authority c));
     ("preview_id", VStr (cl_preview_id c)); ("revision", VInt (cl_revision c));
     ("plan_digest", get canonical "plan_digest"); ("sealed_preview_digest", get canonical "sealed_preview_digest");
     ("operation_set_digest", VStr (cl_operation_set_digest c));
     ("remote_snapshot_digest", VStr (cl_remote_snapshot_digest c)); ("evidence_id", VStr (ev_evidence_id e));
     ("evidence_digest", VStr (cl_evidence_digest c)); ("audit_id", VStr (ad_audit_id a));
     ("audit_digest", VStr (ad_audit_digest a));
     ("source_verification_digest", VStr (cl_source_verification_digest c)); ("issued_at", VStr (cl_issued_at c));
     ("expires_at", VStr (cl_expires_at c)); ("verified_at", VStr (ev_verified_at event))].

Definition _make_binding (event : VerifiedEvent) (request : Request) (canonical : pyval) (a : AuditRecord)
    (e : EvidenceRecord) (b : BoundaryState) : result pyval :=
  raise "attestation_verified_event_mismatch" when negb (accepts_verified_event event b) ;
  let! d := claims_digest (held_value (ev_claims event)) in
  let values id := binding_values event (rq_values request) canonical a e id d in
  let! id := binding_identity (values "") in
  Ok (values id).

(** ** [orchestrate] *)
(** A failure or an exception leaves the state as it is then; the outer handler of
    [orchestrate] reports an exception as [attestation_provider_response_invalid]. *)
Definition settle {A} (outcome : step A) (st : RuntimeState)
    (k : A → result (attestation_result * RuntimeState)) : result (attestation_result * RuntimeState) :=
  match outcome with
  | Pass a => k a
  | Failure code => Ok (AttestationFailed code, st)
  | Raised (Unmodelled what) => Err (Unmodelled what)
  | Raised _ => Ok (AttestationFailed "attestation_provider_response_invalid", st)
  end.

Definition key_of (preview_id : string) (revision : Z) (canonical : pyval) (a : AuditRecord) (e : EvidenceRecord)
  : state_key :=
  (ws, preview_id, revision,
   map (λ k, the_str (get canonical k)) ["plan_digest"; "sealed_preview_digest"; "operation_set_digest"; "remote_snapshot_digest"]
   ++ [ev_evidence_id e; ad_audit_id a; ad_audit_digest a]).

(** A binding of the same state: returned when it is of the same attestation *)
Definition keep_binding (existing : nat) (fields : pyval) (st : RuntimeState) : step (nat * VerifiedContext) :=
  fail INTEGRITY_FAILED when negb (_registered_binding_is_intact existing st) ;
  let stored := default VNone (rt_objects st !! existing) in
  fail "attestation_binding_conflict"
    when negb (py_eq (get stored "attestation_id") (get fields "attestation_id"))
         || negb (py_eq (get stored "claims_digest") (get fields "claims_digest")) ;
  match rt_contexts st !! existing with
  | Some context => Pass (existing, context)
  | None => Failure INTEGRITY_FAILED
  end.

(** The registrations of a new binding, in the order of the code: an exception of the
    contract or of the context leaves those already made. *)
Definition create_object (key : state_key) (fields : pyval) (st : RuntimeState) : RuntimeState :=
  MkRuntime (rt_boundary st) (<[rt_next st := fields]> (rt_objects st))
    (<[the_str (get fields "binding_id") := rt_next st]> (rt_by_id st)) (<[key := rt_next st]> (rt_by_state st))
    (rt_registry st) (rt_events st) (rt_contexts st) (S (rt_next st)).
Definition register_contract (object : nat) (entry : contract) (event : VerifiedEvent) (st : RuntimeState) : RuntimeState :=
  MkRuntime (rt_boundary st) (rt_objects st) (rt_by_id st) (rt_by_state st) (<[object := entry]> (rt_registry st))
    (<[object := event]> (rt_events st)) (rt_contexts st) (rt_next st).
Definition register_context (context : VerifiedContext) (st : RuntimeState) : RuntimeState :=
  MkRuntime (rt_boundary st) (rt_objects st) (rt_by_id st) (rt_by_state st) (rt_registry st) (rt_events st)
    (<[vc_binding context := context]> (rt_contexts st)) (S (rt_next st)).

Definition register_binding (key : state_key) (fields : pyval) (event : VerifiedEvent) (st : RuntimeState)
  : result (attestation_result * RuntimeState) :=
  let object := rt_next st in
  let st := create_object key fields st in
  settle (lift (_binding_contract fields)) st (λ entry,
    let st := register_contract object entry event st in
    settle (if accepts_verified_event_binding event object st then Pass tt
            else Raised (ValueError "verified_runtime_context_source_mismatch")) st (λ _,
      let context := MkVerifiedContext (rt_next st) event object service_id in
      Ok (Attested object context, register_context context st))).

Definition is_envelope (v : SignedAttestation + pyval) : bool :=
  match v with inl _ => true | inr v => is_mapping v end.

(** From the request on: attest, verify, spend, register *)
Definition attest_request (env : Surroundings) (preview_id : string) (revision : Z) (canonical : pyval) (a : AuditRecord)
    (e : EvidenceRecord) (request : Request) (st : RuntimeState) : result (attestation_result * RuntimeState) :=
  settle (step! envelope := or_failure "attestation_provider_unavailable" (sr_attest env request) in
          fail "attestation_provider_response_invalid" when negb (is_envelope envelope) ;
          step! now := or_failure "attestation_provider_response_invalid" (sr_clock env) in
          match now with
          | Some now => Pass (envelope, now)
          | None => Failure "attestation_provider_response_invalid"
          end) st (λ '(envelope, now),
    let '(_, m, m') := sr_monotonic env in
    let! (answer, b) := verify isoformat_micros policies boundary_id (Some envelope) (Some request) (Some now) m m'
                          (sr_token env) (rt_boundary st) in
    let st := with_boundary b st in
    match answer with
    | VerificationFailed code => Ok (AttestationFailed code, st)
    | Verified ticket =>
        settle (or_failure "attestation_ticket_consume_failed" (consume_verified_event ticket b)) st (λ '(event, b),
          let st := with_boundary b st in
          settle (or_failure "attestation_provider_response_invalid" (_make_binding event request canonical a e b)) st
            (λ fields,
              let key := key_of preview_id revision canonical a e in
              match rt_by_state st !! key with
              | Some existing =>
                  settle (keep_binding existing fields st) st (λ '(object, context), Ok (Attested object context, st))
              | None => register_binding key fields event st
              end))
    end).

Definition orchestrate (env : Surroundings) (preview_id revision : pyval) (db : PreviewDb) (st : RuntimeState)
  : result (attestation_result * RuntimeState) :=
  match preview_id, revision with
  | VStr preview_id, VInt revision =>
      if bool_decide (preview_id = "") || (revision <? 1)%Z then Ok (AttestationFailed "attestation_preview_not_found", st)
      else
        settle (_load_runtime_state preview_id revision db) st (λ '(canonical, a, e, subject),
          settle (_create_request env canonical e subject (rt_boundary st)) st (λ '(request, b),
            attest_request env preview_id revision canonical a e request (with_boundary b st)))
  | _, _ => Ok (AttestationFailed "attestation_preview_not_found", st)
  end.

(** ** A run of the service
    Calls of [orchestrate], and writes to the fields of a binding object from outside. *)
Inductive runtime_event :=
| Orchestrate (env : Surroundings) (preview_id revision : pyval) (db : PreviewDb)
| Tamper (object : nat) (fields : pyval).

Definition tamper (object : nat) (fields : pyval) (st : RuntimeState) : RuntimeState :=
  MkRuntime (rt_boundary st) (<[object := fields]> (rt_objects st)) (rt_by_id st) (rt_by_state st) (rt_registry st)
    (rt_events st) (rt_contexts st) (rt_next st).

Definition runtime_step (e : runtime_event) (st : RuntimeState) : RuntimeState :=
  match e with
  | Orchestrate env preview_id revision db =>
      match orchestrate env preview_id revision db st with Ok (_, st') => st' | Err _ => st end
  | Tamper object fields => tamper object fields st
  end.
Definition runtime_run (l : list runtime_event) (st : RuntimeState) : RuntimeState := foldl (λ st e, runtime_step e st) st l.
End service.
