(* ===== verification/RuntimeFacts.v ===== *)
(** * What a registered binding means

    A binding that the service of AttestationRuntime.v resolves was made from a verified
    attestation of a current credential for a sealed preview with a passed, active audit, and
    it still has the fields it was made with ([resolved_binding_attested]), whatever was
    written to the binding objects in between. *)
From S2P Require Import Prelude PyValue Strings PyOps Canonical Evidence AuditRecords SafeText Attestation.
From S2P Require Import AttestationBoundary WriteOperations PreviewStore Preflight Auditor AttestationFacts.
From S2P Require Import AttestationRuntime.

(** ** The typed snapshot keeps every field *)
Section snapshot.
Context `{PyLib}.

Lemma typed_field_value fields name x : typed_field fields name = Ok x → ∃ tag, x = (name, tag, get fields name).
Proof.
  unfold typed_field. intros E.
  repeat match goal with
  | E : integrity_error = Ok _ |- _ => discriminate E
  | E : (if ?b then _ else _) = Ok _ |- _ => destruct b; try discriminate E
  | E : (match ?v with VNone => _ | _ => _ end) = Ok _ |- _ => destruct v; try discriminate E
  | E : (match nonempty_strs ?l with Some _ => _ | None => _ end) = Ok _ |- _ => destruct (nonempty_strs l); try discriminate E
  | E : Ok _ = Ok _ |- _ => injection E as <-
  end; by eexists.
Qed.

Lemma typed_snapshot_values fields s :
  _typed_binding_snapshot fields = Ok s → map (λ x, (fst (fst x), snd x)) s = map (λ k, (k, get fields k)) BINDING_SLOTS.
Proof.
  unfold _typed_binding_snapshot. intros E%map_r_Ok_Forall2. induction E as [|k x l s Hx _ IH]; simpl; [done|].
  apply typed_field_value in Hx as [tag ->]. simpl. by rewrite IH.
Qed.

Lemma contract_values fields fields' entry :
  _binding_contract fields = Ok entry → _binding_contract fields' = Ok entry →
  ∀ k, k ∈ BINDING_SLOTS → get fields k = get fields' k.
Proof.
  unfold _binding_contract. intros E E'. inv_ok. simplify_eq.
  repeat match goal with E : _typed_binding_snapshot _ = Ok _ |- _ => apply typed_snapshot_values in E end.
  intros k Hk. match goal with A : map _ ?s = map _ _, B : map _ ?s = map _ _ |- _ => rewrite A in B; rename B into F end.
  revert F Hk. generalize BINDING_SLOTS. intros l; induction l as [|x l IH]; intros F Hk; [by apply elem_of_nil in Hk|].
  simpl in F. injection F as Fx F. apply elem_of_cons in Hk as [->|Hk]; [done|by apply IH].
Qed.

Lemma contract_identity fields entry :
  _binding_contract fields = Ok entry →
  binding_identity fields = Ok (snd entry) ∧ get fields "binding_id" = VStr (snd entry).
Proof.
  unfold _binding_contract. intros E. inv_ok. bools. simpl. split; [done|].
  match goal with E : py_eq _ _ = true |- _ => by apply py_eq_str in E end.
Qed.

(** A binding object whose registration is intact still has the fields of its contract. *)
Lemma intact_fields object st fields entry fields' :
  _registered_binding_is_intact object st = true → rt_objects st !! object = Some fields →
  rt_registry st !! object = Some entry → _binding_contract fields' = Ok entry →
  (∀ k, k ∈ BINDING_SLOTS → get fields k = get fields' k) ∧ binding_identity fields = Ok (snd entry).
Proof.
  unfold _registered_binding_is_intact. intros Hi Ho He E'. rewrite Ho, He in Hi. bools.
  split; [by eapply contract_values|by apply contract_identity].
Qed.
End snapshot.

(** ** What the service records of an attestation *)
Section facts.
Context `{PyLib}.
Variable isoformat_micros : Z → string.
Variable policies : Policies.
Variables boundary_id service_id : nat.
Variable ws : string.
Variable store : SQLitePreviewStore.
Variable trust : DriverTrustContext.

(** The capabilities of a request are names, in order. *)
Definition capability_names (l : list string) : Prop :=
  (∀ s, s ∈ l → CAPABILITY_RE s = true) ∧ sorted_strings l = l.

(** The verified event of a request for a sealed preview with its audit and evidence *)
Record attested (event : VerifiedEvent) (request : RequestValues) (canonical : pyval) (a : AuditRecord)
    (e : EvidenceRecord) : Prop := {
  at_sealed : ∃ preview_id revision db subject,
    _load_runtime_state ws store trust preview_id revision db = Pass (canonical, a, e, subject);
  at_audit : ad_status a = ACTIVE ∧ ad_result a = PASSED ∧ audit_verify_digest a = Ok true;
  at_envelope : ∃ signed, checked_envelope policies signed (held_value (ev_envelope event)) ∧
    held_value (ev_claims event) = sa_claims (held_value (ev_envelope event));
  at_current : ∃ now, current_credential policies (held_value (ev_claims event)) now;
  at_request : request_mismatch (held_value (ev_claims event)) request = None;
  at_required : capability_names (rv_required_capabilities request);
  at_capabilities : ∀ s, s ∈ rv_required_capabilities request → s ∈ cl_granted_capabilities (held_value (ev_claims event));
}.

(** The fields [_make_binding] gave an object *)
Definition made_fields (event : VerifiedEvent) (request : RequestValues) (canonical : pyval) (a : AuditRecord)
    (e : EvidenceRecord) (fields : pyval) : Prop :=
  ∃ id d, claims_digest (held_value (ev_claims event)) = Ok d ∧ fields = binding_values ws event request canonical a e id d.

Lemma load_audit canonical a e subject preview_id revision db :
  _load_runtime_state ws store trust preview_id revision db = Pass (canonical, a, e, subject) →
  ad_status a = ACTIVE ∧ ad_result a = PASSED ∧ audit_verify_digest a = Ok true.
Proof.
  unfold _load_runtime_state. intros E. inv_pass. destruct (_subject_from_payload _); [|discriminate]. simplify_eq/=.
  match goal with E : current_audit_of _ _ _ _ _ = Pass _ |- _ => unfold current_audit_of in E; rename E into Ea end.
  destruct (or_failure _ (list_active_audits _ _ _ _)) as [[|x [|]]| |]; try discriminate Ea. inv_pass. bools. by subst.
Qed.

Lemma consume_event_values ticket st event st' rec :
  consume_verified_event ticket st = Ok (event, st') → bs_tickets st !! ticket = Some rec →
  ev_envelope event = tk_envelope rec ∧ ev_claims event = tk_claims rec.
Proof.
  unfold consume_verified_event, consume_ticket_record. intros E Hr. rewrite Hr in E. inv_checks. by simplify_eq/=.
Qed.

(** ** The registries *)
Definition registered_origin (st : RuntimeState) (object : nat) (entry : contract) : Prop :=
  ∃ event request canonical a e fields, rt_events st !! object = Some event ∧ attested event request canonical a e ∧
    made_fields event request canonical a e fields ∧ _binding_contract fields = Ok entry.

Record runtime_inv (st : RuntimeState) : Prop := {
  ri_origin : ∀ object entry, rt_registry st !! object = Some entry → registered_origin st object entry;
  ri_registry : ∀ object entry, rt_registry st !! object = Some entry → object < rt_next st;
  ri_by_id : ∀ id object, rt_by_id st !! id = Some object → object < rt_next st;
  ri_identity : ∀ id object entry, rt_by_id st !! id = Some object → rt_registry st !! object = Some entry → snd entry = id;
}.

Lemma empty_runtime_inv : runtime_inv empty_runtime.
Proof. by split; simpl; intros *; rewrite lookup_empty. Qed.

Lemma with_boundary_inv b st : runtime_inv st → runtime_inv (with_boundary b st).
Proof. intros [Ho Hr Hb Hi]. by split. Qed.

Lemma tamper_inv object fields st : runtime_inv st → runtime_inv (tamper object fields st).
Proof. intros [Ho Hr Hb Hi]. by split. Qed.

Lemma create_object_inv key fields st :
  runtime_inv st → runtime_inv (create_object key fields st).
Proof.
  intros [Ho Hr Hb Hi]. split; simpl.
  - done.
  - intros object entry E. apply Hr in E. lia.
  - intros id object [[_ <-]|[_ E]]%lookup_insert_Some; [lia|]. apply Hb in E. lia.
  - intros id object entry [[_ <-]|[_ E]]%lookup_insert_Some E'; [apply Hr in E'; lia|by eapply Hi].
Qed.

Lemma register_contract_inv key fields event request canonical a e entry st :
  runtime_inv st → attested event request canonical a e → made_fields event request canonical a e fields →
  _binding_contract fields = Ok entry →
  runtime_inv (register_contract (rt_next st) entry event (create_object key fields st)).
Proof.
  intros Hinv Ha Hf Hc. destruct (create_object_inv key fields st Hinv) as [Ho Hr Hb Hi]. split; simpl in *.
  - intros object x [[<- <-]|[Hne E]]%lookup_insert_Some.
    + exists event, request, canonical, a, e, fields. simpl. by rewrite lookup_insert_eq.
    + destruct (Ho object x E) as (v & r & c & a' & e' & f & Ev & Rest). exists v, r, c, a', e', f. simpl.
      by rewrite lookup_insert_ne.
  - intros object x [[<- _]|[_ E]]%lookup_insert_Some; [lia|by eapply Hr].
  - done.
  - intros id object x E [[Eo <-]|[_ E']]%lookup_insert_Some; [|by eapply Hi].
    apply contract_identity in Hc as [_ Hc]. apply lookup_insert_Some in E as [[<- _]|[_ E]]; [by rewrite Hc|].
    apply (ri_by_id st Hinv) in E. lia.
Qed.

Lemma register_context_inv context st : runtime_inv st → runtime_inv (register_context context st).
Proof.
  intros [Ho Hr Hb Hi]. split; simpl; [done| | |done].
  - intros object entry E. apply Hr in E. lia.
  - intros id object E. apply Hb in E. lia.
Qed.

(** ** Orchestration keeps the invariant *)
Lemma settle_inv {A} (outcome : step A) st k res st' :
  runtime_inv st → settle outcome st k = Ok (res, st') →
  (∀ x, outcome = Pass x → k x = Ok (res, st') → runtime_inv st') → runtime_inv st'.
Proof. intros Hi E Hk. destruct outcome as [x| |[]]; simpl in E; try discriminate E; simplify_eq; eauto. Qed.

Lemma register_binding_inv key fields event request canonical a e st res st' :
  runtime_inv st → attested event request canonical a e → made_fields event request canonical a e fields →
  register_binding service_id key fields event st = Ok (res, st') → runtime_inv st'.
Proof.
  intros Hi Ha Hf E. eapply (settle_inv _ _ _ _ _ (create_object_inv key fields st Hi) E).
  intros entry Hc E1. destruct (_binding_contract fields) as [x|] eqn:Ec; simplify_eq/=.
  pose proof (register_contract_inv key fields event request canonical a e entry st Hi Ha Hf Ec) as Hi'.
  eapply (settle_inv _ _ _ _ _ Hi' E1). intros u _ E2. simplify_eq. by apply register_context_inv.
Qed.

Lemma create_request_required values challenge m b request b' :
  create_request policies boundary_id values challenge m b = Ok (request, b') →
  capability_names (rv_required_capabilities (rq_values request)).
Proof.
  unfold create_request. intros E. inv_checks. destruct (check_capabilities _ _); try discriminate. simplify_eq/=.
  match goal with E : normalized_request _ = Ok _ |- _ => unfold normalized_request in E; inv_checks; simpl end.
  match goal with E : value_at _ _ safe_capabilities = Ok _ |- _ => unfold value_at, safe_capabilities in E; inv_ok end.
  destruct (as_sequence _); [|discriminate]. inv_ok. rewrite existsb_false in *. unfold capability_names, sorted_strings.
  split; [|apply sort_by_idemp]. intros s. rewrite sort_by_perm. intros Hs. apply negb_false_iff. auto.
Qed.

Lemma verified_event_attested env preview_id revision db subject canonical a e request signed now b ticket b1 event b2 :
  capability_names (rv_required_capabilities (rq_values request)) →
  _load_runtime_state ws store trust preview_id revision db = Pass (canonical, a, e, subject) →
  (let '(_, m, m') := sr_monotonic env in
   verify isoformat_micros policies boundary_id (Some signed) (Some request) (Some now) m m' (sr_token env) b
     = Ok (Verified ticket, b1)) →
  consume_verified_event ticket b1 = Ok (event, b2) → attested event (rq_values request) canonical a e.
Proof.
  intros Hq Hl Hv Hc. destruct (sr_monotonic env) as [[m0 m] m'].
  apply verify_Verified in Hv as (envelope & n & object & b' & Eb & _ & Et & Ei).
  apply verify_binding_Pass in Eb as (r & s & [= <-] & [= <-] & [= <-] & _ & _ & _ & He & Hm).
  apply verify_currentness_Pass in Et. apply issue_ticket_Pass in Ei as (rec & -> & _ & _ & Hcl & Hen & _).
  destruct (consume_event_values _ _ _ _ rec Hc) as [He1 He2]; [by simpl; rewrite lookup_insert_eq|].
  destruct (request_mismatch_None _ _ Hm) as (_ & Hcap & _).
  split; rewrite ?He1, ?He2, ?Hen, ?Hcl; eauto using load_audit.
Qed.

Lemma attest_request_inv env preview_id revision db subject canonical a e request st res st' :
  runtime_inv st → capability_names (rv_required_capabilities (rq_values request)) →
  _load_runtime_state ws store trust preview_id revision db = Pass (canonical, a, e, subject) →
  attest_request isoformat_micros policies boundary_id service_id ws env preview_id revision canonical a e request st
    = Ok (res, st') →
  runtime_inv st'.
Proof.
  intros Hi Hq Hl E. eapply (settle_inv _ _ _ _ _ Hi E). intros [envelope now] _ E1. simpl in E1.
  pose proof (λ b t b1 v b2, verified_event_attested env preview_id revision db subject canonical a e request envelope now
                b t b1 v b2 Hq Hl) as Hv.
  destruct (sr_monotonic env) as [[m0 m] m'].
  destruct (verify _ _ _ _ _ _ _ _ _ _) as [[answer b1]|] eqn:Ev; [|discriminate].
  destruct answer as [ticket|code]; [|simplify_eq; by apply with_boundary_inv].
  eapply (settle_inv _ _ _ _ _ (with_boundary_inv _ _ Hi) E1). intros [event b2] Hc E2. apply or_failure_Pass in Hc.
  specialize (Hv _ _ _ _ _ Ev Hc).
  eapply (settle_inv _ _ _ _ _ (with_boundary_inv _ _ (with_boundary_inv _ _ Hi)) E2). intros fields Hf E3.
  apply or_failure_Pass in Hf.
  assert (made_fields event (rq_values request) canonical a e fields) as Hm.
  { unfold _make_binding in Hf. inv_ok. by repeat eexists. }
  destruct (rt_by_state _ !! _) as [existing|].
  - eapply (settle_inv _ _ _ _ _ (with_boundary_inv _ _ (with_boundary_inv _ _ Hi)) E3). intros [o c] _ E4. simplify_eq.
    by do 2 apply with_boundary_inv.
  - eapply register_binding_inv; [|done..]. by do 2 apply with_boundary_inv.
Qed.

Notation step' := (runtime_step isoformat_micros policies boundary_id service_id ws store trust).
Notation run := (runtime_run isoformat_micros policies boundary_id service_id ws store trust).

Lemma runtime_step_inv ev st : runtime_inv st → runtime_inv (step' ev st).
Proof.
  intros Hi. destruct ev as [env p r db|object fields]; [|by apply tamper_inv]. simpl.
  destruct (orchestrate _ _ _ _ _ _ _ _ _ _ _ _) as [[res st']|] eqn:E; [|done].
  unfold orchestrate in E. destruct p; simplify_eq; try done. destruct r; simplify_eq; try done.
  destruct (_ || _); simplify_eq; [done|].
  eapply (settle_inv _ _ _ _ _ Hi E). intros [[[canonical a] e] subject] Hl E1.
  eapply (settle_inv _ _ _ _ _ Hi E1). intros [request b] Hq E2.
  unfold _create_request in Hq. inv_pass. inv_ok.
  eapply attest_request_inv; [|by eapply create_request_required|done..]. by apply with_boundary_inv.
Qed.

Lemma runtime_run_inv l st : runtime_inv st → runtime_inv (run l st).
Proof. revert st; induction l as [|ev l IH]; intros st Hi; simpl; [done|]. by apply IH, runtime_step_inv. Qed.

(** A binding that resolves was made from a verified attestation and is what was made. *)
Definition binding_origin (id : string) (object : nat) (fields : pyval) (st : RuntimeState) : Prop :=
  ∃ event request canonical a e d, attested event request canonical a e ∧ rt_events st !! object = Some event ∧
    claims_digest (held_value (ev_claims event)) = Ok d ∧ binding_identity fields = Ok id ∧
    ∀ k, k ∈ BINDING_SLOTS → get fields k = get (binding_values ws event request canonical a e id d) k.

Lemma lookup_binding_origin st id object fields :
  runtime_inv st → lookup_binding id st = Some object → rt_objects st !! object = Some fields →
  binding_origin id object fields st.
Proof.
  intros [Hor _ _ Hid] Hl Ho.
  unfold lookup_binding in Hl. destruct (rt_by_id st !! id) as [o|] eqn:Eid; [|discriminate].
  destruct (_registered_binding_is_intact o st) eqn:Hint; [|discriminate]. simplify_eq.
  assert (∃ entry, rt_registry st !! object = Some entry) as [entry He].
  { unfold _registered_binding_is_intact in Hint. rewrite Ho in Hint. destruct (rt_registry st !! object); [by eexists|discriminate]. }
  destruct (Hor _ _ He) as (event & request & canonical & a & e & made & Hev & Ha & (id' & d & Hd & ->) & Hc).
  destruct (intact_fields _ _ _ _ _ Hint Ho He Hc) as [Hf Hi]. rewrite (Hid _ _ _ Eid He) in Hi.
  pose proof (contract_identity _ _ Hc) as [_ Hid']. rewrite (Hid _ _ _ Eid He) in Hid'. simpl in Hid'. injection Hid' as ->.
  exists event, request, canonical, a, e, d. by split_and!.
Qed.

(** C15: Whatever calls of [orchestrate] were made, in whatever state of the previews, and
    whatever was written to the binding objects in between, a binding that resolves by its
    identity came from a verified attestation: of an envelope with a trusted issuer, a valid
    proof and supported capabilities, current and not revoked when it was verified, whose
    claims are those of the request and cover the required capabilities, for a sealed
    preview whose one active audit passed.  Its fields are those it was made with from that
    attestation, audit and evidence, and its identity is the hash of its fields. *)
Theorem resolved_binding_attested l id object fields :
  let st := run l empty_runtime in
  lookup_binding id st = Some object → rt_objects st !! object = Some fields →
  ∃ event request canonical a e d, attested event request canonical a e ∧ rt_events st !! object = Some event ∧
    claims_digest (held_value (ev_claims event)) = Ok d ∧ binding_identity fields = Ok id ∧
    ∀ k, k ∈ BINDING_SLOTS → get fields k = get (binding_values ws event request canonical a e id d) k.
Proof. intros st. apply lookup_binding_origin, runtime_run_inv, empty_runtime_inv. Qed.
End facts.
