(* ===== verification/Authority.v ===== *)
(** * Application authorities (delivery_system/runtime.py)

    The part of [RuntimeApprovalAuthorityService] that issues the authority of an approved
    application, recovers one that was already issued, and decides whether an authority is
    still valid.  Authorities are objects with dynamic fields, like the bindings of
    AttestationRuntime.v: the registry holds their identity and [au_objects] their fields.
    The approval side is ApprovalService.v; the stores of bindings are used through their
    protocol ([BindingPersistence]).  The service is given its binding store; the other
    dependencies it may lack are options, and the artifact adapter's answers are arguments. *)
From S2P Require Import Prelude PyValue Strings PyOps Canonical WriteOperations Identity Context.
From S2P Require Import FormalPreview AuditRecords Approvals PreviewStore ApprovalService SafeText.
From S2P Require Import AuthorityBinding BindingStore Receipts Attestation AttestationBoundary Preflight.
From S2P Require Import AttestationRuntime.

(** ** [ApplicationAuthority]: [_identity_payload], [expected_id] and [_create] over its values *)
Definition identity_fields : list string :=
  List.filter (λ k, negb (bool_decide (k = "authority_id" ∨ k = "issued_at"))) AUTHORITY_FIELDS.

Section values.
Context `{PyLib}.

Definition _identity_payload (values : pyval) : result pyval :=
  let! fields := map_r (λ k, let! v := subscript values k in Ok (k, v)) identity_fields in
  Ok (dict_of [("domain", VStr "delivery-system:application-authority:v1"); ("authority", dict_of fields)]).
Definition expected_id (values : pyval) : result string :=
  let! payload := _identity_payload values in
  let! h := digest_hex payload in Ok ("application-authority-" +:+ h).
Definition authority_create (values : pyval) : result pyval :=
  raise "application_authority_internal_only" when negb (keys_are AUTHORITY_FIELDS values) ;
  Ok (dict_of (map (λ k, (k, get values k)) AUTHORITY_FIELDS)).

(** [a <= b] of two times read with [fromisoformat]; one with and one without an offset do
    not compare. *)
Definition iso_not_after (a b : pyval) : result bool :=
  let! (ta, oa) := parse_iso a in
  let! (tb, ob) := parse_iso b in
  match oa, ob with
  | Some x, Some y => Ok (ta - x <=? tb - y)%Z
  | None, None => Ok (ta <=? tb)%Z
  | _, _ => Err (TypeError "can't compare offset-naive and offset-aware datetimes")
  end.
(** [a <= now] for an aware [now] in UTC *)
Definition iso_expired (a : pyval) (now : Z) : result bool :=
  let! (t, o) := parse_iso a in
  match o with
  | Some x => Ok (t - x <=? now)%Z
  | None => Err (TypeError "can't compare offset-naive and offset-aware datetimes")
  end.

(** [clock().astimezone(timezone.utc)]: a naive reading would be taken as local time *)
Definition utc_now (clock : result (option Z)) : result Z :=
  let! t := clock in match t with Some t => Ok t | None => Err (Unmodelled "local time") end.

(** [except (AttributeError, TypeError, ValueError): raise ValueError(code)] *)
Definition read_error {A} (code : string) (c : result A) : result A :=
  match c with
  | Err (ValueError _ | JSONDecodeError | TypeError _ | AttributeError _) => Err (ValueError code)
  | _ => c
  end.
(** [except ValueError: raise ValueError(code)] *)
Definition value_error {A} (code : string) (c : result A) : result A :=
  match c with Err e => if is_value_error e then Err (ValueError code) else Err e | _ => c end.

(** The capabilities of a binding: a tuple of texts, once it was found intact *)
Definition capability_list (v : pyval) : result (list string) :=
  match v with
  | VTuple l => match strs_of l with Some caps => Ok caps | None => Err (Unmodelled "capabilities") end
  | _ => Err (Unmodelled "capabilities")
  end.
Definition WRITE_CAPABILITY : string := "issues:write".

(** [operation_identity] of each operation, in order *)
Fixpoint operation_identities (application : string) (index : nat) (operations : list operation) : result (list string) :=
  match operations with
  | [] => Ok []
  | op :: rest =>
      let! id := operation_identity application index op in
      let! ids := operation_identities application (S index) rest in Ok (id :: ids)
  end.
End values.

(** ** What the artifact adapter answers: the link to a stored attestation *)
Record ArtifactLink := MkLink {
  al_credential_binding_id : string;
  al_artifact_id : string;
  al_artifact_digest : string;
  al_attestation_id : string;
  al_claims : Claims;
  al_claims_digest : string;
  al_detached_proof : string;
  al_original_verified_at : string;
}.

(** The injected dependencies and clock; [None] for a link is an answer of another type. *)
Record AuthorityServices := MkServices {
  sv_attestation : Surroundings;
  sv_persist_link : option (VerifiedContext → result (option ArtifactLink));
  sv_resolve_link : option (VerifiedContext → result (option ArtifactLink));
  sv_signer : option AuthorityBindingSigner;
  sv_verifier : option (SignedAuthorityBinding → result bool);
  sv_clock : result (option Z);
}.

(** ** The state: the attestation service, the binding store and the registries *)
Record AuthorityState (S : Type) := MkAuthorities {
  au_runtime : RuntimeState;
  au_bindings : S;
  au_objects : gmap nat pyval;
  au_authorities : gmap string nat;
  au_issuance_ids : gmap string string;
  au_provenance : gmap string pyval;                   (** [_restart_authority_provenance] *)
  au_contexts : gmap (string * Z) VerifiedContext;     (** [_live_credential_contexts] *)
  au_next : nat;
}.
Arguments MkAuthorities {S}.
Arguments au_runtime {S} _.
Arguments au_bindings {S} _.
Arguments au_objects {S} _.
Arguments au_authorities {S} _.
Arguments au_issuance_ids {S} _.
Arguments au_provenance {S} _.
Arguments au_contexts {S} _.
Arguments au_next {S} _.

Definition set_runtime {S} (rt : RuntimeState) (st : AuthorityState S) : AuthorityState S :=
  MkAuthorities rt (au_bindings st) (au_objects st) (au_authorities st) (au_issuance_ids st) (au_provenance st)
    (au_contexts st) (au_next st).
Definition set_bindings {S} (b : S) (st : AuthorityState S) : AuthorityState S :=
  MkAuthorities (au_runtime st) b (au_objects st) (au_authorities st) (au_issuance_ids st) (au_provenance st)
    (au_contexts st) (au_next st).
Definition add_context {S} (key : string * Z) (c : VerifiedContext) (st : AuthorityState S) : AuthorityState S :=
  MkAuthorities (au_runtime st) (au_bindings st) (au_objects st) (au_authorities st) (au_issuance_ids st)
    (au_provenance st) (<[key := c]> (au_contexts st)) (au_next st).
Definition set_issuance {S} (id issuance : string) (st : AuthorityState S) : AuthorityState S :=
  MkAuthorities (au_runtime st) (au_bindings st) (au_objects st) (au_authorities st) (<[id := issuance]> (au_issuance_ids st))
    (au_provenance st) (au_contexts st) (au_next st).
(** Both registrations of a new authority object *)
Definition register_authority {S} (id issuance : string) (fields : pyval) (st : AuthorityState S) : AuthorityState S :=
  MkAuthorities (au_runtime st) (au_bindings st) (<[au_next st := fields]> (au_objects st))
    (<[id := au_next st]> (au_authorities st)) (<[id := issuance]> (au_issuance_ids st)) (au_provenance st)
    (au_contexts st) (Datatypes.S (au_next st)).

(** ** [_RestartAuthorityValidationProvenance]: its fields, and [from_authority] *)
Section provenance.
Context `{PyLib}.

Definition provenance_from_authority (values : pyval) (issuance : string) (c : Claims) : result pyval :=
  let! application := application_id values in
  let! d := digest values in
  Ok (dict_of
    [("authority_id", get values "authority_id"); ("authority_issuance_id", VStr issuance);
     ("credential_binding_id", get values "credential_binding_id");
     ("credential_instance_id", VStr (cl_credential_instance_id c)); ("credential_class", VStr (cl_credential_class c));
     ("credential_principal_identity", VStr (cl_credential_principal_identity c));
     ("github_subject_identity", VStr (cl_github_subject_identity c));
     ("repository_identity", VStr (cl_repository_identity c)); ("driver_identity", VStr (cl_driver_identity c));
     ("remote_authority", VStr (cl_remote_authority c)); ("evidence_digest", VStr (cl_evidence_digest c));
     ("challenge_digest", VStr (cl_challenge_digest c));
     ("source_verification_digest", VStr (cl_source_verification_digest c));
     ("workspace_identity", get values "workspace_identity"); ("application_id", VStr application);
     ("preview_id", get values "preview_id"); ("revision", get values "revision");
     ("required_capabilities", get values "required_capabilities");
     ("granted_capabilities", get values "granted_capabilities"); ("expires_at", get values "expires_at");
     ("authority_semantics_digest", VStr d)]).

(** [matches_authority]; every exception answers [False] *)
Definition provenance_matches (p values : pyval) (issuance : string) : bool :=
  match application_id values, digest values with
  | Ok application, Ok d =>
      forallb (λ k, py_eq (get p k) (get values k))
        ["authority_id"; "credential_binding_id"; "credential_instance_id"; "credential_principal_identity";
         "github_subject_identity"; "repository_identity"; "driver_identity"; "remote_authority"; "workspace_identity";
         "preview_id"; "revision"; "required_capabilities"; "granted_capabilities"; "expires_at"]
      && py_eq (get p "authority_issuance_id") (VStr issuance)
      && py_eq (get p "application_id") (VStr application)
      && py_eq (get p "authority_semantics_digest") (VStr d)
  | _, _ => false
  end.
End provenance.

(** The fields an authority takes from its binding, and those a binding must share with the
    preview and the audit *)
Definition BOUND_FIELDS : list string :=
  ["workspace_identity"; "repository_identity"; "preview_id"; "revision"; "plan_digest"; "sealed_preview_digest";
   "operation_set_digest"; "remote_snapshot_digest"; "audit_id"; "audit_digest"].
Definition CREDENTIAL_FIELDS : list string :=
  ["remote_authority"; "driver_identity"; "credential_instance_id"; "issuer_id"; "credential_principal_identity";
   "github_subject_identity"; "granted_capabilities"].
Definition fields_equal (names : list string) (a b : pyval) : bool := forallb (λ k, py_eq (get a k) (get b k)) names.

Section service.
Context `{PyLib}.
Context {S : Type} `{BindingPersistence S}.
Variable isoformat_micros : Z → string.
Variable policies : Policies.
Variable boundary_id : nat.
Variable attestation_id : nat.            (** the attestation service, owner of its contexts *)
Variable svc : ApprovalService.
Variable trust : DriverTrustContext.
Variable binding_ws : string.             (** the workspace of the binding store *)
Notation store := (as_store svc).
Notation ws := (ps_workspace (as_store svc)).
Notation state := (AuthorityState S).

(** ** The approval an authority is issued under *)
Definition current_approval (preview_id : string) (revision : Z) (approval_id : string) (db : PreviewDb)
  : result (pyval * AuditRecord * ApprovalRecord) :=
  let! (preview, audit) := _resolve_audit svc preview_id revision db in
  let! id := _approval_id audit in
  raise "approval_binding_mismatch" when negb (bool_decide (approval_id = id)) ;
  let! approval := value_error "approval_not_found" (get_approval store ws approval_id db) in
  let! current := validate_approval_current store approval db in
  raise "approval_stale" when negb current ;
  let! bound := _validate_approval_against_current_preview approval audit preview ws in
  raise "approval_stale" when negb bound ;
  Ok (preview, audit, approval).

(** The binding of a context, registered and held by this very object *)
Definition registered_fields (context : VerifiedContext) (rt : RuntimeState) : result pyval :=
  let fields := default VNone (rt_objects rt !! vc_binding context) in
  let! object := resolve_registered_binding (get fields "binding_id") rt in
  raise "credential_binding_mismatch" when negb (object =? vc_binding context) ;
  Ok fields.

(** ** What an issued and a recovered authority share: the operations, the capabilities and
    the values, checked against the binding *)
Definition authority_values (canonical : pyval) (audit : AuditRecord) (approval : ApprovalRecord) (approval_digest : string)
    (preview_id : string) (revision : Z) (binding : pyval) : pyval :=
  dict_of
    [("authority_id", VStr ""); ("workspace_identity", VStr ws);
     ("repository_identity", get canonical "repository_identity"); ("preview_id", VStr preview_id);
     ("revision", VInt revision); ("sealed_preview_digest", get canonical "sealed_preview_digest");
     ("plan_digest", get canonical "plan_digest"); ("operation_set_digest", get canonical "operation_set_digest");
     ("remote_snapshot_digest", get canonical "remote_snapshot_digest"); ("audit_id", VStr (ad_audit_id audit));
     ("audit_digest", VStr (ad_audit_digest audit)); ("approval_id", ap_approval_id approval);
     ("approval_digest", VStr approval_digest); ("credential_binding_id", get binding "binding_id");
     ("credential_instance_id", get binding "credential_instance_id"); ("issuer_id", get binding "issuer_id");
     ("credential_principal_identity", get binding "credential_principal_identity");
     ("github_subject_identity", get binding "github_subject_identity");
     ("driver_identity", get binding "driver_identity"); ("remote_authority", get binding "remote_authority");
     ("required_capabilities", get binding "required_capabilities");
     ("granted_capabilities", get binding "granted_capabilities"); ("issued_at", VStr "");
     ("expires_at", get binding "expires_at")].

(** The values, the identity of the application and those of its operations *)
Definition bound_application (preview : pyval) (audit : AuditRecord) (approval : ApprovalRecord) (preview_id : string)
    (revision : Z) (binding : pyval) : result (pyval * string * list string) :=
  let canonical := get preview "canonical_payload" in
  raise "application_authority_rejected" when negb (is_mapping canonical) ;
  let! operations := recode "operation_set_mismatch" (_execution_operations canonical) in
  raise "operation_set_mismatch" when bool_decide (operations = []) ;
  let! required := capability_list (get binding "required_capabilities") in
  let! granted := capability_list (get binding "granted_capabilities") in
  raise "credential_capability_insufficient"
    when negb (bool_decide (WRITE_CAPABILITY ∈ required)) || negb (forallb (λ c, bool_decide (c ∈ granted)) required)
         || negb (bool_decide (WRITE_CAPABILITY ∈ granted)) ;
  let! approval_digest := _approval_digest approval in
  let values := authority_values canonical audit approval approval_digest preview_id revision binding in
  raise "credential_binding_mismatch" when negb (fields_equal BOUND_FIELDS binding values) ;
  raise "credential_binding_mismatch" when negb (fields_equal CREDENTIAL_FIELDS binding values) ;
  let! eligible := _preview_is_approval_eligible preview in
  raise "approval_stale" when negb eligible ;
  let! identity := identity_from_authority values in
  let! ids := operation_identities (_application_id identity) 0 operations in
  Ok (values, _application_id identity, ids).

Definition with_identity (values : pyval) (issued_at id : string) : pyval :=
  dict_set (dict_set values "issued_at" (VStr issued_at)) "authority_id" (VStr id).

(** The link of the adapter, for this binding *)
Definition checked_link (answer : result (option ArtifactLink)) (binding : pyval) : result ArtifactLink :=
  let! link := answer in
  match link with
  | Some link =>
      raise "verified_attestation_artifact_link_invalid"
        when negb (py_eq (VStr (al_credential_binding_id link)) (get binding "binding_id")) ; Ok link
  | None => Err (ValueError "verified_attestation_artifact_link_invalid")
  end.

(** ** [issue_application_authority] *)
(** The verified context: the one kept for the preview while the attestation service still
    owns it, else a new one, which is kept *)
Definition fresh_context (env : AuthorityServices) (preview_id : string) (revision : Z) (db : PreviewDb) (st : state)
  : result VerifiedContext * state :=
  match orchestrate isoformat_micros policies boundary_id attestation_id ws store trust (sv_attestation env)
          (VStr preview_id) (VInt revision) db (au_runtime st) with
  | Ok (Attested _ context, rt) => (Ok context, add_context (preview_id, revision) context (set_runtime rt st))
  | Ok (AttestationFailed code, rt) => (Err (ValueError code), set_runtime rt st)
  | Err e => (Err e, st)
  end.
Definition live_context (env : AuthorityServices) (preview_id : string) (revision : Z) (db : PreviewDb) (st : state)
  : result VerifiedContext * state :=
  match au_contexts st !! (preview_id, revision) with
  | Some context => if accepts_verified_context attestation_id context (au_runtime st) then (Ok context, st)
                    else fresh_context env preview_id revision db st
  | None => fresh_context env preview_id revision db st
  end.

(** The stored attestation is the one that was verified. *)
Definition link_matches (link : ArtifactLink) (context : VerifiedContext) : result bool :=
  let event := vc_event context in
  let claims := held_value (ev_claims event) in
  if negb (bool_decide (al_attestation_id link = cl_attestation_id claims)
           && py_eq (claims_to_payload (al_claims link)) (claims_to_payload claims)) then Ok false
  else
    let! d := claims_digest claims in
    Ok (bool_decide (al_claims_digest link = d)
        && bool_decide (al_detached_proof link = sa_proof (held_value (ev_envelope event)))
        && bool_decide (al_original_verified_at link = ev_verified_at event)).

(** No operation is assigned to an issuance yet. *)
Fixpoint unassigned (ids : list string) (b : S) : result unit :=
  match ids with
  | [] => Ok tt
  | id :: rest =>
      let! assigned := resolve_authority_binding_for_operation binding_ws (VStr ws) (VStr id) b in
      raise "authority_issuance_requires_recovery" when bool_decide (is_Some assigned) ; unassigned rest b
  end.

(** Everything up to the signed binding; nothing is stored *)
Definition prepare_issuance (env : AuthorityServices) (persist : VerifiedContext → result (option ArtifactLink))
    (signer : AuthorityBindingSigner) (preview : pyval) (audit : AuditRecord) (approval : ApprovalRecord)
    (preview_id : string) (revision : Z) (context : VerifiedContext) (st : state)
  : result (string * pyval * SignedAuthorityBinding) :=
  raise "credential_binding_mismatch" when negb (accepts_verified_context attestation_id context (au_runtime st)) ;
  let! binding := registered_fields context (au_runtime st) in
  let! link := checked_link (persist context) binding in
  let! matching := link_matches link context in
  raise "verified_attestation_artifact_link_invalid" when negb matching ;
  let! (values, application, ids) := bound_application preview audit approval preview_id revision binding in
  let! _ := unassigned ids (au_bindings st) in
  let! id := expected_id values in
  raise "application_authority_registry_conflict" when bool_decide (is_Some (au_authorities st !! id)) ;
  let! time := sv_clock env in
  let! issued_at := _utc time in
  let! expired := read_error "credential_binding_mismatch" (iso_not_after (get binding "expires_at") (VStr issued_at)) in
  raise "credential_binding_mismatch" when expired ;
  let! authority := authority_create (with_identity values issued_at id) in
  let! record :=
    binding_record_create (VStr ws) (VStr application) (get binding "binding_id") (get binding "required_capabilities")
      (VStr issued_at) (VStr (al_artifact_id link)) (VStr (al_artifact_digest link)) (VTuple (map VStr ids)) in
  let! signed := create_signed_authority_binding record signer in
  Ok (id, authority, signed).

Definition persisted_as (signed : SignedAuthorityBinding) (p : PersistedAuthorityBinding) : result bool :=
  let! bytes := canonical_bytes (sb_payload signed) in
  let! issuance := authority_issuance_id (sb_payload signed) in
  Ok (bool_decide (pb_signed p = signed) && bool_decide (pb_canonical_payload p = bytes)
      && bool_decide (pb_authority_issuance_id p = issuance)).

(** The signed binding is stored, then the authority registered. *)
Definition commit_issuance (id : string) (authority : pyval) (signed : SignedAuthorityBinding) (st : state)
  : result nat * state :=
  match save_authority_binding binding_ws signed (au_bindings st) with
  | Err e => (Err e, st)
  | Ok (p, b) =>
      let st := set_bindings b st in
      match (let! same := persisted_as signed p in
             raise "authority_binding_persistence_conflict" when negb same ;
             raise "application_authority_registry_conflict"
               when match au_issuance_ids st !! id with
                    | Some issuance => negb (bool_decide (issuance = pb_authority_issuance_id p))
                    | None => false
                    end ;
             raise "application_authority_registry_conflict" when bool_decide (is_Some (au_authorities st !! id)) ;
             Ok tt) with
      | Err e => (Err e, st)
      | Ok _ => (Ok (au_next st), register_authority id (pb_authority_issuance_id p) authority st)
      end
  end.

Definition issue_application_authority (env : AuthorityServices) (preview_id : string) (revision : Z) (approval_id : pyval)
    (db : PreviewDb) (st : state) : result nat * state :=
  match approval_id with
  | VStr approval_id =>
      if bool_decide (approval_id = "") then (Err (ValueError "application_authority_rejected"), st) else
      match sv_persist_link env, sv_signer env with
      | Some persist, Some signer =>
          match current_approval preview_id revision approval_id db with
          | Err e => (Err e, st)
          | Ok (preview, audit, approval) =>
              match live_context env preview_id revision db st with
              | (Err e, st) => (Err e, st)
              | (Ok context, st) =>
                  match prepare_issuance env persist signer preview audit approval preview_id revision context st with
                  | Err e => (Err e, st)
                  | Ok (id, authority, signed) => commit_issuance id authority signed st
                  end
              end
          end
      | _, _ => (Err (ValueError "authority_issuance_dependencies_required"), st)
      end
  | _ => (Err (ValueError "application_authority_rejected"), st)
  end.

(** ** [recover_application_authority] *)
(** The issuances the operations are assigned to *)
Fixpoint assignments (ids : list string) (b : S) : result (list string) :=
  match ids with
  | [] => Ok []
  | id :: rest =>
      let! assigned :=
        any_error "restart_reconstruction_persistence_error"
          (resolve_authority_binding_for_operation binding_ws (VStr ws) (VStr id) b) in
      match assigned with
      | None => Err (ValueError "authority_recovery_partial_or_missing")
      | Some p => let! l := assignments rest b in Ok (pb_authority_issuance_id p :: l)
      end
  end.
Definition sole_assignment (l : list string) : result string :=
  match l with
  | issuance :: rest =>
      raise "authority_recovery_assignment_conflict" when negb (forallb (λ i, bool_decide (i = issuance)) rest) ; Ok issuance
  | [] => Err (ValueError "authority_recovery_assignment_conflict")
  end.

Definition loaded_binding (issuance : string) (b : S) : result PersistedAuthorityBinding :=
  let! loaded := any_error "restart_reconstruction_persistence_error"
                   (load_authority_binding binding_ws (VStr ws) (VStr issuance) b) in
  match loaded with
  | Some p => raise "authority_binding_persistence_corrupt"
                when negb (bool_decide (pb_authority_issuance_id p = issuance)) ; Ok p
  | None => Err (ValueError "authority_binding_persistence_corrupt")
  end.

(** The stored payload is for this application, binding, artifact and set of operations. *)
Definition payload_matches (payload : AuthorityBindingRecord) (application : string) (binding : pyval)
    (link : ArtifactLink) (ids : list string) : bool :=
  bool_decide (ab_workspace_identity payload = ws) && bool_decide (ab_application_id payload = application)
  && py_eq (VStr (ab_credential_binding_id payload)) (get binding "binding_id")
  && py_eq (VTuple (map VStr (ab_required_capabilities payload))) (get binding "required_capabilities")
  && bool_decide (ab_attestation_artifact_id payload = al_artifact_id link)
  && bool_decide (ab_attestation_artifact_digest payload = al_artifact_digest link)
  && bool_decide (ab_authorized_operation_identities payload = sorted_strings ids).

(** Everything up to the registration: the identity, the issuance and the authority *)
Definition prepare_recovery (env : AuthorityServices) (resolve : VerifiedContext → result (option ArtifactLink))
    (verify : SignedAuthorityBinding → result bool) (preview : pyval) (audit : AuditRecord) (approval : ApprovalRecord)
    (preview_id : string) (revision : Z) (st : state) : result (string * string * pyval) :=
  match au_contexts st !! (preview_id, revision) with
  | None => Err (ValueError "authority_recovery_live_context_required")
  | Some context =>
      raise "authority_recovery_live_context_required"
        when negb (accepts_verified_context attestation_id context (au_runtime st)) ;
      let! binding := registered_fields context (au_runtime st) in
      let! (values, application, ids) := bound_application preview audit approval preview_id revision binding in
      let! assigned := assignments ids (au_bindings st) in
      let! issuance := sole_assignment assigned in
      let! p := loaded_binding issuance (au_bindings st) in
      let! valid := any_error "authority_binding_proof_invalid" (verify (pb_signed p)) in
      raise "authority_binding_proof_invalid" when negb valid ;
      let! link := checked_link (resolve context) binding in
      raise "authority_recovery_binding_mismatch"
        when negb (payload_matches (pb_payload p) application binding link ids) ;
      let! id := expected_id values in
      let! now := read_error "credential_currentness_mismatch" (utc_now (sv_clock env)) in
      let! _ := read_error "credential_currentness_mismatch" (parse_iso (get binding "expires_at")) in
      let! expired := iso_expired (get binding "expires_at") now in
      raise "credential_expired" when expired ;
      let! authority := authority_create (with_identity values (ab_authority_issued_at (pb_payload p)) id) in
      Ok (id, issuance, authority)
  end.

Definition commit_recovery (id issuance : string) (authority : pyval) (st : state) : result nat * state :=
  let conflict := (Err (ValueError "application_authority_registry_conflict"), st) in
  if match au_issuance_ids st !! id with Some i => negb (bool_decide (i = issuance)) | None => false end then conflict
  else
    match au_authorities st !! id with
    | Some existing =>
        if negb (py_eq (default VNone (au_objects st !! existing)) authority) then conflict
        else (Ok existing, if bool_decide (au_issuance_ids st !! id = None) then set_issuance id issuance st else st)
    | None => (Ok (au_next st), register_authority id issuance authority st)
    end.

Definition recover_application_authority (env : AuthorityServices) (preview_id : string) (revision : Z) (approval_id : pyval)
    (db : PreviewDb) (st : state) : result nat * state :=
  match approval_id with
  | VStr approval_id =>
      if bool_decide (approval_id = "") then (Err (ValueError "application_authority_rejected"), st) else
      match sv_resolve_link env, sv_verifier env with
      | Some resolve, Some verify =>
          match (let! (preview, audit, approval) := current_approval preview_id revision approval_id db in
                 prepare_recovery env resolve verify preview audit approval preview_id revision st) with
          | Err e => (Err e, st)
          | Ok (id, issuance, authority) => commit_recovery id issuance authority st
          end
      | _, _ => (Err (ValueError "authority_recovery_dependencies_required"), st)
      end
  | _ => (Err (ValueError "application_authority_rejected"), st)
  end.

(** ** [validate_application_authority] *)
(** The durable issuance of a live authority, or the provenance of a restored one *)
Inductive authority_ground := Issued (p : PersistedAuthorityBinding) | Restored (provenance : pyval).

Definition authority_grounds (values : pyval) (id preview_id : string) (revision : Z) (issuance : string) (st : state)
  : result (option authority_ground) :=
  match au_provenance st !! id with
  | Some provenance =>
      if bool_decide (is_Some (au_contexts st !! (preview_id, revision)))
         || is_ok (resolve_registered_binding (get values "credential_binding_id") (au_runtime st)) then Ok None
      else if negb (provenance_matches provenance values issuance) then Ok None
      else Ok (Some (Restored provenance))
  | None =>
      let! loaded := load_authority_binding binding_ws (VStr ws) (VStr issuance) (au_bindings st) in
      match loaded with
      | Some p => Ok (if bool_decide (pb_authority_issuance_id p = issuance) then Some (Issued p) else None)
      | None => Ok None
      end
  end.

(** The approval and the audit the authority was issued under are current. *)
Definition approval_still_current (values : pyval) (preview_id : string) (revision : Z) (approval_id : string)
    (db : PreviewDb) : result (option pyval) :=
  let! (preview, audit) := _resolve_audit svc preview_id revision db in
  let! approval := get_approval store ws approval_id db in
  let! current := validate_approval_current store approval db in
  if negb current then Ok None
  else
    let! d := _approval_digest approval in
    Ok (if py_eq (get values "approval_digest") (VStr d) && py_eq (get values "audit_id") (VStr (ad_audit_id audit))
           && py_eq (get values "audit_digest") (VStr (ad_audit_digest audit)) then Some preview else None).

(** The capabilities granted to the credential behind the authority; for a live one, its
    binding, which is resolved *)
Definition granted_now (values : pyval) (ground : authority_ground) (st : state) : result (option (pyval * pyval)) :=
  match ground with
  | Restored provenance =>
      Ok (if fields_equal ["required_capabilities"; "granted_capabilities"; "credential_binding_id"] values provenance
          then Some (get provenance "granted_capabilities", VNone) else None)
  | Issued _ =>
      let! object := resolve_registered_binding (get values "credential_binding_id") (au_runtime st) in
      let binding := default VNone (rt_objects (au_runtime st) !! object) in
      Ok (if fields_equal ["required_capabilities"; "granted_capabilities"] values binding
          then Some (get binding "granted_capabilities", binding) else None)
  end.

Definition LIVE_FIELDS : list string :=
  BOUND_FIELDS ++ ["credential_instance_id"; "issuer_id"; "credential_principal_identity"; "github_subject_identity";
                   "driver_identity"; "remote_authority"; "expires_at"].
Definition PREVIEW_FIELDS : list string :=
  ["workspace_identity"; "repository_identity"; "preview_id"; "revision"; "sealed_preview_digest"; "plan_digest";
   "operation_set_digest"; "remote_snapshot_digest"].

Definition covers_operations (values canonical binding : pyval) (ground : authority_ground) : result bool :=
  if match ground with Issued _ => negb (fields_equal LIVE_FIELDS values binding) | Restored _ => false end then Ok false
  else
    let! identity := identity_from_authority values in
    let! operations := _execution_operations canonical in
    let! ids := operation_identities (_application_id identity) 0 operations in
    Ok match ground with
       | Issued p =>
           let payload := pb_payload p in
           bool_decide (ab_workspace_identity payload = ws)
           && bool_decide (ab_application_id payload = _application_id identity)
           && py_eq (VStr (ab_credential_binding_id payload)) (get values "credential_binding_id")
           && py_eq (VTuple (map VStr (ab_required_capabilities payload))) (get values "required_capabilities")
           && py_eq (VStr (ab_authority_issued_at payload)) (get values "issued_at")
           && bool_decide (ab_authorized_operation_identities payload = sorted_strings ids)
       | Restored _ => true
       end.

Definition authority_checks (values : pyval) (id preview_id : string) (revision : Z) (approval_id : string)
    (object : nat) (clock : result (option Z)) (db : PreviewDb) (st : state) : result bool :=
  let! expected := expected_id values in
  if negb (bool_decide (expected = id)) || negb (bool_decide (au_authorities st !! id = Some object)) then Ok false
  else
    match au_issuance_ids st !! id with
    | None => Ok false
    | Some issuance =>
        let! ground := authority_grounds values id preview_id revision issuance st in
        match ground with
        | None => Ok false
        | Some ground =>
            let! preview := approval_still_current values preview_id revision approval_id db in
            match preview with
            | None => Ok false
            | Some preview =>
                let! capabilities := granted_now values ground st in
                match capabilities with
                | None => Ok false
                | Some (granted, binding) =>
                    let! required := capability_list (get values "required_capabilities") in
                    let! granted := capability_list granted in
                    if negb (forallb (λ c, bool_decide (c ∈ granted)) required)
                       || negb (bool_decide (WRITE_CAPABILITY ∈ required)) then Ok false
                    else
                      let! now := utc_now clock in
                      let! expired := iso_expired (get values "expires_at") now in
                      if expired then Ok false
                      else
                        let! canonical := subscript preview "canonical_payload" in
                        let! covered := covers_operations values canonical binding ground in
                        if negb covered then Ok false
                        else if is_mapping canonical then Ok (fields_equal PREVIEW_FIELDS values canonical)
                        else Err (AttributeError "get")
                end
            end
        end
    end.

(** Every exception answers [False]; the fields looked up with are texts and an integer, as
    a lookup with another value raises. *)
Definition validate_application_authority (object : nat) (clock : result (option Z)) (db : PreviewDb) (st : state)
  : result bool :=
  match au_objects st !! object with
  | None => Ok false
  | Some values =>
      match get values "authority_id", get values "preview_id", get values "revision", get values "approval_id" with
      | VStr id, VStr preview_id, VInt revision, VStr approval_id =>
          match authority_checks values id preview_id revision approval_id object clock db st with
          | Ok b => Ok b
          | Err (Unmodelled what) => Err (Unmodelled what)
          | Err _ => Ok false
          end
      | _, _, _, _ => Ok false
      end
  end.

(** ** [resolve_application_authority] *)
Definition resolve_application_authority (authority_id : pyval) (clock : result (option Z)) (db : PreviewDb) (st : state)
  : result nat :=
  match authority_id with
  | VStr id =>
      raise "application_authority_rejected" when bool_decide (py_strip id = "") ;
      match au_authorities st !! id with
      | None => Err (ValueError "application_authority_not_found")
      | Some object =>
          let! valid := validate_application_authority object clock db st in
          raise "application_authority_rejected" when negb valid ; Ok object
      end
  | _ => Err (ValueError "application_authority_rejected")
  end.
End service.

(** ** A run of the service
    Issuances and recoveries, and writes from outside to the fields of a binding or an
    authority object. *)
Inductive authority_call :=
| IssueCall (env : AuthorityServices) (preview_id : string) (revision : Z) (approval_id : pyval) (db : PreviewDb)
| RecoverCall (env : AuthorityServices) (preview_id : string) (revision : Z) (approval_id : pyval) (db : PreviewDb)
| TamperBinding (object : nat) (fields : pyval)
| TamperAuthority (object : nat) (fields : pyval).

Definition tamper_authority {S} (object : nat) (fields : pyval) (st : AuthorityState S) : AuthorityState S :=
  MkAuthorities (au_runtime st) (au_bindings st) (<[object := fields]> (au_objects st)) (au_authorities st)
    (au_issuance_ids st) (au_provenance st) (au_contexts st) (au_next st).

(** A service over a binding store, before its first call *)
Definition new_authorities {S} (b : S) : AuthorityState S := MkAuthorities empty_runtime b ∅ ∅ ∅ ∅ ∅ 0.

Section runs.
Context `{PyLib}.
Context {S : Type} `{BindingPersistence S}.
Variable isoformat_micros : Z → string.
Variable policies : Policies.
Variables boundary_id attestation_id : nat.
Variable svc : ApprovalService.
Variable trust : DriverTrustContext.
Variable binding_ws : string.

Definition authority_step (c : authority_call) (st : AuthorityState S) : AuthorityState S :=
  match c with
  | IssueCall env p r a db =>
      snd (issue_application_authority isoformat_micros policies boundary_id attestation_id svc trust binding_ws env p r a
             db st)
  | RecoverCall env p r a db => snd (recover_application_authority attestation_id svc binding_ws env p r a db st)
  | TamperBinding object fields => set_runtime (tamper object fields (au_runtime st)) st
  | TamperAuthority object fields => tamper_authority object fields st
  end.
Definition authority_run (calls : list authority_call) (st : AuthorityState S) : AuthorityState S :=
  foldl (λ st c, authority_step c st) st calls.
End runs.
