(* ===== verification/ArtifactAdapter.v ===== *)
(** * Stored evidence of an attestation, made and verified again
    (delivery_system/verified_attestation_artifact.py, restart_credential_verification.py)

    [VerifiedAttestationArtifactAdapter] stores a verified attestation with the reference to
    its binding, and answers with the link an authority is issued on;
    [DefaultRestartCredentialAttestationVerifier] verifies a stored attestation after a
    restart, under the policies of that moment.  The adapter's store is used through its
    protocol ([ArtifactPersistence]). *)
From S2P Require Import Prelude PyValue Strings PyOps Canonical AuditRecords SafeText AuthorityBinding.
From S2P Require Import Attestation AttestationBoundary AttestationRecords AttestationStore AttestationRuntime Authority.

(** ** [AttestationPersistenceStore]: the two methods the adapter calls *)
Class ArtifactPersistence (S : Type) := {
  store_artifact : Artifact → Reference → S → result (Artifact * Reference) * S;
  stored_artifact : pyval → pyval → S → result (option (Artifact * Reference));
}.
Definition memory_artifacts `{PyLib} (isoformat_micros : Z → string) : ArtifactPersistence AttestationStore :=
  {| store_artifact := persist_artifact isoformat_micros; stored_artifact := get_artifact_aggregate isoformat_micros |}.

Definition BINDING_MISMATCH : string := "verified_attestation_binding_mismatch".
Definition ARTIFACT_CONFLICT : string := "verified_attestation_artifact_conflict".
Definition LINK_INVALID : string := "verified_attestation_artifact_link_invalid".

Section adapter.
Context `{PyLib}.
Variable isoformat_micros : Z → string.

(** [_timestamp] of the binding, and [_binding_id] *)
Definition verified_timestamp (v : pyval) : result string :=
  match v with
  | VStr s =>
      match fromisoformat (replace_Z s) with
      | Some (t, Some offset) => Ok (micros_text isoformat_micros (t - offset))
      | _ => Err (ValueError "verified_attestation_verified_at_invalid")
      end
  | _ => Err (ValueError "verified_attestation_verified_at_invalid")
  end.
Definition checked_binding_id (v : pyval) : result string :=
  match v with
  | VStr s => raise "verified_attestation_binding_invalid" when negb (BINDING_ID_RE s) ; Ok s
  | _ => Err (ValueError "verified_attestation_binding_invalid")
  end.

(** [_claims_match_binding]: the fields of the binding that are those of the claims *)
Definition claims_checks (c : Claims) (claims_digest : string) : list (string * pyval) :=
  [("attestation_id", VStr (cl_attestation_id c)); ("claims_digest", VStr claims_digest);
   ("credential_instance_id", VStr (cl_credential_instance_id c)); ("issuer_id", VStr (cl_issuer_id c));
   ("key_id", VStr (cl_key_id c)); ("algorithm", VStr (cl_signature_algorithm c));
   ("credential_class", VStr (cl_credential_class c));
   ("credential_principal_identity", VStr (cl_credential_principal_identity c));
   ("challenge_digest", VStr (cl_challenge_digest c));
   ("github_subject_identity", VStr (cl_github_subject_identity c));
   ("repository_identity", VStr (cl_repository_identity c));
   ("granted_capabilities", VTuple (map VStr (cl_granted_capabilities c)));
   ("driver_identity", VStr (cl_driver_identity c)); ("remote_authority", VStr (cl_remote_authority c));
   ("preview_id", VStr (cl_preview_id c)); ("revision", VInt (cl_revision c));
   ("operation_set_digest", VStr (cl_operation_set_digest c));
   ("remote_snapshot_digest", VStr (cl_remote_snapshot_digest c)); ("evidence_digest", VStr (cl_evidence_digest c));
   ("issued_at", VStr (cl_issued_at c)); ("expires_at", VStr (cl_expires_at c));
   ("source_verification_digest", VStr (cl_source_verification_digest c))].

Definition _claims_match_binding (c : Claims) (binding : pyval) : result unit :=
  let! d := claims_digest c in
  raise BINDING_MISMATCH when negb (forallb (λ '(k, v), py_eq (get binding k) v) (claims_checks c d)) ;
  let! _ := checked_binding_id (get binding "binding_id") in
  raise BINDING_MISMATCH when negb (is_nonempty_str (get binding "workspace_identity")) ;
  let! _ := verified_timestamp (get binding "verified_at") in
  Ok tt.

(** [_validated_context]: the fields of the binding, the claims and the identity of the artifact *)
Definition _validated_context (service : nat) (context : VerifiedContext) (rt : RuntimeState)
  : result (pyval * Claims * string) :=
  raise "verified_attestation_context_unverified" when negb (accepts_verified_context service context rt) ;
  let binding := default VNone (rt_objects rt !! vc_binding context) in
  let event := vc_event context in
  raise BINDING_MISMATCH when negb (py_eq (get binding "verified_at") (VStr (ev_verified_at event))) ;
  let claims := held_value (ev_claims event) in
  let! _ := _claims_match_binding claims binding in
  let! id := artifact_id_for (get binding "workspace_identity") (VStr (cl_attestation_id claims)) in
  Ok (binding, claims, id).

(** [_build_artifact], [_build_reference] and [_validate_existing] *)
Definition _build_artifact (context : VerifiedContext) (binding : pyval) (created_at : string) : result Artifact :=
  let event := vc_event context in
  artifact_create isoformat_micros (get binding "workspace_identity") (held_value (ev_claims event))
    (VStr (sa_proof (held_value (ev_envelope event)))) (VStr (ev_verified_at event)) (VStr created_at).
(** [binding.to_dict()] gives the slots of the binding *)
Definition _build_reference (a : Artifact) (binding : pyval) : result Reference :=
  reference_create isoformat_micros a (dict_of (map (λ k, (k, get binding k)) BINDING_SLOTS)).
Definition _validate_existing (aggregate : Artifact * Reference) (context : VerifiedContext) (binding : pyval) : result unit :=
  let '(a, r) := aggregate in
  let! expected := _build_artifact context binding (ar_created_at a) in
  let! expected_reference := _build_reference a binding in
  raise ARTIFACT_CONFLICT when negb (bool_decide (a = expected) && bool_decide (r = expected_reference)) ; Ok tt.

(** [VerifiedCredentialArtifactLink(...)], with what its properties answer *)
Definition make_link (binding_id : pyval) (aggregate : Artifact * Reference) : result ArtifactLink :=
  let '(a, r) := aggregate in
  let! id := checked_binding_id binding_id in
  raise LINK_INVALID when negb (bool_decide (rf_binding_id r = id)) ;
  Ok (MkLink id (ar_artifact_id a) (ar_artifact_digest a) (ar_attestation_id a) (ar_claims a) (ar_claims_digest a)
        (ar_detached_proof a) (ar_original_verified_at a)).

(** ** [resolve_verified_attestation] and [persist_verified_attestation] *)
(** The adapter's own errors pass *)
Definition adapter_error {A} (c : result A) : result A :=
  match c with
  | Ok a => Ok a
  | Err (Unmodelled what) => Err (Unmodelled what)
  | Err e => if bool_decide (e = ValueError ARTIFACT_CONFLICT) then Err e else Err (ValueError ARTIFACT_CONFLICT)
  end.

Context {S : Type} `{ArtifactPersistence S}.

Definition resolve_verified_attestation (service : nat) (context : VerifiedContext) (rt : RuntimeState) (st : S)
  : result ArtifactLink :=
  let! (binding, _, id) := _validated_context service context rt in
  let! existing := stored_artifact (get binding "workspace_identity") (VStr id) st in
  match existing with
  | None => Err (ValueError "verified_attestation_artifact_not_found")
  | Some aggregate =>
      let! _ := adapter_error (_validate_existing aggregate context binding) in
      make_link (get binding "binding_id") aggregate
  end.

(** Stored by this call, or by another one in between *)
Definition persist_new (clock : result (option Z)) (context : VerifiedContext) (binding : pyval) (id : string) (st : S)
  : result (Artifact * Reference) * S :=
  match (let! now := clock in
         match now with
         | None => Err (ValueError "verified_attestation_created_at_invalid")
         | Some now =>
             let! a := _build_artifact context binding (micros_text isoformat_micros now) in
             let! r := _build_reference a binding in Ok (a, r)
         end) with
  | Err e => (Err e, st)
  | Ok (a, r) =>
      let '(answer, st') := store_artifact a r st in
      match answer with
      | Err (ValueError code) =>
          if bool_decide (code = "attestation_artifact_conflict") then
            (let! winner := stored_artifact (get binding "workspace_identity") (VStr id) st' in
             match winner with
             | None => Err (ValueError code)
             | Some winner => let! _ := _validate_existing winner context binding in Ok winner
             end, st')
          else (Err (ValueError code), st')
      | _ => (answer, st')
      end
  end.

Definition persist_verified_attestation (clock : result (option Z)) (service : nat) (context : VerifiedContext)
    (rt : RuntimeState) (st : S) : result ArtifactLink * S :=
  match (let! (binding, claims, id) := _validated_context service context rt in
         let! existing := stored_artifact (get binding "workspace_identity") (VStr id) st in Ok (binding, id, existing)) with
  | Err e => (Err e, st)
  | Ok (binding, id, Some existing) =>
      (let! _ := _validate_existing existing context binding in make_link (get binding "binding_id") existing, st)
  | Ok (binding, id, None) =>
      let '(answer, st') := persist_new clock context binding id st in
      (let! aggregate := answer in
       let! _ := _validate_existing aggregate context binding in make_link (get binding "binding_id") aggregate, st')
  end.
End adapter.

(** ** [DefaultRestartCredentialAttestationVerifier] *)
(** [RestartVerifiedCredentialEvidence] *)
Record RestartEvidence := MkRestartEvidence {
  xe_workspace_identity : string;
  xe_artifact_id : string;
  xe_artifact_digest : string;
  xe_claims : Claims;
  xe_claims_digest : string;
  xe_original_verified_at : string;
}.

(** The policies, all of them required *)
Record RestartPolicies := MkRestartPolicies {
  xp_issuer : string → string → string → string → string → result (option (pyval * pyval));
  xp_proof : string → string → string → string → string → result pyval;
  xp_revocation : string → string → string → string → string → result (option RevocationStatus);
  xp_capability : string → result pyval;
}.

Definition UNTRUSTED : string := "restart_reconstruction_credential_untrusted".
Definition EVIDENCE_INVALID : string := "restart_reconstruction_credential_evidence_invalid".
Definition CAPABILITY_REJECTED : string := "restart_reconstruction_capability_rejected".
Definition PROOF_INVALID : string := "restart_reconstruction_credential_proof_invalid".

(** [except ValueError: raise except Exception: raise ValueError(code)] *)
Definition other_error {A} (code : string) (c : result A) : result A :=
  match c with
  | Ok a => Ok a
  | Err (Unmodelled what) => Err (Unmodelled what)
  | Err e => if is_value_error e then Err e else Err (ValueError code)
  end.

Section restart.
Context `{PyLib}.
Variable isoformat_micros : Z → string.

(** [derive_restart_binding_id]: the identity of AttestationRuntime.v, over the same fields *)
Definition derive_restart_binding_id (values : pyval) : result string :=
  store_error "restart_reconstruction_binding_mismatch" (binding_identity values).

Definition make_restart_evidence (a : Artifact) (claims_digest : string) : result RestartEvidence :=
  raise EVIDENCE_INVALID
    when bool_decide (ar_workspace_identity a = "") || bool_decide (ar_artifact_id a = "")
         || bool_decide (ar_artifact_digest a = "") ;
  let! d := Attestation.claims_digest (ar_claims a) in
  raise EVIDENCE_INVALID when negb (bool_decide (claims_digest = d)) || bool_decide (ar_original_verified_at a = "") ;
  Ok (MkRestartEvidence (ar_workspace_identity a) (ar_artifact_id a) (ar_artifact_digest a) (ar_claims a) claims_digest
        (ar_original_verified_at a)).

Variable policies : RestartPolicies.

Definition restart_issuer (c : Claims) : result unit :=
  let! answer :=
    store_error UNTRUSTED
      (xp_issuer policies (cl_issuer_id c) (cl_key_id c) (cl_signature_algorithm c) (cl_attestation_version c)
         (cl_credential_class c)) in
  match answer with
  | Some (VBool true, _) => Ok tt
  | _ => Err (ValueError UNTRUSTED)
  end.
Definition restart_proof (c : Claims) (proof : string) : result unit :=
  let! valid :=
    store_error PROOF_INVALID
      (let! payload := canonical_payload (claims_to_payload c) in
       xp_proof policies payload proof (cl_issuer_id c) (cl_key_id c) (cl_signature_algorithm c)) in
  raise PROOF_INVALID when negb (bool_decide (valid = VBool true)) ; Ok tt.
Definition restart_capabilities (c : Claims) : result unit :=
  other_error CAPABILITY_REJECTED
    (let! _ := map_r (λ k, let! supported := xp_capability policies k in
                           raise CAPABILITY_REJECTED when negb (bool_decide (supported = VBool true)) ; Ok tt)
                 (cl_granted_capabilities c) in Ok tt).
(** [issued <= now < expires] *)
Definition aware_time (s : string) : result Z :=
  let! (t, o) := parse_iso (VStr s) in
  match o with
  | Some offset => Ok (t - offset)%Z
  | None => Err (TypeError "can't compare offset-naive and offset-aware datetimes")
  end.
Definition restart_times (c : Claims) (now : Z) : result unit :=
  let! _ := value_error EVIDENCE_INVALID (parse_iso (VStr (cl_issued_at c))) in
  let! _ := value_error EVIDENCE_INVALID (parse_iso (VStr (cl_expires_at c))) in
  let! issued := aware_time (cl_issued_at c) in
  raise "restart_reconstruction_credential_not_yet_valid" when (now <? issued)%Z ;
  let! expires := aware_time (cl_expires_at c) in
  raise "restart_reconstruction_credential_expired" when (expires <=? now)%Z ; Ok tt.
Definition restart_revocation (c : Claims) (now : Z) : result unit :=
  let! answer :=
    store_error "restart_reconstruction_revocation_unavailable"
      (xp_revocation policies (cl_attestation_id c) (cl_credential_instance_id c) (cl_issuer_id c) (cl_key_id c)
         REVOCATION_CONTRACT_VERSION) in
  match answer with
  | None => Err (ValueError "restart_reconstruction_revocation_unknown")
  | Some status =>
      let! _ := store_error "restart_reconstruction_revocation_invalid" (status_validate status now) in
      raise "restart_reconstruction_credential_revoked"
        when rs_attestation_revoked status || rs_credential_instance_revoked status ; Ok tt
  end.

(** [verify] *)
Definition restart_verify (artifact : Artifact + pyval) (current_time : option Z) : result RestartEvidence :=
  let! a := store_error EVIDENCE_INVALID (artifact_from_untrusted isoformat_micros artifact) in
  match current_time with
  | None => Err (ValueError "restart_reconstruction_clock_invalid")
  | Some now =>
      let c := ar_claims a in
      raise UNTRUSTED when negb (bool_decide (cl_attestation_version c ∈ [ATTESTATION_VERSION_V1; ATTESTATION_VERSION_V2])) ;
      raise UNTRUSTED when negb (bool_decide (cl_signature_algorithm c ∈ SUPPORTED_SIGNATURE_ALGORITHMS)) ;
      let! _ := restart_issuer c in
      let! _ := restart_proof c (ar_detached_proof a) in
      let! _ := restart_capabilities c in
      let! _ := restart_times c now in
      let! _ := restart_revocation c now in
      let! d := claims_digest c in
      make_restart_evidence a d
  end.
End restart.
