(* ===== verification/AuthorityRestart.v ===== *)
(** * Authorities after a restart (delivery_system/runtime.py)

    [reconstruct_application_authority_after_restart]: an authority that was issued by an
    earlier process is built again from its durable binding, the stored attestation and the
    present preview, without a live credential context.  What it registers beside the
    authority is the provenance [validate_application_authority] then checks it against. *)
From S2P Require Import Prelude PyValue Strings PyOps Canonical WriteOperations Identity Context FormalPreview Evidence.
From S2P Require Import AuditRecords Approvals PreviewStore ApprovalService SafeText AuthorityBinding BindingStore.
From S2P Require Import Receipts Attestation AttestationBoundary Preflight AttestationRuntime Authority.
From S2P Require Import AttestationRecords AttestationStore ArtifactAdapter.

(** The dependencies of the call; the credential verifier is a protocol, and [None] is an
    answer of another type. *)
Record RestartServices := MkRestartServices {
  xs_binding_verifier : option (SignedAuthorityBinding → result bool);
  xs_artifacts : option (string → string → result (option (Artifact * Reference)));
  xs_credential_verifier : option (Artifact → Z → result (option RestartEvidence));
  xs_resolve : list pyval → result pyval;
  xs_clock : result (option Z);
}.

Definition restart_code (what : string) : string := "restart_reconstruction_" +:+ what.
Definition CURRENT_STATE_INVALID : string := "restart_reconstruction_current_state_invalid".
Definition APPLICATION_MISMATCH : string := "restart_reconstruction_application_mismatch".
Definition CAPABILITY_MISMATCH : string := "restart_reconstruction_capability_mismatch".
Definition ARTIFACT_MISMATCH : string := "restart_reconstruction_artifact_mismatch".
Definition RESTART_MISMATCH : string := "restart_reconstruction_binding_mismatch".
Definition NO_ISSUANCE : string := "restart_reconstruction_no_historical_issuance".
Definition PERSISTENCE_CORRUPT : string := "restart_reconstruction_persistence_corrupt".
Definition PERSISTENCE_ERROR : string := "restart_reconstruction_persistence_error".
Definition BINDING_INVALID : string := "restart_reconstruction_authority_binding_invalid".
Definition REGISTRY_CONFLICT : string := "restart_reconstruction_registry_conflict".

(** [tuple(sorted(...))] of what the resolver answers *)
Definition sorted_requirements (v : pyval) : result (list string) :=
  match v with
  | VList l | VTuple l | VSet l =>
      match strs_of l with Some caps => Ok (sorted_strings caps) | None => Err (Unmodelled "sorted") end
  | _ => Err (Unmodelled "sorted")
  end.

(** [v[k] = x] for each pair, in order *)
Definition dict_update (v : pyval) (items : list (string * pyval)) : pyval :=
  foldl (λ d p, dict_set d (fst p) (snd p)) v items.

Section restart.
Context `{PyLib}.
Context {S : Type} `{BindingPersistence S}.
Variable svc : ApprovalService.
Variable trust : DriverTrustContext.
Variable binding_ws : string.
Notation store := (as_store svc).
Notation ws := (ps_workspace (as_store svc)).
Notation state := (AuthorityState S).

(** ** The present state: the preview, its audit and approval, and the runtime state *)
Definition present_approval (preview_id : string) (revision : Z) (approval_id : string) (db : PreviewDb)
  : result (pyval * AuditRecord * ApprovalRecord) :=
  let! (preview, audit) := _resolve_audit svc preview_id revision db in
  let! id := _approval_id audit in
  raise APPLICATION_MISMATCH when negb (bool_decide (approval_id = id)) ;
  let! approval := value_error (restart_code "approval_missing") (get_approval store ws approval_id db) in
  let! current := validate_approval_current store approval db in
  raise (restart_code "approval_invalid") when negb current ;
  let! bound := _validate_approval_against_current_preview approval audit preview ws in
  raise (restart_code "approval_invalid") when negb bound ;
  Ok (preview, audit, approval).

Definition present_state (preview_id : string) (revision : Z) (audit : AuditRecord) (db : PreviewDb)
  : result (EvidenceRecord * string) :=
  match _load_runtime_state ws store trust preview_id revision db with
  | Failure code => Err (ValueError code)
  | Raised e => Err e
  | Pass (_, state_audit, evidence, subject) =>
      raise CURRENT_STATE_INVALID when negb (py_eq (audit_to_dict state_audit) (audit_to_dict audit)) ;
      raise CURRENT_STATE_INVALID when bool_decide (subject = "") ; Ok (evidence, subject)
  end.

(** ** What the application is: its operations, its requirements and its identity *)
Definition required_now (resolve : list pyval → result pyval) (canonical : pyval) : result (list operation * list string) :=
  let! (operations, required) :=
    any_error CAPABILITY_MISMATCH
      (let! operations := _execution_operations canonical in
       let! answer := resolve (map operation_dict operations) in
       let! required := sorted_requirements answer in Ok (operations, required)) in
  raise (restart_code "operation_mismatch") when bool_decide (operations = []) || bool_decide (required = []) ;
  Ok (operations, required).

(** The values without the credential, which placeholders stand for *)
Definition placeholder_values (canonical : pyval) (audit : AuditRecord) (approval : ApprovalRecord) (approval_digest : string)
    (evidence : EvidenceRecord) (subject : string) (required : list string) (preview_id : string) (revision : Z) : pyval :=
  dict_of
    [("authority_id", VStr ""); ("workspace_identity", VStr ws);
     ("repository_identity", get canonical "repository_identity"); ("preview_id", VStr preview_id);
     ("revision", VInt revision); ("sealed_preview_digest", get canonical "sealed_preview_digest");
     ("plan_digest", get canonical "plan_digest"); ("operation_set_digest", get canonical "operation_set_digest");
     ("remote_snapshot_digest", get canonical "remote_snapshot_digest"); ("audit_id", VStr (ad_audit_id audit));
     ("audit_digest", VStr (ad_audit_digest audit)); ("approval_id", ap_approval_id approval);
     ("approval_digest", VStr approval_digest);
     ("credential_binding_id", VStr "binding-0000000000000000000000000000000000000000000000000000000000000000");
     ("credential_instance_id", VStr "credential-instance-placeholder"); ("issuer_id", VStr "issuer-placeholder");
     ("credential_principal_identity", VStr "principal-placeholder"); ("github_subject_identity", VStr subject);
     ("driver_identity", VStr (ev_source_identity evidence)); ("remote_authority", get canonical "remote_authority");
     ("required_capabilities", VTuple (map VStr required))].

Definition present_identity (canonical : pyval) (audit : AuditRecord) (approval : ApprovalRecord) (evidence : EvidenceRecord)
    (subject : string) (required : list string) (operations : list operation) (preview_id : string) (revision : Z)
  : result (pyval * string * list string) :=
  any_error APPLICATION_MISMATCH
    (let! d := _approval_digest approval in
     let values := placeholder_values canonical audit approval d evidence subject required preview_id revision in
     let! identity := identity_from_authority values in
     let! ids := operation_identities (_application_id identity) 0 operations in
     Ok (values, _application_id identity, sorted_strings ids)).

(** ** The one historical issuance *)
Fixpoint past_assignments (ids : list string) (b : S) : result (list string) :=
  match ids with
  | [] => Ok []
  | id :: rest =>
      let! assigned :=
        any_error PERSISTENCE_ERROR (resolve_authority_binding_for_operation binding_ws (VStr ws) (VStr id) b) in
      match assigned with
      | None => Err (ValueError NO_ISSUANCE)
      | Some p => let! l := past_assignments rest b in Ok (pb_authority_issuance_id p :: l)
      end
  end.
Definition past_issuance (ids : list string) (b : S) : result PersistedAuthorityBinding :=
  let! assigned := past_assignments ids b in
  match assigned with
  | [] => Err (ValueError NO_ISSUANCE)
  | issuance :: rest =>
      raise (restart_code "assignment_conflict") when negb (forallb (λ i, bool_decide (i = issuance)) rest) ;
      let! loaded := any_error PERSISTENCE_ERROR (load_authority_binding binding_ws (VStr ws) (VStr issuance) b) in
      match loaded with
      | Some p => raise PERSISTENCE_CORRUPT when negb (bool_decide (pb_authority_issuance_id p = issuance)) ; Ok p
      | None => Err (ValueError PERSISTENCE_CORRUPT)
      end
  end.

Definition checked_payload (verify : SignedAuthorityBinding → result bool) (p : PersistedAuthorityBinding)
    (application : string) (ids required : list string) : result AuthorityBindingRecord :=
  let! valid := any_error BINDING_INVALID (verify (pb_signed p)) in
  raise BINDING_INVALID when negb valid ;
  let payload := pb_payload p in
  raise APPLICATION_MISMATCH when negb (bool_decide (ab_application_id payload = application)) ;
  raise (restart_code "operation_mismatch")
    when negb (bool_decide (ab_authorized_operation_identities payload = ids)) ;
  raise CAPABILITY_MISMATCH when negb (bool_decide (ab_required_capabilities payload = required)) ;
  Ok payload.

(** ** The stored attestation, verified again *)
Definition past_artifact (env : RestartServices) (artifacts : string → string → result (option (Artifact * Reference)))
    (verify : Artifact → Z → result (option RestartEvidence)) (payload : AuthorityBindingRecord)
  : result (Artifact * Reference * RestartEvidence) :=
  let! aggregate :=
    any_error (restart_code "artifact_unavailable") (artifacts ws (ab_attestation_artifact_id payload)) in
  match aggregate with
  | None => Err (ValueError (restart_code "artifact_missing"))
  | Some (a, r) =>
      raise ARTIFACT_MISMATCH
        when negb (bool_decide (ar_artifact_digest a = ab_attestation_artifact_digest payload))
             || negb (bool_decide (rf_artifact_id r = ar_artifact_id a))
             || negb (bool_decide (rf_artifact_digest r = ar_artifact_digest a)) ;
      let! now := read_error (restart_code "clock_invalid") (utc_now (xs_clock env)) in
      let! verified := other_error PROOF_INVALID (verify a now) in
      match verified with
      | None => Err (ValueError EVIDENCE_INVALID)
      | Some e =>
          raise ARTIFACT_MISMATCH
            when negb (bool_decide (xe_workspace_identity e = ws))
                 || negb (bool_decide (xe_artifact_id e = ab_attestation_artifact_id payload))
                 || negb (bool_decide (xe_artifact_digest e = ab_attestation_artifact_digest payload)) ;
          Ok (a, r, e)
      end
  end.

(** The claims are about the present preview and evidence. *)
Definition claims_present (c : Claims) (canonical : pyval) (evidence : EvidenceRecord) (subject preview_id : string)
    (revision : Z) : bool :=
  py_eq (VStr (cl_repository_identity c)) (get canonical "repository_identity")
  && bool_decide (cl_github_subject_identity c = subject) && bool_decide (cl_driver_identity c = ev_source_identity evidence)
  && py_eq (VStr (cl_remote_authority c)) (get canonical "remote_authority") && bool_decide (cl_preview_id c = preview_id)
  && bool_decide (cl_revision c = revision) && py_eq (VStr (cl_operation_set_digest c)) (get canonical "operation_set_digest")
  && py_eq (VStr (cl_remote_snapshot_digest c)) (get canonical "remote_snapshot_digest")
  && bool_decide (cl_evidence_digest c = ev_evidence_digest evidence)
  && py_eq (VStr (cl_evidence_digest c)) (get_default canonical "evidence_digest" (VStr (cl_evidence_digest c))).

Definition claims_sufficient (c : Claims) (required : list string) : bool :=
  bool_decide (WRITE_CAPABILITY ∈ required)
  && forallb (λ k, bool_decide (k ∈ cl_granted_capabilities c)) required
  && bool_decide (WRITE_CAPABILITY ∈ cl_granted_capabilities c).

(** The reference ties the artifact to the present preview, audit and evidence. *)
Definition reference_present (a : Artifact) (r : Reference) (c : Claims) (payload : AuthorityBindingRecord) (canonical : pyval)
    (audit : AuditRecord) (evidence : EvidenceRecord) (preview_id : string) (revision : Z) : bool :=
  bool_decide (rf_workspace_identity r = ws) && bool_decide (rf_artifact_id r = ab_attestation_artifact_id payload)
  && bool_decide (rf_artifact_digest r = ab_attestation_artifact_digest payload)
  && bool_decide (rf_repository_identity r = cl_repository_identity c)
  && bool_decide (rf_github_subject_identity r = cl_github_subject_identity c)
  && bool_decide (rf_driver_identity r = cl_driver_identity c) && bool_decide (rf_remote_authority r = cl_remote_authority c)
  && bool_decide (rf_preview_id r = preview_id) && bool_decide (rf_revision r = revision)
  && py_eq (VStr (rf_plan_digest r)) (get canonical "plan_digest")
  && py_eq (VStr (rf_sealed_preview_digest r)) (get canonical "sealed_preview_digest")
  && bool_decide (rf_operation_set_digest r = cl_operation_set_digest c)
  && bool_decide (rf_remote_snapshot_digest r = cl_remote_snapshot_digest c)
  && bool_decide (rf_audit_id r = ad_audit_id audit) && bool_decide (rf_audit_digest r = ad_audit_digest audit)
  && bool_decide (rf_evidence_id r = ev_evidence_id evidence) && bool_decide (rf_evidence_digest r = cl_evidence_digest c)
  && bool_decide (rf_original_verified_at r = ar_original_verified_at a)
  && (bool_decide (rf_credential_principal_identity r = "")
      || bool_decide (rf_credential_principal_identity r = cl_credential_principal_identity c))
  && (bool_decide (rf_challenge_digest r = "") || bool_decide (rf_challenge_digest r = cl_challenge_digest c)).

(** The fields of the binding the attestation was verified for, but for the time of that *)
Definition past_binding (payload : AuthorityBindingRecord) (c : Claims) (claims_digest : string) (canonical : pyval)
    (audit : AuditRecord) (evidence : EvidenceRecord) (required : list string) : pyval :=
  dict_of
    [("binding_id", VStr (ab_credential_binding_id payload)); ("workspace_identity", VStr ws);
     ("attestation_version", VStr (cl_attestation_version c)); ("attestation_id", VStr (cl_attestation_id c));
     ("claims_digest", VStr claims_digest); ("credential_instance_id", VStr (cl_credential_instance_id c));
     ("issuer_id", VStr (cl_issuer_id c)); ("key_id", VStr (cl_key_id c)); ("algorithm", VStr (cl_signature_algorithm c));
     ("credential_class", VStr (cl_credential_class c));
     ("credential_principal_identity", VStr (cl_credential_principal_identity c));
     ("challenge_digest", VStr (cl_challenge_digest c)); ("repository_identity", VStr (cl_repository_identity c));
     ("github_subject_identity", VStr (cl_github_subject_identity c));
     ("required_capabilities", VTuple (map VStr required));
     ("granted_capabilities", VTuple (map VStr (cl_granted_capabilities c)));
     ("driver_identity", VStr (cl_driver_identity c)); ("remote_authority", VStr (cl_remote_authority c));
     ("preview_id", VStr (cl_preview_id c)); ("revision", VInt (cl_revision c));
     ("plan_digest", get canonical "plan_digest"); ("sealed_preview_digest", get canonical "sealed_preview_digest");
     ("operation_set_digest", VStr (cl_operation_set_digest c));
     ("remote_snapshot_digest", VStr (cl_remote_snapshot_digest c)); ("evidence_id", VStr (ev_evidence_id evidence));
     ("evidence_digest", VStr (cl_evidence_digest c)); ("audit_id", VStr (ad_audit_id audit));
     ("audit_digest", VStr (ad_audit_digest audit));
     ("source_verification_digest", VStr (cl_source_verification_digest c)); ("issued_at", VStr (cl_issued_at c));
     ("expires_at", VStr (cl_expires_at c)); ("verified_at", VStr "")].

Definition evidence_checks (a : Artifact) (r : Reference) (c : Claims) (payload : AuthorityBindingRecord) (canonical : pyval)
    (audit : AuditRecord) (evidence : EvidenceRecord) (subject : string) (required : list string) (preview_id : string)
    (revision : Z) : result unit :=
  raise RESTART_MISMATCH when negb (claims_present c canonical evidence subject preview_id revision) ;
  raise CAPABILITY_MISMATCH when negb (claims_sufficient c required) ;
  raise ARTIFACT_MISMATCH when negb (reference_present a r c payload canonical audit evidence preview_id revision) ;
  let! d := claims_digest c in
  let binding := past_binding payload c d canonical audit evidence required in
  let! id := derive_restart_binding_id binding in
  raise RESTART_MISMATCH when negb (bool_decide (id = ab_credential_binding_id payload)) ;
  raise ARTIFACT_MISMATCH
    when negb (bool_decide (rf_binding_id r = ab_credential_binding_id payload))
         || negb (bool_decide (rf_artifact_id r = ab_attestation_artifact_id payload))
         || negb (bool_decide (rf_artifact_digest r = ab_attestation_artifact_digest payload)) ;
  raise RESTART_MISMATCH when negb (bool_decide (ab_workspace_identity payload = ws)) ;
  let! again := derive_restart_binding_id binding in
  raise RESTART_MISMATCH when negb (bool_decide (ab_credential_binding_id payload = again)) ;
  Ok tt.

(** ** The authority and its provenance *)
Definition credential_values (payload : AuthorityBindingRecord) (c : Claims) : list (string * pyval) :=
  [("credential_binding_id", VStr (ab_credential_binding_id payload));
   ("credential_instance_id", VStr (cl_credential_instance_id c)); ("issuer_id", VStr (cl_issuer_id c));
   ("credential_principal_identity", VStr (cl_credential_principal_identity c));
   ("github_subject_identity", VStr (cl_github_subject_identity c)); ("driver_identity", VStr (cl_driver_identity c));
   ("remote_authority", VStr (cl_remote_authority c));
   ("granted_capabilities", VTuple (map VStr (cl_granted_capabilities c)));
   ("issued_at", VStr (ab_authority_issued_at payload)); ("expires_at", VStr (cl_expires_at c))].

(** Everything up to the registration: the identity, the issuance, the authority and the provenance *)
Definition prepare_restart (env : RestartServices) (verify_binding : SignedAuthorityBinding → result bool)
    (artifacts : string → string → result (option (Artifact * Reference)))
    (verify : Artifact → Z → result (option RestartEvidence)) (preview_id : string) (revision : Z) (approval_id : string)
    (db : PreviewDb) (st : state) : result (string * string * pyval * pyval) :=
  let! (preview, audit, approval) := present_approval preview_id revision approval_id db in
  let! (evidence, subject) := present_state preview_id revision audit db in
  let canonical := get preview "canonical_payload" in
  raise CURRENT_STATE_INVALID when negb (is_mapping canonical) ;
  let! (operations, required) := required_now (xs_resolve env) canonical in
  let! (placeholders, application, ids) :=
    present_identity canonical audit approval evidence subject required operations preview_id revision in
  let! p := past_issuance ids (au_bindings st) in
  let! payload := checked_payload verify_binding p application ids required in
  let! (a, r, e) := past_artifact env artifacts verify payload in
  let c := xe_claims e in
  let! _ := evidence_checks a r c payload canonical audit evidence subject required preview_id revision in
  let values := dict_update placeholders (credential_values payload c) in
  let! id := expected_id values in
  let! authority := authority_create (dict_set values "authority_id" (VStr id)) in
  raise REGISTRY_CONFLICT
    when match au_issuance_ids st !! id with
         | Some i => negb (bool_decide (i = pb_authority_issuance_id p))
         | None => false
         end ;
  let! provenance := provenance_from_authority authority (pb_authority_issuance_id p) c in
  Ok (id, pb_authority_issuance_id p, authority, provenance).

(** A live context or binding of the authority is in the way of a restored one. *)
Definition live_credential (authority : pyval) (preview_id : string) (revision : Z) (st : state) : bool :=
  bool_decide (is_Some (au_contexts st !! (preview_id, revision)))
  || is_ok (resolve_registered_binding (get authority "credential_binding_id") (au_runtime st)).

Definition set_provenance (id : string) (provenance : pyval) (st : state) : state :=
  MkAuthorities (au_runtime st) (au_bindings st) (au_objects st) (au_authorities st) (au_issuance_ids st)
    (<[id := provenance]> (au_provenance st)) (au_contexts st) (au_next st).

Definition commit_restart (preview_id : string) (revision : Z) (id issuance : string) (authority provenance : pyval) (st : state)
  : result nat * state :=
  let conflict := (Err (ValueError REGISTRY_CONFLICT), st) in
  match au_authorities st !! id with
  | Some existing =>
      if negb (py_eq (default VNone (au_objects st !! existing)) authority) then conflict
      else if live_credential authority preview_id revision st then conflict
      else if match au_provenance st !! id with Some p => negb (py_eq p provenance) | None => false end then conflict
      else
        let st := if bool_decide (au_issuance_ids st !! id = None) then set_issuance id issuance st else st in
        (Ok existing, set_provenance id provenance st)
  | None =>
      if live_credential authority preview_id revision st then conflict
      else (Ok (au_next st), set_provenance id provenance (register_authority id issuance authority st))
  end.

(** [reconstruct_application_authority_after_restart] *)
Definition reconstruct_application_authority (env : RestartServices) (preview_id : string) (revision : Z) (approval_id : pyval)
    (db : PreviewDb) (st : state) : result nat * state :=
  match approval_id with
  | VStr approval_id =>
      if bool_decide (approval_id = "") then (Err (ValueError (restart_code "invalid")), st) else
      match xs_binding_verifier env, xs_artifacts env, xs_credential_verifier env with
      | Some verify_binding, Some artifacts, Some verify =>
          match prepare_restart env verify_binding artifacts verify preview_id revision approval_id db st with
          | Err e => (Err e, st)
          | Ok (id, issuance, authority, provenance) =>
              commit_restart preview_id revision id issuance authority provenance st
          end
      | _, _, _ => (Err (ValueError (restart_code "dependencies_required")), st)
      end
  | _ => (Err (ValueError (restart_code "invalid")), st)
  end.
End restart.
