(* ===== verification/AuthorityFacts.v ===== *)
(** * What an accepted authority means

    An authority that [validate_application_authority] accepts is registered under the hash
    of its fields and unexpired, its approval and audit are the current ones of its preview,
    a durable binding assigns exactly the operations of the preview to its issuance, and its
    credential is a binding that came from a verified attestation
    ([accepted_authority_sound]). *)
From S2P Require Import Prelude PyValue Strings PyOps Canonical WriteOperations Identity Context AuditRecords.
From S2P Require Import Approvals PreviewStore ApprovalService SafeText AuthorityBinding BindingStore.
From S2P Require Import Attestation AttestationBoundary Preflight AttestationRuntime RuntimeFacts Authority.

Section facts.
Context `{PyLib}.
Context {S : Type} `{BindingPersistence S}.
Variable isoformat_micros : Z → string.
Variable policies : Policies.
Variables boundary_id attestation_id : nat.
Variable svc : ApprovalService.
Variable trust : DriverTrustContext.
Variable binding_ws : string.
Notation store := (as_store svc).
Notation ws := (ps_workspace (as_store svc)).
Notation state := (AuthorityState S).
Notation step' := (authority_step isoformat_micros policies boundary_id attestation_id svc trust binding_ws).
Notation run := (authority_run isoformat_micros policies boundary_id attestation_id svc trust binding_ws).
Notation validate := (validate_application_authority svc binding_ws).

(** ** The states of a run: no restored authority, and a sound attestation service *)
Record authority_inv (st : state) : Prop := {
  ai_runtime : runtime_inv policies ws store trust (au_runtime st);
  ai_provenance : au_provenance st = ∅;
}.

Lemma new_authorities_inv b : authority_inv (new_authorities b).
Proof. split; [apply empty_runtime_inv|done]. Qed.

Lemma fresh_context_inv env p r db st c st' :
  fresh_context isoformat_micros policies boundary_id attestation_id svc trust env p r db st = (c, st') →
  authority_inv st → authority_inv st'.
Proof.
  unfold fresh_context. intros E [Hr Hp].
  pose proof (runtime_step_inv isoformat_micros policies boundary_id attestation_id ws store trust
                (Orchestrate (sv_attestation env) (VStr p) (VInt r) db) _ Hr) as Hr'.
  unfold runtime_step in Hr'.
  destruct (orchestrate _ _ _ _ _ _ _ _ _ _ _ _) as [[[o ctx|code] rt]|e]; simplify_eq/=; by split.
Qed.

Lemma live_context_inv env p r db st c st' :
  live_context isoformat_micros policies boundary_id attestation_id svc trust env p r db st = (c, st') →
  authority_inv st → authority_inv st'.
Proof.
  unfold live_context. destruct (au_contexts st !! _) as [context|]; [destruct (accepts_verified_context _ _ _)|];
    intros E Hi; simplify_eq; eauto using fresh_context_inv.
Qed.

Lemma commit_issuance_inv id a signed st : authority_inv st → authority_inv (snd (commit_issuance binding_ws id a signed st)).
Proof.
  intros [Hr Hp]. unfold commit_issuance. destruct (save_authority_binding _ _ _) as [[p b]|]; [|done].
  destruct (let! same := _ in _) as [|]; by split.
Qed.

Lemma commit_recovery_inv id i a st : authority_inv st → authority_inv (snd (commit_recovery id i a st)).
Proof.
  intros [Hr Hp]. unfold commit_recovery. destruct (match _ with Some _ => _ | None => _ end); [done|].
  destruct (au_authorities st !! id); [|done]. destruct (negb _); [done|]. simpl. by destruct (bool_decide _).
Qed.

Lemma authority_step_inv c st : authority_inv st → authority_inv (step' c st).
Proof.
  intros Hi. destruct c as [env p r a db|env p r a db|object fields|object fields]; simpl.
  - unfold issue_application_authority. destruct a; try done. case_bool_decide; [done|].
    destruct (sv_persist_link env), (sv_signer env); try done.
    destruct (current_approval _ _ _ _ _) as [[[preview audit] approval]|]; [|done].
    destruct (live_context _ _ _ _ _ _ _ _ _ _ _) as [[c|] st'] eqn:El; apply live_context_inv in El; try done.
    destruct (prepare_issuance _ _ _ _ _ _ _ _ _ _ _ _ _) as [[[id fields] signed]|]; [|done].
    by apply commit_issuance_inv.
  - unfold recover_application_authority. destruct a; try done. case_bool_decide; [done|].
    destruct (sv_resolve_link env), (sv_verifier env); try done.
    destruct (let! x := _ in _) as [[[id i] fields]|]; [|done]. by apply commit_recovery_inv.
  - destruct Hi as [Hr Hp]. split; [|done]. by apply tamper_inv.
  - destruct Hi. by split.
Qed.

Lemma authority_run_inv calls st : authority_inv st → authority_inv (run calls st).
Proof. revert st; induction calls as [|c l IH]; intros st Hi; simpl; [done|]. by apply IH, authority_step_inv. Qed.

(** ** What stands behind an authority
    at time [now]: its registration, the preview with its audit and approval, the durable
    binding [p] of its operations, and the credential binding with its fields *)
Record backed_authority (st : state) (db : PreviewDb) (now : Z) (object : nat) (values preview : pyval)
    (audit : AuditRecord) (approval : ApprovalRecord) (p : PersistedAuthorityBinding) (binding : pyval) : Prop := {
  ba_registered : ∃ id, get values "authority_id" = VStr id ∧ expected_id values = Ok id ∧
    au_authorities st !! id = Some object ∧ au_issuance_ids st !! id = Some (pb_authority_issuance_id p);
  ba_preview : ∃ preview_id revision, get values "preview_id" = VStr preview_id ∧ get values "revision" = VInt revision ∧
    _resolve_audit svc preview_id revision db = Ok (preview, audit) ∧
    fields_equal PREVIEW_FIELDS values (get preview "canonical_payload") = true;
  ba_audit : ad_status audit = ACTIVE ∧ ad_result audit = PASSED ∧ audit_verify_digest audit = Ok true ∧
    get values "audit_id" = VStr (ad_audit_id audit) ∧ get values "audit_digest" = VStr (ad_audit_digest audit);
  ba_approval : ∃ approval_id d, get values "approval_id" = VStr approval_id ∧
    get_approval store ws approval_id db = Ok approval ∧ validate_approval_current store approval db = Ok true ∧
    _approval_digest approval = Ok d ∧ get values "approval_digest" = VStr d;
  ba_unexpired : ∃ t offset, parse_iso (get values "expires_at") = Ok (t, Some offset) ∧ (now < t - offset)%Z;
  ba_stored : load_authority_binding binding_ws (VStr ws) (VStr (pb_authority_issuance_id p)) (au_bindings st) = Ok (Some p);
  ba_operations : ∃ identity operations ids, identity_from_authority values = Ok identity ∧
    _execution_operations (get preview "canonical_payload") = Ok operations ∧
    operation_identities (_application_id identity) 0 operations = Ok ids ∧
    ab_application_id (pb_payload p) = _application_id identity ∧
    ab_authorized_operation_identities (pb_payload p) = sorted_strings ids;
  ba_capabilities : ∃ required granted, get values "required_capabilities" = VTuple (map VStr required) ∧
    get binding "granted_capabilities" = VTuple (map VStr granted) ∧ WRITE_CAPABILITY ∈ required ∧
    ∀ c, c ∈ required → c ∈ granted;
  ba_credential : ∃ id o, get values "credential_binding_id" = VStr id ∧
    lookup_binding id (au_runtime st) = Some o ∧ rt_objects (au_runtime st) !! o = Some binding ∧
    binding_origin policies ws store trust id o binding (au_runtime st) ∧ fields_equal LIVE_FIELDS values binding = true;
}.

Lemma resolve_audit_facts p r db preview audit :
  _resolve_audit svc p r db = Ok (preview, audit) →
  ad_status audit = ACTIVE ∧ ad_result audit = PASSED ∧ audit_verify_digest audit = Ok true.
Proof.
  unfold _resolve_audit. intros E. inv_ok.
  match goal with E : match ?l with [] => _ | _ :: _ => _ end = Ok _ |- _ => destruct l as [|x [|]] end; inv_ok. simplify_eq.
  bools. match goal with E : approval_eligible _ = true |- _ => unfold approval_eligible in E end. bools. by subst.
Qed.

Lemma capability_list_Ok v caps : capability_list v = Ok caps → v = VTuple (map VStr caps).
Proof.
  unfold capability_list. destruct v; try discriminate. destruct (strs_of l) eqn:E; [|discriminate].
  intros [= ->]. by apply strs_of_Some in E as ->.
Qed.

Lemma resolve_binding_Ok v rt o :
  resolve_registered_binding v rt = Ok o →
  ∃ id fields, v = VStr id ∧ lookup_binding id rt = Some o ∧ rt_objects rt !! o = Some fields.
Proof.
  unfold resolve_registered_binding. destruct v; try discriminate. intros E. inv_ok.
  destruct (lookup_binding s rt) as [x|] eqn:El; [|discriminate]. simplify_eq. exists s.
  pose proof El as El'. unfold lookup_binding in El'. destruct (rt_by_id rt !! s) as [y|]; [|discriminate].
  destruct (_registered_binding_is_intact y rt) eqn:Ei; [|discriminate]. simplify_eq.
  unfold _registered_binding_is_intact in Ei. destruct (rt_objects rt !! o); [|discriminate]. by eexists.
Qed.

Lemma approval_still_current_Some values p r a db preview :
  approval_still_current svc values p r a db = Ok (Some preview) →
  ∃ audit approval d, _resolve_audit svc p r db = Ok (preview, audit) ∧ get_approval store ws a db = Ok approval ∧
    validate_approval_current store approval db = Ok true ∧ _approval_digest approval = Ok d ∧
    get values "approval_digest" = VStr d ∧ get values "audit_id" = VStr (ad_audit_id audit) ∧
    get values "audit_digest" = VStr (ad_audit_digest audit).
Proof.
  unfold approval_still_current. intros E. inv_checks.
  destruct (py_eq _ _ && _ && _) eqn:Eb; [|discriminate]. simplify_eq. bools. subst.
  repeat match goal with E : py_eq _ (VStr _) = true |- _ => apply py_eq_str in E end.
  by repeat eexists.
Qed.

Lemma fields_equal_app l m a b : fields_equal (l ++ m) a b = fields_equal l a b && fields_equal m a b.
Proof. unfold fields_equal. by rewrite forallb_app. Qed.

Lemma iso_expired_false v now : iso_expired v now = Ok false → ∃ t o, parse_iso v = Ok (t, Some o) ∧ (now < t - o)%Z.
Proof.
  unfold iso_expired. intros E. inv_checks. destruct o as [x|]; [|discriminate]. injection E as E. bools. by exists z, x.
Qed.

Lemma covers_operations_Issued values canonical binding b :
  covers_operations svc values canonical binding (Issued b) = Ok true →
  fields_equal LIVE_FIELDS values binding = true ∧
  ∃ identity operations ids, identity_from_authority values = Ok identity ∧
    _execution_operations canonical = Ok operations ∧
    operation_identities (_application_id identity) 0 operations = Ok ids ∧
    ab_application_id (pb_payload b) = _application_id identity ∧
    ab_authorized_operation_identities (pb_payload b) = sorted_strings ids.
Proof. unfold covers_operations. intros E. inv_ok. bools. split; [done|]. by repeat eexists. Qed.

Lemma subscript_get v k x : subscript v k = Ok x → get v k = x.
Proof. unfold subscript, get. destruct v; try discriminate. destruct (dget k d); [|discriminate]. by intros [= ->]. Qed.

#[local] Strategy opaque [expected_id].

(** An accepted authority of a process that restored none is grounded in its durable binding. *)
Lemma authority_checks_true values id p r a object now db st :
  authority_inv st → get values "authority_id" = VStr id → get values "preview_id" = VStr p →
  get values "revision" = VInt r → get values "approval_id" = VStr a →
  authority_checks svc binding_ws values id p r a object (Ok (Some now)) db st = Ok true →
  ∃ preview audit approval b binding, backed_authority st db now object values preview audit approval b binding.
Proof.
  intros [Hr Hp] Hid Hpv Hrv Hav E. unfold authority_checks in E. inv_ok.
  destruct (au_issuance_ids st !! id) as [issuance|] eqn:Ei; [|discriminate]. inv_ok.
  match goal with E : authority_grounds _ _ _ _ _ _ _ _ = Ok ?g |- _ => destruct g as [ground|]; [rename E into Eg|discriminate] end.
  unfold authority_grounds in Eg. rewrite Hp, lookup_empty in Eg. inv_ok.
  match goal with E : load_authority_binding _ _ _ _ = Ok ?b |- _ => destruct b as [b|]; [rename E into El|discriminate] end.
  case_bool_decide; simplify_eq. inv_ok.
  match goal with E : approval_still_current _ _ _ _ _ _ = Ok ?o |- _ => destruct o as [preview|]; [|discriminate] end.
  inv_ok.
  match goal with E : approval_still_current _ _ _ _ _ _ = Ok _ |- _ =>
    apply approval_still_current_Some in E as (audit & approval & d & Ea & Eap & Ecur & Ed & Hd & Hai & Had) end.
  match goal with E : granted_now _ _ _ = Ok ?o |- _ => destruct o as [[granted binding]|]; [rename E into Egr|discriminate] end.
  unfold granted_now in Egr. inv_ok.
  match goal with E : resolve_registered_binding _ _ = Ok _ |- _ =>
    apply resolve_binding_Ok in E as (bid & fields & Hbid & Hlook & Hobj) end.
  match goal with Hf : (if ?c then _ else _) = Some _ |- _ => destruct c; [|discriminate Hf] end.
  rewrite Hobj in *. simplify_eq.
  match goal with E : utc_now (Ok (Some now)) = Ok _ |- _ => apply Ok_inj in E as <- end.
  match goal with E : subscript _ _ = Ok ?c |- _ => apply subscript_get in E; rename c into canonical, E into Hc end.
  assert (fields_equal PREVIEW_FIELDS values canonical = true) as Hpf by exact E. bools. subst.
  match goal with E : covers_operations _ _ _ _ _ = Ok _ |- _ => apply covers_operations_Issued in E as (Hlive & Hops) end.
  match goal with E : iso_expired _ _ = Ok false |- _ => apply iso_expired_false in E end.
  repeat match goal with E : capability_list _ = Ok _ |- _ => apply capability_list_Ok in E end.
  destruct (resolve_audit_facts _ _ _ _ _ Ea) as (? & ? & ?).
  eexists preview, audit, approval, _, fields. split; try (assumption || by repeat eexists).
  eexists _, _. split_and!; [done|done|done| |done]. by eapply lookup_binding_origin.
Qed.

(** C13: An authority the service accepts at a time, after any issuances and recoveries and
    any writes to its objects from outside, is registered under the hash of its fields; it is
    not expired; its approval and its one active, passed audit are the current ones of the
    preview whose fields it carries; the binding store has a binding under its issuance whose
    operations are exactly those of that preview; and its credential is a registered binding
    that came from a verified attestation, with whose fields it agrees and whose granted
    capabilities cover those it requires, writing among them. *)
Theorem accepted_authority_sound calls bindings object now db :
  let st := run calls (new_authorities bindings) in
  validate object (Ok (Some now)) db st = Ok true →
  ∃ values preview audit approval p binding, au_objects st !! object = Some values ∧
    backed_authority st db now object values preview audit approval p binding.
Proof.
  intros st E. unfold validate_application_authority in E. destruct (au_objects st !! object) as [values|]; [|discriminate].
  destruct (get values "authority_id") eqn:Ei; try discriminate. destruct (get values "preview_id") eqn:Ep; try discriminate.
  destruct (get values "revision") eqn:Er; try discriminate. destruct (get values "approval_id") eqn:Ea; try discriminate.
  destruct (authority_checks _ _ _ _ _ _ _ _ _ _ _) as [[]|[]] eqn:Ec; try discriminate.
  destruct (authority_checks_true _ _ _ _ _ _ _ _ _ (authority_run_inv calls _ (new_authorities_inv bindings)) Ei Ep Er Ea Ec)
    as (preview & audit & approval & p & binding & Hb).
  by exists values, preview, audit, approval, p, binding.
Qed.
End facts.
