(* ===== verification/PreviewFacts.v ===== *)
(** * Facts about audit and approval records

    Construction, transitions, digests, and the round trips through a stored row. *)
From S2P Require Import Prelude PyValue Strings PyOps Canonical Evidence FormalPreview Receipts.
From S2P Require Import ExecutionStore Preflight AuditRecords Approvals PreviewValidation AuditBoundary.
From S2P Require Import PreviewStore.

(** The order of the audit lifecycle *)
Definition status_rank (s : AuditStatus) : nat := match s with ACTIVE => 0 | STALE => 1 | INVALID => 2 end.

Lemma audit_transitions_rank s s' : s' ∈ audit_transitions s → status_rank s < status_rank s'.
Proof. destruct s, s'; simpl; rewrite ?elem_of_cons, ?elem_of_nil; intros; destruct_or?; try done; lia. Qed.

(** The annotated types of the dynamic fields: texts, and JSON values for the children *)
Definition opt_text (v : pyval) : bool := match v with VNone | VStr _ => true | _ => false end.
Definition audit_typed (a : AuditRecord) : bool :=
  forallb is_str [ad_sealed_preview_digest a; ad_workspace_identity a; ad_audit_scope a; ad_audit_payload_digest a;
                  ad_audit_context_digest a; ad_created_at a]
  && forallb opt_text [ad_rule_registry_version a; ad_rule_registry_digest a]
  && forallb json_value (ad_rule_evaluations a) && forallb json_value (ad_findings a)
  && forallb json_value (ad_evidence_refs a).

Section facts.
Context `{PyLib}.

Lemma audit_check_id a a' : audit_check a = Ok a' → a' = a.
Proof.
  unfold audit_check. intros E. inv_ok; [|done].
  destruct (parse_iso _) as [[t o]|[]] eqn:?; try discriminate. by inv_ok.
Qed.

Lemma audit_check_nonempty a a' : audit_check a = Ok a' → ad_audit_digest a ≠ "".
Proof.
  unfold audit_check. intros E Hd. destruct (_ || _) eqn:B; [discriminate|]. clear E.
  rewrite !orb_false_iff in B. destruct B as [[_ B] _]. rewrite Hd in B. cbn in B.
  by rewrite !orb_true_r in B.
Qed.

Lemma computed_digest_set_digest d a : audit_computed_digest (audit_set_digest d a) = audit_computed_digest a.
Proof. done. Qed.

Lemma audit_with_digest_facts a a' :
  audit_with_digest a = Ok a' →
  ∃ d, audit_computed_digest a = Ok d ∧ a' = audit_set_digest d a ∧ audit_verify_digest a' = Ok true
       ∧ audit_check a' = Ok a'.
Proof.
  unfold audit_with_digest. intros E. inv_ok. rename a0 into d.
  pose proof (audit_check_id _ _ E) as ->. exists d. split; [done|]. split; [done|]. split; [|done].
  unfold audit_verify_digest. rewrite computed_digest_set_digest, Heqr. cbn.
  rewrite bool_decide_eq_false_2 by exact (audit_check_nonempty _ _ E). by rewrite bool_decide_eq_true_2.
Qed.

(** The fields an audit keeps through its transitions *)
Definition same_subject (a b : AuditRecord) : Prop :=
  ad_audit_id a = ad_audit_id b ∧ ad_preview_id a = ad_preview_id b ∧ ad_revision a = ad_revision b
  ∧ ad_plan_digest a = ad_plan_digest b ∧ ad_operation_set_digest a = ad_operation_set_digest b
  ∧ ad_remote_snapshot_digest a = ad_remote_snapshot_digest b ∧ ad_result a = ad_result b.

Lemma audit_transition_facts s a a' :
  audit_transition s a = Ok a' →
  ad_status a' = s ∧ same_subject a a' ∧ status_rank (ad_status a) ≤ status_rank s ∧ audit_typed a' = audit_typed a
  ∧ (ad_status a = s ∧ a' = a
     ∨ ad_status a ≠ s ∧ audit_verify_digest a' = Ok true ∧ audit_check a' = Ok a').
Proof.
  unfold audit_transition. case_bool_decide as Es.
  - intros [= <-]. subst s. repeat split; auto.
  - destruct (negb _) eqn:B; [discriminate|]. apply negb_false_iff, bool_decide_eq_true in B.
    intros E. inv_ok.
    unfold audit_with_status in Heqr. apply audit_check_id in Heqr as ->.
    apply audit_check_id in Heqr0 as ->. apply audit_with_digest_facts in E as (d & _ & -> & Hv & Hc).
    repeat split; auto using Nat.lt_le_incl, audit_transitions_rank.
Qed.

(** ** The stored row of a typed audit reads back as the audit *)
Lemma opt_str_value_of o : opt_value (opt_str_value o) = Ok o.
Proof. by destruct o. Qed.
Lemma audit_result_of_value r : audit_result_of (VStr (result_value r)) = Ok r.
Proof. by destruct r. Qed.
Lemma audit_status_of_value s : audit_status_of (VStr (status_value s)) = Ok s.
Proof. by destruct s. Qed.

Lemma jsonify_text v : opt_text v = true → jsonify v = v.
Proof. by destruct v. Qed.
Lemma is_str_text v : is_str v = true → opt_text v = true.
Proof. by destruct v. Qed.
Lemma jsonify_values l : forallb json_value l = true → map jsonify l = l.
Proof. rewrite forallb_true. intros Hl. apply map_id_in. intros x Hx. by apply jsonify_json, Hl. Qed.

(** The document of a typed audit: its tuples are lists *)
Lemma jsonify_audit a :
  audit_typed a = true →
  jsonify (audit_to_dict a) =
  dict_of
    [("audit_id", VStr (ad_audit_id a)); ("preview_id", VStr (ad_preview_id a));
     ("revision", VInt (ad_revision a)); ("plan_digest", VStr (ad_plan_digest a));
     ("remote_snapshot_digest", opt_str_value (ad_remote_snapshot_digest a));
     ("audit_digest", VStr (ad_audit_digest a)); ("result", VStr (result_value (ad_result a)));
     ("operation_set_digest", VStr (ad_operation_set_digest a)); ("status", VStr (status_value (ad_status a)));
     ("sealed_preview_digest", ad_sealed_preview_digest a); ("workspace_identity", ad_workspace_identity a);
     ("audit_scope", ad_audit_scope a); ("audit_payload_digest", ad_audit_payload_digest a);
     ("audit_context_digest", ad_audit_context_digest a); ("rule_registry_version", ad_rule_registry_version a);
     ("rule_registry_digest", ad_rule_registry_digest a);
     ("rule_evaluations", VList (ad_rule_evaluations a)); ("findings", VList (ad_findings a));
     ("evidence_refs", VList (ad_evidence_refs a)); ("created_at", ad_created_at a)].
Proof.
  unfold audit_typed. intros T. cbn [forallb] in T. bools. unfold audit_to_dict, dict_of.
  cbn [jsonify map fst snd]. rewrite !jsonify_values by done.
  assert (jsonify (opt_str_value (ad_remote_snapshot_digest a)) = opt_str_value (ad_remote_snapshot_digest a)) as ->
    by by destruct (ad_remote_snapshot_digest a).
  by rewrite !jsonify_text by auto using is_str_text.
Qed.

Lemma audit_from_dict_of a :
  audit_typed a = true → audit_check a = Ok a → audit_from_dict (jsonify (audit_to_dict a)) = Ok a.
Proof.
  intros T C. rewrite (jsonify_audit a T). unfold audit_from_dict. simpl.
  rewrite audit_result_of_value, audit_status_of_value, opt_str_value_of. simpl. by destruct a.
Qed.

Lemma audit_row_load a r : audit_typed a = true → audit_check a = Ok a → audit_row a = Ok r → load_audit r = Ok a.
Proof.
  unfold audit_row, encode_row, load_audit. intros T C E. inv_ok. apply json_encode_jsonify in Heqr0 as ->.
  by apply audit_from_dict_of.
Qed.

(** ** Structurally valid approvals and their rows *)
Lemma audit_result_of_Ok v r : audit_result_of v = Ok r → v = VStr (result_value r).
Proof.
  unfold audit_result_of. destruct (List.find _ _) as [r'|] eqn:F; [|discriminate]. intros [= ->].
  apply find_some in F as [_ F]. by apply py_eq_str.
Qed.

Lemma nonempty_str_value v : is_nonempty_str v = true → ∃ s, v = VStr s ∧ s ≠ "".
Proof. destruct v; try discriminate. simpl. rewrite negb_true_iff, bool_decide_eq_false. eauto. Qed.

Record approval_valid (a : ApprovalRecord) : Prop := {
  av_texts : ∀ v, v ∈ approval_texts a → ∃ s, v = VStr s ∧ s ≠ "";
  av_result : ap_audit_result a = VStr (result_value PASSED);
  av_repository : ∃ s, ap_repository_identity a = VStr s;
  av_status : ap_status a = VStr "valid";
  av_revision : jsonify (ap_revision a) = ap_revision a;
  av_command : ∃ c, approval_command_for (ap_preview_id a) (ap_revision a) = Ok c ∧ ap_approval_command a = VStr c;
}.

Lemma is_structurally_valid_facts a : is_structurally_valid a = Ok true → approval_valid a.
Proof.
  unfold is_structurally_valid. intros E. destruct (audit_result_of _) as [res|] eqn:R; [|discriminate].
  destruct (parse_iso _) as [[t o]|[]] eqn:P; try discriminate.
  destruct (negb _) eqn:B; [discriminate|]. apply negb_false_iff, bool_decide_eq_true in B as ->.
  destruct (approval_command_for _ _) as [c|] eqn:C; [|discriminate].
  apply Ok_inj in E. rewrite !andb_true_iff in E. destruct E as [[[[E1 E2] E3] E4] E5].
  apply py_eq_str in E1, E4. rewrite forallb_true in E5.
  split; eauto using audit_result_of_Ok, nonempty_str_value.
  - destruct (ap_repository_identity a); try discriminate; eauto.
  - unfold approval_command_for in C. destruct (py_format (ap_preview_id a)); [|discriminate].
    by destruct (ap_revision a); try discriminate.
Qed.

Lemma approval_from_dict_of a : approval_valid a → approval_from_dict (jsonify (approval_to_dict a)) = Ok a.
Proof.
  intros [T Er [rep Erep] Es Ej _]. unfold approval_texts in T.
  assert (∀ v, v ∈ approval_texts a → jsonify v = v) as Hj by (intros v Hv; by apply T in Hv as (s & -> & _)).
  unfold approval_texts in Hj. unfold approval_to_dict, dict_of. cbn [jsonify map fst snd].
  rewrite Er, Erep, Es, Ej. cbn [jsonify]. rewrite !Hj by (rewrite !elem_of_cons; tauto).
  unfold approval_from_dict. simpl. destruct a; simpl in *. by subst.
Qed.

Lemma approval_row_load a r : approval_valid a → approval_row a = Ok r → load_approval r = Ok a.
Proof.
  unfold approval_row, encode_row, load_approval. intros T E. inv_ok. apply json_encode_jsonify in Heqr0 as ->.
  by apply approval_from_dict_of.
Qed.
End facts.

(** ** Facts about the tables of the preview store

    What the queries return, and the order the tables grow in: rows are only added, the
    events of an audit only appended. *)
(** ** Queries *)
Lemma elem_revisions ws t i db z : z ∈ revisions ws t i db ↔ is_Some (records db !! (ws, t, i, z)).
Proof.
  unfold revisions. rewrite list_elem_of_omap. split.
  - intros ([[[[w t'] i'] r] x] & Hin & E). apply elem_of_map_to_list in Hin. simpl in E.
    case_bool_decide as B; [|discriminate]. destruct B as (-> & -> & ->). injection E as ->. by exists x.
  - intros [x Hx]. exists ((ws, t, i, z), x). split; [by apply elem_of_map_to_list|].
    simpl. by rewrite bool_decide_eq_true_2.
Qed.

Lemma max_revision_None l : max_revision l = None ↔ l = [].
Proof. destruct l as [|z l]; simpl; [done|]. by destruct (max_revision l). Qed.
Lemma max_revision_Some l m : max_revision l = Some m ↔ m ∈ l ∧ ∀ z, z ∈ l → (z ≤ m)%Z.
Proof.
  revert m; induction l as [|x l IH]; intros m; simpl.
  - split; [discriminate|]. intros [Hm _]. by apply elem_of_nil in Hm.
  - destruct (max_revision l) as [n|] eqn:E.
    + destruct (proj1 (IH n) eq_refl) as [Hn Hle]. split.
      * intros [= <-]. split.
        -- destruct (Z.max_spec x n) as [[_ ->]|[_ ->]]; [by right|by left].
        -- intros z [->|Hz]%elem_of_cons; [lia|]. apply Hle in Hz. lia.
      * intros [[->|Hm]%elem_of_cons Hmax]; f_equal; [|apply Hle in Hm].
        -- pose proof (Hmax n (list_elem_of_further _ _ _ Hn)). lia.
        -- pose proof (Hmax x (list_elem_of_here _ _)). pose proof (Hmax n (list_elem_of_further _ _ _ Hn)). lia.
    + apply max_revision_None in E as ->. split.
      * intros [= ->]. split; [by left|]. intros z Hz. apply list_elem_of_singleton in Hz as ->. lia.
      * intros [Hm%list_elem_of_singleton _]. by subst.
Qed.

(** Queries depend only on which revisions exist *)
Definition same_revisions (ws t i : string) (db db' : PreviewDb) : Prop :=
  ∀ z, is_Some (records db !! (ws, t, i, z)) ↔ is_Some (records db' !! (ws, t, i, z)).

Lemma max_revision_ext l l' : (∀ z, z ∈ l ↔ z ∈ l') → max_revision l = max_revision l'.
Proof.
  intros E. destruct (max_revision l') as [m|] eqn:M.
  - apply max_revision_Some in M as [Hm Hle]. apply max_revision_Some. split; [by apply E|].
    intros z Hz. by apply Hle, E.
  - apply max_revision_None in M as ->. apply max_revision_None.
    destruct l as [|x l]; [done|]. exfalso. apply (not_elem_of_nil x), E. by left.
Qed.

Lemma latest_revision_ext ws t i db db' : same_revisions ws t i db db' → latest_revision ws t i db = latest_revision ws t i db'.
Proof. intros E. apply max_revision_ext. intros z. by rewrite !elem_revisions. Qed.

Lemma latest_revision_Some ws t i db m :
  latest_revision ws t i db = Some m ↔
  is_Some (records db !! (ws, t, i, m)) ∧ ∀ z, is_Some (records db !! (ws, t, i, z)) → (z ≤ m)%Z.
Proof.
  unfold latest_revision. rewrite max_revision_Some, elem_revisions. by setoid_rewrite elem_revisions.
Qed.
Lemma latest_revision_None ws t i db :
  latest_revision ws t i db = None ↔ ∀ z, records db !! (ws, t, i, z) = None.
Proof.
  unfold latest_revision. rewrite max_revision_None. split.
  - intros E z. apply eq_None_not_Some. rewrite <- elem_revisions, E. apply not_elem_of_nil.
  - intros E. destruct (revisions ws t i db) as [|z l] eqn:R; [done|].
    assert (z ∈ revisions ws t i db) as Hz by (rewrite R; left).
    apply elem_revisions in Hz as [x Hx]. by rewrite E in Hx.
Qed.

(** Without other revisions, the latest and the least are the only one *)
Lemma only_revision ws t i db z r :
  records db !! (ws, t, i, z) = Some r → (∀ z', is_Some (records db !! (ws, t, i, z')) → z' = z) →
  latest_revision ws t i db = Some z ∧ least_revision ws t i db = Some z.
Proof.
  intros Hz Hu. assert (latest_revision ws t i db = Some z) as E.
  { apply latest_revision_Some. split; [rewrite Hz; eauto|]. intros z' Hz'. apply Hu in Hz' as ->. lia. }
  split; [done|]. unfold least_revision.
  assert (max_revision (map Z.opp (revisions ws t i db)) = Some (- z)%Z) as ->.
  { apply max_revision_Some. split.
    - apply list_elem_of_fmap. exists z. split; [done|]. apply elem_revisions. rewrite Hz. eauto.
    - intros y [x [-> Hx]]%list_elem_of_fmap. apply elem_revisions, Hu in Hx. subst. lia. }
  simpl. by rewrite Z.opp_involutive.
Qed.

(** ** Growth *)
Definition grows (db db' : PreviewDb) : Prop :=
  records db ⊆ records db' ∧ (∀ k, events k db `prefix_of` events k db').
#[export] Instance grows_preorder : PreOrder grows.
Proof.
  split; [by intros db; split|]. intros a b c [R1 E1] [R2 E2]. split; [by transitivity (records b)|].
  intros k. by transitivity (events k b).
Qed.

Lemma events_put k l k' db : events k' (put_history k l db) = if decide (k' = k) then l else events k' db.
Proof.
  unfold events. simpl. case_decide as E; [subst; by rewrite lookup_insert_eq|]. by rewrite lookup_insert_ne.
Qed.

Lemma append_event_grows k r db : grows db (append_event k r db).
Proof.
  split; [done|]. intros k'. unfold append_event. rewrite events_put. case_decide; [subst|done].
  by apply prefix_app_r.
Qed.
Lemma insert_first_event_grows k r db db' :
  insert_first_event k r db = Ok db' → grows db db' ∧ events k db = [] ∧ db' = put_history k [r] db.
Proof.
  unfold insert_first_event. destruct (events k db) eqn:E; [|discriminate]. intros [= <-].
  split; [|done]. split; [done|]. intros k'. rewrite events_put. case_decide as D; [subst|done].
  rewrite E. apply prefix_nil.
Qed.
Lemma insert_record_grows k r db db' :
  insert_record k r db = Ok db' → grows db db' ∧ records db !! k = None ∧ db' = put_record k r db.
Proof.
  unfold insert_record. case_bool_decide as E; [discriminate|]. intros [= <-].
  apply eq_None_not_Some in E. repeat split; [|done|done]. simpl. by apply insert_subseteq.
Qed.
Lemma insert_lineage_grows k v db db' :
  insert_lineage k v db = Ok db' → grows db db' ∧ records db' = records db ∧ audit_history db' = audit_history db.
Proof. unfold insert_lineage. case_bool_decide; [discriminate|]. by intros [= <-]. Qed.
