(* ===== verification/AuditTrail.v ===== *)
(** * The audit trail

    Every operation of the preview store only adds to the tables, and the events of an audit
    form a lifecycle: they start Active, never go back, keep the subject of the audit and
    carry digests that verify. *)
From S2P Require Import Prelude PyValue Strings PyOps Canonical Evidence FormalPreview Receipts.
From S2P Require Import ExecutionStore Preflight AuditRecords Approvals PreviewValidation AuditBoundary.
From S2P Require Import PreviewStore PreviewFacts.

Lemma NoDup_omap {A B} (f : A → option B) (l : list A) :
  (∀ x x' y, x ∈ l → x' ∈ l → f x = Some y → f x' = Some y → x = x') → NoDup l → NoDup (omap f l).
Proof.
  intros Hf. induction 1 as [|x l Hx Hl IH]; simpl; [constructor|].
  assert (NoDup (omap f l)) as Hn.
  { apply IH. intros a b y Ha Hb. apply Hf; by right. }
  destruct (f x) as [y|] eqn:E; [|done]. constructor; [|done].
  rewrite list_elem_of_omap. intros (x' & Hx' & E'). apply Hx.
  rewrite (Hf x x' y); [done|by left|by right|done|done].
Qed.

Section trail.
Context `{PyLib}.

(** ** Lifecycles *)
Definition event_ok (id : string) (r : row) (a : AuditRecord) : Prop :=
  load_audit r = Ok a ∧ ad_audit_id a = id ∧ audit_typed a = true ∧ audit_check a = Ok a
  ∧ audit_verify_digest a = Ok true.

Inductive history (id : string) : list row → AuditRecord → Prop :=
| history_start r a : event_ok id r a → ad_status a = ACTIVE → history id [r] a
| history_next l r a a' :
    history id l a → event_ok id r a' → same_subject a a' → status_rank (ad_status a) ≤ status_rank (ad_status a') →
    history id (l ++ [r]) a'.

Lemma history_last id l a : history id l a → ∃ r, last l = Some r ∧ event_ok id r a.
Proof. intros [r ? E _|l' r ? ? _ E _ _]; exists r; [done|]. by rewrite last_snoc. Qed.

Lemma history_load id l a : history id l a → ∃ as_, map_r load_audit l = Ok as_ ∧ last as_ = Some a.
Proof.
  induction 1 as [r a (E & _) _|l r a a' _ (as_ & Hl & Hlast) (E & _) _ _].
  - exists [a]. simpl. by rewrite E.
  - exists (as_ ++ [a']). split; [|by rewrite last_snoc]. apply map_r_Ok_Forall2. apply Forall2_app.
    + by apply map_r_Ok_Forall2.
    + by constructor.
Qed.

Lemma history_nonempty id l a : history id l a → l ≠ [].
Proof. intros [|? ? ? ? _ _ _ _]; [done|]. intros [_ ?]%app_nil. done. Qed.

(** The invariant of the table *)
Definition trails (db : PreviewDb) : Prop :=
  ∀ ws id, events (ws, id) db = [] ∨ ∃ a, history id (events (ws, id) db) a.

Lemma trails_events db db' : (∀ k, events k db' = events k db) → trails db → trails db'.
Proof. intros E T ws id. rewrite E. apply T. Qed.

(** Appending a later state of the same subject *)
Lemma trails_append ws id db r a a' :
  trails db → history id (events (ws, id) db) a → event_ok id r a' → same_subject a a' →
  status_rank (ad_status a) ≤ status_rank (ad_status a') →
  trails (append_event (ws, id) r db) ∧ history id (events (ws, id) (append_event (ws, id) r db)) a'.
Proof.
  intros T Hh Hr Hs Hk.
  assert (history id (events (ws, id) db ++ [r]) a') as Hn by by eapply history_next.
  split.
  - intros ws' id'. unfold append_event. rewrite events_put. case_decide as E; [|apply T].
    injection E as -> ->. right. by exists a'.
  - unfold append_event. by rewrite events_put, decide_True.
Qed.

Lemma trails_first ws id db db' r a :
  trails db → insert_first_event (ws, id) r db = Ok db' → event_ok id r a → ad_status a = ACTIVE → trails db'.
Proof.
  intros T (_ & _ & ->)%insert_first_event_grows Hr Hs ws' id'. rewrite events_put. case_decide as E; [|apply T].
  injection E as -> ->. right. exists a. by apply history_start.
Qed.

(** A new state encoded by [audit_row] *)
Lemma row_event_ok id r a :
  audit_row a = Ok r → ad_audit_id a = id → audit_typed a = true → audit_check a = Ok a →
  audit_verify_digest a = Ok true → event_ok id r a.
Proof. intros Er Hid T C V. repeat split; try done. by apply audit_row_load. Qed.

(** A transition of the current state *)
Lemma transition_event id l r a a' s :
  history id l a → audit_transition s a = Ok a' → audit_row a' = Ok r →
  event_ok id r a' ∧ same_subject a a' ∧ status_rank (ad_status a) ≤ status_rank (ad_status a').
Proof.
  intros Hh Ht Er. apply history_last in Hh as (r0 & _ & _ & Hid & T & C & V).
  apply audit_transition_facts in Ht as (<- & Hs & Hk & T' & D). split; [|done].
  destruct Hs as (Hi & _). destruct D as [[_ ->]|(_ & V' & C')]; apply row_event_ok; congruence.
Qed.

(** ** The audits a query returns *)
Variable st : SQLitePreviewStore.

Lemma elem_audit_ids ws id db : id ∈ audit_ids ws db ↔ events (ws, id) db ≠ [].
Proof.
  unfold audit_ids, sorted_strings. rewrite sort_by_perm, list_elem_of_omap. split.
  - intros ([[w i] l] & Hin & E). apply elem_of_map_to_list in Hin. simpl in E.
    case_bool_decide as B; [|discriminate]. destruct B as [-> B]. injection E as ->.
    unfold events. by rewrite Hin.
  - unfold events. destruct (audit_history db !! (ws, id)) as [l|] eqn:E; [|done]. simpl. intros Hl.
    exists ((ws, id), l). split; [by apply elem_of_map_to_list|]. simpl. by rewrite bool_decide_eq_true_2.
Qed.

Lemma NoDup_audit_ids ws db : NoDup (audit_ids ws db).
Proof.
  unfold audit_ids, sorted_strings. rewrite sort_by_perm. apply NoDup_omap; [|apply NoDup_map_to_list].
  intros [[w i] l] [[w' i'] l'] y Hx Hx' E E'. apply elem_of_map_to_list in Hx, Hx'. simpl in *.
  case_bool_decide as B; [|discriminate]. case_bool_decide as B'; [|discriminate].
  destruct B as [-> _], B' as [-> _]. simplify_eq. congruence.
Qed.

Lemma current_audit_history ws db id p :
  trails db → current_audit ws db id = Ok p → fst p = id ∧ history id (events (ws, id) db) (snd p).
Proof.
  intros T E. unfold current_audit in E. destruct (T ws id) as [Hn|[a Hh]].
  - by rewrite Hn in E.
  - pose proof (history_load _ _ _ Hh) as (l & El & Hl). rewrite El, Hl in E. by injection E as <-.
Qed.

Lemma latest_audits_facts ws db l :
  trails db → latest_audits ws db = Ok l →
  map fst l = audit_ids ws db ∧ ∀ id a, (id, a) ∈ l → history id (events (ws, id) db) a.
Proof.
  intros T E. unfold latest_audits in E. apply map_r_Ok_Forall2 in E. split.
  - induction E as [|id p ids l Hp _ IH]; simpl; [done|]. rewrite IH.
    by apply current_audit_history in Hp as [-> _].
  - intros id a Hin. apply list_elem_of_lookup in Hin as [i Hi].
    destruct (Forall2_lookup_r _ _ _ _ _ E Hi) as (id' & _ & Hp).
    by apply current_audit_history in Hp as [<- Hp].
Qed.

(** Under the invariant the reads succeed *)
Lemma latest_audits_total ws db : trails db → ∃ l, latest_audits ws db = Ok l.
Proof.
  intros T. unfold latest_audits.
  assert (∀ id, id ∈ audit_ids ws db → ∃ p, current_audit ws db id = Ok p) as Hc.
  { intros id Hid%elem_audit_ids. destruct (T ws id) as [Hn|[a Hh]]; [done|].
    pose proof (history_load _ _ _ Hh) as (l & El & Hl). unfold current_audit. rewrite El, Hl. eauto. }
  induction (audit_ids ws db) as [|id ids IH]; simpl; [eauto|].
  destruct (Hc id) as [p ->]; [by left|]. destruct IH as [l ->]; [|eauto].
  intros i Hi. apply Hc. by right.
Qed.

(** ** Saving a revision *)
Lemma insert_items_facts p rev items db db' :
  insert_items st p rev items db = Ok db' → records db' = records db ∧ audit_history db' = audit_history db.
Proof.
  revert db; induction items as [|x items IH]; intros db E; simpl in E; [by injection E as <-|].
  inv_ok. apply insert_lineage_grows in Heqr3 as (_ & R1 & A1). apply IH in E as [R2 A2]. by rewrite R2, A2.
Qed.

Lemma insert_evidence_facts rev ev db db' :
  insert_evidence st rev ev db = Ok db' →
  audit_history db' = audit_history db ∧ records db ⊆ records db'
  ∧ ∀ k, snd (fst (fst k)) ≠ "evidence" → records db' !! k = records db !! k.
Proof.
  revert db; induction ev as [|x ev IH]; intros db E; simpl in E; [by injection E as <-|].
  inv_ok. apply insert_record_grows in Heqr2 as ([R1 _] & _ & ->). apply IH in E as (A2 & R2 & K2).
  split; [by rewrite A2|]. split; [by transitivity (records (put_record (ps_workspace st, "evidence", a0, rev) a1 db))|].
  intros k Hk. rewrite (K2 k Hk). simpl. rewrite lookup_insert_ne; [done|]. by intros <-.
Qed.

(** The audit rebuilt from a stored document keeps its subject *)
Lemma rebuilt_audit_facts data a c :
  load_audit (Doc data) = Ok a → rebuilt_audit data = Ok c →
  same_subject a c ∧ ad_status c = ad_status a ∧ audit_typed c = true ∧ audit_check c = Ok c.
Proof.
  unfold load_audit, load, audit_from_dict, rebuilt_audit. intros Ea Ec.
  repeat match goal with
         | H : (match ?c with Ok _ => _ | Err _ => _ end) = Ok _ |- _ => destruct c eqn:?; [|discriminate H]
         end.
  pose proof (audit_check_id _ _ Ea) as ->. pose proof (audit_check_id _ _ Ec) as ->. by repeat split.
Qed.

Lemma data_active data a :
  load_audit (Doc data) = Ok a → py_eq (get data "status") (VStr "Active") = true → ad_status a = ACTIVE.
Proof.
  unfold load_audit, load, audit_from_dict. intros Ea Es%py_eq_str.
  repeat match goal with
         | H : (match ?c with Ok _ => _ | Err _ => _ end) = Ok _ |- _ => destruct c eqn:?; [|discriminate H]
         end.
  apply audit_check_id in Ea as ->. cbn.
  match goal with
  | S : subscript data "status" = Ok ?v, A : audit_status_of ?v = Ok ?s |- ?s = ACTIVE => rename S into Hs; rename A into Ha
  end.
  match type of Ha with audit_status_of ?v = _ => assert (v = VStr "Active") as Hv end.
  2: { rewrite Hv in Ha. unfold audit_status_of in Ha. simpl in Ha. congruence. }
  unfold subscript in Hs. unfold get in Es. destruct data; try discriminate. destruct (dget _ _); [|discriminate].
  simpl in Es. congruence.
Qed.

Lemma stale_one_trails p rev plan rem ops db db' id :
  trails db → stale_one st p rev plan rem ops db id = Ok db' → trails db' ∧ grows db db' ∧ records db' = records db.
Proof.
  intros T. unfold stale_one. destruct (T (ps_workspace st) id) as [Hn|[a Hh]].
  - unfold audit_key. rewrite Hn. simpl. by intros [= <-].
  - pose proof (history_last _ _ _ Hh) as (r & Hr & Ha & Hid & Ht & Hc & Hv). unfold audit_key. rewrite Hr.
    destruct r as [data|]; [|discriminate].
    destruct (negb _ || negb _) eqn:B; [by intros [= <-]|]. apply orb_false_iff in B as [B _].
    apply negb_false_iff in B. intros E. destruct (binding_changed _ _ _ _ _) as [ch|]; [|discriminate].
    destruct ch; [|by injection E as <-]. simpl in E.
    destruct (rebuilt_audit data) as [c|] eqn:Hreb; [|discriminate].
    destruct (audit_transition STALE c) as [s|] eqn:Htr; [|discriminate].
    destruct (audit_row s) as [row|] eqn:Hrow; [|discriminate]. injection E as <-.
    destruct (rebuilt_audit_facts _ _ _ Ha Hreb) as (Hs & Hst & Hty & Hck).
    pose proof (data_active _ _ Ha B) as Hact.
    apply audit_transition_facts in Htr as (Hss & Hsub & _ & Hty' & D).
    destruct D as [[D _]|(_ & V' & C')]; [congruence|].
    destruct (trails_append (ps_workspace st) id db row a s) as [Ht' _]; try done.
    + apply row_event_ok; try done; [|by rewrite Hty']. destruct Hsub as (Hi & _), Hs as (Hi' & _). congruence.
    + destruct Hs as (?&?&?&?&?&?&?), Hsub as (?&?&?&?&?&?&?). repeat split; congruence.
    + rewrite Hact, Hss. simpl. lia.
    + split; [done|]. split; [apply append_event_grows|done].
Qed.

Lemma fold_stale_trails p rev plan rem ops ids db db' :
  trails db → fold_r (stale_one st p rev plan rem ops) ids db = Ok db' →
  trails db' ∧ grows db db' ∧ records db' = records db.
Proof.
  revert db; induction ids as [|id ids IH]; intros db T E; simpl in E; [by injection E as <-|].
  destruct (stale_one _ _ _ _ _ _ _ _) as [db1|] eqn:E1; [|discriminate].
  apply stale_one_trails in E1 as (T1 & G1 & R1); [|done]. apply IH in E as (T2 & G2 & R2); [|done].
  split; [done|]. split; [by transitivity db1|congruence].
Qed.

(** What a save does: nothing to a revision already stored, else a new latest revision *)
Definition revision_added (p : string) (rev : Z) (doc : row) (db db' : PreviewDb) : Prop :=
  record_at (ps_workspace st) "preview" p rev db = None
  ∧ (∀ z, is_Some (record_at (ps_workspace st) "preview" p z db) → (z < rev)%Z)
  ∧ record_at (ps_workspace st) "preview" p rev db' = Some doc
  ∧ ∀ k, snd (fst (fst k)) ≠ "evidence" → k ≠ (ps_workspace st, "preview", p, rev) → records db' !! k = records db !! k.

Lemma save_transaction_facts req p rev plan rem ops items ev n db db' :
  trails db → save_transaction st req p rev plan rem ops items ev n db = Ok db' →
  db' = db ∧ is_Some (record_at (ps_workspace st) "preview" p rev db)
  ∨ trails db' ∧ grows db db'
    ∧ ∃ doc, json_encode (preview_document req p rev n) = Ok doc ∧ revision_added p rev (Doc doc) db db'.
Proof.
  intros T. unfold save_transaction, encode_row.
  destruct (json_encode _) as [doc|] eqn:Hdoc; [|discriminate].
  destruct (record_at _ "preview" p rev db) as [r|] eqn:Hrec.
  - destruct r as [v|]; [|discriminate]. destruct (negb _); [discriminate|]. intros [= <-]. left. eauto.
  - intros E. right. destruct (match latest_revision _ _ _ _ with Some _ => _ | None => _ end) eqn:L; [discriminate|].
    destruct (insert_items _ _ _ _ _) as [db1|] eqn:E1; [|discriminate].
    destruct (insert_record _ _ db1) as [db2|] eqn:E2; [|discriminate].
    destruct (insert_evidence _ _ _ db2) as [db3|] eqn:E3; [|discriminate].
    apply insert_items_facts in E1 as [R1 A1]. apply insert_record_grows in E2 as ([G2 _] & N2 & D2).
    apply insert_evidence_facts in E3 as (A3 & R3 & K3).
    assert (∀ k, events k db3 = events k db) as Hev.
    { intros k. unfold events. by rewrite A3, D2, <- A1. }
    destruct (fold_stale_trails _ _ _ _ _ _ _ _ (trails_events _ _ Hev T) E) as (T' & [G' E'] & R').
    split; [done|]. split.
    + split; [rewrite <- R1; transitivity (records db2); [done|]; by transitivity (records db3)|].
      intros k. rewrite <- Hev. apply E'.
    + exists doc. split; [done|]. split; [done|]. split; [|split].
      * intros z [x Hx]. destruct (latest_revision _ _ _ db) as [m|] eqn:Hm.
        -- apply latest_revision_Some in Hm as [_ Hm]. assert (is_Some (record_at (ps_workspace st) "preview" p z db)) as Hz
             by eauto. apply Hm in Hz. apply Z.leb_gt in L. lia.
        -- rewrite latest_revision_None in Hm. unfold record_at in Hx. by rewrite Hm in Hx.
      * unfold record_at. rewrite R', K3 by done. rewrite D2. simpl. by rewrite lookup_insert_eq.
      * intros k Hk Hne. rewrite R', K3 by done. rewrite D2. simpl. rewrite lookup_insert_ne by congruence.
        by rewrite R1.
Qed.

Lemma or_value_error_Ok {A} code (c : result A) a : or_value_error code c = Ok a → c = Ok a.
Proof. by destruct c as [|[]]. Qed.

(** ** Commits *)
Lemma stale_all_trails l a ws db db' :
  trails db → NoDup (map fst l) → (∀ id x, (id, x) ∈ l → history id (events (ws, id) db) x) →
  stale_all l a ws db = Ok db' →
  trails db' ∧ grows db db' ∧ records db' = records db
  ∧ (∀ id, id ∉ map fst l → events (ws, id) db' = events (ws, id) db)
  ∧ ∀ id x, (id, x) ∈ l → ∃ x', history id (events (ws, id) db') x' ∧ same_subject x x'
      ∧ (of_preview (ad_preview_id a) (ad_revision a) x' && is_active x' = false).
Proof.
  revert db; induction l as [|[id x] l IH]; intros db T N Hl E; simpl in E.
  - injection E as <-. repeat split; try done. intros id x Hx. by apply not_elem_of_nil in Hx.
  - inversion N as [|? ? Hid N']; subst. pose proof (Hl id x (list_elem_of_here _ _)) as Hx.
    destruct (_ && _) eqn:B.
    + destruct (audit_transition STALE x) as [s|] eqn:Ht; [|discriminate].
      destruct (audit_row s) as [r|] eqn:Hr; [|discriminate].
      destruct (transition_event _ _ _ _ _ _ Hx Ht Hr) as (Hev & Hsub & Hk).
      pose proof (history_last _ _ _ Hx) as (_ & _ & _ & Hxid & _). rewrite Hxid in E.
      destruct (trails_append _ _ _ _ _ _ T Hx Hev Hsub Hk) as [T1 H1].
      assert (∀ i, i ≠ id → events (ws, i) (append_event (ws, id) r db) = events (ws, i) db) as Ho.
      { intros i Hi. unfold append_event. rewrite events_put. case_decide; [congruence|done]. }
      apply IH in E as (T' & G' & R' & O' & L'); [|done|done|].
      * split; [done|]. split; [transitivity (append_event (ws, id) r db); [apply append_event_grows|done]|].
        split; [done|]. split.
        -- intros i Hi. simpl in Hi. rewrite O', Ho; set_solver.
        -- intros i y [Hy|Hy]%elem_of_cons; [|by apply L']. injection Hy as -> ->. exists s. rewrite O' by done.
           split; [done|]. split; [done|]. apply audit_transition_facts in Ht as (Hs & _).
           unfold is_active. by rewrite Hs, andb_false_r.
      * intros i y Hy. rewrite Ho; [by apply Hl; right|]. intros ->. apply Hid. apply list_elem_of_fmap.
        by exists (id, y).
    + apply IH in E as (T' & G' & R' & O' & L'); [|done|done|intros i y Hy; apply Hl; by right].
      split; [done|]. split; [done|]. split; [done|]. split; [intros i Hi; apply O'; set_solver|].
      intros i y [Hy|Hy]%elem_of_cons; [|by apply L']. injection Hy as -> ->. exists x.
      rewrite O' by done. repeat split; auto.
Qed.

Definition audit_object (a : AuditRecord) : Prop := audit_typed a = true ∧ audit_check a = Ok a.

(** What the checks of a commit establish *)
Lemma verify_candidate_facts minted a auth canonical ev scope :
  _verify_candidate minted a auth canonical ev scope = Ok tt →
  ad_status a = ACTIVE ∧ audit_verify_digest a = Ok true
  ∧ py_eq (ad_workspace_identity a) (get canonical "workspace_identity") = true
  ∧ py_eq (ad_audit_scope a) (get canonical "preview_level") = true
  ∧ ∃ d, digest (_audit_projection a) = Ok d ∧ ad_audit_payload_digest a = VStr d.
Proof.
  unfold _verify_candidate. intros E.
  repeat match goal with
         | H : (match ?c with Ok _ => _ | Err _ => _ end) = Ok _ |- _ => destruct c eqn:?; [|discriminate H]
         | H : (if negb ?b then _ else _) = Ok _ |- _ => destruct b eqn:?; simpl in H; [|discriminate H]
         end.
  subst. rewrite bool_decide_eq_true in Heqb0. split; [done|]. split; [done|].
  unfold canonical_matches in *. repeat match goal with H : _ && _ = true |- _ => apply andb_true_iff in H as [? ?] end.
  split; [done|]. split; [done|]. eexists. split; [done|]. by apply py_eq_str.
Qed.

Lemma find_active l a x :
  existing_commit l a = Some x →
  (∃ id, (id, x) ∈ l) ∧ of_preview (ad_preview_id a) (ad_revision a) x && is_active x = true
  ∧ py_eq (ad_audit_payload_digest x) (ad_audit_payload_digest a) = true.
Proof.
  unfold existing_commit. intros F. apply find_some in F as [Hin F]. apply list_elem_of_In, list_elem_of_fmap in Hin.
  destruct Hin as ([id y] & -> & Hin). split; [eauto|]. rewrite !andb_true_iff in *. tauto.
Qed.

Lemma commit_transaction_facts minted a auth db a' db' :
  trails db → audit_object a → commit_transaction st minted a auth db = Ok (a', db') →
  ∃ l, latest_audits (ps_workspace st) db = Ok l ∧ ad_workspace_identity a = VStr (ps_workspace st)
  ∧ ad_status a = ACTIVE
  ∧ (existing_commit l a = Some a' ∧ db' = db
     ∨ ∃ db1 r, a' = a ∧ stale_all l a (ps_workspace st) db = Ok db1 ∧ ad_audit_id a ∉ map fst l
         ∧ insert_first_event (ps_workspace st, ad_audit_id a) r db1 = Ok db' ∧ event_ok (ad_audit_id a) r a).
Proof.
  intros T [Hty Hck]. unfold commit_transaction. intros E.
  destruct (latest_revision _ _ _ _) as [m|]; [|discriminate].
  destruct (negb (bool_decide (m = _))); [discriminate|].
  repeat match goal with
         | H : (match ?c with Ok _ => _ | Err _ => _ end) = Ok _ |- _ => destruct c eqn:?; [|discriminate H]
         | H : (if ?b then Err _ else _) = Ok _ |- _ => destruct b eqn:?; [discriminate H|]
         end.
  match goal with V : _verify_candidate _ _ _ ?canon _ _ = Ok ?u |- _ =>
    destruct u; apply verify_candidate_facts in V as (Hact & Hv & Hws & _ & _); rename canon into canonical end.
  match goal with V : _validate_current_audit_context _ _ _ _ _ _ _ = Ok _ |- _ => rename V into Hctx end.
  match goal with G : get_attr ?p "canonical_payload" = Ok canonical |- _ => rename G into Hcan; rename p into preview end.
  assert (get preview "canonical_payload" = canonical) as Hc.
  { unfold get_attr in Hcan. destruct (is_mapping preview); [by injection Hcan|discriminate]. }
  assert (get canonical "workspace_identity" = VStr (ps_workspace st)) as Hcw.
  { unfold _validate_current_audit_context in Hctx. rewrite Hc in Hctx. inv_ok. bools. by apply py_eq_str. }
  rewrite Hcw, py_eq_str in Hws.
  match goal with S : sql_text (ad_workspace_identity a) = Ok ?w |- _ => rewrite Hws in S; injection S as <- end.
  eexists. split; [done|]. split; [done|]. split; [done|].
  destruct (existing_commit _ a) as [x|] eqn:F; [injection E as <- <-; by left|]. right.
  repeat match goal with
         | H : (match ?c with Ok _ => _ | Err _ => _ end) = Ok _ |- _ => destruct c eqn:?; [|discriminate H]
         | H : (if ?b then Err _ else _) = Ok _ |- _ => destruct b eqn:?; [discriminate H|]
         end.
  injection E as <- <-. bools. do 2 eexists. split; [done|]. split; [done|]. split; [done|]. split; [done|].
  by apply row_event_ok.
Qed.

Lemma history_unique id l a b : history id l a → history id l b → a = b.
Proof. intros (x & E & L)%history_load (y & E' & L')%history_load. congruence. Qed.

Lemma filter_unique {A} (f : A → bool) (l : list (string * A)) id a :
  NoDup (map fst l) → (id, a) ∈ l → f a = true → (∀ i x, (i, x) ∈ l → i ≠ id → f x = false) →
  List.filter f (map snd l) = [a].
Proof.
  intros N Hin Ha Ho. induction l as [|[i x] l IH]; [by apply not_elem_of_nil in Hin|].
  inversion N as [|? ? Hi N']; subst. simpl. apply elem_of_cons in Hin as [E|Hin].
  - injection E as -> ->. rewrite Ha. f_equal. clear IH.
    assert (∀ j y, (j, y) ∈ l → f y = false) as Hf.
    { intros j y Hj. apply (Ho j y); [by right|]. intros ->. apply Hi, list_elem_of_fmap. by exists (i, y). }
    clear -Hf. induction l as [|[j y] l IH]; [done|]. simpl. rewrite (Hf j y) by left.
    apply IH. intros k z Hz. apply (Hf k z). by right.
  - rewrite (Ho i x); [|by left|].
    + apply IH; try done. intros j y Hj. apply Ho. by right.
    + intros ->. apply Hi, list_elem_of_fmap. by exists (id, a).
Qed.
End trail.

(** ** The life of audits and approvals in the store

    The operations of the preview store as a step relation, and what it guarantees: audits
    never come back to life, a committed audit is the only active one of its revision, and a
    new revision ends every approval of the revisions before it. *)
Section lifecycle.
Context `{PyLib}.
Variable st : SQLitePreviewStore.

(** One successful operation; a failed one leaves the tables as they are *)
Inductive store_step : PreviewDb → PreviewDb → Prop :=
| step_save req p rev plan rem ops repo items workspace canonical level ev promo db db' :
    _save_preview_revision_impl st req p rev plan rem ops repo items workspace canonical level ev promo db = Ok db' →
    store_step db db'
| step_record_audit a db db' : audit_object a → record_audit st a db = Ok db' → store_step db db'
| step_commit minted a authority a' db db' :
    audit_object a → _apply_audit_commit_atomic st minted a authority db = Ok (a', db') → store_step db db'
| step_transition id s a' db db' : transition_audit_status st id s db = Ok (a', db') → store_step db db'
| step_approval ap db db' : store_record_approval st ap db = Ok db' → store_step db db'.

Definition reachable_store : PreviewDb → Prop := rtc store_step empty_preview_db.

Lemma trails_empty : trails empty_preview_db.
Proof. intros ws id. by left. Qed.

Lemma approval_transaction_events ap db db' :
  approval_transaction st ap db = Ok db' →
  audit_history db' = audit_history db ∧ records db ⊆ records db'.
Proof.
  unfold approval_transaction. intros E.
  repeat match goal with
         | H : (match ?c with Ok _ => _ | Err _ => _ end) = Ok _ |- _ => destruct c eqn:?; try discriminate H
         | H : (match ?c with Some _ => _ | None => _ end) = Ok _ |- _ => destruct c eqn:?; try discriminate H
         | H : (match ?c with IntegrityError _ => _ | _ => _ end) = Ok _ |- _ => destruct c; try discriminate H
         | H : (if ?b then Err _ else _) = Ok _ |- _ => destruct b eqn:?; [discriminate H|]
         end; [by injection E as <-|].
  injection E as <-.
  match goal with I : insert_record _ _ _ = Ok _ |- _ => apply insert_record_grows in I as ([R _] & _ & ->) end. done.
Qed.

(** Every operation keeps the invariant and only adds *)
Lemma store_step_trails db db' : store_step db db' → trails db → trails db' ∧ grows db db'.
Proof.
  intros S T. destruct S as [req p rev plan rem ops repo items workspace canonical level ev promo db db' E
    |a db db' [Ty C] E|minted a auth a' db db' O E|id s a' db db' E|ap db db' E].
  - unfold _save_preview_revision_impl in E. destruct (check_save _ _ _ _ _ _ _ _ _ _ _ _ _ _); [|discriminate].
    apply or_value_error_Ok, save_transaction_facts in E as [[-> _]|(T' & G & _)]; done.
  - unfold record_audit, is_active in E. destruct (truthy _); [discriminate|].
    case_bool_decide as Ha; [|discriminate]. destruct (audit_verify_digest a) as [[]|] eqn:V; try discriminate.
    simpl in E. destruct (audit_row a) as [r|] eqn:Hr; [|discriminate].
    pose proof (insert_first_event_grows _ _ _ _ E) as (G & _ & _). split; [|done].
    eapply trails_first; [done|exact E| |done]. by apply row_event_ok.
  - apply or_value_error_Ok, commit_transaction_facts in E as (l & Hl & _ & Ha & [[_ ->]|D]); [done| |done|done].
    destruct D as (db1 & r & -> & Hs & _ & Hi & Hev).
    pose proof (latest_audits_facts _ _ _ T Hl) as [Hids Hh].
    apply stale_all_trails in Hs as (T1 & G1 & _); [|done| |done]; [|rewrite Hids; apply NoDup_audit_ids].
    split; [eapply trails_first; [exact T1|exact Hi|exact Hev|done]|]. transitivity db1; [done|]. by apply insert_first_event_grows in Hi as [? _].
  - unfold transition_audit_status, latest_event, audit_key in E. destruct (T (ps_workspace st) id) as [Hn|[a Hh]].
    { rewrite Hn in E. discriminate. }
    pose proof (history_last _ _ _ Hh) as (r & Hr & Hld & _). rewrite Hr, Hld in E.
    destruct (audit_transition s a) as [a1|] eqn:Ht; [|discriminate].
    destruct (audit_row a1) as [r1|] eqn:Hr1; [|discriminate]. injection E as <- <-.
    destruct (transition_event _ _ _ _ _ _ Hh Ht Hr1) as (Hev & Hs & Hk).
    split; [by eapply trails_append|apply append_event_grows].
  - unfold store_record_approval in E. destruct (is_structurally_valid _) as [[]|]; try discriminate.
    apply approval_transaction_events in E as [A R].
    assert (∀ k, events k db' = events k db) as Hev by (intros k; unfold events; by rewrite A).
    split; [by eapply trails_events|]. split; [done|]. intros k. by rewrite Hev.
Qed.

Lemma store_steps_trails db db' : rtc store_step db db' → trails db → trails db' ∧ grows db db'.
Proof.
  induction 1 as [db|db db1 db' S _ IH]; intros T; [done|].
  destruct (store_step_trails _ _ S T) as [T1 G1]. destruct (IH T1) as [T' G']. split; [done|by transitivity db1].
Qed.

Lemma same_subject_refl a : same_subject a a.
Proof. by repeat split. Qed.
Lemma same_subject_trans a b c : same_subject a b → same_subject b c → same_subject a c.
Proof. intros (?&?&?&?&?&?&?) (?&?&?&?&?&?&?). repeat split; congruence. Qed.

Lemma history_prefix id l l' a a' :
  history id l a → history id l' a' → l `prefix_of` l' → same_subject a a' ∧ status_rank (ad_status a) ≤ status_rank (ad_status a').
Proof.
  intros Ha Ha'. induction Ha' as [r b Hb Hs|l' r b b' Hb IH Hev Hsub Hk]; intros P.
  - assert (l = [r]) as ->.
    { destruct P as [k Hk]. pose proof (history_nonempty _ _ _ Ha). destruct l as [|x [|y l]]; try done.
      injection Hk as -> _. done. }
    rewrite (history_unique _ _ _ _ Ha (history_start _ _ _ Hb Hs)). split; [apply same_subject_refl|done].
  - destruct (decide (l = l' ++ [r])) as [->|Hne].
    + rewrite (history_unique _ _ _ _ Ha (history_next _ _ _ _ _ Hb Hev Hsub Hk)). split; [apply same_subject_refl|done].
    + assert (l `prefix_of` l') as P'.
      { destruct P as [k Hk']. destruct k as [|x k] using rev_ind; [by rewrite app_nil_r in Hk'; subst|].
        rewrite app_assoc in Hk'. apply app_inj_tail in Hk' as [-> _]. by exists k. }
      destruct (IH P') as [S1 K1]. split; [by eapply same_subject_trans|lia].
Qed.

Lemma get_audit_history id db a :
  trails db → get_audit st (ps_workspace st) id db = Ok a → history id (events (ps_workspace st, id) db) a.
Proof.
  intros T. unfold get_audit. rewrite bool_decide_eq_true_2 by done. simpl. unfold latest_event, audit_key.
  destruct (T (ps_workspace st) id) as [Hn|[b Hh]]; [by rewrite Hn|].
  pose proof (history_last _ _ _ Hh) as (r & Hr & Hld & _). rewrite Hr, Hld. by intros [= <-].
Qed.
Lemma history_get_audit id db a :
  history id (events (ps_workspace st, id) db) a → get_audit st (ps_workspace st) id db = Ok a.
Proof.
  intros Hh. unfold get_audit. rewrite bool_decide_eq_true_2 by done. simpl. unfold latest_event, audit_key.
  pose proof (history_last _ _ _ Hh) as (r & Hr & Hld & _). by rewrite Hr, Hld.
Qed.

(** C7: In every store reached by its operations, an audit that was read once stays readable with
    the same preview, revision, plan, operations and result; its status only moves forward from
    Active over Stale to Invalid, and the digest of what is read always verifies. *)
Theorem audit_lifecycle db db' id a :
  reachable_store db → rtc store_step db db' → get_audit st (ps_workspace st) id db = Ok a →
  ∃ a', get_audit st (ps_workspace st) id db' = Ok a' ∧ ad_audit_id a' = id ∧ audit_verify_digest a' = Ok true
        ∧ same_subject a a' ∧ status_rank (ad_status a) ≤ status_rank (ad_status a').
Proof.
  intros R S G. destruct (store_steps_trails _ _ R trails_empty) as [T _].
  destruct (store_steps_trails _ _ S T) as [T' [_ E]]. apply get_audit_history in G; [|done].
  destruct (T' (ps_workspace st) id) as [Hn|[a' Ha']].
  - pose proof (history_nonempty _ _ _ G) as Hne. specialize (E (ps_workspace st, id)). rewrite Hn in E.
    by apply prefix_nil_inv in E.
  - exists a'. split; [by apply history_get_audit|]. pose proof (history_last _ _ _ Ha') as (r & _ & _ & Hid & _ & _ & Hv).
    split; [done|]. split; [done|]. eapply history_prefix; eauto.
Qed.

(** C10: A successful commit answers with an active audit of the revision and payload that was
    submitted; when it stored a new audit, that audit is the only active one of its revision,
    whatever was active before. *)
Theorem committed_audit_unique minted a authority db a' db' :
  reachable_store db → audit_object a → _apply_audit_commit_atomic st minted a authority db = Ok (a', db') →
  ∃ l, list_active_audits (ps_workspace st) (ad_preview_id a) (ad_revision a) db' = Ok l
       ∧ a' ∈ l ∧ py_eq (ad_audit_payload_digest a') (ad_audit_payload_digest a) = true
       ∧ (db' ≠ db → a' = a ∧ l = [a]).
Proof.
  intros R O E. destruct (store_steps_trails _ _ R trails_empty) as [T _].
  assert (store_step db db') as S by (by eapply step_commit). destruct (store_step_trails _ _ S T) as [T' _].
  apply or_value_error_Ok, commit_transaction_facts in E as (l & Hl & Hws & Hact & D); [|done|done].
  destruct (latest_audits_total (ps_workspace st) db' T') as [l' Hl'].
  unfold list_active_audits, _current_audits. rewrite Hl'. eexists. split; [done|].
  destruct D as [[F ->]|(db1 & r & -> & Hs & Hni & Hi & Hev)].
  - rewrite Hl in Hl'. injection Hl' as <-. apply find_active in F as ((id & Hin) & Hof & Hpd).
    split; [|done]. apply list_elem_of_In, filter_In. split; [|done].
    apply list_elem_of_In, list_elem_of_fmap. by exists (id, a').
  - pose proof (latest_audits_facts _ _ _ T Hl) as [Hids Hh].
    apply stale_all_trails in Hs as (T1 & _ & _ & Hout & Hin); [|done| |done]; [|rewrite Hids; apply NoDup_audit_ids].
    destruct Hev as (Hld & Hev). apply insert_first_event_grows in Hi as (_ & Hnil & ->).
    pose proof (latest_audits_facts _ _ _ T' Hl') as [Hids' Hh'].
    assert (∀ i, i ≠ ad_audit_id a → events (ps_workspace st, i) (put_history (ps_workspace st, ad_audit_id a) [r] db1)
                 = events (ps_workspace st, i) db1) as Ho.
    { intros i Hne. rewrite events_put. case_decide; [congruence|done]. }
    assert (List.filter (λ x, of_preview (ad_preview_id a) (ad_revision a) x && is_active x) (map snd l') = [a]) as ->.
    { apply (filter_unique _ _ (ad_audit_id a)).
      - rewrite Hids'. apply NoDup_audit_ids.
      - assert (ad_audit_id a ∈ map fst l') as Hm.
        { rewrite Hids'. apply elem_audit_ids. rewrite events_put, decide_True by done. done. }
        apply list_elem_of_fmap in Hm as ([i x] & Hi & Hx). simpl in Hi. subst i. pose proof (Hh' _ _ Hx) as Hhx.
        rewrite events_put, decide_True in Hhx by done.
        assert (a = x) as <- by exact (history_unique _ _ _ _ (history_start _ _ _ (conj Hld Hev) Hact) Hhx). done.
      - unfold of_preview, is_active. by rewrite !bool_decide_eq_true_2.
      - intros i x Hx Hne. pose proof (Hh' _ _ Hx) as Hhx. rewrite Ho in Hhx by done.
        assert (i ∈ map fst l) as Hm.
        { destruct (decide (i ∈ map fst l)) as [|Hn]; [done|]. exfalso. rewrite Hout in Hhx by done.
          rewrite Hids, elem_audit_ids in Hn. apply history_nonempty in Hhx. done. }
        apply list_elem_of_fmap in Hm as ([j y] & Hj & Hy). simpl in Hj. subst j.
        destruct (Hin _ _ Hy) as (x' & Hx' & _ & Hf). by rewrite (history_unique _ _ _ _ Hhx Hx'). }
    split; [by left|]. split; [|done]. destruct O as [Ty _]. unfold audit_typed in Ty.
    cbn [forallb] in Ty. bools. by destruct (ad_audit_payload_digest a); try discriminate; apply bool_decide_eq_true_2.
Qed.
End lifecycle.
