(* ===== verification/ApprovalFacts.v ===== *)
(** * What an approval guarantees

    The chain from a recorded approval to the operations it approves, the end of approvals by
    a later revision, and the repeatability of recording. *)
From S2P Require Import Prelude PyValue Strings PyOps Canonical Evidence FormalPreview Receipts.
From S2P Require Import ExecutionStore Preflight AuditRecords Approvals PreviewValidation AuditBoundary.
From S2P Require Import PreviewStore ApprovalService PreviewFacts AuditTrail.

(** ** Documents with a replaced key *)
Lemma dget_replaced k k' x d :
  dget k' (map (λ p, if bool_decide (fst p = VStr k) then (fst p, x) else p) d) =
  if bool_decide (k' = k) then (λ _, x) <$> dget k' d else dget k' d.
Proof.
  induction d as [|[c v] d IH]; simpl; [by case_bool_decide|].
  destruct (bool_decide (c = VStr k)) eqn:E; simpl.
  - apply bool_decide_eq_true in E. subst c. destruct (bool_decide (k' = k)) eqn:K; [done|]. rewrite IH. done.
  - destruct c; try apply IH. destruct (bool_decide (k' = s)) eqn:K; [|apply IH].
    apply bool_decide_eq_true in K. subst s. apply bool_decide_eq_false in E.
    destruct (bool_decide (k' = k)) eqn:K; [|done]. apply bool_decide_eq_true in K. exfalso. apply E. congruence.
Qed.

Lemma dget_snoc k k' x d :
  dget k' (d ++ [(VStr k, x)]) = match dget k' d with Some v => Some v | None => if bool_decide (k' = k) then Some x else None end.
Proof. induction d as [|[c v] d IH]; simpl; [done|]. destruct c; try apply IH.
  destruct (bool_decide (k' = s)); [done|apply IH]. Qed.

Lemma get_set_item k x doc doc' k' :
  set_item k x doc = Ok doc' → get doc' k' = if bool_decide (k' = k) then x else get doc k'.
Proof.
  destruct doc as [| | | | | | | | |d|]; try discriminate. unfold set_item, dict_set. intros [= <-].
  case_bool_decide as B; simpl.
  - rewrite dget_replaced. case_bool_decide; [|done]. subst. by destruct B as [v ->].
  - rewrite dget_snoc. destruct (dget k' d) eqn:E; simpl; case_bool_decide; try done. subst. destruct B. eauto.
Qed.

Section approvals.
Context `{PyLib}.

(** ** The eligibility of a preview *)
Definition eligible_operations (canonical : pyval) : result (bool * string * string) :=
  if py_eq (get canonical "canonical_version") (VStr "2") then eligible_v2 canonical else eligible_v1 canonical.

Lemma preview_eligible_facts preview :
  _preview_is_approval_eligible preview = Ok true →
  let canonical := get preview "canonical_payload" in
  is_mapping canonical = true ∧ get canonical "preview_level" = VStr WRITE_ELIGIBLE
  ∧ py_eq (get canonical "blockers") (VList []) = true
  ∧ (∃ o p, eligible_operations canonical = Ok (true, o, p)
            ∧ get canonical "operation_set_digest" = VStr o ∧ get canonical "plan_digest" = VStr p)
  ∧ ∃ d, digest (without_key "sealed_preview_digest" canonical) = Ok d ∧ get canonical "sealed_preview_digest" = VStr d.
Proof.
  unfold _preview_is_approval_eligible, eligible_operations. set (canonical := get preview "canonical_payload").
  cbn zeta. match goal with |- (if ?b then _ else _) = _ → _ => destruct b eqn:B1; [discriminate|] end.
  match goal with |- (if ?b then _ else _) = _ → _ => destruct b eqn:B2; [discriminate|] end.
  repeat rewrite orb_false_iff in B1. repeat rewrite orb_false_iff in B2.
  rewrite !negb_false_iff in B1. rewrite !negb_false_iff in B2. destruct B1 as [Hm Hl], B2 as [[[_ _] _] Hb].
  destruct (if py_eq _ _ then _ else _) as [[[ok o] p]|e]; [|destruct (is_key_type_value_error e); discriminate].
  destruct (negb _) eqn:B3; [discriminate|]. rewrite negb_false_iff, !andb_true_iff in B3. destruct B3 as [[-> Ho] Hp].
  destruct (digest _) as [d|e]; [|destruct (is_key_type_value_error e); discriminate]. intros E. apply Ok_inj in E.
  apply py_eq_str in Hl, Ho, Hp, E. split; [done|]. split; [done|]. split; [done|]. split; [by exists o, p|by exists d].
Qed.

(** ** The binding of an approval to an audit and a preview *)
Record approval_chain (ap : ApprovalRecord) (audit : AuditRecord) (canonical : pyval) (ws : string) : Prop := {
  ch_active : ad_status audit = ACTIVE;
  ch_passed : ad_result audit = PASSED;
  ch_scope : ad_audit_scope audit = VStr WRITE_ELIGIBLE;
  ch_intact : audit_verify_digest audit = Ok true;
  ch_audit : ap_audit_id ap = VStr (ad_audit_id audit) ∧ ap_audit_digest ap = VStr (ad_audit_digest audit);
  ch_level : get canonical "preview_level" = VStr WRITE_ELIGIBLE;
  ch_workspace : get canonical "workspace_identity" = VStr ws;
  ch_snapshot : py_eq (ap_remote_snapshot_digest ap) (opt_str_value (ad_remote_snapshot_digest audit)) = true;
  ch_operations : ∃ o p, eligible_operations canonical = Ok (true, o, p)
                         ∧ ap_operation_set_digest ap = VStr o ∧ ap_plan_digest ap = VStr p;
  ch_sealed : ∃ d, digest (without_key "sealed_preview_digest" canonical) = Ok d
                   ∧ get canonical "sealed_preview_digest" = VStr d;
}.

Lemma validate_against_facts ap audit :
  approval_validate_against ap audit = Ok true →
  is_structurally_valid ap = Ok true ∧ ad_result audit = PASSED ∧ ad_status audit = ACTIVE
  ∧ audit_verify_digest audit = Ok true
  ∧ ap_audit_id ap = VStr (ad_audit_id audit) ∧ ap_audit_digest ap = VStr (ad_audit_digest audit)
  ∧ ap_preview_id ap = VStr (ad_preview_id audit) ∧ py_eq (ap_revision ap) (VInt (ad_revision audit)) = true
  ∧ ap_plan_digest ap = VStr (ad_plan_digest audit) ∧ ap_operation_set_digest ap = VStr (ad_operation_set_digest audit)
  ∧ py_eq (ap_remote_snapshot_digest ap) (opt_str_value (ad_remote_snapshot_digest audit)) = true.
Proof.
  unfold approval_validate_against. intros E. destruct (is_structurally_valid ap) as [[]|]; try discriminate. simpl in E.
  destruct (negb _) eqn:B; [discriminate|]. rewrite negb_false_iff, !andb_true_iff, !bool_decide_eq_true in B.
  destruct (audit_verify_digest audit) as [i|]; [|discriminate]. apply Ok_inj in E. rewrite !andb_true_iff, !py_eq_str in E.
  destruct E as [[[[[[[-> ?] ?] ?] ?] ?] ?] ?]. by destruct B as [[_ ?] ?].
Qed.

Lemma validate_approval_facts ap audit preview ws :
  _validate_approval_against_current_preview ap audit preview ws = Ok true →
  is_structurally_valid ap = Ok true ∧ approval_chain ap audit (get preview "canonical_payload") ws.
Proof.
  unfold _validate_approval_against_current_preview. intros E. destruct (negb (is_mapping _)); [discriminate|].
  destruct (approval_validate_against ap audit) as [[]|] eqn:V; try discriminate. simpl in E.
  destruct (audit_verify_digest audit) as [i|]; [|discriminate]. destruct (negb _) eqn:B; [discriminate|].
  rewrite negb_false_iff, !andb_true_iff in B. destruct B as [[[-> Hel] Hm] _].
  unfold approval_eligible, audit_matches_preview in *.
  rewrite !andb_true_iff in Hel. rewrite !andb_true_iff in Hm. destruct Hel as [[Hsc _] _].
  destruct Hm as [[[[[[[[_ _] Hws] _] _] _] Hp] Ho] _].
  apply validate_against_facts in V as (Hsv & Hr & Hs & Hv & Hid & Hd & _ & _ & Hpl & Hop & Hrs).
  apply preview_eligible_facts in E as (_ & Hl & _ & (o & p & He & Eo & Ep) & Hse). apply py_eq_str in Hsc, Hws.
  rewrite Eo in Ho. rewrite Ep in Hp. apply py_eq_str in Ho, Hp. injection Ho as Ho. injection Hp as Hp.
  split; [done|]. split; try done. exists o, p. split; [done|]. by rewrite Hop, Hpl, Ho, Hp.
Qed.

Variable st : SQLitePreviewStore.
Notation ws := (ps_workspace st).

(** ** Reading the latest revision *)
Lemma get_preview_facts p db doc :
  get_preview st ws p db = Ok doc →
  ∃ m r d, latest_revision ws "preview" p db = Some m ∧ record_at ws "preview" p m db = Some r ∧ decode_row r = Ok d
           ∧ set_item "revision" (VInt m) d = Ok doc.
Proof.
  unfold get_preview, get_preview_revision. rewrite bool_decide_eq_true_2 by done. simpl.
  unfold read_sqlite_preview_latest. destruct (latest_revision _ _ _ _) as [m|]; [|discriminate].
  destruct (record_at _ _ _ m db) as [r|] eqn:R; [|discriminate].
  destruct (decode_row r) as [d|] eqn:D; [|discriminate].
  destruct (set_item _ _ d) as [doc'|] eqn:S; [|discriminate]. intros E. exists m, r, d.
  destruct (get_attr doc' _) as [c|]; [|discriminate].
  assert (doc = doc') as ->; [|done].
  destruct (_ && _); [|by injection E]. destruct (bool_decide _); [discriminate|].
  destruct (py_iter _) as [ids|]; [|discriminate]. destruct (get_evidence_records _ _ _ _) as [ev|]; [|discriminate].
  destruct (_reload_promotion _ _ _); [by injection E|discriminate].
Qed.

(** ** Recording: what the transaction checked and stored *)
Lemma store_record_approval_facts ap db db' :
  store_record_approval st ap db = Ok db' →
  is_structurally_valid ap = Ok true ∧
  ∃ audit_id audit p z r preview id,
    ap_audit_id ap = VStr audit_id ∧ latest_event st audit_id db = Ok audit ∧ ap_preview_id ap = VStr p
    ∧ sql_int (ap_revision ap) = Ok z ∧ record_at ws "preview" p z db = Some r ∧ decode_row r = Ok preview
    ∧ latest_revision ws "preview" p db = Some z ∧ ap_approval_id ap = VStr id
    ∧ _validate_approval_against_current_preview ap audit preview ws = Ok true
    ∧ ((∃ r' old, record_of (latest_revision ws "approval" id db) ws "approval" id db = Some r'
                  ∧ load_approval r' = Ok old ∧ same_approval old ap = true ∧ db' = db)
       ∨ ∃ row, record_of (latest_revision ws "approval" id db) ws "approval" id db = None
                ∧ approval_row ap = Ok row ∧ db' = put_record (ws, "approval", id, z) row db).
Proof.
  unfold store_record_approval. intros E. destruct (is_structurally_valid ap) as [[]|] eqn:V; try discriminate.
  simpl in E. split; [done|]. unfold approval_transaction in E.
  destruct (sql_text (ap_audit_id ap)) as [ai|] eqn:E1; [|discriminate].
  destruct (latest_event st ai db) as [audit|] eqn:E2; [|discriminate].
  destruct (audit_verify_digest audit) as [i|] eqn:E3; [|discriminate]. destruct (negb i || _); [discriminate|].
  destruct (sql_text (ap_preview_id ap)) as [p|] eqn:E4; [|discriminate].
  destruct (sql_int (ap_revision ap)) as [z|] eqn:E5; [|discriminate].
  destruct (record_at _ _ p z db) as [r|] eqn:E6; [|discriminate].
  destruct (decode_row r) as [preview|] eqn:E7; [|discriminate].
  destruct (_validate_approval_against_current_preview _ _ _ _) as [[]|] eqn:E8; try discriminate. simpl in E.
  destruct (bool_decide (latest_revision _ _ _ _ = _)) eqn:E9; [|discriminate]. apply bool_decide_eq_true in E9. simpl in E.
  destruct (sql_text (ap_approval_id ap)) as [id|] eqn:E10; [|discriminate].
  assert (∀ v s, sql_text v = Ok s → v = VStr s) as Hs by (by intros [] ?; try discriminate; intros [= ->]).
  exists ai, audit, p, z, r, preview, id. repeat (split; [by eauto|]).
  destruct (record_of _ _ "approval" id db) as [r'|] eqn:E11.
  - destruct (load_approval r') as [old|] eqn:E12; [|discriminate].
    destruct (same_approval old ap) eqn:E13; [|discriminate]. injection E as <-. left. by exists r', old.
  - destruct (approval_row ap) as [row|]; [|discriminate]. right. exists row. repeat split; try done.
    unfold insert_record in E. by case_bool_decide; [|injection E].
Qed.

(** C3: A recorded approval stands on the whole chain: the audit it names is the current state of
    that audit, active, passed and made for a write, with a digest that verifies; the preview
    revision is the latest one, its sealed digest is that of its content, and the operation and
    plan digests of the approval are those of the operations the eligibility evaluation accepts. *)
Theorem recorded_approval_sound ap db db' :
  store_record_approval st ap db = Ok db' →
  ∃ audit_id audit p z preview,
    ap_audit_id ap = VStr audit_id ∧ get_audit st ws audit_id db = Ok audit ∧ ap_preview_id ap = VStr p
    ∧ py_eq (ap_revision ap) (VInt z) = true ∧ latest_revision ws "preview" p db = Some z
    ∧ record_at ws "preview" p z db = Some (Doc preview)
    ∧ approval_chain ap audit (get preview "canonical_payload") ws.
Proof.
  intros (_ & ai & audit & p & z & r & preview & id & Ha & Hl & Hp & Hz & Hr & Hd & Hlat & _ & Hv & _)%store_record_approval_facts.
  exists ai, audit, p, z, preview. destruct r as [v|]; [|discriminate]. injection Hd as ->.
  apply validate_approval_facts in Hv as [_ Hc]. split; [done|].
  split; [unfold get_audit; by rewrite bool_decide_eq_true_2|]. split; [done|]. split; [|done]. by apply sql_int_eq.
Qed.

(** C8: Once a later revision of a preview is stored, no approval of an earlier revision is current
    or can be recorded, in that state and in every state the store reaches from it. *)
Theorem superseded_approval_dead req p rev plan rem ops repo items workspace canonical level ev promo db db' db'' ap z :
  reachable_store st db →
  _save_preview_revision_impl st req p rev plan rem ops repo items workspace canonical level ev promo db = Ok db' →
  rtc (store_step st) db' db'' → ap_preview_id ap = VStr p → ap_revision ap = VInt z → (z < rev)%Z →
  validate_approval_current st ap db'' ≠ Ok true ∧ ∀ db3, store_record_approval st ap db'' ≠ Ok db3.
Proof.
  intros R Hsave S Hp Hz Hlt. destruct (store_steps_trails _ _ _ R trails_empty) as [T _].
  assert (is_Some (record_at ws "preview" p rev db')) as Hrev.
  { unfold _save_preview_revision_impl in Hsave. destruct (check_save _ _ _ _ _ _ _ _ _ _ _ _ _ _); [|discriminate].
    apply or_value_error_Ok, save_transaction_facts in Hsave as [[-> Hs]|(_ & _ & doc & _ & _ & _ & Hs & _)]; [exact Hs| |exact T].
    rewrite Hs. eauto. }
  destruct (store_step_trails _ _ _ (step_save _ _ _ _ _ _ _ _ _ _ _ _ _ _ _ _ Hsave) T) as [T' _].
  destruct (store_steps_trails _ _ _ S T') as [_ [G _]].
  assert (is_Some (record_at ws "preview" p rev db'')) as Hrev'.
  { destruct Hrev as [x Hx]. exists x. by eapply lookup_weaken. }
  assert (∀ m, latest_revision ws "preview" p db'' = Some m → m ≠ z) as Hne.
  { intros m [_ Hm]%latest_revision_Some. apply Hm in Hrev'. lia. }
  split.
  - unfold validate_approval_current. destruct (is_structurally_valid ap) as [[]|]; try done. simpl.
    destruct (approval_current_checks st ap db'') as [b|e] eqn:E; [|by destruct (is_value_error e)].
    intros [= ->]. unfold approval_current_checks in E. destruct (sql_text (ap_audit_id ap)); [|discriminate].
    destruct (get_audit _ _ _ _); [|discriminate]. rewrite Hp, Hz in E. simpl in E.
    destruct (get_preview st ws p db'') as [doc|] eqn:Hdoc; [|discriminate].
    apply get_preview_facts in Hdoc as (m & r & d & Hm & _ & _ & Hset). apply Hne in Hm.
    rewrite (get_set_item _ _ _ _ "revision" Hset) in E. rewrite bool_decide_eq_true_2 in E by done. simpl in E.
    apply Z.eqb_neq in Hm. rewrite Hm in E. discriminate.
  - intros db3 (_ & ai & au & q & y & r & pv & id & _ & _ & Hq & Hy & _ & _ & Hl & _)%store_record_approval_facts.
    rewrite Hp in Hq. injection Hq as <-. rewrite Hz in Hy. apply sql_int_eq, Z.eqb_eq in Hy as <-. by apply Hne in Hl.
Qed.
End approvals.

(** ** Recording an approval twice

    [record_approval] of the service answers a repeated command with the approval it stored
    the first time, whatever the clock says by then. *)
(** ** Reflexivity of [==] away from floats *)
Fixpoint float_free (v : pyval) : bool :=
  match v with
  | VFloat _ => false
  | VList l | VTuple l | VSet l => forallb float_free l
  | VDict d => forallb (λ p, float_free (fst p) && float_free (snd p)) d
  | _ => true
  end.

Lemma py_eq_refl v : float_free v = true → py_eq v v = true.
Proof.
  induction v as [| | | | | |l IH|l IH|l IH|d IH|] using pyval_nested_ind; simpl; try done; intros F.
  - by destruct b.
  - apply Z.eqb_refl.
  - by apply bool_decide_eq_true_2.
  - by apply bool_decide_eq_true_2.
  - induction IH as [|x l Hx _ IHl]; [done|]. simpl in F. apply andb_true_iff in F as [Fx F].
    by rewrite (Hx Fx), IHl.
  - induction IH as [|x l Hx _ IHl]; [done|]. simpl in F. apply andb_true_iff in F as [Fx F].
    by rewrite (Hx Fx), IHl.
  - rewrite Nat.eqb_refl. simpl. rewrite forallb_true in F |- *. rewrite Forall_forall in IH. intros x Hx.
    apply existsb_exists. exists x. split; [by apply list_elem_of_In|by apply IH, F].
  - rewrite Nat.eqb_refl. simpl. rewrite forallb_true in F |- *. rewrite Forall_forall in IH. intros [k x] Hx.
    apply existsb_exists. exists (k, x). split; [by apply list_elem_of_In|]. specialize (F _ Hx).
    apply andb_true_iff in F as [Fk Fx]. destruct (IH _ Hx) as [Ek Ex]. simpl in *. by rewrite Ek, Ex.
  - by apply bool_decide_eq_true_2.
Qed.

Section repeat.
Context `{PyLib}.
Variable svc : ApprovalService.
Notation store := (as_store svc).
Notation ws := (ps_workspace (as_store svc)).

(** ** Tables that differ in approvals only *)
Definition agree (db db' : PreviewDb) : Prop :=
  audit_history db' = audit_history db ∧ ∀ k, snd (fst (fst k)) ≠ "approval" → records db' !! k = records db !! k.

Lemma agree_record_at db db' t i z : agree db db' → t ≠ "approval" → record_at ws t i z db' = record_at ws t i z db.
Proof. intros [_ R] Ht. by apply R. Qed.
Lemma agree_latest db db' t i : agree db db' → t ≠ "approval" → latest_revision ws t i db' = latest_revision ws t i db.
Proof. intros [_ R] Ht. apply latest_revision_ext. intros z. by rewrite R. Qed.

Lemma agree_read_evidence db db' rev ids :
  agree db db' → read_sqlite_evidence_records store ids rev db' = read_sqlite_evidence_records store ids rev db.
Proof.
  intros A. unfold read_sqlite_evidence_records. induction ids as [|x ids IH]; simpl; [done|]. rewrite IH.
  unfold read_evidence. destruct (sql_text x) as [i|]; [|done]. rewrite (agree_latest db db') by done.
  destruct (match rev with Some _ => _ | None => _ end); [|done]. simpl. by rewrite (agree_record_at db db').
Qed.

Lemma agree_get_preview db db' p : agree db db' → get_preview store ws p db' = get_preview store ws p db.
Proof.
  intros A. unfold get_preview, get_preview_revision, read_sqlite_preview_latest, get_evidence_records.
  rewrite (agree_latest db db') by done. destruct (latest_revision ws "preview" p db) as [m|]; [|done].
  rewrite (agree_record_at db db') by done. destruct (record_at ws "preview" p m db) as [r|]; [|done].
  destruct (decode_row r) as [d|]; [|done]. destruct (set_item _ _ d) as [doc|]; [|done].
  destruct (get_attr doc _) as [c|]; [|done]. destruct (py_iter _) as [ids|]; [|done].
  by rewrite (agree_read_evidence db db').
Qed.

Lemma agree_resolve db db' p r : agree db db' → _resolve_audit svc p r db' = _resolve_audit svc p r db.
Proof.
  intros A. unfold _resolve_audit. rewrite (agree_get_preview _ _ _ A). destruct A as [E _].
  unfold list_active_audits, _current_audits, latest_audits, current_audit, audit_ids, events. by rewrite E.
Qed.

Lemma agree_get_audit db db' i : agree db db' → get_audit store ws i db' = get_audit store ws i db.
Proof. intros [E _]. unfold get_audit, latest_event, events. by rewrite E. Qed.

(** ** The candidate depends on the clock in its time only *)
Lemma candidate_clock p r c cl t t' db audit id cand :
  approval_candidate svc p r c cl (Some t) db = Ok (audit, id, cand) →
  ∃ cand', approval_candidate svc p r c cl (Some t') db = Ok (audit, id, cand')
           ∧ without_key "approved_at" (approval_to_dict cand') = without_key "approved_at" (approval_to_dict cand).
Proof.
  unfold approval_candidate. intros E. destruct (_resolve_audit svc p r db) as [[pv au]|]; [|discriminate].
  destruct (negb (bool_decide (c = _))); [discriminate|]. destruct (negb (is_nonempty_str _)); [discriminate|].
  destruct (_approval_id au) as [i|]; [|discriminate]. simpl in *. unfold approval_create in *.
  destruct (_ || _); [discriminate|]. destruct (ad_remote_snapshot_digest au) as [[|]|]; try discriminate.
  injection E as <- <- <-. by eexists.
Qed.

Lemma candidate_float_free p r c cl t db audit id cand :
  approval_candidate svc p r c cl t db = Ok (audit, id, cand) →
  float_free (without_key "approved_at" (approval_to_dict cand)) = true ∧ ap_approval_id cand = VStr id
  ∧ ap_revision cand = VInt (ad_revision audit) ∧ ad_revision audit = r ∧ ap_preview_id cand = VStr p.
Proof.
  unfold approval_candidate. intros E. destruct (_resolve_audit svc p r db) as [[pv au]|] eqn:Hres; [|discriminate].
  destruct (negb (bool_decide (c = _))); [discriminate|]. destruct (negb (is_nonempty_str _)) eqn:Hrep; [discriminate|].
  destruct (_approval_id au) as [i|]; [|discriminate]. destruct (_utc t) as [now|]; [|discriminate].
  unfold approval_create in E. destruct (_ || _); [discriminate|].
  destruct (ad_remote_snapshot_digest au) as [[|]|]; try discriminate. injection E as <- <- <-.
  apply negb_false_iff, nonempty_str_value in Hrep as (rep & Hrep & _).
  split; [unfold approval_to_dict; simpl; by rewrite Hrep|]. split; [done|]. split; [done|].
  unfold _resolve_audit in Hres. destruct (match get_preview _ _ _ _ with Ok _ => _ | Err _ => _ end); [|discriminate].
  destruct (negb _); [discriminate|]. destruct (list_active_audits _ _ _ db) as [l|] eqn:L; [|discriminate].
  destruct l as [|x [|]]; try discriminate. destruct (audit_verify_digest x) as [v|]; [|discriminate].
  destruct (negb v); [discriminate|]. destruct (negb (approval_eligible x)); [discriminate|]. injection Hres as <- <-.
  unfold list_active_audits in L. destruct (_current_audits _ db) as [as_|]; [|discriminate]. injection L as L.
  assert (x ∈ [x]) as Hx by by left. rewrite <- L in Hx. apply list_elem_of_In, filter_In in Hx as [_ Hx].
  unfold of_preview in Hx. rewrite !andb_true_iff, !bool_decide_eq_true in Hx. simpl. by destruct Hx as [[-> ->] _].
Qed.

(** ** The stored row *)
Lemma load_approval_found r : load_approval r ≠ Err (ValueError "approval_not_found").
Proof.
  unfold load_approval, load, approval_from_dict. destruct r as [v|]; [|done].
  destruct (negb (is_mapping v)); [done|]. destruct (negb (keys_are _ _)); [done|]. by destruct (audit_result_of _).
Qed.

Lemma approval_not_found id db :
  get_approval store ws id db = Err (ValueError "approval_not_found") → ∀ z, record_at ws "approval" id z db = None.
Proof.
  unfold get_approval. rewrite bool_decide_eq_true_2 by done. simpl. unfold least_revision.
  destruct (max_revision _) as [m|] eqn:M.
  - simpl. apply max_revision_Some in M as [(z & -> & Hz)%list_elem_of_fmap _]. rewrite Z.opp_involutive.
    apply elem_revisions in Hz as [x Hx]. unfold record_at. rewrite Hx. intros E. by apply load_approval_found in E.
  - intros _ z. apply max_revision_None, map_eq_nil in M. apply eq_None_not_Some. unfold record_at.
    rewrite <- elem_revisions, M. apply not_elem_of_nil.
Qed.

Lemma approval_stored id z row ap db :
  (∀ y, record_at ws "approval" id y db = None) → load_approval row = Ok ap →
  get_approval store ws id (put_record (ws, "approval", id, z) row db) = Ok ap.
Proof.
  intros Hn Hl. unfold get_approval. rewrite bool_decide_eq_true_2 by done. simpl.
  assert (records (put_record (ws, "approval", id, z) row db) !! (ws, "approval", id, z) = Some row) as Hz
    by (simpl; by rewrite lookup_insert_eq).
  destruct (only_revision _ _ _ _ _ _ Hz) as [_ ->].
  - intros y [x Hy]. simpl in Hy. destruct (decide (y = z)) as [|Hne]; [done|].
    rewrite lookup_insert_ne in Hy by congruence. unfold record_at in Hn. by rewrite Hn in Hy.
  - simpl. unfold record_at. by rewrite Hz.
Qed.

(** A newly stored approval is current in the store that now holds it *)
Lemma stored_is_current p r c cl t audit id cand db db' :
  approval_candidate svc p r c cl t db = Ok (audit, id, cand) →
  store_record_approval store cand db = Ok db' → agree db db' → validate_approval_current store cand db' = Ok true.
Proof.
  intros Hc Hs A. destruct (candidate_float_free _ _ _ _ _ _ _ _ _ Hc) as (_ & _ & Hrev & Hr & Hp).
  apply store_record_approval_facts in Hs as (Hv & ai & au & q & z & row & pv & i & Hai & Hau & Hq & Hz & Hrow & Hd
    & Hlat & _ & Hval & _).
  assert (∃ doc, get_preview store ws p db = Ok doc) as [doc Hdoc].
  { unfold approval_candidate, _resolve_audit in Hc. destruct (get_preview store ws p db) as [d|e]; [eauto|].
    by destruct (is_value_error e). }
  rewrite Hp in Hq. injection Hq as <-.
  destruct (get_preview_facts _ _ _ _ Hdoc) as (m & row' & d & Hm & Hrow' & Hd' & Hset).
  rewrite Hlat in Hm. injection Hm as <-. rewrite Hrow in Hrow'. injection Hrow' as <-. rewrite Hd in Hd'. injection Hd' as <-.
  unfold validate_approval_current. rewrite Hv. simpl. unfold approval_current_checks. rewrite Hai, Hp. simpl.
  rewrite (agree_get_audit db db' ai A). unfold get_audit. rewrite bool_decide_eq_true_2 by done. simpl. rewrite Hau.
  rewrite (agree_get_preview db db' p A), Hdoc.
  rewrite (get_set_item _ _ _ _ "revision" Hset), bool_decide_eq_true_2 by done.
  rewrite Hrev in Hz |- *. apply sql_int_eq, Z.eqb_eq in Hz as <-. simpl. rewrite Z.eqb_refl. simpl.
  unfold _validate_approval_against_current_preview in Hval |- *. unfold _preview_is_approval_eligible in Hval |- *.
  rewrite (get_set_item _ _ _ _ "canonical_payload" Hset), bool_decide_eq_false_2 by done. by rewrite Hval.
Qed.

Lemma keep_repeats existing cand cand' db ap db' :
  keep_approval svc existing cand db = Ok (ap, db') →
  without_key "approved_at" (approval_to_dict cand') = without_key "approved_at" (approval_to_dict cand) →
  ap = existing ∧ db' = db ∧ keep_approval svc existing cand' db = Ok (existing, db).
Proof.
  unfold keep_approval. intros E ->. destruct (validate_approval_current _ _ _) as [v|]; [|discriminate].
  destruct (negb v); [discriminate|]. destruct (negb _); [discriminate|]. by injection E as -> ->.
Qed.

(** Recording is repeatable: when [record_approval] has answered with an approval, the same
    call at any later time answers with that very approval and leaves the store as it is. *)
Theorem record_approval_repeats p r c cl t t' db ap db' :
  record_approval svc p r c cl (Some t) db = Ok (ap, db') →
  record_approval svc p r c cl (Some t') db' = Ok (ap, db').
Proof.
  unfold record_approval. intros E. destruct p as [| | | |p| | | | | |]; try discriminate E.
  destruct r as [| |r| | | | | | | |]; try discriminate E. destruct c as [| | | |c| | | | | |]; try discriminate E.
  destruct cl as [| | | |cl| | | | | |]; try discriminate E. destruct (_ || _) eqn:B; [discriminate E|].
  destruct (approval_candidate svc p r c (py_strip cl) (Some t) db) as [[[audit id] cand]|] eqn:Hc; [|discriminate E].
  destruct (candidate_clock _ _ _ _ t t' _ _ _ _ Hc) as (cand' & Hc' & Hd).
  destruct (get_approval store ws id db) as [old|e] eqn:Hg.
  - destruct (keep_repeats _ _ cand' _ _ _ E Hd) as (-> & -> & Hk). by rewrite Hc', Hg.
  - destruct (bool_decide (e = _)) eqn:He; [|discriminate]. apply bool_decide_eq_true in He. subst e.
    unfold record_new_approval in E.
    match type of E with (if ?b then _ else _) = _ => destruct b; [discriminate E|] end.
    destruct (store_record_approval store cand db) as [db1|] eqn:Hs; [|discriminate].
    destruct (get_approval store ws id db1) as [stored|] eqn:Hg1; [|discriminate]. injection E as -> ->.
    pose proof (store_record_approval_facts _ _ _ _ Hs) as (Hv & ai & au & q & z & row0 & pv & i & _ & _ & _ & _ & _ & _ & _
      & Hi & _ & D).
    destruct (candidate_float_free _ _ _ _ _ _ _ _ _ Hc) as (Hff & Hid & _). rewrite Hid in Hi. injection Hi as <-.
    pose proof (approval_not_found _ _ Hg) as Hn. destruct D as [(r' & o & Hr' & _)|(row & _ & Hrow & ->)].
    { unfold record_of in Hr'. destruct (latest_revision _ _ _ _); [|done]. by rewrite Hn in Hr'. }
    assert (agree db (put_record (ws, "approval", id, z) row db)) as A.
    { split; [done|]. intros k Hk. simpl. rewrite lookup_insert_ne; [done|]. by intros <-. }
    pose proof (approval_stored id z row cand db Hn (approval_row_load _ _ (is_structurally_valid_facts _ Hv) Hrow)) as Hst.
    rewrite Hst in Hg1. injection Hg1 as <-.
    assert (approval_candidate svc p r c (py_strip cl) (Some t') (put_record (ws, "approval", id, z) row db)
            = Ok (audit, id, cand')) as ->.
    { unfold approval_candidate in Hc' |- *. by rewrite (agree_resolve _ _ _ _ A). }
    rewrite Hst. unfold keep_approval. rewrite (stored_is_current _ _ _ _ _ _ _ _ _ _ Hc Hs A). cbn [negb].
    by rewrite Hd, py_eq_refl.
Qed.
End repeat.
