(* ===== verification/StaleAudits.v ===== *)
(** * Audits of a superseded revision

    Saving a new revision stales the active audits of the older ones.  The record it appends
    is rebuilt from nine fields of the stored document, so the formal part of the audit is
    gone from its current state, unlike after [transition_audit_status]. *)
From S2P Require Import Prelude PyValue Strings PyOps Canonical Receipts FormalPreview ExecutionStore.
From S2P Require Import AuditRecords Evidence Preflight Approvals PreviewValidation AuditBoundary.
From S2P Require Import PreviewStore PreviewFacts AuditTrail.

(** What [AuditRecord] holds beside its first nine fields *)
Definition formal_part (a : AuditRecord) : list pyval :=
  [ad_sealed_preview_digest a; ad_workspace_identity a; ad_audit_scope a; ad_audit_payload_digest a;
   ad_audit_context_digest a; ad_rule_registry_version a; ad_rule_registry_digest a;
   VList (ad_rule_evaluations a); VList (ad_findings a); VList (ad_evidence_refs a); ad_created_at a].
(** The defaults of the constructor *)
Definition no_formal_part : list pyval :=
  [VStr ""; VStr ""; VStr CONCEPTUAL; VStr ""; VStr ""; VNone; VNone; VList []; VList []; VList []; VStr ""].

Section stale.
Context `{PyLib}.
Variable st : SQLitePreviewStore.
Notation ws := (ps_workspace st).

Lemma audit_transition_formal s a a' : audit_transition s a = Ok a' → formal_part a' = formal_part a.
Proof.
  unfold audit_transition. case_bool_decide; [by intros [= <-]|]. destruct (negb _); [discriminate|]. intros E.
  unfold audit_with_status in E. inv_ok. apply audit_check_id in Heqr as ->. apply audit_check_id in Heqr0 as ->.
  by apply audit_with_digest_facts in E as (d & _ & -> & _).
Qed.

Lemma rebuilt_audit_formal data c : rebuilt_audit data = Ok c → formal_part c = no_formal_part.
Proof. unfold rebuilt_audit. intros E. inv_ok. by apply audit_check_id in E as ->. Qed.

(** The document an audit was read from holds its fields *)
Lemma load_audit_document data a :
  load_audit (Doc data) = Ok a →
  get data "status" = VStr (status_value (ad_status a)) ∧ get data "preview_id" = VStr (ad_preview_id a)
  ∧ subscript data "revision" = Ok (VInt (ad_revision a)).
Proof.
  unfold load_audit, load, audit_from_dict. intros Ea.
  repeat match goal with
         | H : (match ?c with Ok _ => _ | Err _ => _ end) = Ok _ |- _ => destruct c eqn:?; [|discriminate H]
         end.
  apply audit_check_id in Ea as ->. cbn.
  assert (∀ k v, subscript data k = Ok v → get data k = v) as Hg.
  { intros k v. unfold subscript, get. destruct data; try discriminate. destruct (dget _ _); [|discriminate]. by intros [= ->]. }
  assert (∀ v s, audit_status_of v = Ok s → v = VStr (status_value s)) as Hs.
  { intros v s. unfold audit_status_of. destruct (List.find _ _) as [s'|] eqn:F; [|discriminate]. intros [= ->].
    apply find_some in F as [_ F]. by apply py_eq_str. }
  assert (∀ v s, str_value v = Ok s → v = VStr s) as Ht by (by intros [] ?; try discriminate; intros [= ->]).
  assert (∀ v z, int_value v = Ok z → v = VInt z) as Hi by (by intros [] ?; try discriminate; intros [= ->]).
  repeat match goal with
         | H : subscript data "status" = Ok _ |- _ => apply Hg in H
         | H : subscript data "preview_id" = Ok _ |- _ => apply Hg in H
         | H : audit_status_of _ = Ok _ |- _ => apply Hs in H
         | H : str_value _ = Ok _ |- _ => apply Ht in H
         | H : int_value _ = Ok _ |- _ => apply Hi in H
         end.
  split; [congruence|]. split; [congruence|]. by subst.
Qed.

Lemma stale_one_other p rev plan rem ops db db' i j :
  stale_one st p rev plan rem ops db i = Ok db' → j ≠ i → events (ws, j) db' = events (ws, j) db.
Proof.
  unfold stale_one. intros E Hj. destruct (last _) as [[data|]|]; [|discriminate|by injection E as <-].
  destruct (_ || _); [by injection E as <-|]. destruct (binding_changed _ _ _ _ _) as [[]|]; [| |discriminate]; simpl in E.
  - inv_ok. unfold append_event, audit_key. rewrite events_put. case_decide; [congruence|done].
  - by injection E as <-.
Qed.

Lemma stale_one_this p rev plan rem ops db db' id a :
  history id (events (ws, id) db) a → ad_status a = ACTIVE → ad_preview_id a = p → ad_revision a ≠ rev →
  stale_one st p rev plan rem ops db id = Ok db' →
  ∃ a', history id (events (ws, id) db') a' ∧ ad_status a' = STALE ∧ same_subject a a' ∧ formal_part a' = no_formal_part.
Proof.
  intros Hh Hact Hp Hrev. pose proof (history_last _ _ _ Hh) as (r & Hr & Hld & Hid & _).
  unfold stale_one, audit_key. rewrite Hr. destruct r as [data|]; [|discriminate].
  destruct (load_audit_document _ _ Hld) as (Es & Ep & Er). rewrite Es, Ep, Hact, Hp. simpl.
  rewrite bool_decide_eq_true_2 by done. simpl. unfold binding_changed. rewrite Er. simpl.
  apply Z.eqb_neq in Hrev. rewrite Hrev. simpl.
  destruct (rebuilt_audit data) as [c|] eqn:Hreb; [|discriminate].
  destruct (audit_transition STALE c) as [s|] eqn:Htr; [|discriminate].
  destruct (audit_row s) as [row|] eqn:Hrow; [|discriminate]. intros [= <-].
  destruct (rebuilt_audit_facts _ _ _ Hld Hreb) as (Hs & Hst & Hty & Hck).
  pose proof (audit_transition_formal _ _ _ Htr) as Hf. rewrite (rebuilt_audit_formal _ _ Hreb) in Hf.
  apply audit_transition_facts in Htr as (Hss & Hsub & _ & Hty' & D). destruct D as [[D _]|(_ & V' & C')]; [congruence|].
  exists s. split; [|split; [done|split; [by eapply same_subject_trans|done]]].
  unfold append_event. rewrite events_put, decide_True by done. eapply history_next; [done| |by eapply same_subject_trans|].
  - apply row_event_ok; try done; [|by rewrite Hty']. destruct Hsub as (Hi & _), Hs as (Hi' & _). congruence.
  - rewrite Hact, Hss. simpl. lia.
Qed.

Lemma fold_stale_this p rev plan rem ops ids db db' id a :
  trails db → NoDup ids → history id (events (ws, id) db) a → ad_status a = ACTIVE → ad_preview_id a = p →
  ad_revision a ≠ rev → fold_r (stale_one st p rev plan rem ops) ids db = Ok db' →
  (id ∉ ids → events (ws, id) db' = events (ws, id) db)
  ∧ (id ∈ ids → ∃ a', history id (events (ws, id) db') a' ∧ ad_status a' = STALE ∧ same_subject a a'
                      ∧ formal_part a' = no_formal_part).
Proof.
  intros T N Hh Hact Hp Hrev. revert db T Hh. induction ids as [|i ids IH]; intros db T Hh E; simpl in E.
  - injection E as <-. split; [done|]. by intros ?%not_elem_of_nil.
  - inversion N as [|? ? Hi N']; subst. destruct (stale_one _ _ _ _ _ _ db i) as [db1|] eqn:E1; [|discriminate].
    destruct (stale_one_trails _ _ _ _ _ _ _ _ _ T E1) as (T1 & _ & _). destruct (decide (id = i)) as [<-|Hne].
    + split; [intros Hn; exfalso; apply Hn; by left|]. intros _.
      destruct (stale_one_this _ _ _ _ _ _ _ _ _ Hh Hact eq_refl Hrev E1) as (a' & Ha' & Hrest). exists a'.
      split; [|done]. assert (events (ws, id) db' = events (ws, id) db1) as ->; [|done].
      clear -E Hi. revert db1 E. induction ids as [|k ids IH]; intros db1 E; simpl in E; [by injection E as <-|].
      destruct (stale_one _ _ _ _ _ _ db1 k) as [db2|] eqn:E2; [|discriminate].
      rewrite (IH ltac:(set_solver) _ E). eapply stale_one_other; [done|set_solver].
    + assert (events (ws, id) db1 = events (ws, id) db) as E2 by by eapply stale_one_other.
      destruct (IH N' db1 T1) as [Ho Ht]; [by rewrite E2|done|]. split.
      * intros Hn. rewrite Ho, E2; [done|]. set_solver.
      * intros [->|Hin]%elem_of_cons; [done|by apply Ht].
Qed.

(** The tables the stale pass starts from have the events of the tables before the save *)
Lemma save_transaction_fold req p rev plan rem ops items ev n db db' :
  save_transaction st req p rev plan rem ops items ev n db = Ok db' → record_at ws "preview" p rev db = None →
  ∃ db3, (∀ k, events k db3 = events k db) ∧ fold_r (stale_one st p rev plan rem ops) (audit_ids ws db3) db3 = Ok db'.
Proof.
  unfold save_transaction. intros E Hn. destruct (encode_row _) as [doc|]; [|discriminate]. rewrite Hn in E.
  match type of E with (if ?b then _ else _) = _ => destruct b; [discriminate E|] end.
  destruct (insert_items _ _ _ _ _) as [db1|] eqn:E1; [|discriminate].
  destruct (insert_record _ _ db1) as [db2|] eqn:E2; [|discriminate].
  destruct (insert_evidence _ _ _ db2) as [db3|] eqn:E3; [|discriminate].
  apply insert_items_facts in E1 as [_ A1]. apply insert_record_grows in E2 as (_ & _ & D2).
  apply insert_evidence_facts in E3 as (A3 & _). exists db3. split; [|done].
  intros k. unfold events. by rewrite A3, D2, <- A1.
Qed.

(** C40: Storing a new revision of a preview makes every audit that was active for an earlier revision
    Stale, and erases its formal part: the current record of the audit has the constructor's
    defaults in place of its workspace, scope, digests, rule registry, evaluations, findings,
    evidence and time. *)
Theorem new_revision_stales_and_erases req p rev plan rem ops repo items workspace canonical level ev promo db db' id a :
  reachable_store st db →
  _save_preview_revision_impl st req p rev plan rem ops repo items workspace canonical level ev promo db = Ok db' →
  record_at ws "preview" p rev db = None → get_audit st ws id db = Ok a →
  ad_status a = ACTIVE → ad_preview_id a = p → ad_revision a ≠ rev →
  ∃ a', get_audit st ws id db' = Ok a' ∧ ad_status a' = STALE ∧ same_subject a a' ∧ formal_part a' = no_formal_part.
Proof.
  intros R Hsave Hn Ha Hact Hp Hrev. destruct (store_steps_trails _ _ _ R trails_empty) as [T _].
  apply get_audit_history in Ha; [|done]. unfold _save_preview_revision_impl in Hsave.
  destruct (check_save _ _ _ _ _ _ _ _ _ _ _ _ _ _); [|discriminate]. apply or_value_error_Ok in Hsave.
  destruct (save_transaction_fold _ _ _ _ _ _ _ _ _ _ _ Hsave Hn) as (db3 & Hev & Hf).
  rewrite <- Hev in Ha. pose proof (trails_events _ _ Hev T) as T3.
  destruct (fold_stale_this _ _ _ _ _ _ _ _ _ _ T3 (NoDup_audit_ids _ _) Ha Hact Hp Hrev Hf) as [_ Ht].
  destruct Ht as (a' & Hh & Hrest); [by apply elem_audit_ids; eapply history_nonempty|].
  exists a'. split; [by apply history_get_audit|done].
Qed.

(** A transition asked for by identity keeps the formal part of the audit. *)
Theorem transition_keeps_formal_part s id a a' db db' :
  reachable_store st db → get_audit st ws id db = Ok a → transition_audit_status st id s db = Ok (a', db') →
  get_audit st ws id db' = Ok a' ∧ ad_status a' = s ∧ formal_part a' = formal_part a.
Proof.
  intros R Ha E. destruct (store_steps_trails _ _ _ R trails_empty) as [T _].
  apply get_audit_history in Ha; [|done]. unfold transition_audit_status, latest_event, audit_key in E.
  pose proof (history_last _ _ _ Ha) as (r & Hr & Hld & _). rewrite Hr, Hld in E.
  destruct (audit_transition s a) as [a1|] eqn:Ht; [|discriminate].
  destruct (audit_row a1) as [r1|] eqn:Hr1; [|discriminate]. injection E as <- <-.
  destruct (transition_event _ _ _ _ _ _ Ha Ht Hr1) as (Hev & Hs & Hk).
  destruct (trails_append _ _ _ _ _ _ T Ha Hev Hs Hk) as [_ Hh].
  split; [by apply history_get_audit|]. split; [by apply audit_transition_facts in Ht as [-> _]|].
  by apply audit_transition_formal in Ht.
Qed.
End stale.
