(* ===== verification/PreviewSound.v ===== *)
(** * What a stored preview and its evidence guarantee

    The facts [_save_preview_revision_impl] establishes before it stores a revision, the
    integrity of evidence records, and what validated driver facts have shown. *)
From S2P Require Import Prelude PyValue Strings PyOps Canonical Receipts FormalPreview ExecutionStore.
From S2P Require Import WriteContract AuditRecords Evidence RemoteSnapshot Preflight Approvals.
From S2P Require Import PreviewValidation AuditBoundary PreviewStore PreviewFacts AuditTrail.

(** Case analysis along the guards of a computation that succeeded *)
Ltac guards :=
  repeat match goal with
         | H : (match ?c with Ok _ => _ | Err _ => _ end) = Ok _ |- _ => destruct c eqn:?; [|discriminate H]
         | H : (if ?b then Err _ else _) = Ok _ |- _ => destruct b eqn:?; [discriminate H|]
         end.

(** Case analysis on a membership in a literal list *)
Ltac cases_in K :=
  lazymatch type of K with
  | _ ∈ [] => by apply elem_of_nil in K
  | _ => apply elem_of_cons in K; destruct K as [K|K]; [|cases_in K]
  end.

Section sound.
Context `{PyLib}.

(** ** Evidence *)

(** The kind of a record fixes its declared source and its verification status *)
Definition evidence_kind_ok (r : EvidenceRecord) : Prop :=
  ev_source_kind r = "declared" ∧ is_Some (ev_declared_source r) ∧ ev_verification_status r = "declared_unverified"
  ∨ ev_source_kind r ∈ ["runtime"; "driver"] ∧ ev_declared_source r = None
    ∧ ev_verification_status r = ev_source_kind r +:+ "_verified".

(** Its identity is the hash of its binding, subject and digest *)
Definition evidence_id_ok (r : EvidenceRecord) : Prop :=
  evidence_id_of (ev_workspace_identity r) (ev_preview_id r) (ev_revision r) (ev_evidence_type r) (ev_subject_ref r)
    (ev_evidence_digest r) = Ok (ev_evidence_id r).

Lemma create_controlled_ok ws p rev et kind decl subj payload created src repo scope schema verified r :
  _create_controlled ws p rev et kind decl subj payload created src repo scope schema verified = Ok r →
  evidence_kind_ok r ∧ evidence_id_ok r ∧ ev_source_kind r = kind ∧ (verified = false → kind = "declared").
Proof.
  unfold _create_controlled. intros E. destruct (negb _) eqn:K; [discriminate|].
  destruct (negb verified && _) eqn:V; [discriminate|]. destruct verified; cbn [negb andb] in *.
  - destruct (_ || _) eqn:B; [discriminate|]. apply orb_false_iff in B as [B1 B2].
    apply negb_false_iff, bool_decide_eq_true in B1. apply bool_decide_eq_false, eq_None_not_Some in B2.
    guards. injection E as <-. split; [right; by repeat split|]. by repeat split.
  - apply negb_false_iff, bool_decide_eq_true in V. subst kind. destruct (bool_decide (decl = None)) eqn:D; [discriminate|].
    apply bool_decide_eq_false in D. guards. injection E as <-.
    split; [left; repeat split; by destruct decl|]. by repeat split.
Qed.

(** C33: Every evidence record read back from a document is of one of two kinds, declared by an
    input and unverified, or made by the runtime or a driver and verified, and carries the
    identity computed from its own binding, type, subject and digest. *)
Theorem evidence_from_dict_typed data r : evidence_from_dict data = Ok r → evidence_kind_ok r ∧ evidence_id_ok r.
Proof.
  unfold evidence_from_dict. intros E. guards. destruct (bool_decide (_ = "declared")) eqn:D.
  - unfold declared_from_dict in E. guards. injection E as <-.
    match goal with C : _create_controlled _ _ _ _ _ _ _ _ _ _ _ _ _ _ = Ok _ |- _ => apply create_controlled_ok in C end.
    by destruct_and!.
  - unfold controlled_from_dict in E. cbn zeta in E. guards. injection E as <-. bools. subst. split; [right|done].
    cbn. split; [done|]. split; [done|].
    match goal with K : _ ∈ ["runtime"; "driver"] |- _ =>
      cases_in K; by rewrite K
    end.
Qed.

(** Declared input never becomes verified evidence: whatever kind an input names, the record
    [create] answers with is declared and unverified. *)
Theorem declared_evidence_unverified ws p rev et kind decl subj payload created src repo scope schema r :
  evidence_create ws p rev et kind decl subj payload created src repo scope schema = Ok r →
  ev_source_kind r = "declared" ∧ ev_verification_status r = "declared_unverified" ∧ evidence_id_ok r.
Proof.
  unfold evidence_create. intros E. destruct (bool_decide _); [discriminate|].
  apply create_controlled_ok in E as (K & I & Hk & Hd). specialize (Hd eq_refl). subst kind.
  destruct K as [(? & ? & ?)|(K & _)]; [done|]. rewrite Hd in K. cases_in K; discriminate.
Qed.

(** ** Driver facts *)

(** What phase one of a preflight has shown of the answer it accepted *)
Record facts_sound (driver : pyval → pyval → read_reply) (repository scope trusted : pyval) (f : ValidatedRemoteFacts)
  : Prop := {
  fs_answer : driver repository scope = Replied (response f);
  fs_repository : ∃ c, normalize_repository repository = Ok c ∧ normalize_repository (canonical_repository (response f)) = Ok c
                       ∧ canonical_remote_content_payload f = _remote_content_payload (response f) (VStr c) trusted;
  fs_source : source_identity (response f) = trusted ∧ nonblank trusted = true;
  fs_read : get (permissions (response f)) "read" = VBool true;
  fs_capabilities : get (capabilities (response f)) "issues" = VBool true
                    ∧ get (capabilities (response f)) "relationships" = VBool true;
  fs_complete : query_complete (response f) = VBool true ∧ pagination_complete (response f) = VBool true;
  fs_evidence : sequence_items (evidence_material (response f)) ≠ [];
  fs_digest : digest (canonical_remote_content_payload f) = Ok (facts_content_digest f)
              ∧ remote_content_digest (response f) = VStr (facts_content_digest f);
}.

Lemma fail_if_nil b code detail : fail_if b code detail = [] → b = false.
Proof. by destruct b. Qed.

Lemma requirement_met kind granted names name :
  requirement_failures kind granted names = [] → name ∈ names → get granted name = VBool true.
Proof.
  unfold requirement_failures. rewrite concat_nil, Forall_map, Forall_forall. intros Hn Hin. specialize (Hn _ Hin).
  simpl in Hn. destruct (get granted name) as [|[]| | | | | | | | |]; done.
Qed.

Lemma first_occurrences_elem x l seen : x ∈ l → x ∉ seen → x ∈ first_occurrences l seen.
Proof.
  revert seen; induction l as [|y l IH]; intros seen Hin Hs; [by apply not_elem_of_nil in Hin|]. simpl.
  apply elem_of_cons in Hin as [->|Hin].
  - rewrite bool_decide_eq_false_2 by done. by left.
  - case_bool_decide; [by apply IH|]. destruct (decide (x = y)) as [->|Hne]; [by left|]. right. apply IH; [done|].
    intros [->|?]%elem_of_cons; done.
Qed.

Lemma required_minimum values minimum names x :
  _normalize_requirements values minimum = Some names → x ∈ minimum → x ∈ names.
Proof.
  unfold _normalize_requirements. destruct (match values with VNone => _ | _ => _ end) as [l|]; [|discriminate].
  destruct (stripped_distinct l []) as [ns|]; [|discriminate]. intros [= <-] Hx. apply first_occurrences_elem.
  - apply elem_of_app. by left.
  - apply not_elem_of_nil.
Qed.

(** C12: Driver facts are validated only when the answer names the requested repository and the
    trusted driver, grants the read permission and the minimum capabilities, is complete, carries
    evidence, and its content digest is the digest recomputed from everything it reports. *)
Theorem validated_facts_sound driver ticket repository scope trusted perms caps f :
  validate_driver_facts driver ticket repository scope trusted perms caps = Ok (inr f) →
  facts_sound driver repository scope trusted f.
Proof.
  unfold validate_driver_facts. intros E. destruct (normalize_repository repository) as [c|] eqn:Hrep; [|discriminate].
  destruct (_normalize_requirements perms _) as [rp|] eqn:Hp; [|discriminate].
  destruct (_normalize_requirements caps _) as [rc|] eqn:Hc; [|discriminate].
  match type of E with (if ?b then _ else _) = _ => destruct b eqn:B1; [discriminate|] end.
  destruct (driver repository scope) as [r| | |] eqn:Hd; try discriminate.
  destruct (negb (_response_shape_is_valid r)) eqn:Hshape; [discriminate|].
  match type of E with (if ?b then _ else _) = _ => destruct b eqn:B2; [discriminate|] end. cbn zeta in E.
  set (canonical := match normalize_repository (canonical_repository r) with Ok c => Some c | Err _ => None end) in E.
  destruct (collect_failures _ _ _ _ _ _ _ _) as [fs|] eqn:Hf; [|discriminate].
  destruct fs; [|discriminate]. destruct canonical as [c'|] eqn:Hcan; [|discriminate].
  destruct (digest _) as [d|[]] eqn:Hdig; try discriminate.
  destruct (negb (py_eq (remote_content_digest r) _)) eqn:Hcd; [discriminate|]. injection E as <-.
  unfold collect_failures in Hf. guards. apply Ok_inj in Hf. repeat (apply app_nil in Hf as [? Hf]).
  repeat match goal with H : fail_if _ _ _ = [] |- _ => apply fail_if_nil in H end.
  repeat rewrite orb_false_iff in B1. repeat rewrite orb_false_iff in B2. bools.
  subst canonical. destruct (normalize_repository (canonical_repository r)) as [c''|] eqn:Hcr; [|discriminate].
  assert (is_bool (query_complete r) = true ∧ is_bool (pagination_complete r) = true) as [Q P].
  { unfold _response_shape_is_valid in Hshape. bools. done. }
  simplify_eq. split; cbn; try by eauto.
  - split; [|done]. destruct trusted; try discriminate. by apply py_eq_str.
  - eapply requirement_met; [done|]. eapply required_minimum; [done|]. by left.
  - split; (eapply requirement_met; [done|]; eapply required_minimum; [done|]); [by left|by right; left].
  - split; [by destruct (query_complete r) as [|[]| | | | | | | | |]|].
    by destruct (pagination_complete r) as [|[]| | | | | | | | |].
  - split; [done|]. by apply py_eq_str.
Qed.

(** Validated facts are bound at most once: after a binding, successful or not, binding the same
    facts again fails. *)
Theorem facts_bound_once tickets f b t schema b' t' schema' :
  snd (bind_validated_facts (fst (bind_validated_facts tickets f b t schema)) f b' t' schema')
  = Err (ValueError "validated_remote_facts_required").
Proof.
  assert (∀ l, facts_id f ∉ List.filter (λ i, negb (i =? facts_id f)) l) as Hf.
  { intros l Hin%list_elem_of_In. apply filter_In in Hin as [_ Hin]. by rewrite Nat.eqb_refl in Hin. }
  unfold bind_validated_facts at 2. case_bool_decide as B; cbn [fst]; unfold bind_validated_facts.
  - by rewrite bool_decide_eq_false_2.
  - by rewrite bool_decide_eq_false_2.
Qed.

(** ** Stored previews *)

(** What a stored canonical document guarantees at its level *)
Record preview_sound (ws : string) (promotion : option RuntimePromotion) (n : pyval) (level : string) : Prop := {
  sd_workspace : get n "workspace_identity" = VStr ws;
  sd_level : get n "preview_level" = VStr level ∧ _runtime_preview_level n = Ok level;
  sd_sealed : ∃ d, digest (without_key "sealed_preview_digest" n) = Ok d ∧ get n "sealed_preview_digest" = VStr d;
  sd_conceptual : level = CONCEPTUAL →
    ∀ k, k ∈ ["repository_identity"; "remote_snapshot"; "remote_snapshot_digest"; "remote_authority"] → get n k = VNone;
  sd_aware : level ≠ CONCEPTUAL →
    ∃ p authority, promotion = Some p ∧ remote_authority (pr_trust_context p) = Ok authority
      ∧ get n "remote_authority" = VStr authority
      ∧ get n "remote_snapshot_digest" = VStr (pr_remote_snapshot_digest p);
  sd_eligible : level = WRITE_ELIGIBLE →
    level_evaluation n = Ok true ∧ truthy (get n "blockers") = false
    ∧ get (get n "remote_snapshot") "query_complete" = VBool true
    ∧ get (get n "remote_snapshot") "pagination_complete" = VBool true;
}.

Lemma invariants_facts n ws promotion u :
  validate_sealed_preview_invariants n ws promotion = Ok u →
  if py_eq (get n "preview_level") (VStr CONCEPTUAL) then
    ∀ k, k ∈ ["repository_identity"; "remote_snapshot"; "remote_snapshot_digest"; "remote_authority"] → get n k = VNone
  else
    ∃ p authority, promotion = Some p ∧ remote_authority (pr_trust_context p) = Ok authority
      ∧ get n "remote_authority" = VStr authority
      ∧ get n "remote_snapshot_digest" = VStr (pr_remote_snapshot_digest p).
Proof.
  unfold validate_sealed_preview_invariants. cbn zeta. intros E. guards.
  destruct (py_eq (get n "preview_level") (VStr CONCEPTUAL)).
  - guards. intros k Hk. rewrite existsb_false in *. specialize (Heqb3 k Hk). by bools.
  - guards. destruct promotion as [p|]; [|discriminate]. guards. exists p. eexists. split; [done|]. split; [done|]. bools. by rewrite !py_eq_str in *.
Qed.

Lemma runtime_level_eligible n :
  _runtime_preview_level n = Ok WRITE_ELIGIBLE →
  level_evaluation n = Ok true ∧ truthy (get n "blockers") = false
  ∧ get (get n "remote_snapshot") "query_complete" = VBool true
  ∧ get (get n "remote_snapshot") "pagination_complete" = VBool true.
Proof.
  unfold _runtime_preview_level. cbn zeta. destruct (_ || _); [discriminate|].
  destruct (_ && _) eqn:B; [|discriminate]. apply andb_true_iff in B as [B1 B2].
  rewrite bool_decide_eq_true in B1. rewrite bool_decide_eq_true in B2.
  destruct (level_evaluation n) as [[]|[]]; try discriminate. by destruct (truthy _).
Qed.

(** C6: A revision that [_save_preview_revision_impl] adds is stored as the latest one, and its
    document is sound: it belongs to the workspace, its sealed digest is that of its content, its
    level is the one the runtime computes, a conceptual preview carries no remote facts, any other
    is bound to a promotion of the trusted driver, and a write-eligible one has a complete
    snapshot, no blockers and operations that the evaluation accepts. *)
Theorem saved_preview_sound st req p rev plan rem ops repo items workspace canonical level ev promo db db' :
  reachable_store st db →
  _save_preview_revision_impl st req p rev plan rem ops repo items workspace canonical level ev promo db = Ok db' →
  record_at (ps_workspace st) "preview" p rev db = None →
  latest_revision (ps_workspace st) "preview" p db' = Some rev
  ∧ ∃ n doc l, record_at (ps_workspace st) "preview" p rev db' = Some (Doc doc)
      ∧ doc = jsonify (preview_document req p rev n) ∧ preview_sound (ps_workspace st) promo n l.
Proof.
  intros R Hsave Hn. destruct (store_steps_trails _ _ _ R trails_empty) as [T _].
  unfold _save_preview_revision_impl in Hsave.
  destruct (check_save _ _ _ _ _ _ _ _ _ _ _ _ _ _) as [n|] eqn:Hc; [|discriminate].
  apply or_value_error_Ok, save_transaction_facts in Hsave as [[_ Hs]|(_ & _ & doc & Hdoc & _ & Hlt & Hdb & Ho)]; [| |done].
  { rewrite Hn in Hs. by destruct Hs. }
  split.
  - apply latest_revision_Some. unfold record_at in *. rewrite Hdb. split; [eauto|]. intros z Hz.
    destruct (decide (z = rev)) as [->|Hne]; [done|]. rewrite Ho in Hz; [|done|congruence]. apply Hlt in Hz. lia.
  - unfold check_save in Hc. destruct canonical as [canonical|]; [|by destruct (match workspace with Some _ => _ | None => _ end)].
    guards. apply Ok_inj in Hc. subst. exists n, doc, a0. split; [done|]. split; [by apply json_encode_jsonify|].
    match goal with L : negb (py_eq (get n "preview_level") _) = false |- _ => rename L into Hlev end.
    apply negb_false_iff, py_eq_str in Hlev.
    match goal with V : _validate_preview_payload _ _ _ _ _ _ _ _ _ _ _ = Ok n |- _ => rename V into Hv end.
    unfold _validate_preview_payload in Hv. cbn zeta in Hv. guards. apply Ok_inj in Hv. subst.
    match goal with I : validate_sealed_preview_invariants n _ _ = Ok _ |- _ => apply invariants_facts in I; rename I into Hinv end.
    bools. rewrite !py_eq_str in *. rewrite Hlev in Hinv. split; eauto.
    + intros ->. by rewrite (proj2 (py_eq_str _ _) eq_refl) in Hinv.
    + intros Hne. destruct (py_eq (VStr a0) (VStr CONCEPTUAL)) eqn:C; [|done]. apply py_eq_str in C. by injection C as ->.
    + intros ->. by apply runtime_level_eligible.
Qed.
End sound.
