(* ===== verification/AuditorFacts.v ===== *)
(** * What a committed audit covers

    [validate_committed_audit] inverted: every semantic rule of the registry is decided once,
    every finding is referenced once and carries the identity of its content, and the result
    follows from the decisions. *)
From S2P Require Import Prelude PyValue Strings PyOps Canonical FormalPreview WriteOperations Preflight.
From S2P Require Import AuditRecords PreviewValidation AuditBoundary PreviewStore Rules Auditor PreviewFacts.
From S2P Require Import AuditTrail PreviewSound.

Section facts.
Context `{PyLib}.

(** The outcomes an evaluation may have *)
Definition decided (applicable : bool) (entry : pyval) : Prop :=
  if applicable then field_text "outcome" entry ∈ map outcome_value [OUT_PASSED; OUT_FAILED; OUT_UNKNOWN; OUT_BLOCKED]
  else field_text "outcome" entry = outcome_value OUT_NOT_APPLICABLE ∧ text_list (get entry "finding_refs") = []
       ∧ text_list (get entry "evidence_refs") = [].

Definition clean_outcome (entry : pyval) : Prop :=
  field_text "outcome" entry ∈ map outcome_value [OUT_PASSED; OUT_NOT_APPLICABLE].

Definition finding_identity (a : AuditRecord) (rule : RuleDefinition) (outcome : string) (f : pyval) : result string :=
  build_finding_id (ad_workspace_identity a) (ad_preview_id a) (ad_revision a) (field_text "rule_id" f) (rule_version rule)
    outcome (field_text "result_class" f) (field_text "severity" f) (field_text "title" f) (field_text "rationale" f)
    (text_list (get f "evidence_refs")) (text_list (get f "affected_item_ids")) (field_text "required_action" f)
    (the_opt_str (get f "suggested_resolution")).

Record audit_covers (a : AuditRecord) (canonical : pyval) (registry : RuleRegistry) : Prop := {
  cv_once : NoDup (map (field_text "rule_id") (ad_rule_evaluations a))
            ∧ ∀ id, id ∈ map (field_text "rule_id") (ad_rule_evaluations a) ↔ id ∈ map fst (rule_table registry);
  cv_rules : ∀ rule, rule ∈ map snd (rule_table registry) →
    ∃ e applicable, e ∈ ad_rule_evaluations a ∧ field_text "rule_id" e = rule_id rule
      ∧ field_text "rule_version" e = rule_version rule ∧ rule_is_applicable rule canonical = Ok applicable
      ∧ decided applicable e;
  cv_referenced : NoDup (map (field_text "finding_id") (ad_findings a))
    ∧ concat (map (λ e, text_list (get e "finding_refs")) (ad_rule_evaluations a))
      ≡ₚ map (field_text "finding_id") (ad_findings a);
  cv_findings : ∀ f, f ∈ ad_findings a →
    ∃ rule e outcome, dict_get (field_text "rule_id" f) (rule_table registry) = Some rule
      ∧ e ∈ ad_rule_evaluations a ∧ field_text "rule_id" e = field_text "rule_id" f
      ∧ semantic_outcome_of (field_text "outcome" e) = Ok outcome
      ∧ expected_class rule outcome = Some (field_text "result_class" f)
      ∧ finding_identity a rule (field_text "outcome" e) f = Ok (field_text "finding_id" f);
  cv_result : ad_result a = PASSED ↔ ∀ e, e ∈ ad_rule_evaluations a → clean_outcome e;
  cv_passed : ad_result a = PASSED → ad_findings a = [];
  cv_payload : ∃ version d payload, ad_rule_registry_version a = VStr version ∧ ad_rule_registry_digest a = VStr d
    ∧ registry_version registry = version ∧ registry_digest registry = Ok d
    ∧ digest (committed_payload a version d) = Ok payload ∧ ad_audit_payload_digest a = VStr payload;
  cv_intact : audit_verify_digest a = Ok true;
}.

Lemma all_r_Ok {A} (f : A → result unit) l u : all_r f l = Ok u → ∀ x, x ∈ l → f x = Ok tt.
Proof.
  induction l as [|y l IH]; simpl; intros E x Hx; [by apply elem_of_nil in Hx|].
  destruct (f y) as [[]|] eqn:?; [|discriminate]. apply elem_of_cons in Hx as [->|Hx]; [done|]. by apply IH.
Qed.

Lemma find_entry_Some k v l e : find_entry k v l = Some e → e ∈ l ∧ field_text k e = v.
Proof. intros F%find_some. destruct F as [Hin F]. split; [by apply list_elem_of_In|]. by bools. Qed.

(** The outcome of a valid evaluation is a text *)
Lemma evaluation_outcome e : evaluation_valid e = true → get e "outcome" = VStr (field_text "outcome" e).
Proof.
  unfold evaluation_valid. cbn [forallb]. rewrite !andb_true_iff. intros [[_ (_ & _ & Ho & _)] _].
  unfold field_text. by destruct (get e "outcome").
Qed.

Lemma expected_result_PASSED outcomes :
  expected_result outcomes = PASSED ↔ ∀ s, s ∈ ["Blocked"; "Unknown"; "Failed"] → VStr s ∉ outcomes.
Proof.
  assert (∀ s, existsb (py_eq (VStr s)) outcomes = true ↔ VStr s ∈ outcomes) as Hin.
  { intros s. rewrite existsb_exists. split.
    - intros (v & Hv & E). assert (v = VStr s) as ->; [|by apply list_elem_of_In].
      destruct v; try discriminate; simpl in E. by apply bool_decide_eq_true in E as ->.
    - intros Hv. exists (VStr s). split; [by apply list_elem_of_In|]. by apply py_eq_str. }
  unfold expected_result. rewrite <- (Forall_forall (λ s, VStr s ∉ outcomes)), !Forall_cons, Forall_nil, <- !Hin.
  destruct (existsb (py_eq (VStr "Blocked")) outcomes), (existsb (py_eq (VStr "Unknown")) outcomes),
    (existsb (py_eq (VStr "Failed")) outcomes); naive_solver.
Qed.

Lemma decided_outcome applicable e :
  decided applicable e →
  clean_outcome e ↔ ∀ s, s ∈ ["Blocked"; "Unknown"; "Failed"] → field_text "outcome" e ≠ s.
Proof.
  rewrite <- (Forall_forall (λ s, field_text "outcome" e ≠ s)), !Forall_cons, Forall_nil.
  unfold decided, clean_outcome. destruct applicable; cbn [map outcome_value].
  - rewrite !elem_of_cons, elem_of_nil. intros Hd. split.
    + intros Hc. destruct_or?; try done; rewrite Hc; done.
    + intros (? & ? & ? & _). naive_solver.
  - intros (-> & _ & _). split; [done|]. intros _. right. by left.
Qed.

Lemma rule_covered_facts canonical ids evaluations rule u :
  rule_covered canonical ids evaluations rule = Ok u →
  ∃ e applicable, e ∈ evaluations ∧ field_text "rule_id" e = rule_id rule
    ∧ field_text "rule_version" e = rule_version rule ∧ rule_is_applicable rule canonical = Ok applicable
    ∧ decided applicable e.
Proof.
  unfold rule_covered. destruct (find_entry _ _ _) as [e|] eqn:F; [|discriminate]. apply find_entry_Some in F as [Hin Hid].
  intros E. guards. bools. exists e. eexists. split; [done|]. split; [done|]. split; [done|]. split; [done|].
  match goal with D : (if ?a then _ else _) = false |- decided ?a _ => destruct a; bools; simpl; by rewrite ?negb_false_iff in * end.
Qed.

Lemma finding_covered_facts a table ids item_ids evaluations f u :
  finding_covered a table ids item_ids evaluations f = Ok u →
  ∃ rule e outcome, dict_get (field_text "rule_id" f) table = Some rule ∧ e ∈ evaluations
    ∧ field_text "rule_id" e = field_text "rule_id" f ∧ semantic_outcome_of (field_text "outcome" e) = Ok outcome
    ∧ expected_class rule outcome = Some (field_text "result_class" f)
    ∧ finding_identity a rule (field_text "outcome" e) f = Ok (field_text "finding_id" f).
Proof.
  unfold finding_covered. cbn zeta. destruct (dict_get _ table) as [rule|] eqn:Hr; [|discriminate].
  destruct (find_entry _ _ _) as [e|] eqn:F; [|discriminate]. apply find_entry_Some in F as [Hin Hid]. intros E.
  guards. bools. exists rule, e. eexists. split; [done|]. split; [done|]. split; [done|]. split; [done|]. split; [done|].
  unfold finding_identity. by subst.
Qed.

Lemma references_valid_clean findings e :
  references_valid findings e = true → clean_outcome e → text_list (get e "finding_refs") = [].
Proof.
  unfold references_valid, clean_outcome. intros [E _]%andb_true_iff Hc. apply Bool.eqb_prop in E.
  rewrite bool_decide_eq_true_2 in E by done. symmetry in E. by apply bool_decide_eq_true in E.
Qed.

(** [validate_committed_audit] accepts only audits that cover the registry *)
Lemma committed_audit_covers a canonical evidence registry u :
  validate_committed_audit a canonical evidence registry = Ok u → audit_covers a canonical registry.
Proof.
  unfold validate_committed_audit. cbn zeta. intros E. guards.
  match goal with V : _validate_audit_children _ _ = Ok _ |- _ => rename V into Hch end.
  unfold _validate_audit_children in Hch.
  destruct (forallb evaluation_valid _ && _) eqn:Hv; [|discriminate]. apply andb_true_iff in Hv as [Hev _].
  rewrite forallb_true in Hev.
  match goal with R : all_r (rule_covered _ _ _) _ = Ok _ |- _ => pose proof (all_r_Ok _ _ _ R) as Hrules end.
  match goal with R : all_r (finding_covered _ _ _ _ _) _ = Ok _ |- _ => pose proof (all_r_Ok _ _ _ R) as Hfs end.
  bools. rewrite forallb_true in *.
  match goal with R : sorted_strings _ = sorted_strings _ |- _ => apply sorted_strings_perm in R; rename R into Href end.
  match goal with R : ad_result a = expected_result _ |- _ => rename R into Hres end.
  assert (∀ e, e ∈ ad_rule_evaluations a → ∃ applicable, decided applicable e) as Hdec.
  { intros e He. assert (field_text "rule_id" e ∈ map fst (rule_table registry)) as Hid.
    { match goal with R : ∀ x, x ∈ _ ↔ x ∈ map fst _ |- _ => apply R end. by apply list_elem_of_fmap_2. }
    apply list_elem_of_fmap in Hid as ([k rule] & Hk & Hr). simpl in Hk. subst k.
    pose proof (dict_by_elem _ _ _ _ Hr) as [Hk _].
    destruct (rule_covered_facts _ _ _ _ _ (Hrules rule (list_elem_of_fmap_2 snd _ _ Hr))) as (e' & ap & He' & Hid' & _ & _ & D).
    exists ap. by rewrite (key_inj (field_text "rule_id") (ad_rule_evaluations a) e e') by congruence. }
  assert (ad_result a = PASSED ↔ ∀ e, e ∈ ad_rule_evaluations a → clean_outcome e) as Hpass.
  { rewrite Hres, expected_result_PASSED. split.
    - intros Hn e He. destruct (Hdec e He) as [ap D]. apply (decided_outcome ap e D). intros s Hs Heq. apply (Hn s Hs).
      apply list_elem_of_fmap. exists e. split; [|done]. by rewrite evaluation_outcome, Heq by auto.
    - intros Hc s Hs Hin. apply list_elem_of_fmap in Hin as (e & Ho & He). destruct (Hdec e He) as [ap D].
      rewrite evaluation_outcome in Ho by auto. injection Ho as Ho. exact (proj1 (decided_outcome ap e D) (Hc e He) s Hs (eq_sym Ho)). }
  split.
  - by split.
  - intros rule Hr. eapply rule_covered_facts, Hrules, Hr.
  - by split.
  - intros f Hf. eapply finding_covered_facts, Hfs, Hf.
  - done.
  - intros Hp. assert (concat (map (λ e, text_list (get e "finding_refs")) (ad_rule_evaluations a)) = []) as C.
    { apply concat_nil, Forall_map, Forall_forall. intros e He. apply (references_valid_clean (ad_findings a)); [by auto|].
      by apply Hpass. }
    rewrite C in Href. apply Permutation_nil in Href. by apply map_eq_nil in Href.
  - do 3 eexists. split_and!; [by apply py_eq_str|by apply py_eq_str|done|done|done|]. by apply py_eq_str_l.
  - congruence.
Qed.

(** What the commit answers with, without any assumption on the tables *)
Lemma commit_answer st minted a authority db r db' :
  _apply_audit_commit_atomic st minted a authority db = Ok (r, db') →
  ad_status a = ACTIVE ∧ (r = a ∨ db' = db ∧ of_preview (ad_preview_id a) (ad_revision a) r && is_active r = true
                                  ∧ py_eq (ad_audit_payload_digest r) (ad_audit_payload_digest a) = true).
Proof.
  intros E%or_value_error_Ok. unfold commit_transaction in E. destruct (latest_revision _ _ _ _); [|discriminate]. guards.
  match goal with V : _verify_candidate _ _ _ _ _ _ = Ok ?u |- _ =>
    destruct u; apply verify_candidate_facts in V as [Hact _] end.
  split; [done|]. destruct (existing_commit _ _) as [x|] eqn:F.
  - injection E as <- <-. right. apply find_active in F as (_ & ? & ?). done.
  - guards. injection E as <- <-. by left.
Qed.

Lemma audit_create_facts x a :
  audit_create x = Ok a →
  ad_preview_id a = ad_preview_id x ∧ ad_revision a = ad_revision x ∧ ad_status a = ACTIVE ∧ audit_verify_digest a = Ok true
  ∧ ∃ d, a = audit_set_digest d (audit_set_status ACTIVE x).
Proof.
  unfold audit_create. intros E. guards. match goal with C : audit_check _ = Ok _ |- _ => apply audit_check_id in C; subst end.
  apply audit_with_digest_facts in E as (d & _ & -> & Hv & _). split_and!; try done. by exists d.
Qed.

(** C19: An audit that [record_audit] answers with is an active audit of the requested revision that
    carries the payload of one covering the registry: each semantic rule decided exactly once and
    as its applicability allows, each finding referenced exactly once and identified by its
    content, and the result Passed exactly when every applicable rule passed, with no finding. *)
Theorem recorded_audit_covers u minted token uuid now p rev expected evaluations findings db r db' :
  auditor_record_audit u minted token uuid now p rev expected evaluations findings db = Ok (r, db') →
  ∃ context a, get_context u p rev db = Ok context ∧ expected = ac_audit_context_digest context
    ∧ audit_covers a (cx_sealed_preview (ac_context context)) (au_registry u)
    ∧ ad_preview_id r = cx_preview_id (ac_context context) ∧ ad_revision r = cx_revision (ac_context context)
    ∧ ad_status r = ACTIVE ∧ py_eq (ad_audit_payload_digest r) (ad_audit_payload_digest a) = true
    ∧ (r = a ∨ db' = db).
Proof.
  unfold auditor_record_audit. cbn zeta. intros E.
  destruct (rev <? 1)%Z; [discriminate|]. destruct (negb (is_sha256 expected)); [discriminate|].
  destruct (get_context u p rev db) as [context|]; [|discriminate].
  destruct (negb (bool_decide _)) eqn:Hx; [discriminate|]. bools.
  destruct (_validate _ _ _ _) as [[entries finding_entries]|]; [|discriminate].
  destruct (audit_candidate _ _ _ _ _ _ _) as [a|] eqn:Ha; [|discriminate].
  destruct (validate_committed_audit _ _ _ _) as [[]|] eqn:Hv; [|discriminate]. apply committed_audit_covers in Hv.
  destruct (_mint_audit_commit_authority _ _ _ _ _); [|discriminate]. exists context, a. split; [done|]. split; [done|]. split; [done|].
  unfold audit_candidate in Ha. cbn zeta in Ha. guards. apply audit_create_facts in Ha as (Hp & Hr & _ & _ & _).
  cbn in Hp, Hr. rewrite <- Hp, <- Hr. apply commit_answer in E as [Hact [->|(-> & Hof & Hpd)]].
  - split_and!; try done; [|by left]. destruct (cv_payload _ _ _ Hv) as (? & ? & pd & _ & _ & _ & _ & _ & ->). by apply py_eq_str_l.
  - unfold of_preview, is_active in Hof. bools. split_and!; try done. by right.
Qed.
End facts.

(** ** What the checked drafts look like

    [_validate] inverted: every draft belongs to one applicable rule of the registry, every
    finding to one draft, and the entries of the audit are those of the drafts and of the rules
    that do not apply, in order. *)
(** ** Reading back what was written *)
Lemma text_list_vstrs l : text_list (vstrs l) = l.
Proof. unfold text_list, vstrs. simpl. rewrite map_map. by rewrite map_id. Qed.

Lemma dict_get_by {A} (key : A → string) l x : NoDup (map key l) → x ∈ l → dict_get (key x) (dict_by key l) = Some x.
Proof.
  intros Hd. rewrite dict_by_distinct by done. induction l as [|y l IH]; simpl; intros Hx; [by apply elem_of_nil in Hx|].
  apply NoDup_cons in Hd as [Hy Hd]. apply elem_of_cons in Hx as [->|Hx]; [by rewrite bool_decide_eq_true_2|].
  rewrite bool_decide_eq_false_2; [by apply IH|]. intros E. destruct Hy. rewrite <- E. by apply list_elem_of_fmap_2.
Qed.

Lemma find_entry_unique k l e : NoDup (map (field_text k) l) → e ∈ l → find_entry k (field_text k e) l = Some e.
Proof.
  unfold find_entry. induction l as [|y l IH]; simpl; intros Hd He; [by apply elem_of_nil in He|].
  apply NoDup_cons in Hd as [Hy Hd]. apply elem_of_cons in He as [->|He]; [by rewrite bool_decide_eq_true_2|].
  rewrite bool_decide_eq_false_2; [by apply IH|]. intros E. destruct Hy. rewrite E. by apply list_elem_of_fmap_2.
Qed.

Definition nonempty (s : string) : bool := negb (bool_decide (s = "")).

Lemma nonempty_str s : is_nonempty_str (VStr s) = nonempty s.
Proof. by destruct s. Qed.

(** [_validate_audit_children] on entries of the auditor's own shape *)
Lemma distinct_texts_vstrs l : distinct_texts (vstrs l) = forallb nonempty l && no_dups l.
Proof.
  unfold distinct_texts. rewrite text_list_vstrs. f_equal. unfold vstrs, list_all. induction l as [|s l IH]; [done|].
  cbn [map forallb]. rewrite IH. unfold nonempty. destruct s; done.
Qed.

Lemma evaluation_entry_valid r v o ra f e :
  evaluation_valid (evaluation_entry r v o ra f e)
  = nonempty r && nonempty v && nonempty ra && (forallb nonempty f && no_dups f) && (forallb nonempty e && no_dups e).
Proof.
  rewrite <- !distinct_texts_vstrs. transitivity (nonempty r && nonempty v && nonempty ra
    && (distinct_texts (vstrs f) && (distinct_texts (vstrs e) && true))); [|by rewrite andb_true_r, andb_assoc].
  unfold evaluation_valid, nonempty. by destruct r, v, ra, o.
Qed.

Section drafts.
Context `{PyLib}.

Lemma semantic_outcome_value s o : semantic_outcome_of s = Ok o → s = outcome_value o.
Proof.
  unfold semantic_outcome_of. destruct (List.find _ _) as [x|] eqn:F; [|discriminate]. intros [= <-].
  apply find_some in F as [_ F]. by apply bool_decide_eq_true in F.
Qed.
Lemma result_class_value s c : result_class_of s = Ok c → s = class_value c.
Proof.
  unfold result_class_of. destruct (List.find _ _) as [x|] eqn:F; [|discriminate]. intros [= <-].
  apply find_some in F as [_ F]. by apply bool_decide_eq_true in F.
Qed.

Lemma build_finding_id_nonempty ws p rev rule v o c sev t ra ev af act sug id :
  build_finding_id ws p rev rule v o c sev t ra ev af act sug = Ok id →
  forallb nonempty [p; rule; v; sev; t; ra; act; id] = true ∧ sev ∈ SEVERITIES
  ∧ forallb nonempty (ev ++ af) = true ∧ no_dups ev = true ∧ no_dups af = true.
Proof.
  unfold build_finding_id. intros E. guards. injection E as <-.
  repeat match goal with B : _ || _ = false |- _ => apply orb_false_iff in B as [? ?] end.
  repeat match goal with B : negb _ = false |- _ => apply negb_false_iff in B end.
  assert (∀ l, existsb (λ s, bool_decide (s = "")) l = false → forallb nonempty l = true) as Hn.
  { intros l B. rewrite existsb_false in B. apply forallb_true. intros x Hx. unfold nonempty. by rewrite B. }
  rewrite bool_decide_eq_true in *. split_and!; try done; [|by apply Hn].
  match goal with B : existsb _ [p; _; _; _; _; _; _] = false |- _ => apply Hn in B; cbn [forallb] in * end.
  rewrite !andb_true_iff in *. by destruct_and!.
Qed.

Lemma build_finding_id_class ws p rev rule v o c sev t ra ev af act sug id :
  build_finding_id ws p rev rule v o c sev t ra ev af act sug = Ok id → nonempty o = true ∧ nonempty c = true.
Proof.
  unfold build_finding_id. intros E. guards.
  match goal with O : semantic_outcome_of _ = Ok ?m |- _ => apply semantic_outcome_value in O as ->; destruct m end;
    match goal with C : result_class_of _ = Ok ?m |- _ => apply result_class_value in C as ->; by destruct m end.
Qed.

(** The identity of a finding does not depend on the order of its references *)
Lemma build_finding_id_sorted ws p rev rule v o c sev t ra ev af act sug :
  build_finding_id ws p rev rule v o c sev t ra (sorted_strings ev) (sorted_strings af) act sug
  = build_finding_id ws p rev rule v o c sev t ra ev af act sug.
Proof.
  unfold build_finding_id, sorted_strings. rewrite !sort_by_idemp.
  rewrite (no_dups_perm _ _ (sort_by_perm id ev)), (no_dups_perm _ _ (sort_by_perm id af)).
  by rewrite (existsb_perm _ (sort_by id ev ++ sort_by id af) (ev ++ af)) by (by rewrite !sort_by_perm).
Qed.

Lemma finding_entry_valid f id v o :
  forallb nonempty [id; fd_rule_id f; v; o; fd_result_class f; fd_severity f; fd_title f; fd_rationale f;
                    fd_required_action f] = true →
  forallb nonempty (fd_evidence_refs f ++ fd_affected_item_ids f) = true →
  no_dups (fd_evidence_refs f) = true → no_dups (fd_affected_item_ids f) = true →
  finding_valid (finding_entry f id v o) = true.
Proof.
  intros Hn Hl He Ha. rewrite forallb_app, andb_true_iff in Hl. destruct Hl as [Hle Hla].
  assert (∀ l, forallb nonempty l = true → no_dups l = true → distinct_texts (vstrs (sorted_strings l)) = true) as Hd.
  { intros l H1 H2. unfold sorted_strings.
    by rewrite distinct_texts_vstrs, (forallb_perm _ _ _ (sort_by_perm Datatypes.id l)), (no_dups_perm _ _ (sort_by_perm Datatypes.id l)), H1, H2. }
  cbn [forallb] in Hn. rewrite !andb_true_iff in Hn. destruct_and!.
  transitivity (forallb (λ s, is_nonempty_str (VStr s))
                  [id; fd_rule_id f; v; o; fd_result_class f; fd_severity f; fd_title f; fd_rationale f; fd_required_action f]
                && none_or is_str (class_field (fd_suggested_resolution f))
                && (distinct_texts (vstrs (sorted_strings (fd_evidence_refs f)))
                    && (distinct_texts (vstrs (sorted_strings (fd_affected_item_ids f))) && true))); [reflexivity|].
  rewrite !Hd by done. cbn [forallb]. rewrite !nonempty_str.
  repeat match goal with N : nonempty _ = true |- _ => rewrite N; clear N end. by destruct (fd_suggested_resolution f).
Qed.

(** ** The registry and the rules that apply *)
Definition registry_ok (registry : RuleRegistry) : bool :=
  no_dups (map rule_id (semantic_rules registry))
  && forallb (λ r, mandatory r && nonempty (rule_id r) && nonempty (rule_version r)) (semantic_rules registry).

Definition applies (canonical : pyval) (rule : RuleDefinition) : bool :=
  match rule_is_applicable rule canonical with Ok b => b | Err _ => false end.
Definition reason (b : bool) : string := if b then "required by registry" else "no matching relationship or remote evidence".
Definition context_of (canonical : pyval) (rule : RuleDefinition) : SemanticRuleContext :=
  let b := applies canonical rule in
  RuleContext (rule_id rule) (rule_version rule) (if b then "Applicable" else "NotApplicable") (reason b) (mandatory rule)
    (input_scope rule) (evaluation_contract rule) (allowed_outcomes rule)
    (omap Datatypes.id [failed_result_class rule; unknown_result_class rule; blocked_result_class rule]).

Lemma rule_contexts canonical rules cs :
  map_r (rule_context canonical) rules = Ok cs →
  cs = map (context_of canonical) rules ∧ ∀ r, r ∈ rules → rule_is_applicable r canonical = Ok (applies canonical r).
Proof.
  intros E%map_r_Ok_Forall2. induction E as [|r c rules cs Hc E [-> IH]]; [by split; [|intros r Hr%elem_of_nil]|].
  unfold rule_context in Hc. destruct (rule_is_applicable r canonical) as [b|] eqn:Ha; [|discriminate]. injection Hc as <-.
  assert (applies canonical r = b) as Hb by (unfold applies; by rewrite Ha). split.
  - simpl. f_equal. unfold context_of. by rewrite Hb.
  - intros x [->|Hx]%elem_of_cons; [by rewrite Hb|by apply IH].
Qed.

Lemma registry_facts registry :
  registry_ok registry = true →
  NoDup (map rule_id (semantic_rules registry))
  ∧ rule_table registry = map (λ r, (rule_id r, r)) (semantic_rules registry)
  ∧ ∀ r, r ∈ semantic_rules registry → mandatory r = true ∧ nonempty (rule_id r) = true ∧ nonempty (rule_version r) = true.
Proof.
  intros [Hd Hr]%andb_true_iff. apply no_dups_true in Hd. split; [done|]. split; [by apply dict_by_distinct|].
  rewrite forallb_true in Hr. intros r Hx%Hr. rewrite !andb_true_iff in Hx. tauto.
Qed.

Lemma rule_of_table registry id r :
  registry_ok registry = true → dict_get id (rule_table registry) = Some r → r ∈ semantic_rules registry ∧ id = rule_id r.
Proof. intros Hok Hg%dict_get_elem. apply dict_by_elem in Hg as [-> Hr]. done. Qed.

Lemma table_get registry r :
  registry_ok registry = true → r ∈ semantic_rules registry → dict_get (rule_id r) (rule_table registry) = Some r.
Proof. intros Hok Hr. apply dict_get_by; [by apply registry_facts|done]. Qed.

Lemma context_dict canonical rules :
  NoDup (map rule_id rules) →
  map snd (dict_by rc_rule_id (map (context_of canonical) rules)) = map (context_of canonical) rules.
Proof. intros Hd. rewrite dict_by_distinct, map_map; [by rewrite map_id|]. by rewrite map_map. Qed.

Definition na_entry (r : RuleDefinition) : pyval :=
  evaluation_entry (rule_id r) (rule_version r) OUT_NOT_APPLICABLE (reason false) [] [].

Lemma context_applicability canonical r :
  bool_decide (rc_applicability (context_of canonical r) = "NotApplicable") = negb (applies canonical r).
Proof.
  apply eq_true_iff_eq. rewrite bool_decide_eq_true. unfold context_of. cbn [rc_applicability].
  by destruct (applies canonical r).
Qed.

Lemma context_applicable canonical r :
  bool_decide (rc_applicability (context_of canonical r) = "Applicable") = applies canonical r.
Proof.
  apply eq_true_iff_eq. rewrite bool_decide_eq_true. unfold context_of. cbn [rc_applicability].
  by destruct (applies canonical r).
Qed.

Lemma not_applicable_entries_eq registry canonical :
  registry_ok registry = true →
  not_applicable_entries (rule_table registry) (map (context_of canonical) (semantic_rules registry))
  = map na_entry (List.filter (λ r, negb (applies canonical r)) (semantic_rules registry)).
Proof.
  intros Hok. unfold not_applicable_entries. rewrite context_dict by by apply registry_facts.
  assert (∀ r, r ∈ semantic_rules registry → dict_get (rule_id r) (rule_table registry) = Some r) as Hg.
  { intros r. by apply table_get. }
  induction (semantic_rules registry) as [|r l IH]; [done|]. cbn [map List.filter].
  pose proof (Hg r ltac:(by left)) as Hr. specialize (IH ltac:(intros x Hx; apply Hg; by right)).
  cbn [omap list_omap]. rewrite context_applicability. destruct (applies canonical r) eqn:Ha; cbn [negb]; [done|].
  cbn [rc_rule_id context_of]. rewrite Hr. cbn [fmap option_fmap option_map map]. unfold not_applicable_entry at 1, context_of at 1.
  rewrite Ha. cbn [rc_rule_id rc_applicability_reason]. f_equal; [|exact IH].
  unfold na_entry, context_of. by rewrite Ha.
Qed.

(** ** [check_evaluations] *)
Record drafts_checked (registry : RuleRegistry) (canonical : pyval) (evidence_ids : list pyval)
    (evaluations : list RuleEvaluationDraft) : Prop := {
  ck_distinct : NoDup (map re_rule_id evaluations);
  ck_rule : ∀ e, e ∈ evaluations → ∃ r, r ∈ semantic_rules registry ∧ rule_id r = re_rule_id e
                                        ∧ rule_version r = re_rule_version e ∧ applies canonical r = true;
  ck_outcome : ∀ e, e ∈ evaluations → re_outcome e ≠ outcome_value OUT_NOT_APPLICABLE;
  ck_known : ∀ e, e ∈ evaluations → existsb (unknown_ref evidence_ids) (re_evidence_refs e) = false;
  ck_cover : ∀ r, r ∈ semantic_rules registry → applies canonical r = true → rule_id r ∈ map re_rule_id evaluations;
}.

Lemma check_evaluations_facts registry canonical evidence_ids evaluations u :
  registry_ok registry = true →
  check_evaluations registry (map (context_of canonical) (semantic_rules registry)) evidence_ids evaluations = Ok u →
  drafts_checked registry canonical evidence_ids evaluations.
Proof.
  intros Hok. unfold check_evaluations. cbn zeta. rewrite context_dict by by apply registry_facts. intros E. guards.
  pose proof (all_r_Ok _ _ _ E) as Hall. clear E.
  assert (∀ r, r ∈ semantic_rules registry →
            if applies canonical r then rule_id r ∈ map re_rule_id evaluations else rule_id r ∉ map re_rule_id evaluations) as Hc.
  { intros r Hr. specialize (Hall _ (list_elem_of_fmap_2 (context_of canonical) _ _ Hr)). cbn beta zeta in Hall.
    destruct (registry_facts registry Hok) as (_ & _ & Hf). destruct (Hf r Hr) as (Hm & _). 
    rewrite context_applicability, context_applicable in Hall. change (rc_mandatory _) with (mandatory r) in Hall.
    change (rc_rule_id _) with (rule_id r) in Hall. rewrite Hm in Hall.
    destruct (applies canonical r); cbn [negb andb] in Hall; case_bool_decide; done. }
  rewrite existsb_false in *. bools.
  assert (∀ e, e ∈ evaluations → ∃ r, r ∈ semantic_rules registry ∧ rule_id r = re_rule_id e
                                        ∧ rule_version r = re_rule_version e ∧ applies canonical r = true) as Hrule.
  { intros e He. pose proof (Heqb3 e He) as Hv. bools. destruct (dict_get (re_rule_id e) (rule_table registry)) as [r|] eqn:Hg; [|done].
    apply rule_of_table in Hg as [Hr Hid]; [|done]. exists r. cbn in Hv. split; [done|]. split; [done|]. split; [by injection Hv|].
    specialize (Hc r Hr). destruct (applies canonical r); [done|]. destruct Hc. rewrite <- Hid. by apply list_elem_of_fmap_2. }
  split; [done|done| | |].
  - intros e He. specialize (Heqb2 e He). by bools.
  - done.
  - intros r Hr Ha. specialize (Hc r Hr). by rewrite Ha in Hc.
Qed.

Lemma find_draft_Some id l e : find_draft id l = Some e → e ∈ l ∧ re_rule_id e = id.
Proof. intros [Hin F]%find_some. split; [by apply list_elem_of_In|by bools]. Qed.

(** ** [identified_finding] *)
Record finding_known (ws : string) (base : AuditContext) (registry : RuleRegistry) (evidence_ids item_ids : list pyval)
    (evaluations : list RuleEvaluationDraft) (f : FindingDraft) (p : string * string) : Prop := {
  fk_ref : fst p = fd_finding_ref f;
  fk_draft : ∃ e r outcome, find_draft (fd_rule_id f) evaluations = Some e ∧ r ∈ semantic_rules registry
    ∧ rule_id r = fd_rule_id f ∧ semantic_outcome_of (re_outcome e) = Ok outcome
    ∧ expected_class r outcome = Some (fd_result_class f)
    ∧ build_finding_id (VStr ws) (cx_preview_id base) (cx_revision base) (fd_rule_id f) (rule_version r) (re_outcome e)
        (fd_result_class f) (fd_severity f) (fd_title f) (fd_rationale f) (fd_evidence_refs f) (fd_affected_item_ids f)
        (fd_required_action f) (fd_suggested_resolution f) = Ok (snd p);
  fk_evidence : existsb (unknown_ref evidence_ids) (fd_evidence_refs f) = false;
  fk_items : existsb (unknown_ref item_ids) (fd_affected_item_ids f) = false;
}.

Lemma invalid_member_Ok {A} (c : result A) a : invalid_member c = Ok a → c = Ok a.
Proof. destruct c as [|e]; simpl; [done|]. by destruct (is_value_error e). Qed.

Lemma identified_finding_facts ws base registry evidence_ids item_ids evaluations f p :
  registry_ok registry = true →
  identified_finding ws base (rule_table registry) evidence_ids item_ids evaluations f = Ok p →
  finding_known ws base registry evidence_ids item_ids evaluations f p.
Proof.
  intros Hok. unfold identified_finding. destruct (find_draft _ _) as [e|] eqn:Fd; [|discriminate].
  destruct (dict_get _ _) as [r|] eqn:Hg; [|discriminate]. intros E. guards. injection E as <-.
  apply rule_of_table in Hg as [Hr Hid]; [|done].
  repeat match goal with I : invalid_member _ = Ok _ |- _ => apply invalid_member_Ok in I end.
  match goal with O : semantic_outcome_of _ = Ok _ |- _ => pose proof (semantic_outcome_value _ _ O) as Ho end.
  match goal with C : result_class_of _ = Ok _ |- _ => pose proof (result_class_value _ _ C) as Hcl end.
  bools. split; [done| |done|done]. exists e, r. eexists. rewrite Hcl, Ho in *. by split_and!.
Qed.
End drafts.
