(* ===== verification/AuditorComplete.v ===== *)
(** * The auditor's own records are accepted

    [_validate] and [validate_committed_audit] check the same things from two sides.  Here the
    record built from drafts that the first accepts is accepted by the second, except when a
    draft repeats or leaves empty a text that only the second looks at. *)
From S2P Require Import Prelude PyValue Strings PyOps Canonical FormalPreview WriteOperations Rules.
From S2P Require Import AuditRecords Preflight PreviewValidation AuditBoundary PreviewStore Auditor.
From S2P Require Import PreviewFacts AuditorFacts PreviewSound.

(** What [_validate] does not look at *)
Definition clean_draft (e : RuleEvaluationDraft) : bool :=
  nonempty (re_rationale e) && no_dups (re_finding_refs e)
  && (forallb nonempty (re_evidence_refs e) && no_dups (re_evidence_refs e)).

Lemma NoDup_map_filter {A B} (f : A → B) p l : NoDup (map f l) → NoDup (map f (List.filter p l)).
Proof.
  induction l as [|x l IH]; simpl; intros Hd; [constructor|]. apply NoDup_cons in Hd as [Hx Hd].
  destruct (p x); simpl; [|by apply IH]. apply NoDup_cons. split; [|by apply IH]. intros (y & E & Hy)%list_elem_of_fmap.
  apply list_elem_of_In, filter_In in Hy as [Hy _]. destruct Hx. apply list_elem_of_fmap. exists y.
  split; [done|by apply list_elem_of_In].
Qed.

Lemma concat_map_perm {A B} (f : A → list B) l m : l ≡ₚ m → concat (map f l) ≡ₚ concat (map f m).
Proof. intros E. rewrite <- !flat_map_concat_map. by apply Permutation_flat_map. Qed.
Lemma elem_concat_map {A B} (f : A → list B) l x : x ∈ concat (map f l) ↔ ∃ e, e ∈ l ∧ x ∈ f e.
Proof.
  rewrite list_elem_of_In, <- flat_map_concat_map, in_flat_map. by setoid_rewrite <- list_elem_of_In.
Qed.

Lemma NoDup_concat_map {A B C} (key : A → C) (f : A → list B) l :
  NoDup (map key l) → (∀ e, e ∈ l → NoDup (f e)) →
  (∀ e1 e2 x, e1 ∈ l → e2 ∈ l → x ∈ f e1 → x ∈ f e2 → key e1 = key e2) → NoDup (concat (map f l)).
Proof.
  induction l as [|e l IH]; simpl; intros Hd Hf Hk; [constructor|]. apply NoDup_cons in Hd as [He Hd].
  apply NoDup_app. split; [apply Hf; by left|]. split.
  - intros x Hx (e' & He' & Hxm)%elem_concat_map.
    destruct He. rewrite (Hk e e' x) by (done || (by left) || (by right)). by apply list_elem_of_fmap_2.
  - apply IH; [done|intros e' He'; apply Hf; by right|]. intros e1 e2 x H1 H2. apply Hk; by right.
Qed.

Section complete.
Context `{PyLib}.
Context (registry : RuleRegistry) (ws : string) (base : AuditContext) (evidence_ids item_ids : list pyval).
Context (evaluations : list RuleEvaluationDraft) (findings : list FindingDraft) (ids : list (string * string)).
Let canonical := cx_sealed_preview base.
Let rules := semantic_rules registry.
Hypothesis Hok : registry_ok registry = true.
Hypothesis Happ : ∀ r, r ∈ rules → rule_is_applicable r canonical = Ok (applies canonical r).
Hypothesis Hck : drafts_checked registry canonical evidence_ids evaluations.
Hypothesis Hrefs : NoDup (map fd_finding_ref findings).
Hypothesis Hids : Forall2 (finding_known ws base registry evidence_ids item_ids evaluations) findings ids.
Hypothesis Hdistinct : NoDup (map snd ids).
Hypothesis Hsame : ∀ x, x ∈ concat (map re_finding_refs evaluations) ↔ x ∈ map fd_finding_ref findings.
Hypothesis Hcheck : ∀ e, e ∈ evaluations → check_references findings e = Ok tt.

(** ** Finding identities by reference *)
Definition id_of (ref : string) : string := default "" (dict_get ref ids).

Lemma ids_refs : map fst ids = map fd_finding_ref findings.
Proof.
  clear - Hids. revert Hids. generalize findings, ids. induction 1 as [|f p l m [Hp _ _ _] _ IH]; [done|].
  simpl. by rewrite Hp, IH.
Qed.

Lemma dict_get_pair {A} (l : list (string * A)) k v : NoDup (map fst l) → (k, v) ∈ l → dict_get k l = Some v.
Proof.
  induction l as [|[k' w] l IH]; simpl; intros Hd Hx; [by apply elem_of_nil in Hx|].
  apply NoDup_cons in Hd as [Hk Hd]. apply elem_of_cons in Hx as [[= -> ->]|Hx]; [by rewrite bool_decide_eq_true_2|].
  rewrite bool_decide_eq_false_2; [by apply IH|]. intros ->. destruct Hk. apply (list_elem_of_fmap_2 fst _ _ Hx).
Qed.

Lemma id_of_pair p : p ∈ ids → dict_get (fst p) ids = Some (snd p) ∧ id_of (fst p) = snd p.
Proof.
  intros Hp. assert (dict_get (fst p) ids = Some (snd p)) as Hg.
  { destruct p. apply dict_get_pair; [by rewrite ids_refs|done]. }
  split; [done|]. unfold id_of. by rewrite Hg.
Qed.

Lemma ref_pair ref : ref ∈ map fd_finding_ref findings → ∃ p, p ∈ ids ∧ fst p = ref.
Proof. rewrite <- ids_refs. intros (p & -> & Hp)%list_elem_of_fmap. by exists p. Qed.

Lemma id_of_inj r1 r2 :
  r1 ∈ map fd_finding_ref findings → r2 ∈ map fd_finding_ref findings → id_of r1 = id_of r2 → r1 = r2.
Proof.
  intros (p1 & Hp1 & <-)%ref_pair (p2 & Hp2 & <-)%ref_pair.
  rewrite (proj2 (id_of_pair p1 Hp1)), (proj2 (id_of_pair p2 Hp2)). intros E. by rewrite (key_inj snd ids p1 p2).
Qed.

Lemma finding_pair f : f ∈ findings →
  finding_known ws base registry evidence_ids item_ids evaluations f (fd_finding_ref f, id_of (fd_finding_ref f)).
Proof.
  intros Hf. destruct (Forall2_elem_l _ _ _ _ Hids Hf) as (p & Hp & Hk).
  pose proof (id_of_pair p Hp) as [_ E]. pose proof (fk_ref _ _ _ _ _ _ _ _ Hk) as Hr. rewrite <- Hr, E. by destruct p.
Qed.

(** ** The entries *)
Definition outcome_of (e : RuleEvaluationDraft) : SemanticOutcome :=
  match semantic_outcome_of (re_outcome e) with Ok o => o | Err _ => OUT_PASSED end.
Definition entry_of (e : RuleEvaluationDraft) : pyval :=
  evaluation_entry (re_rule_id e) (re_rule_version e) (outcome_of e) (re_rationale e)
    (sorted_strings (map id_of (re_finding_refs e))) (sorted_strings (re_evidence_refs e)).
Definition version_of (f : FindingDraft) : string :=
  default "" (rule_version <$> dict_get (fd_rule_id f) (rule_table registry)).
Definition finding_outcome (f : FindingDraft) : string := default "" (re_outcome <$> find_draft (fd_rule_id f) evaluations).
Definition finding_entry_of (f : FindingDraft) : pyval :=
  finding_entry f (id_of (fd_finding_ref f)) (version_of f) (finding_outcome f).

Definition applicable_not : list RuleDefinition := List.filter (λ r, negb (applies canonical r)) rules.
Definition entries : list pyval := map entry_of evaluations ++ map na_entry applicable_not.

Lemma draft_outcome e : e ∈ evaluations →
  semantic_outcome_of (re_outcome e) = Ok (outcome_of e) ∧ outcome_value (outcome_of e) = re_outcome e
  ∧ outcome_of e ≠ OUT_NOT_APPLICABLE ∧ (outcome_of e = OUT_PASSED ↔ re_finding_refs e = [])
  ∧ ∀ ref, ref ∈ re_finding_refs e → ∃ f, f ∈ findings ∧ fd_finding_ref f = ref ∧ fd_rule_id f = re_rule_id e.
Proof.
  intros He. pose proof (Hcheck e He) as Hc. unfold check_references in Hc.
  destruct (semantic_outcome_of (re_outcome e)) as [o|] eqn:Ho; [|discriminate]. cbn zeta in Hc.
  assert (outcome_of e = o) as -> by (unfold outcome_of; by rewrite Ho).
  pose proof (semantic_outcome_value _ _ Ho) as Hv. pose proof (ck_outcome _ _ _ _ Hck e He) as Hna. rewrite Hv in Hna.
  guards. rewrite existsb_false in *. split; [done|]. split; [done|]. split; [by intros ->|]. split.
  - bools. destruct o; try done.
    + split; [intros _|done]. by destruct Heqb0.
    + destruct Heqb as [B|B]; [|done]. destruct B. by left.
    + destruct Heqb as [B|B]; [|done]. destruct B. right. by left.
    + destruct Heqb as [B|B]; [|done]. destruct B. do 2 right. by left.
  - intros ref Hr. specialize (Heqb1 ref Hr). destruct (List.find _ findings) as [f|] eqn:F; [|discriminate].
    apply find_some in F as [Hf F]. apply list_elem_of_In in Hf. bools. by exists f.
Qed.

Lemma draft_entry_of e : e ∈ evaluations → draft_entry ids e = Ok (entry_of e).
Proof.
  intros He. destruct (draft_outcome e He) as (Ho & _ & _ & _ & Hr). unfold draft_entry. rewrite Ho.
  rewrite (map_r_total _ id_of); [done|]. intros ref Href. destruct (Hr ref Href) as (f & Hf & <- & _).
  destruct (ref_pair (fd_finding_ref f)) as (p & Hp & Hpr); [by apply list_elem_of_fmap_2|].
  destruct (id_of_pair p Hp) as [Hg Hi]. rewrite Hpr in *. by rewrite Hg, Hi.
Qed.

(** The rule and the draft of a finding *)
Lemma finding_rule f : f ∈ findings →
  ∃ e r, e ∈ evaluations ∧ find_draft (fd_rule_id f) evaluations = Some e ∧ re_rule_id e = fd_rule_id f ∧ r ∈ rules
    ∧ rule_id r = fd_rule_id f ∧ dict_get (fd_rule_id f) (rule_table registry) = Some r
    ∧ version_of f = rule_version r ∧ finding_outcome f = re_outcome e
    ∧ expected_class r (outcome_of e) = Some (fd_result_class f)
    ∧ build_finding_id (VStr ws) (cx_preview_id base) (cx_revision base) (fd_rule_id f) (rule_version r) (re_outcome e)
        (fd_result_class f) (fd_severity f) (fd_title f) (fd_rationale f) (fd_evidence_refs f) (fd_affected_item_ids f)
        (fd_required_action f) (fd_suggested_resolution f) = Ok (id_of (fd_finding_ref f)).
Proof.
  intros Hf. destruct (fk_draft _ _ _ _ _ _ _ _ (finding_pair f Hf)) as (e & r & o & Hd & Hr & Hid & Ho & Hc & Hb).
  pose proof (find_draft_Some _ _ _ Hd) as [He Hre]. pose proof (table_get registry r Hok Hr) as Hg. rewrite Hid in Hg.
  exists e, r. destruct (draft_outcome e He) as (Ho' & _). rewrite Ho in Ho'. injection Ho' as <-.
  unfold version_of, finding_outcome. rewrite Hg, Hd. by split_and!.
Qed.

Lemma draft_finding_of f : f ∈ findings → draft_finding ids (rule_table registry) evaluations f = Ok (finding_entry_of f).
Proof.
  intros Hf. destruct (finding_rule f Hf) as (e & r & _ & Hd & _ & _ & _ & Hg & Hv & Ho & _).
  destruct (ref_pair (fd_finding_ref f)) as (p & Hp & Hpr); [by apply list_elem_of_fmap_2|].
  destruct (id_of_pair p Hp) as [Hgi Hi]. unfold draft_finding, finding_entry_of. rewrite Hpr in *.
  by rewrite Hgi, Hg, Hd, Hv, Ho, Hi.
Qed.

(** ** The evaluations of the audit *)
Lemma entries_ids : map (field_text "rule_id") entries = map re_rule_id evaluations ++ map rule_id applicable_not.
Proof. unfold entries. by rewrite map_app, !map_map. Qed.

Lemma elem_not_applicable r : r ∈ applicable_not ↔ r ∈ rules ∧ applies canonical r = false.
Proof. unfold applicable_not. by rewrite list_elem_of_In, filter_In, <- list_elem_of_In, negb_true_iff. Qed.

Lemma rules_distinct r1 r2 : r1 ∈ rules → r2 ∈ rules → rule_id r1 = rule_id r2 → r1 = r2.
Proof. apply key_inj, (registry_facts registry Hok). Qed.

Lemma entries_distinct : NoDup (map (field_text "rule_id") entries).
Proof.
  rewrite entries_ids. apply NoDup_app. split; [apply Hck|]. split.
  - intros x (e & -> & He)%list_elem_of_fmap (r & Hx & Hr)%list_elem_of_fmap. apply elem_not_applicable in Hr as [Hr Ha].
    destruct (ck_rule _ _ _ _ Hck e He) as (r' & Hr' & Hid & _ & Ha').
    rewrite (rules_distinct r r') in Ha by (try done; congruence). congruence.
  - unfold applicable_not. apply NoDup_map_filter, (registry_facts registry Hok).
Qed.

Lemma entries_cover x : x ∈ map (field_text "rule_id") entries ↔ x ∈ map rule_id rules.
Proof.
  rewrite entries_ids, elem_of_app. split.
  - intros [(e & -> & He)%list_elem_of_fmap|(r & -> & Hr)%list_elem_of_fmap].
    + destruct (ck_rule _ _ _ _ Hck e He) as (r & Hr & <- & _). by apply list_elem_of_fmap_2.
    + apply elem_not_applicable in Hr as [Hr _]. by apply list_elem_of_fmap_2.
  - intros (r & -> & Hr)%list_elem_of_fmap. destruct (applies canonical r) eqn:Ha.
    + left. by apply (ck_cover _ _ _ _ Hck).
    + right. apply list_elem_of_fmap_2, elem_not_applicable. done.
Qed.

Definition sorted_entries : list pyval := sort_by (field_text "rule_id") entries.

Lemma sorted_entries_find e : e ∈ entries → find_entry "rule_id" (field_text "rule_id" e) sorted_entries = Some e.
Proof.
  intros He. apply find_entry_unique; unfold sorted_entries; rewrite sort_by_perm; [apply entries_distinct|done].
Qed.
Lemma find_draft_entry e : e ∈ evaluations → find_entry "rule_id" (re_rule_id e) sorted_entries = Some (entry_of e).
Proof.
  intros He. apply (sorted_entries_find (entry_of e)). unfold entries. apply elem_of_app. left. by apply list_elem_of_fmap_2.
Qed.

Lemma entries_covered r : r ∈ rules → rule_covered canonical evidence_ids sorted_entries r = Ok tt.
Proof.
  intros Hr. unfold rule_covered. destruct (applies canonical r) eqn:Ha.
  - pose proof (ck_cover _ _ _ _ Hck r Hr Ha) as (e & Hid & He)%list_elem_of_fmap. rewrite Hid, find_draft_entry by done.
    destruct (ck_rule _ _ _ _ Hck e He) as (r' & Hr' & Hid' & Hv & _). rewrite (rules_distinct r' r) in Hv by (try done; congruence).
    change (field_text "rule_version" (entry_of e)) with (re_rule_version e). rewrite bool_decide_eq_true_2 by done.
    rewrite Happ, Ha by done. cbn [negb]. change (field_text "outcome" (entry_of e)) with (outcome_value (outcome_of e)).
    change (get (entry_of e) "evidence_refs") with (vstrs (sorted_strings (re_evidence_refs e))). rewrite text_list_vstrs.
    unfold sorted_strings. rewrite (existsb_perm _ _ _ (sort_by_perm id _)), (ck_known _ _ _ _ Hck e He).
    destruct (draft_outcome e He) as (_ & _ & Hna & _). by destruct (outcome_of e).
  - change (rule_id r) with (field_text "rule_id" (na_entry r)). rewrite sorted_entries_find.
    + change (field_text "rule_version" (na_entry r)) with (rule_version r). rewrite bool_decide_eq_true_2 by done.
      by rewrite Happ, Ha.
    + unfold entries. apply elem_of_app. right. by apply list_elem_of_fmap_2, elem_not_applicable.
Qed.

(** ** The findings of the audit *)
Definition sorted_findings : list pyval := sort_by (field_text "finding_id") (map finding_entry_of findings).

Lemma findings_ids :
  map (field_text "finding_id") (map finding_entry_of findings) = map id_of (map fd_finding_ref findings).
Proof. by rewrite !map_map. Qed.
Lemma findings_distinct : NoDup (map (field_text "finding_id") (map finding_entry_of findings)).
Proof.
  rewrite findings_ids. apply NoDup_fmap_2_strong; [|done]. intros x y Hx Hy. by apply id_of_inj.
Qed.

Lemma find_finding f : f ∈ findings →
  find_entry "finding_id" (id_of (fd_finding_ref f)) sorted_findings = Some (finding_entry_of f).
Proof.
  intros Hf. apply (find_entry_unique "finding_id" sorted_findings (finding_entry_of f)); unfold sorted_findings;
    rewrite sort_by_perm; [apply findings_distinct|by apply list_elem_of_fmap_2].
Qed.

Lemma sorted_nil l : sorted_strings l = [] ↔ l = [].
Proof.
  unfold sorted_strings. split; [|by intros ->]. intros E. apply Permutation_nil. rewrite <- E. apply sort_by_perm.
Qed.

Lemma entries_references e : e ∈ entries → references_valid sorted_findings e = true.
Proof.
  unfold entries. rewrite elem_of_app. intros [(d & -> & Hd)%list_elem_of_fmap|(r & -> & _)%list_elem_of_fmap]; [|done].
  destruct (draft_outcome d Hd) as (_ & _ & Hna & Hp & Hr). unfold references_valid. cbn zeta.
  change (get (entry_of d) "finding_refs") with (vstrs (sorted_strings (map id_of (re_finding_refs d)))).
  rewrite text_list_vstrs. change (field_text "outcome" (entry_of d)) with (outcome_value (outcome_of d)).
  change (field_text "rule_id" (entry_of d)) with (re_rule_id d). apply andb_true_iff. split.
  - apply eqb_true_iff. apply eq_true_iff_eq. rewrite !bool_decide_eq_true, sorted_nil.
    transitivity (re_finding_refs d = []).
    + rewrite <- Hp. cbn [map]. rewrite !elem_of_cons, elem_of_nil. destruct (outcome_of d); naive_solver.
    + split; [by intros ->|]. by intros ?%map_eq_nil.
  - unfold sorted_strings. rewrite (forallb_perm _ _ _ (sort_by_perm id _)). apply forallb_true. intros x (ref & -> & Href)%list_elem_of_fmap. destruct (Hr ref Href) as (f & Hf & <- & Hid). rewrite find_finding by done.
    by apply bool_decide_eq_true.
Qed.

Lemma findings_covered (a : AuditRecord) f :
  ad_workspace_identity a = VStr ws → ad_preview_id a = cx_preview_id base → ad_revision a = cx_revision base → f ∈ findings →
  finding_covered a (rule_table registry) evidence_ids item_ids sorted_entries (finding_entry_of f) = Ok tt.
Proof.
  intros Haw Hap Har Hf. destruct (finding_rule f Hf) as (e & r & He & _ & Hid & Hr & Hrid & Hg & Hv & Ho & Hc & Hb).
  destruct (draft_outcome e He) as (Hoe & Hov & Hna & _). pose proof (finding_pair f Hf) as [_ _ Hev Hit].
  destruct (build_finding_id_nonempty _ _ _ _ _ _ _ _ _ _ _ _ _ _ _ Hb) as (_ & Hsev & _).
  unfold finding_covered. cbn zeta. change (field_text "rule_id" (finding_entry_of f)) with (fd_rule_id f).
  rewrite Hg, <- Hid, find_draft_entry, Hid by done.
  change (field_text "outcome" (entry_of e)) with (outcome_value (outcome_of e)).
  change (field_text "rule_version" (finding_entry_of f)) with (version_of f).
  change (field_text "outcome" (finding_entry_of f)) with (finding_outcome f).
  change (field_text "severity" (finding_entry_of f)) with (fd_severity f).
  change (field_text "result_class" (finding_entry_of f)) with (fd_result_class f).
  change (field_text "title" (finding_entry_of f)) with (fd_title f).
  change (field_text "rationale" (finding_entry_of f)) with (fd_rationale f).
  change (field_text "required_action" (finding_entry_of f)) with (fd_required_action f).
  change (field_text "finding_id" (finding_entry_of f)) with (id_of (fd_finding_ref f)).
  change (get (finding_entry_of f) "evidence_refs") with (vstrs (sorted_strings (fd_evidence_refs f))).
  change (get (finding_entry_of f) "affected_item_ids") with (vstrs (sorted_strings (fd_affected_item_ids f))).
  change (get (finding_entry_of f) "suggested_resolution") with (class_field (fd_suggested_resolution f)).
  rewrite !text_list_vstrs, build_finding_id_sorted, Haw, Hap, Har, Hv, Ho, Hov, Hoe.
  rewrite (bool_decide_eq_false_2 (re_outcome e = _)) by (rewrite <- Hov; by destruct (outcome_of e)).
  rewrite !(bool_decide_eq_true_2 _ eq_refl), (bool_decide_eq_true_2 _ Hsev), (bool_decide_eq_true_2 _ Hc).
  unfold sorted_strings. rewrite !(existsb_perm _ _ _ (sort_by_perm id _)), Hev, Hit. cbn [negb orb].
  replace (the_opt_str (class_field (fd_suggested_resolution f))) with (fd_suggested_resolution f)
    by by destruct (fd_suggested_resolution f).
  rewrite Hb. by rewrite bool_decide_eq_true_2.
Qed.

(** Every finding is referenced once *)
Lemma references_once :
  forallb clean_draft evaluations = true →
  sorted_strings (concat (map (λ e, text_list (get e "finding_refs")) sorted_entries))
  = sorted_strings (map (field_text "finding_id") sorted_findings).
Proof.
  intros Hclean. rewrite forallb_true in Hclean. apply sorted_strings_unique. unfold sorted_entries, sorted_findings.
  rewrite (concat_map_perm _ _ _ (sort_by_perm _ entries)), (sort_by_perm _ (map finding_entry_of findings)), findings_ids.
  unfold entries.
  rewrite map_app, concat_app, !map_map.
  replace (concat (map _ applicable_not)) with (@nil string)
    by (symmetry; apply concat_nil, Forall_map, Forall_true; done).
  rewrite app_nil_r. transitivity (map id_of (concat (map re_finding_refs evaluations))).
  - clear. induction evaluations as [|e l IH]; [done|]. cbn [map concat]. rewrite map_app, IH.
    change (get (entry_of e) "finding_refs") with (vstrs (sorted_strings (map id_of (re_finding_refs e)))).
    unfold sorted_strings. by rewrite text_list_vstrs, sort_by_perm.
  - rewrite <- (map_map fd_finding_ref id_of findings). apply Permutation_map, NoDup_Permutation; [|done|done].
    apply (NoDup_concat_map re_rule_id); [apply Hck| |].
    + intros e He. apply Hclean in He. unfold clean_draft in He. rewrite !andb_true_iff in He. apply no_dups_true. tauto.
    + intros e1 e2 x He1 He2 Hx1 Hx2. destruct (draft_outcome e1 He1) as (_ & _ & _ & _ & H1).
      destruct (draft_outcome e2 He2) as (_ & _ & _ & _ & H2).
      destruct (H1 x Hx1) as (f1 & Hf1 & Hr1 & <-), (H2 x Hx2) as (f2 & Hf2 & Hr2 & <-).
      by rewrite (key_inj fd_finding_ref findings f1 f2) by congruence.
Qed.

(** ** The children *)
Lemma sorted_forallb p l : forallb p (sorted_strings l) = forallb p l.
Proof. apply forallb_perm, sort_by_perm. Qed.
Lemma sorted_no_dups l : no_dups (sorted_strings l) = no_dups l.
Proof. apply no_dups_perm, sort_by_perm. Qed.

Lemma finding_id_nonempty f : f ∈ findings → nonempty (id_of (fd_finding_ref f)) = true.
Proof.
  intros Hf. destruct (finding_rule f Hf) as (e & r & _ & _ & _ & _ & _ & _ & _ & _ & _ & Hb).
  apply build_finding_id_nonempty in Hb as [Hb _]. cbn [forallb] in Hb. rewrite !andb_true_iff in Hb. tauto.
Qed.

Lemma draft_entry_valid e : e ∈ evaluations → evaluation_valid (entry_of e) = clean_draft e.
Proof.
  intros He. unfold entry_of. rewrite evaluation_entry_valid, !sorted_forallb, !sorted_no_dups.
  destruct (ck_rule _ _ _ _ Hck e He) as (r & Hr & Hid & Hv & _).
  destruct (registry_facts registry Hok) as (_ & _ & Hf). destruct (Hf r Hr) as (_ & Hn1 & Hn2).
  rewrite <- Hid, <- Hv, Hn1, Hn2. destruct (draft_outcome e He) as (_ & _ & _ & _ & Href).
  assert (forallb nonempty (map id_of (re_finding_refs e)) = true) as ->.
  { apply forallb_true. intros x (ref & -> & Hx)%list_elem_of_fmap. destruct (Href ref Hx) as (f & Hff & <- & _).
    by apply finding_id_nonempty. }
  assert (no_dups (map id_of (re_finding_refs e)) = no_dups (re_finding_refs e)) as ->; [|done].
  apply eq_true_iff_eq. rewrite !no_dups_true. split; [apply NoDup_fmap_1|]. apply NoDup_fmap_2_strong.
  intros x y Hx Hy. destruct (Href x Hx) as (f & Hff & <- & _), (Href y Hy) as (g & Hg & <- & _).
  apply id_of_inj; by apply list_elem_of_fmap_2.
Qed.

Lemma entries_valid : forallb evaluation_valid sorted_entries = forallb clean_draft evaluations.
Proof.
  unfold sorted_entries, entries. rewrite (forallb_perm _ _ _ (sort_by_perm _ _)), forallb_app.
  assert (forallb evaluation_valid (map na_entry applicable_not) = true) as ->.
  { apply forallb_true. intros x (r & -> & Hr)%list_elem_of_fmap. apply elem_not_applicable in Hr as [Hr _].
    destruct (registry_facts registry Hok) as (_ & _ & Hf). destruct (Hf r Hr) as (_ & Hn1 & Hn2).
    unfold na_entry. by rewrite evaluation_entry_valid, Hn1, Hn2. }
  rewrite andb_true_r. apply eq_true_iff_eq. rewrite !forallb_true. split.
  - intros Hall e He. rewrite <- draft_entry_valid by done. by apply Hall, list_elem_of_fmap_2.
  - intros Hall x (e & -> & He)%list_elem_of_fmap. rewrite draft_entry_valid by done. by apply Hall.
Qed.

Lemma findings_valid : forallb finding_valid sorted_findings = true.
Proof.
  unfold sorted_findings. rewrite (forallb_perm _ _ _ (sort_by_perm _ _)). apply forallb_true.
  intros x (f & -> & Hf)%list_elem_of_fmap.
  destruct (finding_rule f Hf) as (e & r & He & _ & _ & Hr & Hrid & _ & Hv & Ho & Hc & Hb).
  destruct (registry_facts registry Hok) as (_ & _ & Hreg). destruct (Hreg r Hr) as (_ & Hn1 & Hn2).
  pose proof (build_finding_id_class _ _ _ _ _ _ _ _ _ _ _ _ _ _ _ Hb) as [Hno Hnc].
  apply build_finding_id_nonempty in Hb as (Hne & _ & Hrefs' & Hd1 & Hd2). cbn [forallb] in Hne. rewrite !andb_true_iff in Hne.
  destruct_and!. apply finding_entry_valid; try done. cbn [forallb]. rewrite Hv, Ho, !andb_true_iff. by split_and!.
Qed.

(** What [audit_candidate] puts into the record *)
Record candidate_of (a : AuditRecord) (evidence : list pyval) : Prop := {
  cd_binding : ad_workspace_identity a = VStr ws ∧ ad_preview_id a = cx_preview_id base ∧ ad_revision a = cx_revision base;
  cd_children : ad_rule_evaluations a = sorted_entries ∧ ad_findings a = sorted_findings;
  cd_sets : field_set "evidence_id" evidence = Ok evidence_ids ∧ item_id_set canonical = Ok item_ids;
  cd_registry : ∃ d context payload, registry_digest registry = Ok d
    ∧ ad_rule_registry_version a = VStr (registry_version registry) ∧ ad_rule_registry_digest a = VStr d
    ∧ compute_audit_context_digest (ad_workspace_identity a) (VStr (ad_preview_id a)) (VInt (ad_revision a))
        (ad_sealed_preview_digest a) evidence (VStr (registry_version registry)) (VStr d) (ad_audit_scope a) = Ok context
    ∧ ad_audit_context_digest a = VStr context
    ∧ digest (committed_payload a (registry_version registry) d) = Ok payload ∧ ad_audit_payload_digest a = VStr payload;
  cd_result : ad_result a = expected_result (map (λ e, get e "outcome") sorted_entries);
  cd_intact : audit_verify_digest a = Ok true;
}.

Lemma all_r_total {A} (f : A → result unit) l : (∀ x, x ∈ l → f x = Ok tt) → all_r f l = Ok tt.
Proof.
  induction l as [|x l IH]; simpl; intros Hf; [done|]. rewrite Hf by by left. apply IH. intros y Hy. apply Hf. by right.
Qed.

Lemma candidate_validated a evidence :
  candidate_of a evidence →
  validate_committed_audit a canonical evidence registry = if forallb clean_draft evaluations then Ok tt else Err boundary.
Proof.
  intros [(Haw & Hap & Har) (Hes & Hfs) (Hev & Hit) (d & context & payload & Hd & Hv & Hrd & Hctx & Hac & Hpl & Hpd) Hres Hint].
  unfold validate_committed_audit. cbn zeta. rewrite Hes, Hfs. unfold _validate_audit_children.
  rewrite entries_valid, findings_valid, andb_true_r. destruct (forallb clean_draft evaluations) eqn:Hclean; [|done].
  rewrite Hd, Hv, Hrd, !(proj2 (py_eq_str _ _) eq_refl). cbn [negb orb]. rewrite Hctx, Hac, (proj2 (py_eq_str _ _) eq_refl).
  cbn [negb]. destruct (registry_facts registry Hok) as (Hnd & Htab & _). fold rules in Htab.
  assert (map fst (rule_table registry) = map rule_id rules) as -> by (rewrite Htab, map_map; done).
  assert (map snd (rule_table registry) = rules) as -> by (rewrite Htab, map_map; by rewrite map_id).
  assert (no_dups (map (field_text "rule_id") sorted_entries) = true) as ->.
  { apply no_dups_true. unfold sorted_entries. rewrite sort_by_perm. apply entries_distinct. }
  assert (same_set (map (field_text "rule_id") sorted_entries) (map rule_id rules) = true) as ->.
  { apply same_set_true. intros x. unfold sorted_entries. rewrite sort_by_perm. apply entries_cover. }
  cbn [negb]. rewrite Hev, Hit, (all_r_total _ rules) by (intros r Hr; by apply entries_covered).
  assert (no_dups (map (field_text "finding_id") sorted_findings) = true) as ->.
  { apply no_dups_true. unfold sorted_findings. rewrite sort_by_perm. apply findings_distinct. }
  assert (forallb (references_valid sorted_findings) sorted_entries = true) as ->.
  { apply forallb_true. intros e He. unfold sorted_entries in He. rewrite sort_by_perm in He. by apply entries_references. }
  cbn [negb]. rewrite (bool_decide_eq_true_2 _ (references_once Hclean)). cbn [negb].
  rewrite all_r_total.
  2:{ intros x Hx. unfold sorted_findings in Hx. rewrite sort_by_perm in Hx. apply list_elem_of_fmap in Hx as (f & -> & Hf).
      by apply findings_covered. }
  rewrite (bool_decide_eq_true_2 _ Hres). cbn [negb]. rewrite Hpl, Hpd, (proj2 (py_eq_str _ _) eq_refl). cbn [negb].
  by rewrite Hint.
Qed.
End complete.

Section theorem.
Context `{PyLib}.

Lemma get_context_facts u p rev db ctx :
  get_context u p rev db = Ok ctx →
  ac_rule_contexts ctx = map (context_of (cx_sealed_preview (ac_context ctx))) (semantic_rules (au_registry u))
  ∧ (∀ r, r ∈ semantic_rules (au_registry u) →
       rule_is_applicable r (cx_sealed_preview (ac_context ctx)) = Ok (applies (cx_sealed_preview (ac_context ctx)) r))
  ∧ registry_digest (au_registry u) = Ok (ac_rule_registry_digest ctx)
  ∧ ∃ sealed, subscript (cx_sealed_preview (ac_context ctx)) "sealed_preview_digest" = Ok sealed
    ∧ compute_audit_context_digest (VStr (au_workspace u)) (VStr (cx_preview_id (ac_context ctx)))
        (VInt (cx_revision (ac_context ctx))) sealed (cx_evidence_records (ac_context ctx))
        (VStr (registry_version (au_registry u))) (VStr (ac_rule_registry_digest ctx)) (ac_audit_scope ctx)
      = Ok (ac_audit_context_digest ctx).
Proof.
  unfold get_context. cbn zeta. destruct (rev <? 1)%Z; [discriminate|].
  destruct (audit_context _ _ _ _ _ _) as [base|] eqn:Hb; [|discriminate].
  assert (cx_preview_id base = p ∧ cx_revision base = rev) as [Hp Hr].
  { unfold audit_context in Hb. guards. by injection Hb as <-. }
  intros E. guards. injection E as <-. cbn. match goal with C : map_r (rule_context _) _ = Ok _ |- _ => apply rule_contexts in C as [-> Ha] end.
  rewrite Hp, Hr. split; [done|]. split; [done|]. split; [done|]. eexists. by split.
Qed.

Lemma candidate_fields u ctx uuid now es fs a :
  registry_digest (au_registry u) = Ok (ac_rule_registry_digest ctx) →
  (∃ sealed, subscript (cx_sealed_preview (ac_context ctx)) "sealed_preview_digest" = Ok sealed
    ∧ compute_audit_context_digest (VStr (au_workspace u)) (VStr (cx_preview_id (ac_context ctx)))
        (VInt (cx_revision (ac_context ctx))) sealed (cx_evidence_records (ac_context ctx))
        (VStr (registry_version (au_registry u))) (VStr (ac_rule_registry_digest ctx)) (ac_audit_scope ctx)
      = Ok (ac_audit_context_digest ctx)) →
  audit_candidate u ctx (ac_audit_context_digest ctx) uuid now es fs = Ok a →
  (ad_workspace_identity a = VStr (au_workspace u) ∧ ad_preview_id a = cx_preview_id (ac_context ctx)
   ∧ ad_revision a = cx_revision (ac_context ctx))
  ∧ (ad_rule_evaluations a = es ∧ ad_findings a = fs)
  ∧ (∃ d context payload, registry_digest (au_registry u) = Ok d
    ∧ ad_rule_registry_version a = VStr (registry_version (au_registry u)) ∧ ad_rule_registry_digest a = VStr d
    ∧ compute_audit_context_digest (ad_workspace_identity a) (VStr (ad_preview_id a)) (VInt (ad_revision a))
        (ad_sealed_preview_digest a) (cx_evidence_records (ac_context ctx)) (VStr (registry_version (au_registry u))) (VStr d)
        (ad_audit_scope a) = Ok context
    ∧ ad_audit_context_digest a = VStr context
    ∧ digest (committed_payload a (registry_version (au_registry u)) d) = Ok payload ∧ ad_audit_payload_digest a = VStr payload)
  ∧ ad_result a = expected_result (map (λ e, get e "outcome") es) ∧ audit_verify_digest a = Ok true.
Proof.
  intros Hd (sealed & Hs & Hc). unfold audit_candidate, audit_payload. cbn zeta. rewrite Hs. intros E.
  destruct (subscript _ "plan_digest") as [plan|] eqn:Hpl; [|discriminate].
  destruct (subscript _ "operation_set_digest") as [opset|] eqn:Hop; [|discriminate].
  destruct (digest _) as [pd|] eqn:Hpd; [|discriminate].
  destruct (map_r _ _) as [refs|]; [|discriminate]. destruct (py_sorted refs) as [srefs|]; [|discriminate].
  match type of E with context [get ?x "plan_digest"] => set (payload := x) in * end.
  change (get payload "plan_digest") with plan in E. change (get payload "operation_set_digest") with opset in E.
  change (get payload "sealed_preview_digest") with sealed in E.
  change (get payload "remote_snapshot_digest")
    with (get (cx_sealed_preview (ac_context ctx)) "remote_snapshot_digest") in E.
  destruct (str_value plan) as [plan'|] eqn:Hp'; [|discriminate]. destruct (str_value opset) as [opset'|] eqn:Ho'; [|discriminate].
  destruct (opt_value _) as [remote'|] eqn:Hr'; [|discriminate].
  assert (plan = VStr plan') as -> by (destruct plan; by inversion Hp').
  assert (opset = VStr opset') as -> by (destruct opset; by inversion Ho').
  assert (get (cx_sealed_preview (ac_context ctx)) "remote_snapshot_digest" = opt_str_value remote') as Hrem.
  { destruct (get _ "remote_snapshot_digest"); by inversion Hr'. }
  apply audit_create_facts in E as (_ & _ & _ & Hint & dg & ->). cbn [audit_set_digest audit_set_status ad_workspace_identity
    ad_preview_id ad_revision ad_rule_evaluations ad_findings ad_rule_registry_version ad_rule_registry_digest
    ad_sealed_preview_digest ad_audit_scope ad_audit_context_digest ad_audit_payload_digest ad_result] in *.
  split_and!; try done. exists (ac_rule_registry_digest ctx), (ac_audit_context_digest ctx), pd.
  split_and!; try done. rewrite <- Hpd. subst payload. by rewrite Hrem.
Qed.

(** C20: The two validators of the auditor agree: the record built from drafts that [_validate] accepts
    is accepted by [validate_committed_audit], exactly when no draft has an empty rationale, an
    empty or repeated evidence reference, or a repeated finding reference; such a draft passes
    [_validate] and is then refused with the internal boundary error. *)
Theorem auditor_accepts_own_record u p rev db ctx evaluations findings es fs uuid now a :
  registry_ok (au_registry u) = true → get_context u p rev db = Ok ctx → _validate u ctx evaluations findings = Ok (es, fs) →
  audit_candidate u ctx (ac_audit_context_digest ctx) uuid now es fs = Ok a →
  validate_committed_audit a (cx_sealed_preview (ac_context ctx)) (cx_evidence_records (ac_context ctx)) (au_registry u)
  = if forallb clean_draft evaluations then Ok tt else Err boundary.
Proof.
  intros Hok Hctx Hval Hcand. destruct (get_context_facts _ _ _ _ _ Hctx) as (Hcs & Happ & Hd & Hsealed).
  destruct (candidate_fields _ _ _ _ _ _ _ Hd Hsealed Hcand) as (Hb & Hch & Hreg & Hres & Hint).
  unfold _validate in Hval. cbn zeta in Hval. rewrite Hcs in Hval.
  destruct (field_set _ _) as [evidence_ids|] eqn:Hev; [|discriminate].
  destruct (check_evaluations _ _ _ _) as [[]|] eqn:Hck; [|discriminate]. apply check_evaluations_facts in Hck; [|done].
  destruct (negb (no_dups _)) eqn:Hnd; [discriminate|]. destruct (item_id_set _) as [item_ids|] eqn:Hit; [|discriminate].
  destruct (map_r (identified_finding _ _ _ _ _ _) findings) as [ids|] eqn:Hids; [|discriminate].
  destruct (negb (no_dups (map snd ids))) eqn:Hdi; [discriminate|].
  destruct (all_r (check_references findings) evaluations) as [[]|] eqn:Hcr; [|discriminate].
  destruct (negb (same_set _ _)) eqn:Hss; [discriminate|]. bools.
  apply map_r_Ok_Forall2 in Hids.
  assert (Forall2 (finding_known (au_workspace u) (ac_context ctx) (au_registry u) evidence_ids item_ids evaluations) findings ids)
    as Hk by (eapply Forall2_impl; [exact Hids|]; intros f q Hq; by apply identified_finding_facts).
  pose proof (λ e He, all_r_Ok _ _ _ Hcr e He) as Hchk.
  rewrite (map_r_total _ (entry_of ids)) in Hval by (intros e He; eapply draft_entry_of; eauto).
  rewrite (map_r_total _ (finding_entry_of (au_registry u) evaluations ids)) in Hval by (intros f Hf; eapply draft_finding_of; eauto).
  rewrite not_applicable_entries_eq in Hval by done. injection Hval as Hes Hfs.
  eapply candidate_validated; eauto. split; try done.
  - subst. by split.
  - by subst.
Qed.
End theorem.
