(* ===== verification/AuthorityValid.v ===== *)
(** * An issued authority is accepted until it expires

    [issued_authority_accepted]: what [issue_application_authority] has just issued,
    [validate_application_authority] accepts at every time before the expiry of the
    credential and at no later one, while the previews stay as they are.  The binding store
    enters through its laws ([BindingStoreLaws]), which both implementations satisfy. *)
From S2P Require Import Prelude PyValue Strings PyOps Canonical Decimal WriteOperations Identity Context.
From S2P Require Import FormalPreview ExecutionStore AuditRecords Approvals PreviewStore ApprovalService.
From S2P Require Import SafeText AuthorityBinding BindingStore BindingFacts Attestation AttestationBoundary.
From S2P Require Import Preflight AttestationRuntime RuntimeFacts Authority AuthorityFacts PreviewFacts.
From S2P Require Import AuditTrail ApprovalFacts.
From Stdlib Require Import Ascii.

(** ** Printable ASCII text without spaces is its own normal form *)
Definition plain_char (c : ascii) : bool := in_range 33 126 c.

Lemma plain_char_facts c :
  plain_char c = true →
  is_cont c = false ∧ is_space (ch c) = false ∧ in_range 0 127 c = true ∧ is_control c = false ∧ is_char "237"%char c = false.
Proof. destruct c as [[] [] [] [] [] [] [] []]; intros E; try discriminate E; by vm_compute. Qed.
Lemma slug_plain c : slug_char c || is_char ":"%char c = true → plain_char c = true.
Proof. destruct c as [[] [] [] [] [] [] [] []]; intros E; try discriminate E; by vm_compute. Qed.

Lemma all_bytes_impl (p q : ascii → bool) s : (∀ c, p c = true → q c = true) → all_bytes p s = true → all_bytes q s = true.
Proof. intros Hpq. induction s as [|c s IH]; simpl; [done|]. rewrite !andb_true_iff. naive_solver. Qed.

Record plain_facts (s : string) : Prop := {
  pf_start : starts_cont s = false;
  pf_spaces : Forall (λ c, is_space c = false) (chars s);
  pf_ascii : all_bytes (in_range 0 127) s = true;
  pf_control : no_control s = true;
  pf_surrogate : has_surrogate s = false;
}.
Lemma plain_text s : all_bytes plain_char s = true → plain_facts s.
Proof.
  induction s as [|c s IH]; simpl; [by repeat constructor|]. intros [Hc Hs]%andb_true_iff.
  destruct (plain_char_facts c Hc) as (H1 & H2 & H3 & H4 & H5). destruct (IH Hs) as [A B C D E].
  split; simpl; rewrite ?A, ?H1, ?H3, ?H4, ?H5; try done; [by constructor|]. unfold no_control in *. simpl. by rewrite H4, D.
Qed.

Lemma hex_plain c : is_lower_hex c = true → plain_char c = true.
Proof. destruct c as [[] [] [] [] [] [] [] []]; intros E; try discriminate E; by vm_compute. Qed.
Lemma prefixed_hex_plain prefix s : all_bytes plain_char prefix = true → prefixed_hex prefix s = true → all_bytes plain_char s = true.
Proof.
  intros Hp. unfold prefixed_hex. destruct (strip_prefix prefix s) as [r|] eqn:E; [|discriminate].
  apply strip_prefix_Some in E as ->. unfold hex64. intros [_ Hr]%andb_true_iff. rewrite all_bytes_app, Hp. simpl.
  by eapply all_bytes_impl; [apply hex_plain|].
Qed.

Lemma split_on_bytes p sep s :
  p sep = true → Forall (λ t, all_bytes p t = true) (split_on sep s) → all_bytes p s = true.
Proof.
  intros Hsep. induction s as [|c s IH]; simpl; [done|]. case_bool_decide as Hc.
  - subst. intros [_ Hs]%Forall_cons. by rewrite Hsep, IH.
  - destruct (split_on sep s) as [|x rest]; intros [Hx Hr]%Forall_cons; simpl in Hx; apply andb_true_iff in Hx as [-> Hx];
      apply IH; [done|by constructor].
Qed.

Lemma capability_plain s : CAPABILITY_RE s = true → all_bytes plain_char s = true.
Proof.
  unfold CAPABILITY_RE. intros E. apply (all_bytes_impl (λ c, slug_char c || is_char ":"%char c)); [apply slug_plain|].
  apply (split_on_bytes _ ":"%char); [done|]. destruct (split_on _ s) as [|a [|b [|]]]; try discriminate. bools.
  repeat constructor; (eapply all_bytes_impl; [|done]); simpl; intros c ->; done.
Qed.

(** [s.replace("+00:00", "Z")] of plain text is plain. *)
Lemma replace_plain skip s : all_bytes plain_char s = true → all_bytes plain_char (replace_from "+00:00" "Z" skip s) = true.
Proof.
  revert skip; induction s as [|c s IH]; intros skip; [done|]. cbn [all_bytes]. intros [Hc Hs]%andb_true_iff.
  cbn [replace_from]. destruct skip as [|k]; [|by apply IH]. destruct (startswith _ _).
  - rewrite all_bytes_app. rewrite IH by done. done.
  - cbn [all_bytes]. by rewrite Hc, IH.
Qed.

Section texts.
Context `{PyLib}.
(** Unicode leaves ASCII text as it is, and a SHA-256 digest is 64 hexadecimal digits. *)
Hypothesis nfc_ascii : ∀ s, all_bytes (in_range 0 127) s = true → nfc s = s.
Hypothesis sha256_hex64 : ∀ s, hex64 (sha256_hex s) = true.

Lemma strict_plain code s : s ≠ "" → all_bytes plain_char s = true → strict_text code (VStr s) = Ok s.
Proof.
  intros Hne [Hst Hsp Ha Hc Hsu]%plain_text. unfold strict_text, safe_text.
  assert (clean s = s) as -> by by unfold clean; rewrite nfc_ascii, strip_no_space.
  rewrite bool_decide_eq_false_2 by done. rewrite Hc. simpl. by rewrite Hsu.
Qed.

Lemma pattern_plain re code s t :
  all_bytes plain_char s = true → pattern_text strict_text re code (VStr s) = Ok t → t = s.
Proof.
  intros Hp E. apply pattern_text_Ok in E as [E _]. destruct (decide (s = "")) as [->|Hne].
  - unfold strict_text, safe_text, clean in E. rewrite nfc_ascii in E by done. discriminate E.
  - rewrite strict_plain in E by done. by simplify_eq.
Qed.

Lemma canonical_plain field re l m :
  Forall (λ s, s ≠ "" ∧ all_bytes plain_char s = true) l →
  canonical_collection field re (VTuple (map VStr l)) = Ok m → m = sorted_strings l.
Proof.
  intros Hl.
  assert (map_r (binding_text field) (map VStr l) = Ok l) as Hm.
  { apply map_r_Ok_Forall2. induction Hl as [|y k [Hne Hp] _ IH]; simpl; constructor; [by apply strict_plain|done]. }
  unfold canonical_collection. destruct l as [|x l]; [discriminate|]. simpl as_sequence. simpl in Hm |- *.
  rewrite Hm. intros E. by inv_ok.
Qed.

Lemma digest_hex_plain prefix v x :
  all_bytes plain_char prefix = true → (let! h := digest_hex v in Ok (prefix +:+ h)) = Ok x → all_bytes plain_char x = true.
Proof.
  intros Hp E. inv_ok. match goal with E : digest_hex _ = Ok _ |- _ => unfold digest_hex in E; inv_ok end.
  apply (prefixed_hex_plain prefix); [done|]. unfold prefixed_hex. rewrite (proj2 (strip_prefix_Some _ _ _) eq_refl).
  by rewrite sha256_hex64.
Qed.

(** A printed time that is parsed back as itself *)
Definition prints_back (t : Z) : Prop :=
  all_bytes plain_char (utc_isoformat t) = true ∧
  fromisoformat (replace_Z (py_replace "+00:00" "Z" (utc_isoformat t))) = Some (t, Some 0%Z).

Lemma timestamp_again t x :
  prints_back t → binding_timestamp (VStr (py_replace "+00:00" "Z" (utc_isoformat t))) = Ok x →
  x = py_replace "+00:00" "Z" (utc_isoformat t).
Proof.
  intros [Hp Hf] E. pose proof (replace_plain 0 _ Hp) as Hs. fold (py_replace "+00:00" "Z" (utc_isoformat t)) in Hs.
  unfold binding_timestamp, binding_text in E. destruct (strict_text _ _) as [n|] eqn:En; [|discriminate].
  assert (n = py_replace "+00:00" "Z" (utc_isoformat t)) as ->.
  { apply (pattern_plain (λ _, true) (invalid "authority_issued_at")); [done|]. unfold pattern_text. by rewrite En. }
  rewrite Hf in E. rewrite Z.sub_0_r in E. by injection E.
Qed.

Lemma record_create_plain w application binding required issued artifact artifact_digest ids record :
  Forall (λ s, all_bytes plain_char s = true) [application; binding] →
  Forall (λ s, s ≠ "" ∧ all_bytes plain_char s = true) required →
  Forall (λ s, s ≠ "" ∧ all_bytes plain_char s = true) ids →
  (∀ x, binding_timestamp (VStr issued) = Ok x → x = issued) →
  binding_record_create (VStr w) (VStr application) (VStr binding) (VTuple (map VStr required)) (VStr issued) artifact
    artifact_digest (VTuple (map VStr ids)) = Ok record →
  ab_application_id record = application ∧ ab_credential_binding_id record = binding ∧
  ab_required_capabilities record = sorted_strings required ∧ ab_authority_issued_at record = issued ∧
  ab_authorized_operation_identities record = sorted_strings ids.
Proof.
  intros Hp Hr Hi Ht E. unfold binding_record_create, make_binding_record in E. inv_ok. simpl.
  apply Forall_cons in Hp as [Ha Hp]. apply Forall_cons in Hp as [Hb _].
  repeat match goal with
  | E : exact_id _ _ (VStr application) = Ok _ |- _ => apply pattern_plain in E; [|done]
  | E : exact_id _ _ (VStr binding) = Ok _ |- _ => apply pattern_plain in E; [|done]
  | E : canonical_collection _ _ _ = Ok _ |- _ => apply canonical_plain in E; [|done]
  end. split_and!; auto.
Qed.
End texts.

(** ** What the service needs of a binding store: a saved binding loads, and lookups answer
    for the store's own workspace only *)
Class BindingStoreLaws (S : Type) `{PyLib} `{BindingPersistence S} := {
  store_inv : string → S → Prop;
  save_keeps ws b st p st' : store_inv ws st → save_authority_binding ws b st = Ok (p, st') → store_inv ws st';
  save_load ws b st p st' :
    store_inv ws st → checked_workspace (VStr ws) = Ok ws → save_authority_binding ws b st = Ok (p, st') →
    load_authority_binding ws (VStr ws) (VStr (pb_authority_issuance_id p)) st' = Ok (Some p);
  save_workspace ws b st p st' :
    store_inv ws st → save_authority_binding ws b st = Ok (p, st') → ab_workspace_identity (pb_payload p) = ws;
  resolve_workspace ws w op st r :
    resolve_authority_binding_for_operation ws (VStr w) op st = Ok r → w = ws ∧ checked_workspace (VStr ws) = Ok ws;
}.

Section laws.
Context `{PyLib}.
Hypothesis nfc_ascii : ∀ s, all_bytes (in_range 0 127) s = true → nfc s = s.
Hypothesis sha256_hex64 : ∀ s, hex64 (sha256_hex s) = true.

Lemma checked_workspace_Ok w w' : checked_workspace (VStr w) = Ok w' → w' = w ∧ checked_workspace (VStr w) = Ok w.
Proof. simpl. destruct (_ || _); [discriminate|]. by intros [= ->]. Qed.

#[refine] Definition memory_laws : BindingStoreLaws MemoryStore := {| store_inv := memory_inv |}.
Proof.
  - intros ws b st p st'. apply memory_save_inv.
  - intros ws b st p st' Hi Hw E. pose proof (memory_save_inv ws b st p st' Hi E) as Hi'.
    destruct (memory_save_stored ws nfc_ascii b st p st' Hi E) as [Hst Hwf].
    change (memory_load ws (VStr ws) (VStr (pb_authority_issuance_id p)) st' = Ok (Some p)). unfold memory_load.
    rewrite Hw, (issuance_lookup ws sha256_hex64 p Hwf), bool_decide_eq_true_2 by done. simpl. by apply stored_load.
  - intros ws b st p st' Hi E. destruct (memory_save_stored ws nfc_ascii b st p st' Hi E) as [_ Hwf]. apply Hwf.
  - intros ws w op st r E. change (memory_resolve ws (VStr w) op st = Ok r) in E. unfold memory_resolve in E. inv_ok. bools.
    subst. match goal with E : checked_workspace _ = Ok _ |- _ => apply checked_workspace_Ok in E as [-> E] end. done.
Defined.

Lemma sqlite_save_memory ws b st db p db' :
  stored_alike ws st db → sqlite_save ws b db = Ok (p, db') →
  ∃ st', memory_save ws b st = Ok (p, st') ∧ stored_alike ws st' db'.
Proof.
  intros Ha E. pose proof (save_alike ws b st db Ha) as Hs. rewrite E in Hs.
  destruct (memory_save ws b st) as [[q st']|]; [|done]. destruct Hs as [-> Hs]. by exists st'.
Qed.

#[refine] Definition sqlite_laws : BindingStoreLaws BindingDb :=
  {| store_inv := λ ws db, ∃ st, stored_alike ws st db |}.
Proof.
  - intros ws b db p db' [st Ha] E. destruct (sqlite_save_memory ws b st db p db' Ha E) as (st' & _ & Ha'). by exists st'.
  - intros ws b db p db' [st Ha] Hw E. destruct (sqlite_save_memory ws b st db p db' Ha E) as (st' & Em & Ha').
    destruct (memory_save_stored ws nfc_ascii b st p st' (sa_inv _ _ _ Ha) Em) as [Hst Hwf].
    change (sqlite_load ws (VStr ws) (VStr (pb_authority_issuance_id p)) db' = Ok (Some p)). unfold sqlite_load.
    rewrite Hw, (issuance_lookup ws sha256_hex64 p Hwf), bool_decide_eq_true_2 by done. simpl.
    rewrite (load_parent_alike ws st' db' _ Ha'). apply stored_load; [apply Ha'|done].
  - intros ws b db p db' [st Ha] E. destruct (sqlite_save_memory ws b st db p db' Ha E) as (st' & Em & _).
    destruct (memory_save_stored ws nfc_ascii b st p st' (sa_inv _ _ _ Ha) Em) as [_ Hwf]. apply Hwf.
  - intros ws w op db r E. change (sqlite_resolve ws (VStr w) op db = Ok r) in E. unfold sqlite_resolve in E. inv_ok. bools.
    subst. match goal with E : checked_workspace _ = Ok _ |- _ => apply checked_workspace_Ok in E as [-> E] end. done.
Defined.
End laws.

(** ** Approvals are kept under their own identity *)
Section keyed.
Context `{PyLib}.
Variable st : SQLitePreviewStore.
Notation ws := (ps_workspace st).

Definition approvals_keyed (db : PreviewDb) : Prop :=
  ∀ id z r ap, record_at ws "approval" id z db = Some r → load_approval r = Ok ap → ap_approval_id ap = VStr id.

Lemma keyed_same db db' :
  (∀ id z, record_at ws "approval" id z db' = record_at ws "approval" id z db) → approvals_keyed db → approvals_keyed db'.
Proof. intros Hr Hk id z r ap. rewrite Hr. apply Hk. Qed.

Lemma first_event_records k r (db db' : PreviewDb) : insert_first_event k r db = Ok db' → records db' = records db.
Proof. unfold insert_first_event. destruct (events k db); [|discriminate]. by intros [= <-]. Qed.

Lemma store_step_keyed db db' : store_step st db db' → trails db → approvals_keyed db → approvals_keyed db'.
Proof.
  intros Hs T Hk. destruct Hs as [req p rev plan rem ops repo items workspace canonical level ev promo db db' E
    |a db db' Ha E|minted a auth a' db db' O E|id s a' db db' E|ap db db' E].
  - unfold _save_preview_revision_impl in E. destruct (check_save _ _ _ _ _ _ _ _ _ _ _ _ _ _); [|discriminate].
    apply or_value_error_Ok, save_transaction_facts in E as [[-> _]|(_ & _ & doc & _ & _ & _ & _ & Hr)]; [done| |done].
    eapply keyed_same; [|done]. intros id z. by apply Hr.
  - unfold record_audit in E. inv_ok; apply first_event_records in E; (eapply keyed_same; [|done]); intros; unfold record_at;
      by rewrite E.
  - apply or_value_error_Ok, commit_transaction_facts in E as (l & Hl & _ & _ & [[_ ->]|D]); [done| |done|done].
    destruct D as (db1 & r & -> & Hs & _ & Hi & _). pose proof (latest_audits_facts _ _ _ T Hl) as [Hids Hh].
    apply stale_all_trails in Hs as (_ & _ & R1 & _); [|done| |done]; [|rewrite Hids; apply NoDup_audit_ids].
    apply first_event_records in Hi. eapply keyed_same; [|done]. intros. unfold record_at. by rewrite Hi, R1.
  - unfold transition_audit_status in E. inv_ok. by eapply keyed_same.
  - apply store_record_approval_facts in E as (V & ai & au & p & z & r & pv & id & _ & _ & _ & _ & _ & _ & _ & Hid & _ & D).
    destruct D as [(_ & _ & _ & _ & _ & ->)|(row & _ & Hrow & ->)]; [done|].
    intros i z' r' ap' Hr Hl. unfold record_at in Hr. simpl in Hr. apply lookup_insert_Some in Hr as [[Ek <-]|[_ Hr]].
    + simplify_eq. pose proof (approval_row_load _ _ (is_structurally_valid_facts _ V) Hrow) as Hl'. congruence.
    + by eapply Hk.
Qed.

Lemma reachable_keyed db : reachable_store st db → approvals_keyed db.
Proof.
  intros R. assert (trails empty_preview_db) as T by apply trails_empty.
  assert (approvals_keyed empty_preview_db) as K by by intros id z r ap Hr; unfold record_at in Hr; simpl in Hr; rewrite lookup_empty in Hr.
  revert T K. induction R as [|db db1 db2 Hs R IH]; [done|]. intros T K. apply IH.
  - by eapply store_step_trails.
  - by eapply store_step_keyed.
Qed.

Lemma get_approval_keyed id db ap : reachable_store st db → get_approval st ws id db = Ok ap → ap_approval_id ap = VStr id.
Proof.
  intros R E. unfold get_approval in E. inv_ok. unfold record_of in E. destruct (least_revision _ _ _ _) as [z|]; [|discriminate].
  destruct (record_at _ _ _ _ _) as [r|] eqn:Er; [|discriminate]. by eapply (reachable_keyed _ R).
Qed.
End keyed.


(** ** The values of an issued authority *)
Section valid.
Context `{PyLib}.
Context {S : Type} `{BindingPersistence S} `{!BindingStoreLaws S}.
Variable isoformat_micros : Z → string.
Variable policies : Policies.
Variables boundary_id attestation_id : nat.
Variable svc : ApprovalService.
Variable trust : DriverTrustContext.
Variable binding_ws : string.
Hypothesis nfc_ascii : ∀ s, all_bytes (in_range 0 127) s = true → nfc s = s.
Hypothesis sha256_hex64 : ∀ s, hex64 (sha256_hex s) = true.
Notation store := (as_store svc).
Notation ws := (ps_workspace (as_store svc)).
Notation state := (AuthorityState S).

(** The fields of the authority: those of the values, with the identity and the time *)
Definition authority_dict (canonical : pyval) (audit : AuditRecord) (approval : ApprovalRecord) (approval_digest : string)
    (p : string) (r : Z) (binding : pyval) (issued id : string) : pyval :=
  dict_of
    [("authority_id", VStr id); ("workspace_identity", VStr ws);
     ("repository_identity", get canonical "repository_identity"); ("preview_id", VStr p); ("revision", VInt r);
     ("sealed_preview_digest", get canonical "sealed_preview_digest"); ("plan_digest", get canonical "plan_digest");
     ("operation_set_digest", get canonical "operation_set_digest");
     ("remote_snapshot_digest", get canonical "remote_snapshot_digest"); ("audit_id", VStr (ad_audit_id audit));
     ("audit_digest", VStr (ad_audit_digest audit)); ("approval_id", ap_approval_id approval);
     ("approval_digest", VStr approval_digest); ("credential_binding_id", get binding "binding_id");
     ("credential_instance_id", get binding "credential_instance_id"); ("issuer_id", get binding "issuer_id");
     ("credential_principal_identity", get binding "credential_principal_identity");
     ("github_subject_identity", get binding "github_subject_identity");
     ("driver_identity", get binding "driver_identity"); ("remote_authority", get binding "remote_authority");
     ("required_capabilities", get binding "required_capabilities");
     ("granted_capabilities", get binding "granted_capabilities"); ("issued_at", VStr issued);
     ("expires_at", get binding "expires_at")].

Lemma authority_create_dict c a ap d p r b issued id :
  authority_create (with_identity (authority_values svc c a ap d p r b) issued id) = Ok (authority_dict c a ap d p r b issued id).
Proof. vm_compute. reflexivity. Qed.

Lemma expected_id_dict c a ap d p r b issued id :
  expected_id (authority_dict c a ap d p r b issued id) = expected_id (authority_values svc c a ap d p r b).
Proof. reflexivity. Qed.
Lemma identity_dict c a ap d p r b issued id :
  identity_from_authority (authority_dict c a ap d p r b issued id)
  = identity_from_authority (authority_values svc c a ap d p r b).
Proof. reflexivity. Qed.

(** ** What an issuance has checked *)
Record prepared (env : AuthorityServices) (preview : pyval) (audit : AuditRecord) (approval : ApprovalRecord) (p : string)
    (r : Z) (context : VerifiedContext) (st : state) (id : string) (authority : pyval) (signed : SignedAuthorityBinding)
    (binding values : pyval) (application : string) (ids : list string) (issued : string) : Prop := {
  pr_registered : registered_fields context (au_runtime st) = Ok binding;
  pr_application : bound_application svc preview audit approval p r binding = Ok (values, application, ids);
  pr_unassigned : unassigned svc binding_ws ids (au_bindings st) = Ok tt;
  pr_id : expected_id values = Ok id;
  pr_time : ∃ time, sv_clock env = Ok time ∧ _utc time = Ok issued;
  pr_current : iso_not_after (get binding "expires_at") (VStr issued) = Ok false;
  pr_authority : authority_create (with_identity values issued id) = Ok authority;
  pr_record : ∃ artifact digest,
    binding_record_create (VStr ws) (VStr application) (get binding "binding_id") (get binding "required_capabilities")
      (VStr issued) artifact digest (VTuple (map VStr ids)) = Ok (sb_payload signed);
}.

Lemma recode_Ok {A} code (c : result A) x : recode code c = Ok x → c = Ok x.
Proof. unfold recode. destruct c as [|e]; [done|]. by destruct (is_key_type_value_error e). Qed.
Lemma read_error_Ok {A} code (c : result A) x : read_error code c = Ok x → c = Ok x.
Proof. by destruct c as [|[]]. Qed.

Lemma prepare_issuance_facts env persist signer preview audit approval p r context st id authority signed :
  prepare_issuance attestation_id svc binding_ws env persist signer preview audit approval p r context st
    = Ok (id, authority, signed) →
  ∃ binding values application ids issued,
    prepared env preview audit approval p r context st id authority signed binding values application ids issued.
Proof.
  unfold prepare_issuance. intros E. inv_checks.
  match goal with E : read_error _ _ = Ok _ |- _ => apply read_error_Ok in E end.
  match goal with E : create_signed_authority_binding _ _ = Ok _ |- _ => unfold create_signed_authority_binding in E; inv_ok end.
  match goal with E : make_signed _ _ _ _ _ = Ok _ |- _ => apply make_signed_Ok in E as (<- & _) end.
  match goal with u : unit |- _ => destruct u end.
  do 5 eexists. split; eauto.
Qed.

(** The values, once the checks of [bound_application] are split *)
Lemma bound_application_facts preview audit approval p r binding values application ids :
  bound_application svc preview audit approval p r binding = Ok (values, application, ids) →
  let canonical := get preview "canonical_payload" in
  is_mapping canonical = true ∧
  ∃ d required granted identity operations,
    _approval_digest approval = Ok d ∧ values = authority_values svc canonical audit approval d p r binding ∧
    get binding "required_capabilities" = VTuple (map VStr required) ∧
    get binding "granted_capabilities" = VTuple (map VStr granted) ∧ WRITE_CAPABILITY ∈ required ∧
    (∀ c, c ∈ required → c ∈ granted) ∧ fields_equal BOUND_FIELDS binding values = true ∧
    fields_equal CREDENTIAL_FIELDS binding values = true ∧ identity_from_authority values = Ok identity ∧
    application = _application_id identity ∧ _execution_operations canonical = Ok operations ∧ operations ≠ [] ∧
    operation_identities application 0 operations = Ok ids.
Proof.
  unfold bound_application. intros E. inv_checks. bools.
  repeat match goal with E : capability_list _ = Ok _ |- _ => apply capability_list_Ok in E end.
  match goal with E : recode _ (_execution_operations _) = Ok _ |- _ => apply recode_Ok in E end.
  split; [done|]. do 5 eexists. by split_and!.
Qed.

(** ** The fields of a registered binding and of the values are texts, an integer and tuples *)
Lemma typed_field_free fields name x : typed_field fields name = Ok x → float_free (get fields name) = true.
Proof.
  unfold typed_field. intros E.
  repeat match goal with
  | E : integrity_error = Ok _ |- _ => discriminate E
  | E : (if ?b then _ else _) = Ok _ |- _ => destruct b eqn:?; try discriminate E
  | E : (match ?v with VNone => _ | _ => _ end) = Ok _ |- _ => destruct v eqn:?; try discriminate E
  | E : (match nonempty_strs ?l with Some _ => _ | None => _ end) = Ok _ |- _ => destruct (nonempty_strs l) eqn:?; try discriminate E
  end; try done.
  - match goal with E : nonempty_strs _ = Some _ |- _ => apply nonempty_strs_Some in E as [-> _] end. simpl.
    apply forallb_true. by intros v (s & -> & _)%list_elem_of_fmap.
  - bools. by destruct (get fields name).
  - bools. match goal with E : py_eq _ (VStr _) = true |- _ => by apply py_eq_str in E as -> end.
Qed.

Lemma registered_fields_Ok context rt binding :
  registered_fields context rt = Ok binding →
  ∃ id o, get binding "binding_id" = VStr id ∧ lookup_binding id rt = Some o ∧ rt_objects rt !! o = Some binding ∧
    resolve_registered_binding (VStr id) rt = Ok o ∧ ∀ k, k ∈ BINDING_SLOTS → float_free (get binding k) = true.
Proof.
  unfold registered_fields. intros E. inv_ok. bools. subst.
  match goal with E : resolve_registered_binding _ _ = Ok _ |- _ =>
    pose proof E as Er; apply resolve_binding_Ok in E as (id & fields & Hid & Hl & Ho) end.
  rewrite Ho in *. simpl in *. exists id, (vc_binding context). rewrite Hid in Er. split_and!; try done.
  unfold lookup_binding in Hl. destruct (rt_by_id rt !! id); [|discriminate].
  destruct (_registered_binding_is_intact n rt) eqn:Hi; [|discriminate]. simplify_eq.
  unfold _registered_binding_is_intact in Hi. rewrite Ho in Hi. destruct (rt_registry rt !! _) as [entry|]; [|discriminate].
  bools. match goal with E : _binding_contract _ = Ok _ |- _ => unfold _binding_contract in E; inv_ok end.
  match goal with E : _typed_binding_snapshot _ = Ok _ |- _ => apply map_r_Ok_Forall2 in E; rename E into Hs end.
  intros k [i Hk]%list_elem_of_lookup. destruct (Forall2_lookup_l _ _ _ _ _ Hs Hk) as (y & _ & Hy). by eapply typed_field_free.
Qed.

Definition TEXT_FIELDS : list string :=
  ["workspace_identity"; "repository_identity"; "preview_id"; "sealed_preview_digest"; "plan_digest"; "operation_set_digest";
   "remote_snapshot_digest"; "audit_id"; "audit_digest"; "approval_id"].
Lemma identity_texts values identity :
  identity_from_authority values = Ok identity → ∀ k, k ∈ TEXT_FIELDS → ∃ s, get values k = VStr s.
Proof.
  unfold identity_from_authority, _logical_values. intros E. inv_ok.
  repeat match goal with E : text_field _ _ = Ok _ |- _ => apply text_field_Ok in E as [E _] end.
  apply Forall_forall. repeat constructor; eauto.
Qed.

Lemma operation_identities_plain application index operations ids :
  operation_identities application index operations = Ok ids → Forall (λ s, s ≠ "" ∧ all_bytes plain_char s = true) ids.
Proof.
  revert index ids; induction operations as [|op l IH]; intros index ids E; simpl in E; inv_ok; [constructor|].
  constructor; [|by eapply IH].
  match goal with E : operation_identity _ _ _ = Ok _ |- _ => rename E into Eo end.
  split; [by eapply operation_identity_nonempty|]. unfold operation_identity in Eo. destruct (bool_decide _); [discriminate|].
  destruct (recode _ _); [|discriminate]. by eapply (digest_hex_plain sha256_hex64 "operation-").
Qed.

Lemma operation_identities_some application operations ids :
  operations ≠ [] → operation_identities application 0 operations = Ok ids → ids ≠ [].
Proof. destruct operations; [done|]. simpl. intros _ E. by inv_ok. Qed.

Lemma fields_equal_same names a b :
  (∀ k, k ∈ names → get a k = get b k ∧ float_free (get b k) = true) → fields_equal names a b = true.
Proof. intros Hk. apply forallb_true. intros k Hin. destruct (Hk k Hin) as [-> Hf]. by apply py_eq_refl. Qed.

(** The workspace of the store is that of the service once an operation was looked up. *)
Lemma unassigned_workspace ids b :
  ids ≠ [] → unassigned svc binding_ws ids b = Ok tt → ws = binding_ws ∧ checked_workspace (VStr binding_ws) = Ok binding_ws.
Proof. destruct ids; [done|]. simpl. intros _ E. inv_ok. by eapply resolve_workspace. Qed.

(** ** The preview, the audit and the approval it was issued under *)
Lemma resolve_audit_subject p r db preview audit :
  _resolve_audit svc p r db = Ok (preview, audit) → ad_preview_id audit = p ∧ ad_revision audit = r.
Proof.
  unfold _resolve_audit. intros E. inv_ok.
  match goal with E : list_active_audits _ _ _ _ = Ok ?l |- _ => rename E into El; destruct l as [|x [|]] end; inv_ok; simplify_eq.
  unfold list_active_audits in El. inv_ok. match goal with E : List.filter _ ?l = [audit] |- _ => rename E into Ef end.
  assert (In audit [audit]) as Hin by by left. rewrite <- Ef in Hin. apply filter_In in Hin as [_ Hin]. unfold of_preview in Hin.
  by bools.
Qed.

Lemma approval_matches approval audit preview :
  _validate_approval_against_current_preview approval audit preview ws = Ok true →
  audit_matches_preview audit (get preview "canonical_payload") ws = true.
Proof.
  unfold _validate_approval_against_current_preview. intros E. destruct (negb (is_mapping _)); [discriminate|]. inv_ok. by bools.
Qed.

Lemma current_approval_facts p r a db preview audit approval :
  reachable_store store db → current_approval svc p r a db = Ok (preview, audit, approval) →
  _resolve_audit svc p r db = Ok (preview, audit) ∧ get_approval store ws a db = Ok approval ∧
  validate_approval_current store approval db = Ok true ∧ ap_approval_id approval = VStr a ∧
  audit_matches_preview audit (get preview "canonical_payload") ws = true.
Proof.
  intros R E. unfold current_approval in E. inv_checks. bools. repeat match goal with E : ?x = true |- _ => subst x end.
  match goal with E : value_error _ (get_approval _ _ _ _) = Ok _ |- _ => rename E into Eg end.
  assert (get_approval store ws a db = Ok approval) as Ha.
  { unfold value_error in Eg. destruct (get_approval _ _ _ _) as [|e]; [done|]. by destruct (is_value_error e). }
  split_and!; try done; [by eapply get_approval_keyed|by eapply approval_matches].
Qed.

Lemma still_current values p r a db preview audit approval d :
  _resolve_audit svc p r db = Ok (preview, audit) → get_approval store ws a db = Ok approval →
  validate_approval_current store approval db = Ok true → _approval_digest approval = Ok d →
  get values "approval_digest" = VStr d → get values "audit_id" = VStr (ad_audit_id audit) →
  get values "audit_digest" = VStr (ad_audit_digest audit) →
  approval_still_current svc values p r a db = Ok (Some preview).
Proof.
  intros Hr Hg Hc Hd H1 H2 H3. unfold approval_still_current. rewrite Hr, Hg, Hc, Hd, H1, H2, H3. simpl.
  by rewrite !bool_decide_eq_true_2.
Qed.

(** ** The registrations *)
Lemma fresh_context_bindings env p r db (st : state) c (st' : state) :
  fresh_context isoformat_micros policies boundary_id attestation_id svc trust env p r db st = (c, st') →
  au_bindings st' = au_bindings st.
Proof. unfold fresh_context. destruct (orchestrate _ _ _ _ _ _ _ _ _ _ _ _) as [[[]]|]; intros; by simplify_eq. Qed.
Lemma live_context_bindings env p r db (st : state) c (st' : state) :
  live_context isoformat_micros policies boundary_id attestation_id svc trust env p r db st = (c, st') →
  au_bindings st' = au_bindings st.
Proof.
  unfold live_context. destruct (au_contexts st !! _); [destruct (accepts_verified_context _ _ _)|]; intros; simplify_eq;
    eauto using fresh_context_bindings.
Qed.

Lemma commit_issuance_Ok id authority signed (st : state) object (st' : state) :
  commit_issuance binding_ws id authority signed st = (Ok object, st') →
  ∃ p b, save_authority_binding binding_ws signed (au_bindings st) = Ok (p, b) ∧ pb_signed p = signed ∧
    object = au_next st ∧ st' = register_authority id (pb_authority_issuance_id p) authority (set_bindings b st).
Proof.
  unfold commit_issuance. destruct (save_authority_binding _ _ _) as [[p b]|]; [|done].
  destruct (persisted_as signed p) as [same|] eqn:Ep; [|done]. destruct same; [|done]. simpl.
  destruct (match au_issuance_ids st !! id with Some _ => _ | None => _ end); [done|].
  destruct (bool_decide _); [done|]. intros [= <- <-]. exists p, b. split_and!; try done.
  unfold persisted_as in Ep. inv_ok. match goal with E : _ = true |- _ => by apply andb_true_iff in E as [[?%bool_decide_eq_true _]%andb_true_iff _] end.
Qed.

(** ** The stores of a run *)
Notation run := (authority_run isoformat_micros policies boundary_id attestation_id svc trust binding_ws).
Notation step' := (authority_step isoformat_micros policies boundary_id attestation_id svc trust binding_ws).

Lemma commit_issuance_store id authority signed (st : state) :
  store_inv binding_ws (au_bindings st) → store_inv binding_ws (au_bindings (snd (commit_issuance binding_ws id authority signed st))).
Proof.
  intros Hi. unfold commit_issuance. destruct (save_authority_binding _ _ _) as [[p b]|] eqn:E; [|done].
  apply save_keeps in E; [|done]. by destruct (let! same := _ in _).
Qed.

Lemma authority_step_store c (st : state) :
  store_inv binding_ws (au_bindings st) → store_inv binding_ws (au_bindings (step' c st)).
Proof.
  intros Hi. destruct c as [env p r a db|env p r a db|object fields|object fields]; try done; simpl.
  - unfold issue_application_authority. destruct a; try done. case_bool_decide; [done|].
    destruct (sv_persist_link env), (sv_signer env); try done.
    destruct (current_approval _ _ _ _ _) as [[[preview audit] approval]|]; [|done].
    destruct (live_context _ _ _ _ _ _ _ _ _ _ _) as [[c|] st'] eqn:El; apply live_context_bindings in El; simpl; rewrite <- El in Hi;
      [|done].
    destruct (prepare_issuance _ _ _ _ _ _ _ _ _ _ _ _ _) as [[[id fields] signed]|]; [|done].
    by apply commit_issuance_store.
  - unfold recover_application_authority. destruct a; try done. case_bool_decide; [done|].
    destruct (sv_resolve_link env), (sv_verifier env); try done.
    destruct (let! x := _ in _) as [[[id i] fields]|]; [|done]. unfold commit_recovery.
    destruct (match _ with Some _ => _ | None => _ end); [done|].
    destruct (au_authorities st !! id); [|done]. destruct (negb _); [done|]. simpl. by destruct (bool_decide _).
Qed.

Lemma authority_run_store calls (st : state) :
  store_inv binding_ws (au_bindings st) → store_inv binding_ws (au_bindings (run calls st)).
Proof. revert st; induction calls as [|c l IH]; intros st Hi; simpl; [done|]. by apply IH, authority_step_store. Qed.

(** ** The authority agrees with its binding and its preview *)
Section agreement.
Context (preview : pyval) (audit : AuditRecord) (approval : ApprovalRecord) (p : string) (r : Z) (binding : pyval).
Context (d issued id : string).
Notation canonical := (get preview "canonical_payload").
Notation values := (authority_values svc canonical audit approval d p r binding).
Notation authority := (authority_dict canonical audit approval d p r binding issued id).

Lemma authority_bound k : k ∈ BOUND_FIELDS → get authority k = get values k.
Proof. revert k. apply Forall_forall. repeat constructor. Qed.
Lemma authority_credential k :
  k ∈ ["credential_instance_id"; "issuer_id"; "credential_principal_identity"; "github_subject_identity"; "driver_identity";
       "remote_authority"; "expires_at"; "required_capabilities"; "granted_capabilities"] → get authority k = get binding k.
Proof. revert k. apply Forall_forall. repeat constructor. Qed.

Lemma binding_bound identity z k :
  identity_from_authority values = Ok identity → fields_equal BOUND_FIELDS binding values = true →
  get binding "revision" = VInt z → k ∈ BOUND_FIELDS → get binding k = get values k ∧ float_free (get values k) = true.
Proof.
  intros Hi Hf Hz Hk. pose proof (identity_texts _ _ Hi) as Ht. unfold fields_equal in Hf. rewrite forallb_true in Hf.
  specialize (Hf k Hk). destruct (decide (k = "revision")) as [->|Hne].
  - rewrite Hz in *. change (get values "revision") with (VInt r) in *. simpl in Hf. apply Z.eqb_eq in Hf as ->. done.
  - assert (k ∈ TEXT_FIELDS) as Hkt by (clear -Hk Hne; set_solver). destruct (Ht k Hkt) as [s Hs]. rewrite Hs in *.
    by apply py_eq_str in Hf.
Qed.

Lemma agrees_with_binding identity z :
  identity_from_authority values = Ok identity → fields_equal BOUND_FIELDS binding values = true →
  get binding "revision" = VInt z → (∀ k, k ∈ BINDING_SLOTS → float_free (get binding k) = true) →
  fields_equal LIVE_FIELDS authority binding = true.
Proof.
  intros Hi Hf Hz Hfree. unfold LIVE_FIELDS. rewrite fields_equal_app, andb_true_iff. split; apply fields_equal_same; intros k Hk.
  - destruct (binding_bound _ _ _ Hi Hf Hz Hk) as [-> ?]. by rewrite authority_bound.
  - rewrite authority_credential by (clear -Hk; set_solver). split; [done|]. apply Hfree. clear -Hk. set_solver.
Qed.

Lemma agrees_with_preview identity :
  identity_from_authority values = Ok identity → audit_matches_preview audit canonical ws = true →
  ad_preview_id audit = p → ad_revision audit = r → fields_equal PREVIEW_FIELDS authority canonical = true.
Proof.
  intros Hi Hm Hp Hr. pose proof (identity_texts _ _ Hi) as Ht. unfold audit_matches_preview in Hm. bools.
  repeat match goal with E : py_eq _ (VStr _) = true |- _ => apply py_eq_str in E end.
  repeat match goal with E : py_eq (VStr _) (get canonical _) = true |- _ => apply py_eq_str_l in E end.
  unfold fields_equal. rewrite forallb_true. intros k Hk. destruct (decide (k = "revision")) as [->|Hne].
  - change (get authority "revision") with (VInt r). by subst.
  - assert (get authority k = get canonical k) as Hs.
    { destruct (decide (k = "preview_id")) as [->|]; [change (VStr p = get canonical "preview_id"); congruence|].
      destruct (decide (k = "workspace_identity")) as [->|]; [change (VStr ws = get canonical "workspace_identity"); congruence|].
      assert (k ∈ ["repository_identity"; "sealed_preview_digest"; "plan_digest"; "operation_set_digest"; "remote_snapshot_digest"])
        as Hk' by (clear -Hk Hne n n0; set_solver). clear -Hk'. revert k Hk'. apply Forall_forall. repeat constructor. }
    rewrite Hs. apply py_eq_refl. rewrite <- Hs. rewrite authority_bound by (clear -Hk; set_solver).
    destruct (Ht k) as [s ->]; [clear -Hk Hne; set_solver|done].
Qed.
End agreement.

(** ** Issued, then validated *)
Lemma current_times v issued t :
  prints_back t → issued = py_replace "+00:00" "Z" (utc_isoformat t) → iso_not_after v (VStr issued) = Ok false →
  ∃ e o, parse_iso v = Ok (e, Some o) ∧ (t < e - o)%Z.
Proof.
  intros [_ Hp] -> E. unfold iso_not_after in E. destruct (parse_iso v) as [[e o]|] eqn:Ev; [|discriminate].
  unfold parse_iso in E at 1. rewrite Hp in E. simpl in E. destruct o as [o|]; [|discriminate]. injection E as E. bools.
  exists e, o. split; [done|lia].
Qed.

(** The stored payload is for the authority. *)
Lemma payload_covers preview audit approval p r context (st : state) env id authority signed binding d application ids issued
    required granted identity t b pb st' :
  prepared env preview audit approval p r context st id authority signed binding
    (authority_values svc (get preview "canonical_payload") audit approval d p r binding) application ids issued →
  store_inv binding_ws (au_bindings st) → save_authority_binding binding_ws signed (au_bindings st) = Ok (pb, st') →
  pb_signed pb = signed → ids ≠ [] → prints_back t → issued = py_replace "+00:00" "Z" (utc_isoformat t) →
  get binding "binding_id" = VStr b → binding_identity binding = Ok b →
  get binding "required_capabilities" = VTuple (map VStr required) → capability_names required →
  get binding "granted_capabilities" = VTuple (map VStr granted) →
  application = _application_id identity →
  identity_from_authority (authority_values svc (get preview "canonical_payload") audit approval d p r binding) = Ok identity →
  Forall (λ s, s ≠ "" ∧ all_bytes plain_char s = true) ids →
  let payload := pb_payload pb in
  ab_workspace_identity payload = ws ∧ ab_application_id payload = application ∧ ab_credential_binding_id payload = b ∧
  ab_required_capabilities payload = required ∧ ab_authority_issued_at payload = issued ∧
  ab_authorized_operation_identities payload = sorted_strings ids.
Proof.
  intros Hprep Hst Hsave Hsig Hne Hp Hiss Hb Hbid Hreq [Hcap Hsort] Hgr Happ Hid Hids payload.
  destruct (unassigned_workspace _ _ Hne (pr_unassigned _ _ _ _ _ _ _ _ _ _ _ _ _ _ _ _ Hprep)) as [Hws _].
  pose proof (save_workspace _ _ _ _ _ Hst Hsave) as Hw.
  destruct (pr_record _ _ _ _ _ _ _ _ _ _ _ _ _ _ _ _ Hprep) as (artifact & digest & Hrec).
  rewrite Hb, Hreq in Hrec. unfold payload, pb_payload in *. rewrite Hsig in *.
  apply record_create_plain in Hrec as (Ha & Hbi & Hr & Hi & Ho); [|done|..].
  - rewrite Hws, Hr, Hsort. by split_and!.
  - repeat constructor.
    + rewrite Happ. unfold identity_from_authority in Hid. inv_ok. unfold make_identity in Hid. inv_ok.
      eapply (digest_hex_plain sha256_hex64 "application-"); [done|].
      match goal with E : digest_hex _ = Ok ?h |- _ => by rewrite E end.
    + unfold binding_identity in Hbid. by eapply (digest_hex_plain sha256_hex64 "binding-").
  - apply Forall_forall. intros s Hs. specialize (Hcap s Hs). split; [|by apply capability_plain]. by intros ->.
  - done.
  - subst issued. intros x. by apply timestamp_again.
Qed.

#[local] Strategy opaque [expected_id].

(** The checks of the validation, on an authority that was issued under these facts *)
Lemma validation_of_issued (values preview binding : pyval) (audit : AuditRecord) (approval : ApprovalRecord) (pb : PersistedAuthorityBinding)
    id p r a d b o required granted identity operations ids issued e x object now db (st : state) :
  expected_id values = Ok id → au_authorities st !! id = Some object →
  au_issuance_ids st !! id = Some (pb_authority_issuance_id pb) → au_provenance st = ∅ →
  load_authority_binding binding_ws (VStr ws) (VStr (pb_authority_issuance_id pb)) (au_bindings st) = Ok (Some pb) →
  _resolve_audit svc p r db = Ok (preview, audit) → get_approval store ws a db = Ok approval →
  validate_approval_current store approval db = Ok true → _approval_digest approval = Ok d →
  get values "approval_digest" = VStr d → get values "audit_id" = VStr (ad_audit_id audit) →
  get values "audit_digest" = VStr (ad_audit_digest audit) → get values "credential_binding_id" = VStr b →
  resolve_registered_binding (VStr b) (au_runtime st) = Ok o → rt_objects (au_runtime st) !! o = Some binding →
  get values "required_capabilities" = VTuple (map VStr required) →
  get values "granted_capabilities" = VTuple (map VStr granted) →
  get binding "required_capabilities" = VTuple (map VStr required) →
  get binding "granted_capabilities" = VTuple (map VStr granted) → WRITE_CAPABILITY ∈ required →
  (∀ c, c ∈ required → c ∈ granted) → parse_iso (get values "expires_at") = Ok (e, Some x) →
  is_mapping (get preview "canonical_payload") = true → fields_equal LIVE_FIELDS values binding = true →
  identity_from_authority values = Ok identity → _execution_operations (get preview "canonical_payload") = Ok operations →
  operation_identities (_application_id identity) 0 operations = Ok ids →
  (let payload := pb_payload pb in
   ab_workspace_identity payload = ws ∧ ab_application_id payload = _application_id identity ∧
   ab_credential_binding_id payload = b ∧ ab_required_capabilities payload = required ∧
   ab_authority_issued_at payload = issued ∧ ab_authorized_operation_identities payload = sorted_strings ids) →
  get values "issued_at" = VStr issued → fields_equal PREVIEW_FIELDS values (get preview "canonical_payload") = true →
  authority_checks svc binding_ws values id p r a object (Ok (Some now)) db st = Ok (bool_decide (now < e - x)%Z).
Proof.
  intros He Ha Hi Hp Hl Hr Hg Hc Hd H1 H2 H3 Hb Hres Hob Hvr Hvg Hbr Hbg Hw Hsub Hexp Hmap Hlive Hid Hops Hids
    (P1 & P2 & P3 & P4 & P5 & P6) Hiss Hpf.
  unfold authority_checks. rewrite He, Ha, Hi, !bool_decide_eq_true_2 by done. cbn [negb orb].
  unfold authority_grounds. rewrite Hp, lookup_empty, Hl, bool_decide_eq_true_2 by done.
  rewrite (still_current _ _ _ _ _ _ _ _ _ Hr Hg Hc Hd H1 H2 H3). unfold granted_now. rewrite Hb, Hres, Hob.
  change (default VNone (Some binding)) with binding. rewrite (fields_equal_same ["required_capabilities"; "granted_capabilities"]); cycle 1.
  { intros k Hk. repeat (apply elem_of_cons in Hk as [->|Hk]); [..|by apply elem_of_nil in Hk]; split; try congruence.
    all: rewrite ?Hbr, ?Hbg; simpl; apply forallb_true; by intros v (s & -> & _)%list_elem_of_fmap. }
  rewrite Hvr, Hbg. unfold capability_list. rewrite !strs_of_map.
  rewrite (proj2 (all_members required granted) Hsub), bool_decide_eq_true_2 by done. cbn [negb orb utc_now].
  unfold iso_expired. rewrite Hexp. destruct (Z.leb_spec (e - x) now).
  - rewrite bool_decide_eq_false_2 by lia. done.
  - rewrite bool_decide_eq_true_2 by lia.
    assert (subscript preview "canonical_payload" = Ok (get preview "canonical_payload")) as ->.
    { unfold get, get_default, subscript in *. destruct preview; try discriminate Hmap. by destruct (dget _ d0). }
    unfold covers_operations. rewrite Hlive, Hid, Hops, Hids, P1, P2, P3, P4, P5, P6, Hb, Hvr, Hiss.
    rewrite !bool_decide_eq_true_2 by done. rewrite !py_eq_refl by (try done; simpl; apply forallb_true; by intros v (s & -> & _)%list_elem_of_fmap).
    cbn [negb andb]. by rewrite Hmap, Hpf.
Qed.

Notation issue := (issue_application_authority isoformat_micros policies boundary_id attestation_id svc trust binding_ws).
Notation validate := (validate_application_authority svc binding_ws).

(** The validation is its checks, where they answer. *)
Lemma validate_by_checks id p r a values object clock db (st : state) b :
  au_objects st !! object = Some values → get values "authority_id" = VStr id → get values "preview_id" = VStr p →
  get values "revision" = VInt r → get values "approval_id" = VStr a →
  authority_checks svc binding_ws values id p r a object clock db st = Ok b → validate object clock db st = Ok b.
Proof. intros Ho H1 H2 H3 H4 Hc. unfold validate_application_authority. by rewrite Ho, H1, H2, H3, H4, Hc. Qed.

(** An issuance that succeeded, and the state it left *)
Lemma issue_Ok env p r a db (st : state) object st' :
  authority_inv policies svc trust st → store_inv binding_ws (au_bindings st) →
  issue env p r a db st = (Ok object, st') →
  ∃ k preview audit approval context st1 id authority signed binding values application ids issued pb b,
    a = VStr k ∧ current_approval svc p r k db = Ok (preview, audit, approval) ∧
    prepared env preview audit approval p r context st1 id authority signed binding values application ids issued ∧
    authority_inv policies svc trust st1 ∧ store_inv binding_ws (au_bindings st1) ∧
    save_authority_binding binding_ws signed (au_bindings st1) = Ok (pb, b) ∧ pb_signed pb = signed ∧
    object = au_next st1 ∧ st' = register_authority id (pb_authority_issuance_id pb) authority (set_bindings b st1).
Proof.
  intros Hi Hs E. unfold issue_application_authority in E. destruct a as [| | | |k| | | | | |]; try discriminate.
  destruct (bool_decide (k = "")); [discriminate|].
  destruct (sv_persist_link env) as [persist|]; [|discriminate]. destruct (sv_signer env) as [signer|]; [|discriminate].
  destruct (current_approval _ _ _ _ _) as [[[preview audit] approval]|] eqn:Ea; [|discriminate].
  destruct (live_context _ _ _ _ _ _ _ _ _ _ _) as [[context|] st1] eqn:El; [|discriminate].
  pose proof (live_context_inv _ _ _ _ _ _ _ _ _ _ _ _ _ El Hi) as Hi1. apply live_context_bindings in El. rewrite <- El in Hs.
  destruct (prepare_issuance _ _ _ _ _ _ _ _ _ _ _ _ _) as [[[id authority] signed]|] eqn:Ep; [|discriminate].
  apply prepare_issuance_facts in Ep as (binding & values & application & ids & issued & Hp).
  apply commit_issuance_Ok in E as (pb & b & Hsave & Hsig & Ho & Hst).
  exists k, preview, audit, approval, context, st1, id, authority, signed, binding, values, application, ids, issued, pb, b.
  by split_and!.
Qed.

(** C14: What [issue_application_authority] returns is registered and accepted by
    [validate_application_authority] at every time before its credential expires, and at none
    from then on, as long as the previews, the audit and the approval stay as they were: the
    two agree on the approval, the binding, the operations and the durable record.  It was
    not expired when it was issued. *)
Theorem issued_authority_accepted calls bindings env p r a db t object st' :
  store_inv binding_ws bindings → reachable_store store db → sv_clock env = Ok (Some t) → prints_back t →
  issue env p r a db (run calls (new_authorities bindings)) = (Ok object, st') →
  ∃ values expires offset, au_objects st' !! object = Some values ∧
    parse_iso (get values "expires_at") = Ok (expires, Some offset) ∧ (t < expires - offset)%Z ∧
    ∀ now, validate object (Ok (Some now)) db st' = Ok (bool_decide (now < expires - offset)%Z).
Proof.
  intros Hst Hdb Hclock Hp E.
  apply issue_Ok in E as (k & preview & audit & approval & context & st1 & id & authority & signed & binding & values &
    application & ids & issued & pb & b & -> & Hca & Hprep & [Hrt Hprov] & Hst1 & Hsave & Hsig & -> & ->);
    [|by apply authority_run_inv, new_authorities_inv|by apply authority_run_store].
  destruct (current_approval_facts _ _ _ _ _ _ _ Hdb Hca) as (Hres & Hget & Hcur & Hkey & Hmatch).
  destruct (resolve_audit_subject _ _ _ _ _ Hres) as [Hap Har].
  pose proof Hprep as [Hreg Happ Hun Hid (time & Htime & Hutc) Hlate Hauth _].
  rewrite Hclock in Htime. injection Htime as <-. injection Hutc as Hissued.
  destruct (bound_application_facts _ _ _ _ _ _ _ _ _ Happ) as (Hmap & d & required & granted & identity & operations & Hd &
    -> & Hreq & Hgr & Hw & Hsub & Hbound & _ & Hident & -> & Hops & Hne & Hids).
  rewrite authority_create_dict in Hauth. injection Hauth as <-.
  destruct (registered_fields_Ok _ _ _ Hreg) as (bid & o & Hbid & Hlook & Hobj & Hresolve & Hfree).
  destruct (lookup_binding_origin _ _ _ _ _ _ _ _ Hrt Hlook Hobj) as (event & request & c & au & e & cd & Hatt & _ & _ & Hbi & Hslots).
  assert (get binding "required_capabilities" = VTuple (map VStr (rv_required_capabilities request))) as Hreq'.
  { rewrite Hslots by (clear; set_solver). reflexivity. }
  assert (get binding "revision" = VInt (cl_revision (held_value (ev_claims event)))) as Hrev.
  { rewrite Hslots by (clear; set_solver). reflexivity. }
  assert (required = rv_required_capabilities request) as Hrr.
  { rewrite Hreq in Hreq'. injection Hreq' as Hm. apply (f_equal strs_of) in Hm. rewrite !strs_of_map in Hm. congruence. }
  destruct (current_times _ _ t Hp (eq_sym Hissued) Hlate) as (expires & offset & Hexp & Hlt).
  pose proof (operation_identities_some _ _ _ Hne Hids) as Hsome.
  assert (capability_names required) as Hnames by by rewrite Hrr; apply (at_required _ _ _ _ _ _ _ _ _ Hatt).
  pose proof (payload_covers _ _ _ _ _ _ _ _ _ _ _ _ _ _ _ _ _ _ _ t _ _ _ Hprep Hst1 Hsave Hsig Hsome Hp (eq_sym Hissued) Hbid
                Hbi Hreq Hnames Hgr eq_refl Hident (operation_identities_plain _ _ _ _ Hids)) as Hpay.
  set (A := authority_dict (get preview "canonical_payload") audit approval d p r binding issued id) in *.
  set (V := authority_values svc (get preview "canonical_payload") audit approval d p r binding) in *.
  destruct (unassigned_workspace _ _ Hsome Hun) as [Hws Hcw].
  set (st' := register_authority id (pb_authority_issuance_id pb) A (set_bindings b st1)).
  assert (load_authority_binding binding_ws (VStr ws) (VStr (pb_authority_issuance_id pb)) (au_bindings st') = Ok (Some pb))
    as Hload by (rewrite Hws; by eapply save_load).
  assert (fields_equal LIVE_FIELDS A binding = true) as Hlive by by eapply agrees_with_binding.
  assert (fields_equal PREVIEW_FIELDS A (get preview "canonical_payload") = true) as Hprev by by eapply agrees_with_preview.
  pose proof (λ now, validation_of_issued A preview binding audit approval pb id p r k d bid o required granted identity
    operations ids issued expires offset (au_next st1) now db st' Hid (lookup_insert_eq _ _ _) (lookup_insert_eq _ _ _) Hprov
    Hload Hres Hget Hcur Hd eq_refl eq_refl eq_refl Hbid Hresolve Hobj Hreq Hgr Hreq Hgr Hw Hsub Hexp Hmap Hlive Hident Hops
    Hids Hpay eq_refl Hprev) as Hchecks.
  exists A, expires, offset. split_and!; [apply lookup_insert_eq|done..|]. intros now.
  apply (validate_by_checks id p r k A); [apply lookup_insert_eq|done..|]. by rewrite Hchecks.
Qed.
End valid.
