(* ===== verification/RestartFacts.v ===== *)
(** * What a reconstructed authority rests on

    An authority that [reconstruct_application_authority_after_restart] answers is built from
    the present approval, from one durable issuance that every present operation is assigned
    to, and from a stored attestation that was verified again
    ([reconstruction_sound]); what [DefaultRestartCredentialAttestationVerifier] answers was
    trusted, proved, in time and not revoked ([restart_verification_sound]). *)
From S2P Require Import Prelude PyValue Strings PyOps Canonical WriteOperations Identity Context FormalPreview Evidence.
From S2P Require Import AuditRecords Approvals PreviewStore ApprovalService SafeText AuthorityBinding BindingStore.
From S2P Require Import BindingFacts Receipts Attestation AttestationBoundary Preflight AttestationRuntime Authority.
From S2P Require Import AttestationRecords AttestationStore HistoryFacts ArtifactAdapter AuthorityRestart AuthorityValid.

Lemma value_error_Ok {A} code (c : result A) x : value_error code c = Ok x → c = Ok x.
Proof. destruct c as [|e]; [done|]. simpl. by destruct (is_value_error e). Qed.
Lemma other_error_Ok {A} code (c : result A) x : other_error code c = Ok x → c = Ok x.
Proof. destruct c as [|[]]; simpl; done. Qed.

Lemma map_r_elem {A B} (f : A → result B) l ys x : map_r f l = Ok ys → x ∈ l → ∃ y, f x = Ok y.
Proof.
  intros E%map_r_Ok_Forall2 [i Hx]%list_elem_of_lookup. destruct (Forall2_lookup_l _ _ _ _ _ E Hx) as (y & _ & Hy). by exists y.
Qed.

(** The guarded calls that succeeded did so inside their handlers. *)
Ltac open_handlers :=
  repeat match goal with
  | E : any_error _ _ = Ok _ |- _ => apply any_error_Ok in E
  | E : value_error _ _ = Ok _ |- _ => apply value_error_Ok in E
  | E : other_error _ _ = Ok _ |- _ => apply other_error_Ok in E
  | E : store_error _ _ = Ok _ |- _ => apply store_error_Ok in E
  | E : read_error _ _ = Ok _ |- _ => apply read_error_Ok in E
  | _ => progress inv_checks
  end.

(** ** The credential verifier of a restart *)
Section verifier.
Context `{PyLib}.
Variable isoformat_micros : Z → string.
Variable policies : RestartPolicies.

Record trusted_at (a : Artifact) (now : Z) : Prop := {
  tr_issuer : ∃ key, xp_issuer policies (cl_issuer_id (ar_claims a)) (cl_key_id (ar_claims a))
                       (cl_signature_algorithm (ar_claims a)) (cl_attestation_version (ar_claims a))
                       (cl_credential_class (ar_claims a)) = Ok (Some (VBool true, key));
  tr_proof : ∃ payload, canonical_payload (claims_to_payload (ar_claims a)) = Ok payload ∧
               xp_proof policies payload (ar_detached_proof a) (cl_issuer_id (ar_claims a)) (cl_key_id (ar_claims a))
                 (cl_signature_algorithm (ar_claims a)) = Ok (VBool true);
  tr_capabilities : ∀ k, k ∈ cl_granted_capabilities (ar_claims a) → xp_capability policies k = Ok (VBool true);
  tr_times : ∃ issued expires, aware_time (cl_issued_at (ar_claims a)) = Ok issued ∧
               aware_time (cl_expires_at (ar_claims a)) = Ok expires ∧ (issued <= now < expires)%Z;
  tr_revocation : ∃ status, xp_revocation policies (cl_attestation_id (ar_claims a))
                              (cl_credential_instance_id (ar_claims a)) (cl_issuer_id (ar_claims a))
                              (cl_key_id (ar_claims a)) REVOCATION_CONTRACT_VERSION = Ok (Some status) ∧
                    rs_attestation_revoked status = false ∧ rs_credential_instance_revoked status = false;
}.

Lemma restart_issuer_Ok c :
  restart_issuer policies c = Ok tt →
  ∃ key, xp_issuer policies (cl_issuer_id c) (cl_key_id c) (cl_signature_algorithm c) (cl_attestation_version c)
           (cl_credential_class c) = Ok (Some (VBool true, key)).
Proof.
  unfold restart_issuer. intros E. open_handlers. destruct a as [[v key]|]; [|discriminate].
  destruct v as [|[]| | | | | | | | |]; try discriminate. by exists key.
Qed.
Lemma restart_proof_Ok c proof :
  restart_proof policies c proof = Ok tt →
  ∃ payload, canonical_payload (claims_to_payload c) = Ok payload ∧
    xp_proof policies payload proof (cl_issuer_id c) (cl_key_id c) (cl_signature_algorithm c) = Ok (VBool true).
Proof. unfold restart_proof. intros E. open_handlers. bools. subst. by eexists. Qed.
Lemma restart_capabilities_Ok c k :
  restart_capabilities policies c = Ok tt → k ∈ cl_granted_capabilities c → xp_capability policies k = Ok (VBool true).
Proof.
  unfold restart_capabilities. intros E Hk. open_handlers.
  match goal with E : map_r _ _ = Ok _ |- _ => destruct (map_r_elem _ _ _ _ E Hk) as [y Hy] end.
  open_handlers. bools. by subst.
Qed.
Lemma restart_times_Ok c now :
  restart_times c now = Ok tt →
  ∃ issued expires, aware_time (cl_issued_at c) = Ok issued ∧ aware_time (cl_expires_at c) = Ok expires ∧
    (issued <= now < expires)%Z.
Proof. unfold restart_times. intros E. open_handlers. bools. do 2 eexists. by split_and!. Qed.
Lemma restart_revocation_Ok c now :
  restart_revocation policies c now = Ok tt →
  ∃ status, xp_revocation policies (cl_attestation_id c) (cl_credential_instance_id c) (cl_issuer_id c) (cl_key_id c)
              REVOCATION_CONTRACT_VERSION = Ok (Some status) ∧
    rs_attestation_revoked status = false ∧ rs_credential_instance_revoked status = false.
Proof.
  unfold restart_revocation. intros E. open_handlers. destruct a as [status|]; [|discriminate]. open_handlers. bools.
  by exists status.
Qed.

(** C18: What the restart verifier answers for an artifact is the validated artifact's own
    identity and claims, and the artifact is trusted at that time: the issuer policy accepts
    its key, the proof policy accepts its detached proof of the canonical claims, every granted
    capability is supported, the time is in the claims' validity, and neither the attestation
    nor the credential is revoked. *)
Theorem restart_verification_sound artifact now :
  match restart_verify isoformat_micros policies artifact (Some now) with
  | Ok e =>
      ∃ a, artifact_from_untrusted isoformat_micros artifact = Ok a ∧ trusted_at a now ∧
        claims_digest (ar_claims a) = Ok (xe_claims_digest e) ∧
        e = MkRestartEvidence (ar_workspace_identity a) (ar_artifact_id a) (ar_artifact_digest a) (ar_claims a)
              (xe_claims_digest e) (ar_original_verified_at a)
  | Err _ => True
  end.
Proof.
  destruct (restart_verify _ _ _ _) as [e|] eqn:E; [|done]. unfold restart_verify in E. open_handlers.
  unfold make_restart_evidence in *. open_handlers. bools. destruct_and?. simplify_eq/=.
  match goal with E : artifact_from_untrusted _ _ = Ok ?a |- _ => exists a end.
  repeat match goal with u : unit |- _ => destruct u end. split_and!; try done. split.
  - by apply restart_issuer_Ok.
  - by apply restart_proof_Ok.
  - intros k. by apply restart_capabilities_Ok.
  - by apply restart_times_Ok.
  - by eapply restart_revocation_Ok.
Qed.
End verifier.

(** ** The reconstruction *)
Section reconstruction.
Context `{PyLib}.
Context {S : Type} `{BindingPersistence S}.
Variable svc : ApprovalService.
Variable trust : DriverTrustContext.
Variable binding_ws : string.
Notation store := (as_store svc).
Notation ws := (ps_workspace (as_store svc)).
Notation state := (AuthorityState S).
Notation assigned id b := (resolve_authority_binding_for_operation binding_ws (VStr ws) (VStr id) b).

(** What the present state says the application is *)
Record present (env : RestartServices) (preview_id : string) (revision : Z) (approval_id : string) (db : PreviewDb)
    (preview : pyval) (audit : AuditRecord) (approval : ApprovalRecord) (evidence : EvidenceRecord) (subject : string)
    (placeholders : pyval) (application : string) (ids required : list string) : Prop := {
  pr_resolved : _resolve_audit svc preview_id revision db = Ok (preview, audit);
  pr_approval : get_approval store ws approval_id db = Ok approval;
  pr_current : validate_approval_current store approval db = Ok true;
  pr_bound : _validate_approval_against_current_preview approval audit preview ws = Ok true;
  pr_state : present_state svc trust preview_id revision audit db = Ok (evidence, subject);
  pr_identity : ∃ operations,
    required_now (xs_resolve env) (get preview "canonical_payload") = Ok (operations, required) ∧
    present_identity svc (get preview "canonical_payload") audit approval evidence subject required operations preview_id
      revision = Ok (placeholders, application, ids);
}.

(** One stored issuance, signed, for exactly these operations and requirements *)
Record issued_for (verify : SignedAuthorityBinding → result bool) (b : S) (application : string) (ids required : list string)
    (p : PersistedAuthorityBinding) : Prop := {
  if_assigned : ∀ id, id ∈ ids → ∃ q, assigned id b = Ok (Some q) ∧ pb_authority_issuance_id q = pb_authority_issuance_id p;
  if_stored : load_authority_binding binding_ws (VStr ws) (VStr (pb_authority_issuance_id p)) b = Ok (Some p);
  if_signed : verify (pb_signed p) = Ok true;
  if_application : ab_application_id (pb_payload p) = application;
  if_operations : ab_authorized_operation_identities (pb_payload p) = ids;
  if_capabilities : ab_required_capabilities (pb_payload p) = required;
}.

(** The stored attestation of that issuance, verified again at the present time and about the
    present preview *)
Record attested_again (env : RestartServices) (artifacts : string → string → result (option (Artifact * Reference)))
    (verify : Artifact → Z → result (option RestartEvidence)) (p : PersistedAuthorityBinding) (canonical : pyval)
    (audit : AuditRecord) (evidence : EvidenceRecord) (subject : string) (required : list string) (preview_id : string)
    (revision : Z) (e : RestartEvidence) : Prop := {
  aa_verified : ∃ a r now, artifacts ws (ab_attestation_artifact_id (pb_payload p)) = Ok (Some (a, r)) ∧
    ar_artifact_digest a = ab_attestation_artifact_digest (pb_payload p) ∧
    utc_now (xs_clock env) = Ok now ∧ verify a now = Ok (Some e) ∧
    reference_present svc a r (xe_claims e) (pb_payload p) canonical audit evidence preview_id revision = true;
  aa_artifact : xe_artifact_id e = ab_attestation_artifact_id (pb_payload p) ∧
    xe_artifact_digest e = ab_attestation_artifact_digest (pb_payload p) ∧ xe_workspace_identity e = ws;
  aa_claims : claims_present (xe_claims e) canonical evidence subject preview_id revision = true;
  aa_sufficient : WRITE_CAPABILITY ∈ required ∧ required ⊆ cl_granted_capabilities (xe_claims e);
  aa_binding : ∃ d, claims_digest (xe_claims e) = Ok d ∧
    binding_identity (past_binding svc (pb_payload p) (xe_claims e) d canonical audit evidence required)
    = Ok (ab_credential_binding_id (pb_payload p));
}.

Lemma past_assignments_Ok ids b l :
  past_assignments svc binding_ws ids b = Ok l →
  Forall2 (λ id i, ∃ q, assigned id b = Ok (Some q) ∧ pb_authority_issuance_id q = i) ids l.
Proof.
  revert l; induction ids as [|id ids IH]; intros l E; simpl in E; [by simplify_eq|]. open_handlers.
  destruct a as [q|]; [|discriminate]. open_handlers. constructor; [by exists q|by apply IH].
Qed.

Lemma past_issuance_Ok ids b p :
  past_issuance svc binding_ws ids b = Ok p →
  (∀ id, id ∈ ids → ∃ q, assigned id b = Ok (Some q) ∧ pb_authority_issuance_id q = pb_authority_issuance_id p) ∧
  load_authority_binding binding_ws (VStr ws) (VStr (pb_authority_issuance_id p)) b = Ok (Some p).
Proof.
  unfold past_issuance. intros E. open_handlers. destruct a as [|issuance rest]; [discriminate|]. open_handlers.
  destruct a as [q|]; [|discriminate]. open_handlers. bools. subst.
  match goal with E : past_assignments _ _ _ _ = Ok _ |- _ => apply past_assignments_Ok in E; rename E into Ha end.
  split; [|done]. intros id [i Hi]%list_elem_of_lookup.
  destruct (Forall2_lookup_l _ _ _ _ _ Ha Hi) as (x & Hx & q & Hq & Hqx). exists q. split; [done|].
  rewrite Hqx. apply list_elem_of_lookup_2, elem_of_cons in Hx as [->|Hx]; [done|].
  match goal with E : forallb _ _ = true |- _ => rewrite forallb_forall in E; specialize (E _ (proj1 (list_elem_of_In _ _) Hx)) end.
  by bools.
Qed.

Lemma checked_payload_Ok verify b p application ids required payload :
  checked_payload verify p application ids required = Ok payload →
  past_issuance svc binding_ws ids b = Ok p → payload = pb_payload p ∧ issued_for verify b application ids required p.
Proof.
  unfold checked_payload. intros E [Ha Hs]%past_issuance_Ok. open_handlers. bools.
  match goal with x : bool |- _ => destruct x; [|discriminate] end. split; [done|]. by split.
Qed.

Lemma past_artifact_Ok env artifacts verify payload a r e :
  past_artifact svc env artifacts verify payload = Ok (a, r, e) →
  (∃ now, artifacts ws (ab_attestation_artifact_id payload) = Ok (Some (a, r)) ∧
     ar_artifact_digest a = ab_attestation_artifact_digest payload ∧ utc_now (xs_clock env) = Ok now ∧
     verify a now = Ok (Some e)) ∧
  xe_artifact_id e = ab_attestation_artifact_id payload ∧ xe_artifact_digest e = ab_attestation_artifact_digest payload ∧
  xe_workspace_identity e = ws.
Proof.
  unfold past_artifact. intros E. open_handlers. destruct a0 as [[a1 r1]|]; [|discriminate]. open_handlers.
  match goal with E : match ?x with Some _ => _ | None => _ end = Ok _ |- _ => destruct x as [e1|]; [|discriminate] end.
  open_handlers. bools. simplify_eq. split; [|by split_and!]. eexists. by split_and!.
Qed.

Lemma claims_sufficient_true c required :
  claims_sufficient c required = true → WRITE_CAPABILITY ∈ required ∧ required ⊆ cl_granted_capabilities c.
Proof.
  unfold claims_sufficient. intros E. bools. split; [done|]. intros k Hk.
  auto.
Qed.

Lemma evidence_checks_Ok a r c payload canonical audit evidence subject required preview_id revision :
  evidence_checks svc a r c payload canonical audit evidence subject required preview_id revision = Ok tt →
  claims_present c canonical evidence subject preview_id revision = true ∧ claims_sufficient c required = true ∧
  reference_present svc a r c payload canonical audit evidence preview_id revision = true ∧
  ∃ d, claims_digest c = Ok d ∧
    binding_identity (past_binding svc payload c d canonical audit evidence required) = Ok (ab_credential_binding_id payload).
Proof.
  unfold evidence_checks, derive_restart_binding_id. intros E. open_handlers.
  repeat match goal with E : negb _ = false |- _ => apply negb_false_iff in E end.
  repeat match goal with E : bool_decide _ = true |- _ => apply bool_decide_eq_true in E end. subst.
  split_and!; try done. eexists. by split.
Qed.

(** What the registration adds to the state, and what it leaves alone *)
Record restored_in (preview_id : string) (revision : Z) (id issuance : string) (authority provenance : pyval) (object : nat)
    (st st' : state) : Prop := {
  ri_object : (∃ old, au_authorities st !! id = Some object ∧ old = default VNone (au_objects st' !! object)
                      ∧ py_eq old authority = true)
              ∨ (au_authorities st !! id = None ∧ au_objects st' !! object = Some authority);
  ri_registered : au_authorities st' !! id = Some object;
  ri_issuance : au_issuance_ids st' !! id = Some issuance;
  ri_provenance : au_provenance st' !! id = Some provenance;
  ri_no_context : au_contexts st' !! (preview_id, revision) = None;
  ri_no_binding : is_ok (resolve_registered_binding (get authority "credential_binding_id") (au_runtime st')) = false;
  ri_unchanged : au_runtime st' = au_runtime st ∧ au_bindings st' = au_bindings st ∧ au_contexts st' = au_contexts st;
}.

Lemma live_credential_false authority preview_id revision (st : state) :
  live_credential authority preview_id revision st = false →
  au_contexts st !! (preview_id, revision) = None ∧
  is_ok (resolve_registered_binding (get authority "credential_binding_id") (au_runtime st)) = false.
Proof. unfold live_credential. intros E. bools. split; [|done]. by apply eq_None_not_Some. Qed.

Lemma commit_restart_facts preview_id revision id issuance authority provenance (st : state) answer st' :
  commit_restart preview_id revision id issuance authority provenance st = (answer, st') →
  (∀ i, au_issuance_ids st !! id = Some i → i = issuance) →
  match answer with
  | Ok object => restored_in preview_id revision id issuance authority provenance object st st'
  | Err _ => st' = st
  end.
Proof.
  unfold commit_restart. intros E Hi. destruct (au_authorities st !! id) as [existing|] eqn:Ea.
  - destruct (negb (py_eq _ authority)) eqn:Eq; [by simplify_eq|].
    destruct (live_credential _ _ _ _) eqn:El; [by simplify_eq|]. apply live_credential_false in El as [Hc Hb].
    destruct (match au_provenance st !! id with Some _ => _ | None => _ end); [by simplify_eq|].
    apply negb_false_iff in Eq. simplify_eq. case_bool_decide as Hn.
    + split; simpl; rewrite ?lookup_insert_eq; try done. left. by eexists.
    + destruct (au_issuance_ids st !! id) as [i|] eqn:Ei; [|done]. rewrite (Hi i eq_refl) in Ei.
      split; simpl; rewrite ?lookup_insert_eq; try done. left. by eexists.
  - destruct (live_credential _ _ _ _) eqn:El; [by simplify_eq|]. apply live_credential_false in El as [Hc Hb]. simplify_eq.
    split; simpl; rewrite ?lookup_insert_eq; try done. by right.
Qed.

(** All of it, for the authority [id] of the issuance [issuance] *)
Definition rests_on (env : RestartServices) (preview_id : string) (revision : Z) (approval_id : pyval) (db : PreviewDb)
    (st : state) (id issuance : string) (authority provenance : pyval) : Prop :=
  ∃ aid verify_binding artifacts verify preview audit approval evidence subject placeholders application ids required p e,
    approval_id = VStr aid ∧ xs_binding_verifier env = Some verify_binding ∧ xs_artifacts env = Some artifacts ∧
    xs_credential_verifier env = Some verify ∧
    present env preview_id revision aid db preview audit approval evidence subject placeholders application ids required ∧
    issued_for verify_binding (au_bindings st) application ids required p ∧
    attested_again env artifacts verify p (get preview "canonical_payload") audit evidence subject required preview_id
      revision e ∧
    issuance = pb_authority_issuance_id p ∧
    expected_id (dict_update placeholders (credential_values (pb_payload p) (xe_claims e))) = Ok id ∧
    authority_create (dict_set (dict_update placeholders (credential_values (pb_payload p) (xe_claims e))) "authority_id"
                        (VStr id)) = Ok authority ∧
    provenance_from_authority authority issuance (xe_claims e) = Ok provenance.

Lemma prepare_restart_Ok env verify_binding artifacts verify preview_id revision aid db st id issuance authority provenance :
  prepare_restart svc trust binding_ws env verify_binding artifacts verify preview_id revision aid db st
    = Ok (id, issuance, authority, provenance) →
  xs_binding_verifier env = Some verify_binding → xs_artifacts env = Some artifacts →
  xs_credential_verifier env = Some verify →
  rests_on env preview_id revision (VStr aid) db st id issuance authority provenance ∧
  ∀ i, au_issuance_ids st !! id = Some i → i = issuance.
Proof.
  unfold prepare_restart, present_approval. intros E Hv Ha Hc. open_handlers. simplify_eq.
  repeat match goal with
  | u : unit |- _ => destruct u
  | E : negb ?b = false |- _ => apply negb_false_iff in E; subst
  | E : bool_decide _ = true |- _ => apply bool_decide_eq_true in E; subst
  end.
  match goal with E : checked_payload _ _ _ _ _ = Ok _ |- _ => eapply checked_payload_Ok in E as [-> Hp]; [|eassumption] end.
  match goal with E : past_artifact _ _ _ _ _ = Ok _ |- _ => apply past_artifact_Ok in E as [(now & Hart & Hd & Hn & Hver) Hids] end.
  match goal with E : evidence_checks _ _ _ _ _ _ _ _ _ _ _ _ = Ok _ |- _ =>
    apply evidence_checks_Ok in E as (Hpres & Hsuff & Href & Hbind) end.
  split.
  - do 15 eexists. split_and!; try done.
    + split; try done. by eexists.
    + split; [|done..| |done].
      * do 3 eexists. by split_and!.
      * by apply claims_sufficient_true.
  - intros i Hi. rewrite Hi in *. bools. by subst.
Qed.

(** C16: A reconstruction either fails and changes nothing, or answers an authority of the present
    approved preview that is registered with its issuance and its provenance while no live
    credential of it is: the approval is current and bound to the preview; one stored issuance,
    signed, is the one every present operation is assigned to, and authorizes exactly the
    present operations and requirements; its attestation was verified again now, is about the
    present preview, grants what is required, and identifies the binding of the issuance. *)
Theorem reconstruction_sound env preview_id revision approval_id db st :
  let '(answer, st') := reconstruct_application_authority svc trust binding_ws env preview_id revision approval_id db st in
  match answer with
  | Err _ => st' = st
  | Ok object =>
      ∃ id issuance authority provenance,
        rests_on env preview_id revision approval_id db st id issuance authority provenance ∧
        restored_in preview_id revision id issuance authority provenance object st st'
  end.
Proof.
  destruct (reconstruct_application_authority _ _ _ _ _ _ _ _ _) as [answer st'] eqn:E.
  unfold reconstruct_application_authority in E. destruct approval_id as [| | | |aid| | | | | |]; try by simplify_eq.
  case_bool_decide; [by simplify_eq|]. destruct (xs_binding_verifier env) as [verify_binding|] eqn:Ev; [|by simplify_eq].
  destruct (xs_artifacts env) as [artifacts|] eqn:Ear; [|by simplify_eq].
  destruct (xs_credential_verifier env) as [verify|] eqn:Ec; [|by simplify_eq].
  destruct (prepare_restart _ _ _ _ _ _ _ _ _ _ _ _) as [[[[id issuance] authority] provenance]|] eqn:Ep; [|by simplify_eq].
  destruct (prepare_restart_Ok _ _ _ _ _ _ _ _ _ _ _ _ _ Ep Ev Ear Ec) as [Hr Hi].
  apply commit_restart_facts in E; [|done]. destruct answer; [|done]. do 4 eexists. by split.
Qed.
End reconstruction.
