(* ===== verification/GithubApp.v ===== *)
(** * GitHub App credentials (delivery_system/attestation_github_app.py,
    github_app_credential.py, and the dispatch check of runtime.py)

    The evidence about an installation token and its normal form, the provider that attests it
    for a request, the lease the host holds the token in, and
    [_validate_live_credential_dispatch], which compares the leased credential with what an
    authority was attested for before a command leaves.

    The evidence source, the signer, the clock and the factories of the provider are arguments.
    [ProviderError] is the module's own [GitHubAppCapabilityProviderError]: the checks of the
    module raise it, the calls of a dependency turn every exception into one, and the outer
    handler of [attest] lets it through and turns every other exception into one.  The fields
    of an evidence object are of their declared types, whatever is written to them. *)
From S2P Require Import Prelude PyValue Strings PyOps Canonical Json JsonFacts WriteContract WriteOperations AuditRecords.
From S2P Require Import Receipts SafeText AuthorityBinding BindingStore Attestation AttestationBoundary AttestationRuntime.
From S2P Require Import Authority AttestationRecords HistoryFacts AuthorityValid RestartFacts BindingFacts ArtifactAdapter.
From Stdlib Require Import Ascii.

Definition SOURCE_VERIFICATION_DOMAIN : string := "delivery-system:github-app-installation-capability-evidence:v1".
Definition SUPPORTED_REQUIREMENTS : list string := ["issues:write"].
Definition CREDENTIAL_CLASS : string := "github-app-installation-token".
Definition APP_PERMISSIONS : list string := ["issues"].
Definition EVIDENCE_FIELDS : list string :=
  ["app_id"; "installation_id"; "installation_account_identity"; "repository_id"; "repository_identity";
   "repository_scope"; "effective_permissions"; "expires_at"; "observed_at"; "credential_instance_id"].

(** [GitHubAppInstallationCapabilityEvidence] *)
Record AppEvidence := MkAppEvidence {
  ae_app_id : Z;
  ae_installation_id : Z;
  ae_installation_account_identity : string;
  ae_repository_id : Z;
  ae_repository_identity : string;
  ae_repository_scope : list string;
  ae_effective_permissions : list (string * string);
  ae_expires_at : string;
  ae_observed_at : string;
  ae_credential_instance_id : string;
}.
#[export] Instance app_evidence_eq_dec : EqDecision AppEvidence.
Proof. solve_decision. Defined.

(** [GitHubAppInstallationEvidenceRequest] *)
Record EvidenceRequest := MkEvidenceRequest {
  eq_repository_identity : string;
  eq_required_capabilities : list string;
  eq_credential_instance_id : string;
}.

(** What a source may answer: an evidence object or any other value *)
Definition evidence_answer : Type := AppEvidence + pyval.

Definition evidence_fields (e : AppEvidence) : pyval :=
  dict_of
    [("app_id", VInt (ae_app_id e)); ("installation_id", VInt (ae_installation_id e));
     ("installation_account_identity", VStr (ae_installation_account_identity e));
     ("repository_id", VInt (ae_repository_id e)); ("repository_identity", VStr (ae_repository_identity e));
     ("repository_scope", VTuple (map VStr (ae_repository_scope e)));
     ("effective_permissions", VTuple (map (λ '(k, v), VTuple [VStr k; VStr v]) (ae_effective_permissions e)));
     ("expires_at", VStr (ae_expires_at e)); ("observed_at", VStr (ae_observed_at e));
     ("credential_instance_id", VStr (ae_credential_instance_id e))].

Definition github_app_installation_principal (app_id installation_id : Z) : string :=
  "github-app-installation-" +:+ pretty app_id +:+ "-" +:+ pretty installation_id.

(** [dict(evidence.effective_permissions).get(name)]: the last pair of a key wins *)
Definition _permission (e : AppEvidence) (name : string) : option string :=
  snd <$> List.find (λ p, bool_decide (fst p = name)) (rev (ae_effective_permissions e)).

Definition PROVIDER_FAILED : string := "github_app_capability_provider_failed".

(** [except Exception: raise GitHubAppCapabilityProviderError(code)] *)
Definition provider_raise {A} (code : string) (c : result A) : result A :=
  match c with
  | Ok a => Ok a
  | Err (Unmodelled what) => Err (Unmodelled what)
  | Err _ => Err (ProviderError code)
  end.

(** [_dependency_call] *)
Definition _dependency_call {A} (c : result A) : result A := provider_raise PROVIDER_FAILED c.

(** The outer handler of [attest]: [except GitHubAppCapabilityProviderError: raise except
    Exception: raise GitHubAppCapabilityProviderError(...)] *)
Definition provider_boundary {A} (c : result A) : result A :=
  match c with Err (ProviderError code) => Err (ProviderError code) | _ => provider_raise PROVIDER_FAILED c end.

(** The checks SafeText.v shares raise this module's error here. *)
Definition own_error {A} (c : result A) : result A :=
  match c with Err (ValueError code) => Err (ProviderError code) | _ => c end.

Section provider.
Context `{PyLib}.

(** ** [_text], [_id], [_positive_int], [_utc]: the checks of SafeText.v under this module's codes *)
Definition app_text (field : string) (v : pyval) : result string := own_error (safe_text (field_invalid field) v).
Definition app_id_text (field : string) (v : pyval) : result string :=
  own_error (pattern_text safe_text ID_RE (field_invalid field) v).
Definition _positive_int (field : string) (v : pyval) : result Z :=
  match v with
  | VInt z => if (z <? 1)%Z then Err (ProviderError (field_invalid field)) else Ok z
  | _ => Err (ProviderError (field_invalid field))
  end.
Definition app_utc (field : string) (v : pyval) : result (string * Z) :=
  let! value := app_text field v in
  match fromisoformat (replace_Z value) with
  | Some (t, Some offset) =>
      if negb (offset =? 0)%Z then Err (ProviderError (field_invalid field))
      else Ok (py_replace "+00:00" "Z" (utc_isoformat t), t)
  | _ => Err (ProviderError (field_invalid field))
  end.

(** [_normalize_permissions]: with one known permission, no list of them has two entries to
    sort *)
Definition PERMISSIONS_INVALID : string := "effective_permissions_invalid".
Definition permission_entries (v : pyval) : result (list (pyval * pyval)) :=
  match v with
  | VDict d => Ok d
  | VTuple l =>
      map_r (λ entry, match entry with
                      | VTuple [k; permission] => Ok (k, permission)
                      | _ => Err (ProviderError PERMISSIONS_INVALID)
                      end) l
  | _ => Err (ProviderError PERMISSIONS_INVALID)
  end.
Fixpoint normalized_permissions (seen : list string) (entries : list (pyval * pyval)) : result (list (string * string)) :=
  match entries with
  | [] => Ok []
  | (VStr k, v) :: rest =>
      if bool_decide (k ∈ seen) || negb (bool_decide (k ∈ APP_PERMISSIONS)) then Err (ProviderError PERMISSIONS_INVALID)
      else
        let! permission := app_text "effective_permission" v in
        if negb (bool_decide (permission ∈ ["read"; "write"])) then Err (ProviderError PERMISSIONS_INVALID)
        else let! l := normalized_permissions (k :: seen) rest in Ok ((k, permission) :: l)
  | _ => Err (ProviderError PERMISSIONS_INVALID)
  end.
Definition _normalize_permissions (v : pyval) : result (list (string * string)) :=
  let! entries := permission_entries v in normalized_permissions [] entries.

(** [_normalize_evidence] *)
Definition repository_text (field : string) (v : pyval) : result string :=
  match (let! s := app_text field v in normalize_repository_identity s) with
  | Err e => if is_value_error e then Err (ProviderError (field_invalid field)) else Err e
  | c => c
  end.
Definition scope_entries (object : bool) (v : pyval) : option (list pyval) :=
  match v with
  | VTuple l => Some l
  | VList l => if object then None else Some l
  | _ => None
  end.
Definition normalized_fields (object : bool) (raw : pyval) : result AppEvidence :=
  let! repository := repository_text "repository_identity" (get raw "repository_identity") in
  let! scope := match scope_entries object (get raw "repository_scope") with
                | Some [entry] => repository_text "repository_scope" entry
                | _ => Err (ProviderError "repository_scope_invalid")
                end in
  if negb (bool_decide (scope = repository)) then Err (ProviderError "repository_scope_invalid") else
  let! permissions := _normalize_permissions (get raw "effective_permissions") in
  let! (expires, _) := app_utc "expires_at" (get raw "expires_at") in
  let! (observed, _) := app_utc "observed_at" (get raw "observed_at") in
  let! app := _positive_int "app_id" (get raw "app_id") in
  let! installation := _positive_int "installation_id" (get raw "installation_id") in
  let! account := app_text "installation_account_identity" (get raw "installation_account_identity") in
  let! repository_id := _positive_int "repository_id" (get raw "repository_id") in
  let! instance := app_id_text "credential_instance_id" (get raw "credential_instance_id") in
  Ok (MkAppEvidence app installation account repository_id repository [scope] permissions expires observed instance).
Definition _normalize_evidence (value : evidence_answer) : result AppEvidence :=
  match value with
  | inl e => normalized_fields true (evidence_fields e)
  | inr v => if negb (is_mapping v) || negb (keys_are EVIDENCE_FIELDS v)
             then Err (ProviderError "evidence_shape_invalid") else normalized_fields false v
  end.

(** ** [github_app_installation_source_verification_digest] *)
Definition REQUEST_BINDING_FIELDS : list string :=
  ["repository_identity"; "required_capabilities"; "github_subject_identity"; "driver_identity"; "remote_authority";
   "preview_id"; "revision"; "operation_set_digest"; "remote_snapshot_digest"; "evidence_digest"; "challenge_digest"].
(** A dict of the permissions: the last pair of a key wins *)
Definition permission_dict (l : list (string * string)) : pyval :=
  foldl (λ d p, dict_set d (fst p) (VStr (snd p))) (VDict []) l.
Definition source_document (e : AppEvidence) (request : pyval) : pyval :=
  dict_of
    [("domain", VStr SOURCE_VERIFICATION_DOMAIN);
     ("evidence",
      dict_of
        [("app_id", VInt (ae_app_id e)); ("installation_id", VInt (ae_installation_id e));
         ("installation_account_identity", VStr (ae_installation_account_identity e));
         ("repository_id", VInt (ae_repository_id e)); ("repository_identity", VStr (ae_repository_identity e));
         ("repository_scope", vstrs (ae_repository_scope e));
         ("effective_permissions", permission_dict (ae_effective_permissions e));
         ("observed_at", VStr (ae_observed_at e)); ("expires_at", VStr (ae_expires_at e));
         ("credential_instance_id", VStr (ae_credential_instance_id e))]);
     ("request_binding", dict_of (map (λ k, (k, get request k)) REQUEST_BINDING_FIELDS))].
Definition source_verification_digest (e : AppEvidence) (request : pyval) : result string :=
  digest (source_document e request).

(** ** [GitHubAppCredentialCapabilityProvider.attest] *)
Record AppProvider := MkAppProvider {
  ap_instance_id : result pyval;
  ap_obtain : EvidenceRequest → result evidence_answer;
  ap_clock : result (option Z);              (** [None] when it is not a time in UTC *)
  ap_issuer_id : result pyval;
  ap_key_id : result pyval;
  ap_algorithm : result pyval;
  ap_nonce : result pyval;
  ap_sign : string → result pyval;
}.

(** [_request_values] *)
Definition _request_values (r : RequestValues) : result pyval :=
  let! repository := normalize_repository_identity (rv_repository_identity r) in
  if negb (bool_decide (rv_required_capabilities r = SUPPORTED_REQUIREMENTS))
  then Err (ProviderError "unsupported_capability_requirement") else
  let! subject := app_text "github_subject_identity" (VStr (rv_github_subject_identity r)) in
  let! driver := app_text "driver_identity" (VStr (rv_driver_identity r)) in
  Ok (dict_of
    [("repository_identity", VStr repository);
     ("required_capabilities", VTuple (map VStr (rv_required_capabilities r)));
     ("github_subject_identity", VStr subject); ("driver_identity", VStr driver);
     ("remote_authority", VStr (rv_remote_authority r)); ("preview_id", VStr (rv_preview_id r));
     ("revision", VInt (rv_revision r)); ("operation_set_digest", VStr (rv_operation_set_digest r));
     ("remote_snapshot_digest", VStr (rv_remote_snapshot_digest r)); ("evidence_digest", VStr (rv_evidence_digest r));
     ("challenge_digest", VStr (rv_challenge_digest r))]).

(** The evidence of the source, checked against the request and the time *)
Definition checked_evidence (p : AppProvider) (values : pyval) (instance : string) : result (AppEvidence * Z) :=
  let repository := the_str (get values "repository_identity") in
  let! answer := _dependency_call (ap_obtain p (MkEvidenceRequest repository SUPPORTED_REQUIREMENTS instance)) in
  let! e := _normalize_evidence answer in
  let! time := _dependency_call (ap_clock p) in
  match time with
  | None => Err (ProviderError "provider_clock_invalid")
  | Some now =>
      let! (_, observed) := app_utc "observed_at" (VStr (ae_observed_at e)) in
      let! (_, expires) := app_utc "expires_at" (VStr (ae_expires_at e)) in
      if negb (bool_decide (ae_credential_instance_id e = instance)) then Err (ProviderError "credential_instance_mismatch")
      else if negb (bool_decide (ae_repository_identity e = repository))
              || negb (bool_decide (ae_repository_scope e = [repository])) then Err (ProviderError "repository_scope_mismatch")
      else if (now <? observed)%Z then Err (ProviderError "evidence_observed_in_future")
      else if (expires <=? now)%Z then Err (ProviderError "evidence_expired")
      else Ok (e, now)
  end.

Definition granted_by (e : AppEvidence) : list string :=
  if bool_decide (_permission e "issues" = Some "write") then SUPPORTED_REQUIREMENTS else [].

Definition app_claims (values : pyval) (e : AppEvidence) (now : Z) (instance source issuer key algorithm nonce : string)
  : pyval :=
  dict_of
    ([("attestation_version", VStr "2"); ("attestation_id", VStr ""); ("issuer_id", VStr issuer); ("key_id", VStr key);
      ("signature_algorithm", VStr algorithm); ("credential_class", VStr CREDENTIAL_CLASS);
      ("credential_instance_id", VStr instance)]
     ++ map (λ k, (k, get values k))
          ["github_subject_identity"; "repository_identity"; "driver_identity"; "remote_authority"; "preview_id"; "revision";
           "operation_set_digest"; "remote_snapshot_digest"; "evidence_digest"; "challenge_digest"]
     ++ [("granted_capabilities", VTuple (map VStr (granted_by e)));
         ("issued_at", VStr (py_replace "+00:00" "Z" (utc_isoformat now))); ("expires_at", VStr (ae_expires_at e));
         ("nonce", VStr nonce); ("source_verification_digest", VStr source);
         ("credential_principal_identity",
          VStr (github_app_installation_principal (ae_app_id e) (ae_installation_id e)))]).

(** The body of the handler of [attest].  What it calls unguarded raises what it likes. *)
Definition attest_body (p : AppProvider) (r : RequestValues) : result SignedAttestation :=
  let! values := _request_values r in
  let! raw := _dependency_call (ap_instance_id p) in
  let! instance := app_id_text "credential_instance_id" raw in
  let! (e, now) := checked_evidence p values instance in
  let! source := source_verification_digest e values in
  let! raw_issuer := _dependency_call (ap_issuer_id p) in
  let! raw_key := _dependency_call (ap_key_id p) in
  let! raw_algorithm := _dependency_call (ap_algorithm p) in
  let! issuer := app_id_text "issuer_id" raw_issuer in
  let! key := app_id_text "key_id" raw_key in
  let! algorithm := app_id_text "signature_algorithm" raw_algorithm in
  let! raw_nonce := _dependency_call (ap_nonce p) in
  let! nonce := app_id_text "nonce" raw_nonce in
  let! claims := make_claims (app_claims values e now instance source issuer key algorithm nonce) in
  let! payload := canonical_payload (claims_to_payload claims) in
  let! proof := _dependency_call (ap_sign p payload) in
  match proof with
  | VStr _ => make_attestation claims proof
  | _ => Err (ProviderError PROVIDER_FAILED)
  end.
Definition attest (p : AppProvider) (r : RequestValues) : result SignedAttestation :=
  provider_boundary (attest_body p r).
End provider.

(** ** [GitHubAppInstallationCredentialLease] *)
(** The token, the evidence object, and the values both had when the lease was made *)
Record Lease := MkLease { le_token : string; le_evidence : nat; le_integrity : string * AppEvidence }.
Definition evidence_objects : Type := gmap nat AppEvidence.
Definition LEASE_INVALID : string := "host_credential_capability_invalid".

(** A token of more bytes than characters has one outside the range. *)
Definition _valid_token (s : string) : bool :=
  (1 <=? String.length s) && (String.length s <=? 4096) && all_bytes (in_range 33 126) s.

Definition lease_intact (objects : evidence_objects) (l : Lease) : bool :=
  match objects !! le_evidence l with
  | Some e =>
      _valid_token (le_token l) && bool_decide (le_integrity l = (le_token l, e))
      && bool_decide (ae_repository_scope e = [ae_repository_identity e])
      && negb (bool_decide (ae_credential_instance_id e = "")) && bool_decide (_permission e "issues" = Some "write")
  | None => false
  end.
(** [_snapshot], [_credential_class] and [_dispatch_token] *)
Definition lease_snapshot (objects : evidence_objects) (l : Lease) : result nat :=
  raise LEASE_INVALID when negb (lease_intact objects l) ; Ok (le_evidence l).
Definition lease_class (objects : evidence_objects) (l : Lease) : result string :=
  raise LEASE_INVALID when negb (lease_intact objects l) ; Ok CREDENTIAL_CLASS.
Definition _dispatch_token (objects : evidence_objects) (l : Lease) : result string :=
  raise LEASE_INVALID when negb (lease_intact objects l) ; Ok (le_token l).

Definition mint_lease `{PyLib} (token : string) (object : nat) (objects : evidence_objects) : result Lease :=
  match objects !! object with
  | None => Err (ValueError LEASE_INVALID)
  | Some e =>
      let! normalized := any_error LEASE_INVALID (_normalize_evidence (inl e)) in
      raise LEASE_INVALID when negb (bool_decide (normalized = e)) ;
      raise LEASE_INVALID when negb (_valid_token token) ;
      let l := MkLease token object (token, e) in
      raise LEASE_INVALID when negb (lease_intact objects l) ; Ok l
  end.

(** ** The dispatch check of the authority service *)
(** The lease the service was composed with, its evidence then, and the evidence objects now *)
Record Host := MkHost { ho_lease : Lease; ho_snapshot : nat; ho_objects : evidence_objects }.

Definition NOT_CURRENT : string := "credential_currentness_mismatch".
Definition UNREGISTERED : string := "credential_capability_unregistered".
Definition capability_in (k : string) (v : pyval) : bool :=
  match v with VTuple l => existsb (λ x, py_eq x (VStr k)) l | _ => false end.

Section dispatch.
Context `{PyLib}.
Context {S : Type}.
Variable host : option Host.

(** What the credential is used for: the credential's side of [source], and what it is about *)
Definition dispatch_request (source about : pyval) : pyval :=
  dict_of
    (map (λ k, (k, get source k))
       ["repository_identity"; "required_capabilities"; "github_subject_identity"; "driver_identity"; "remote_authority"]
     ++ map (λ k, (k, get about k)) ["preview_id"; "revision"; "operation_set_digest"; "remote_snapshot_digest"]
     ++ map (λ k, (k, get source k)) ["evidence_digest"; "challenge_digest"]).

(** The evidence of the host's composition, and no other *)
Definition current_evidence (h : Host) : result AppEvidence :=
  let! object := lease_snapshot (ho_objects h) (ho_lease h) in
  raise NOT_CURRENT when negb (object =? ho_snapshot h) ;
  match ho_objects h !! object with Some e => Ok e | None => Err (ValueError LEASE_INVALID) end.

Definition credential_checks (e : AppEvidence) (source : pyval) : result unit :=
  raise "credential_instance_mismatch"
    when negb (py_eq (VStr (ae_credential_instance_id e)) (get source "credential_instance_id")) ;
  raise "credential_principal_mismatch"
    when negb (py_eq (VStr (github_app_installation_principal (ae_app_id e) (ae_installation_id e)))
                 (get source "credential_principal_identity")) ;
  raise "credential_repository_mismatch"
    when negb (py_eq (VStr (ae_repository_identity e)) (get source "repository_identity")) ;
  raise "credential_scope_mismatch"
    when negb (py_eq (VTuple (map VStr (ae_repository_scope e))) (VTuple [get source "repository_identity"])) ;
  raise "credential_capability_mismatch" when negb (bool_decide (_permission e "issues" = Some "write")) ;
  raise NOT_CURRENT when negb (py_eq (VStr (ae_expires_at e)) (get source "expires_at")) ; Ok tt.

Definition not_expired (expires : Z * option Z) (now : Z) : result unit :=
  match snd expires with
  | Some offset => raise "credential_expired" when (fst expires - offset <=? now)%Z ; Ok tt
  | None => Err (TypeError "can't compare offset-naive and offset-aware datetimes")
  end.

Definition source_checks (e : AppEvidence) (source about : pyval) : result unit :=
  let! d := source_verification_digest e (dispatch_request source about) in
  raise NOT_CURRENT when negb (py_eq (VStr d) (get source "source_verification_digest")) ; Ok tt.

(** [except ValueError: raise except (AttributeError, TypeError, ValueError): ...] *)
Definition dispatch_error (c : result unit) : result unit :=
  match c with Err (TypeError _ | AttributeError _) => Err (ValueError NOT_CURRENT) | _ => c end.

(** A restored authority: its provenance stands for the binding. *)
Definition restored_dispatch (h : Host) (clock : result (option Z)) (provenance authority : pyval) : result unit :=
  dispatch_error
    (let! e := current_evidence h in
     let! class := lease_class (ho_objects h) (ho_lease h) in
     raise "credential_instance_mismatch" when negb (py_eq (VStr class) (get provenance "credential_class")) ;
     let! _ := credential_checks e provenance in
     raise "credential_capability_mismatch" when negb (capability_in WRITE_CAPABILITY (get provenance "required_capabilities")) ;
     let! now := utc_now clock in
     let! expires := parse_iso (VStr (ae_expires_at e)) in
     let! _ := not_expired expires now in
     source_checks e provenance authority).

(** A live authority: its registered binding *)
Definition SHARED_FIELDS : list string :=
  ["credential_instance_id"; "credential_principal_identity"; "repository_identity"; "required_capabilities";
   "granted_capabilities"; "expires_at"].
Definition live_dispatch (h : Host) (clock : result (option Z)) (binding authority : pyval) : result unit :=
  raise UNREGISTERED when negb (lease_intact (ho_objects h) (ho_lease h)) ;
  let! e := current_evidence h in
  let! class := lease_class (ho_objects h) (ho_lease h) in
  raise "credential_instance_mismatch" when negb (py_eq (get binding "credential_class") (VStr class)) ;
  raise NOT_CURRENT when negb (fields_equal SHARED_FIELDS authority binding) ;
  let! _ := credential_checks e binding in
  raise "credential_capability_mismatch"
    when negb (capability_in WRITE_CAPABILITY (get binding "required_capabilities"))
         || negb (capability_in WRITE_CAPABILITY (get binding "granted_capabilities")) ;
  let! now := utc_now clock in
  let! expires := read_error NOT_CURRENT (parse_iso (VStr (ae_expires_at e))) in
  let! _ := not_expired expires now in
  source_checks e binding binding.

(** [_validate_live_credential_dispatch]: [current] answers [context._require_current()], and
    [authority] is the authority of the context. *)
Definition _validate_live_credential_dispatch (has_store : bool) (current : result unit) (authority : pyval)
    (clock : result (option Z)) (st : AuthorityState S) : result unit :=
  raise NOT_CURRENT when negb has_store ;
  match host with
  | None => Err (ValueError UNREGISTERED)
  | Some h =>
      let! _ := current in
      match get authority "authority_id" with
      | VStr id =>
          match au_provenance st !! id with
          | Some provenance =>
              match au_issuance_ids st !! id with
              | Some issuance =>
                  raise NOT_CURRENT when negb (provenance_matches provenance authority issuance) ;
                  restored_dispatch h clock provenance authority
              | None => Err (ValueError NOT_CURRENT)
              end
          | None =>
              let! object := resolve_registered_binding (get authority "credential_binding_id") (au_runtime st) in
              live_dispatch h clock (default VNone (rt_objects (au_runtime st) !! object)) authority
          end
      | _ => Err (Unmodelled "authority_id")
      end
  end.

(** [_ApplierCapability.dispatch]: the check, then the write *)
Definition capability_dispatch {A} (has_store : bool) (current : result unit) (authority : pyval) (clock : result (option Z))
    (st : AuthorityState S) (kind : string) (write : string → result A) : result A :=
  raise "write_operation_kind_invalid" when negb (bool_decide (kind ∈ ["create_issue"; "add_sub_issue"; "add_dependency"])) ;
  let! _ := _validate_live_credential_dispatch has_store current authority clock st in write kind.
End dispatch.

(** ** What holds of them *)
Section provider_facts.
Context `{PyLib}.

(** The codes of the provider's own errors: fixed texts, none of them from a dependency *)
Definition PROVIDER_FIELDS : list string :=
  ["repository_identity"; "github_subject_identity"; "driver_identity"; "repository_scope"; "effective_permission";
   "effective_permissions"; "evidence_shape"; "expires_at"; "observed_at"; "app_id"; "installation_id";
   "installation_account_identity"; "repository_id"; "credential_instance_id"; "issuer_id"; "key_id";
   "signature_algorithm"; "nonce"; "provider_clock"].
Definition PROVIDER_CODES : list string :=
  [PROVIDER_FAILED; "unsupported_capability_requirement"; "credential_instance_mismatch"; "repository_scope_mismatch";
   "evidence_observed_in_future"; "evidence_expired"] ++ map field_invalid PROVIDER_FIELDS.

(** A [ProviderError] of [c] has one of the codes. *)
Definition own_codes {A} (c : result A) : Prop := ∀ code, c = Err (ProviderError code) → code ∈ PROVIDER_CODES.

Ltac listed := apply (bool_decide_unpack _); vm_compute; exact I.

Lemma dependency_codes {A} (c : result A) : own_codes (_dependency_call c).
Proof. intros code E. destruct c as [|[]]; simplify_eq/=; listed. Qed.
Lemma field_codes field : field ∈ PROVIDER_FIELDS → field_invalid field ∈ PROVIDER_CODES.
Proof. intros Hf. apply elem_of_app. right. by apply list_elem_of_fmap_2. Qed.
Lemma own_error_codes {A} (c : result A) code0 :
  code0 ∈ PROVIDER_CODES → (∀ e, c = Err e → e = ValueError code0) → own_codes (own_error c).
Proof.
  intros Hc He code E. destruct c as [a|x]; [done|]. specialize (He _ eq_refl) as ->. by simplify_eq/=.
Qed.
Lemma safe_text_error code v e : safe_text code v = Err e → e = ValueError code.
Proof. unfold safe_text. intros E. by repeat case_match; simplify_eq/=. Qed.
Lemma pattern_text_error re code v e : pattern_text safe_text re code v = Err e → e = ValueError code.
Proof.
  unfold pattern_text. destruct (safe_text code v) as [s|x] eqn:Es; [by case_match; intros [= <-]|].
  intros [= <-]. by eapply safe_text_error.
Qed.
Lemma app_text_codes field v : field ∈ PROVIDER_FIELDS → own_codes (app_text field v).
Proof. intros Hf. eapply own_error_codes; [by apply field_codes|]. intros e. apply safe_text_error. Qed.
Lemma app_id_text_codes field v : field ∈ PROVIDER_FIELDS → own_codes (app_id_text field v).
Proof. intros Hf. eapply own_error_codes; [by apply field_codes|]. intros e. apply pattern_text_error. Qed.
Lemma Ok_codes {A} (a : A) : own_codes (Ok a).
Proof. done. Qed.
Lemma err_codes {A B} (c : result A) x : own_codes c → c = Err x → own_codes (Err x : result B).
Proof. intros Hc E code [= ->]. by apply Hc. Qed.
Lemma map_r_each {A B} (f : A → result B) l : Forall (λ x, own_codes (f x)) l → own_codes (map_r f l).
Proof.
  induction 1 as [|x l Hf Hl IH]; simpl; [done|]. destruct (f x) eqn:E; [|exact (err_codes _ _ Hf eq_refl)].
  destruct (map_r f l) eqn:El; [done|exact (err_codes _ _ IH eq_refl)].
Qed.
Lemma map_r_codes {A B} (f : A → result B) l : (∀ x, own_codes (f x)) → own_codes (map_r f l).
Proof. intros Hf. by apply map_r_each, Forall_forall. Qed.
Create HintDb provider.
#[local] Hint Resolve dependency_codes app_text_codes app_id_text_codes Ok_codes map_r_codes : provider.
#[local] Hint Extern 1 (_ ∈ PROVIDER_FIELDS) => listed : provider.

(** Walk through a computation whose every step keeps to the codes. *)
Ltac own_steps :=
  repeat match goal with
  | |- own_codes (match ?c with Ok _ => _ | Err _ => _ end) =>
      let Hc := fresh "Hc" in
      assert (own_codes c) as Hc; [|destruct c eqn:?; [clear Hc|by eapply err_codes; eauto]]
  | |- own_codes (match ?x with _ => _ end) => destruct x
  | |- own_codes (Err (ProviderError _)) => intros ? [= <-]; first [listed|apply field_codes; solve [auto with provider]]
  | |- own_codes (Err _) => by intros ? ?; simplify_eq
  | |- own_codes _ => solve [eauto with provider]
  end.

(** What is called without a guard raises errors of its own modules. *)
Lemma dumps_codes v : own_codes (dumps v).
Proof.
  induction v as [| | | | | |l IH|l IH|l IH|d IH|] using pyval_nested_ind; try done; simpl.
  1,2: apply map_r_each in IH; own_steps.
  assert (own_codes (map_r (λ p : pyval * pyval, let! t := dumps (snd p) in Ok (fst p, t)) d)) as Hm.
  { apply map_r_each. eapply Forall_impl; [exact IH|]. intros [k v]; simpl. intros [_ Hv]. own_steps. }
  own_steps.
Qed.
#[local] Hint Resolve dumps_codes : provider.
Lemma normalized_keys_codes d seen : own_codes (normalized_keys d seen).
Proof. revert seen; induction d as [|[k v] d IH]; intros seen; simpl; own_steps; done. Qed.
#[local] Hint Resolve normalized_keys_codes : provider.
Lemma normalize_fuel_codes n v : own_codes (normalize_fuel n v).
Proof.
  revert v; induction n as [|n IH]; intros v; [done|]. destruct v; simpl; unfold sorted_by_key, sort_key; own_steps.
  - apply map_r_codes. intros x. own_steps; done.
  - apply map_r_codes. intros x. own_steps; done.
Qed.
#[local] Hint Resolve normalize_fuel_codes : provider.
Lemma canonical_payload_codes v : own_codes (canonical_payload v).
Proof. unfold canonical_payload, normalize. own_steps. Qed.
#[local] Hint Resolve canonical_payload_codes : provider.
Lemma digest_codes v : own_codes (digest v).
Proof. unfold digest. own_steps. Qed.
Lemma make_claims_codes v : own_codes (make_claims v).
Proof.
  assert (∀ field v, own_codes (safe_id field v)) by (intros ? ? ? E; by apply pattern_text_error in E).
  assert (∀ field v, own_codes (safe_digest field v)) by (intros ? ? ? E; by apply pattern_text_error in E).
  assert (∀ field v, own_codes (safe_field field v)) by (intros ? ? ? E; by apply safe_text_error in E).
  assert (∀ field v, own_codes (safe_text field v)) by (intros ? ? ? E; by apply safe_text_error in E).
  assert (∀ v, own_codes (utc_timestamp v)) by (intros ?; unfold utc_timestamp; own_steps).
  assert (∀ field v, own_codes (revision_at_least_one field v)) by (intros; unfold revision_at_least_one; own_steps).
  assert (∀ field v, own_codes (safe_capabilities field v)) by (intros; unfold safe_capabilities; own_steps).
  assert (∀ c, own_codes (derived_attestation_id c)) by (intros; unfold derived_attestation_id, digest_hex; own_steps).
  assert (∀ s v w, own_codes (claims_extension s v w)) by (intros; unfold claims_extension; own_steps).
  unfold make_claims. own_steps.
Qed.
Lemma make_attestation_codes c v : own_codes (make_attestation c v).
Proof. unfold make_attestation, attestation_proof, proof_text. own_steps. Qed.
#[local] Hint Resolve digest_codes make_claims_codes make_attestation_codes : provider.
Lemma repository_codes v : own_codes (normalize_repository_identity v).
Proof. unfold normalize_repository_identity. own_steps. Qed.
#[local] Hint Resolve repository_codes : provider.

Lemma positive_int_codes field v : field ∈ PROVIDER_FIELDS → own_codes (_positive_int field v).
Proof. intros Hf%field_codes. unfold _positive_int. own_steps; by intros ? [= <-]. Qed.
Lemma app_utc_codes field v : field ∈ PROVIDER_FIELDS → own_codes (app_utc field v).
Proof. intros Hf. pose proof (field_codes _ Hf). unfold app_utc. own_steps; by intros ? [= <-]. Qed.
Lemma repository_text_codes field v : field ∈ PROVIDER_FIELDS → own_codes (repository_text field v).
Proof.
  intros Hf%field_codes. unfold repository_text. destruct (let! s := _ in _) as [|e]; [done|].
  destruct (is_value_error e) eqn:Ee; intros code [= E]; subst; done.
Qed.
#[local] Hint Resolve positive_int_codes app_utc_codes repository_text_codes : provider.
Lemma permission_codes seen l : own_codes (normalized_permissions seen l).
Proof. revert seen; induction l as [|[k v] l IH]; intros seen; simpl; own_steps. Qed.
Lemma normalized_evidence_codes a : own_codes (_normalize_evidence a).
Proof.
  assert (∀ v, own_codes (_normalize_permissions v)) as Hp.
  { intros v. unfold _normalize_permissions, permission_entries. pose proof permission_codes.
    own_steps. apply map_r_codes. intros x. own_steps. }
  unfold _normalize_evidence, normalized_fields. own_steps.
Qed.
#[local] Hint Resolve normalized_evidence_codes : provider.
Lemma checked_evidence_codes p values instance : own_codes (checked_evidence p values instance).
Proof. unfold checked_evidence. own_steps. Qed.
Lemma request_values_codes r : own_codes (_request_values r).
Proof. unfold _request_values. own_steps. Qed.
#[local] Hint Resolve checked_evidence_codes request_values_codes : provider.
Lemma attest_body_codes p r : own_codes (attest_body p r).
Proof. unfold attest_body, source_verification_digest. own_steps. Qed.

(** What the provider raises: its own error under one of its codes.  [Unmodelled] marks a
    conversion outside the model and stands for no exception. *)
Definition provider_error (e : exn) : Prop :=
  (∃ code, e = ProviderError code ∧ code ∈ PROVIDER_CODES) ∨ ∃ what, e = Unmodelled what.
Lemma attest_errors p r e : attest p r = Err e → provider_error e.
Proof.
  unfold attest, provider_boundary, provider_raise. pose proof (attest_body_codes p r) as Hc. intros E.
  destruct (attest_body p r) as [|[]] eqn:Eb; simplify_eq/=;
    first [right; by eexists|left; eexists; split; [done|]; first [by apply Hc|listed]].
Qed.
Lemma attest_Ok p r signed : attest p r = Ok signed → attest_body p r = Ok signed.
Proof. unfold attest, provider_boundary, provider_raise. by destruct (attest_body p r) as [|[]]. Qed.

Lemma provider_raise_Ok {A} code (c : result A) a : provider_raise code c = Ok a → c = Ok a.
Proof. by destruct c as [|[]]. Qed.
Ltac open_provider :=
  repeat match goal with
  | E : provider_raise _ _ = Ok _ |- _ => apply provider_raise_Ok in E
  | _ => progress open_handlers
  end.

(** The evidence is what the source answered for this very repository and credential, and is
    in time. *)
Record current_credential (p : AppProvider) (values : pyval) (instance : string) (e : AppEvidence) (now : Z) : Prop := {
  cc_answer : ∃ answer,
    ap_obtain p (MkEvidenceRequest (the_str (get values "repository_identity")) SUPPORTED_REQUIREMENTS instance) = Ok answer ∧
    _normalize_evidence answer = Ok e;
  cc_instance : ae_credential_instance_id e = instance;
  cc_repository : ae_repository_identity e = the_str (get values "repository_identity");
  cc_scope : ae_repository_scope e = [the_str (get values "repository_identity")];
  cc_clock : ap_clock p = Ok (Some now);
  cc_time : ∃ o observed x expires, app_utc "observed_at" (VStr (ae_observed_at e)) = Ok (o, observed) ∧
    app_utc "expires_at" (VStr (ae_expires_at e)) = Ok (x, expires) ∧ (observed <= now < expires)%Z;
}.
Lemma checked_evidence_Ok p values instance e now :
  checked_evidence p values instance = Ok (e, now) → current_credential p values instance e now.
Proof.
  unfold checked_evidence, _dependency_call. intros E. open_provider.
  match goal with x : option Z |- _ => destruct x as [t|]; [|discriminate] end. open_handlers. bools. simplify_eq.
  split; try done; [by eexists|by do 4 eexists].
Qed.
Lemma request_values_required r values :
  _request_values r = Ok values → rv_required_capabilities r = SUPPORTED_REQUIREMENTS.
Proof. unfold _request_values. intros E. open_provider. by bools. Qed.

(** C23: The provider raises nothing but its own error, under one of a fixed list of codes, whatever
    the evidence source, the signer, the clock and the factories raise; what it answers is the signed
    attestation of a credential the source answered for the request's one repository and one
    capability, in time at the provider's clock, whose source digest covers that evidence and
    the request, and which grants the capability exactly when the permission is to write. *)
Theorem provider_attests_evidence p r :
  match attest p r with
  | Err e => provider_error e
  | Ok signed =>
      ∃ values instance e now source issuer key algorithm nonce payload proof,
        _request_values r = Ok values ∧ rv_required_capabilities r = SUPPORTED_REQUIREMENTS ∧
        current_credential p values instance e now ∧ source_verification_digest e values = Ok source ∧
        make_claims (app_claims values e now instance source issuer key algorithm nonce) = Ok (sa_claims signed) ∧
        canonical_payload (claims_to_payload (sa_claims signed)) = Ok payload ∧ ap_sign p payload = Ok (VStr proof) ∧
        make_attestation (sa_claims signed) (VStr proof) = Ok signed ∧
        (granted_by e = ["issues:write"] ↔ _permission e "issues" = Some "write")
  end.
Proof.
  destruct (attest p r) as [signed|x] eqn:E; [|by eapply attest_errors].
  apply attest_Ok in E. unfold attest_body, _dependency_call in E. open_provider.
  match goal with x : pyval, E : match ?y with VStr _ => _ | _ => _ end = _ |- _ => destruct y; try discriminate E end.
  open_provider.
  match goal with E : make_attestation _ _ = Ok _ |- _ => rename E into Em end.
  assert (sa_claims signed = a13) as Hc by (clear -Em; unfold make_attestation in Em; by inv_ok). subst.
  do 11 eexists. split_and!; try done.
  - by eapply request_values_required.
  - by apply checked_evidence_Ok.
  - unfold granted_by. by case_bool_decide.
Qed.
End provider_facts.

(** ** What a dispatched command is sent with *)
Section dispatch_facts.
Context `{PyLib}.
Context {S : Type}.

(** Two values with one digest have one normal form, or two texts have one hash. *)
Lemma digest_inj v w d :
  digest v = Ok d → digest w = Ok d → float_free v = true → float_free w = true →
  normalize v = normalize w ∨ ∃ a b, a ≠ b ∧ sha256_hex a = sha256_hex b.
Proof.
  unfold digest. intros Ev Ew Hv Hw. inv_ok.
  match goal with Ev : canonical_payload v = Ok ?a, Ew : canonical_payload w = Ok ?b |- _ =>
    destruct (canonical_payload_norm v a Ev Hv) as (n & Hn & Hj & Ha);
    destruct (canonical_payload_norm w b Ew Hw) as (m & Hm & Hk & Hb); destruct (decide (a = b)) as [->|Hne] end.
  - left. pose proof (json_loads_dumps last_wins last_wins_distinct _ _ Hj Ha).
    pose proof (json_loads_dumps last_wins last_wins_distinct _ _ Hk Hb). congruence.
  - right. do 2 eexists. split; [exact Hne|]. by simplify_eq/=.
Qed.

(** The credential a command is sent with: the composed lease's own evidence, intact, allowed
    to write to its one repository, in time, of the principal and the instance [source]
    names *)
Record dispatched_credential (h : Host) (e : AppEvidence) (source : pyval) (now : Z) : Prop := {
  dc_intact : lease_intact (ho_objects h) (ho_lease h) = true;
  dc_snapshot : le_evidence (ho_lease h) = ho_snapshot h ∧ ho_objects h !! ho_snapshot h = Some e;
  dc_minted : le_integrity (ho_lease h) = (le_token (ho_lease h), e);
  dc_write : _permission e "issues" = Some "write" ∧ capability_in WRITE_CAPABILITY (get source "required_capabilities") = true;
  dc_instance : get source "credential_instance_id" = VStr (ae_credential_instance_id e);
  dc_principal : get source "credential_principal_identity"
                 = VStr (github_app_installation_principal (ae_app_id e) (ae_installation_id e));
  dc_repository : get source "repository_identity" = VStr (ae_repository_identity e);
  dc_scope : ae_repository_scope e = [ae_repository_identity e];
  dc_expires : get source "expires_at" = VStr (ae_expires_at e) ∧
               ∃ t offset, parse_iso (VStr (ae_expires_at e)) = Ok (t, Some offset) ∧ (now < t - offset)%Z;
}.

(** The evidence that was hashed for the attestation [source] names is this credential's. *)
Definition attested_evidence (e : AppEvidence) (source about : pyval) : Prop :=
  ∃ d, get source "source_verification_digest" = VStr d ∧
    ∀ e0 request0, digest (source_document e0 request0) = Ok d → float_free (source_document e0 request0) = true →
      float_free (source_document e (dispatch_request source about)) = true →
      normalize (source_document e0 request0) = normalize (source_document e (dispatch_request source about))
      ∨ ∃ a b, a ≠ b ∧ sha256_hex a = sha256_hex b.

Lemma py_eq_text a v : py_eq (VStr a) v = true → v = VStr a.
Proof. apply py_eq_str_l. Qed.
Lemma py_eq_text_r a v : py_eq v (VStr a) = true → v = VStr a.
Proof. apply py_eq_str. Qed.

Lemma lease_intact_true objects l e :
  lease_intact objects l = true → objects !! le_evidence l = Some e →
  le_integrity l = (le_token l, e) ∧ ae_repository_scope e = [ae_repository_identity e] ∧
  _permission e "issues" = Some "write".
Proof. unfold lease_intact. intros E He. rewrite He in E. by bools. Qed.

Lemma current_evidence_Ok h e :
  current_evidence h = Ok e →
  lease_intact (ho_objects h) (ho_lease h) = true ∧ le_evidence (ho_lease h) = ho_snapshot h ∧
  ho_objects h !! ho_snapshot h = Some e ∧ le_integrity (ho_lease h) = (le_token (ho_lease h), e) ∧
  ae_repository_scope e = [ae_repository_identity e] ∧ _permission e "issues" = Some "write".
Proof.
  unfold current_evidence, lease_snapshot. intros E. inv_ok.
  match goal with E : negb (lease_intact _ _) = false |- _ => apply negb_false_iff in E; rename E into Hi end.
  match goal with E : negb (_ =? _) = false |- _ => apply negb_false_iff, Nat.eqb_eq in E; rename E into Hs end.
  destruct (ho_objects h !! le_evidence (ho_lease h)) as [x|] eqn:Eo; simplify_eq. rewrite <- Hs.
  split_and!; try done; by eapply lease_intact_true.
Qed.

Lemma source_checks_Ok e source about : source_checks e source about = Ok tt → attested_evidence e source about.
Proof.
  unfold source_checks, source_verification_digest. intros E. inv_ok.
  match goal with E : negb (py_eq _ _) = false |- _ => apply negb_false_iff, py_eq_text in E; rename E into Hd end.
  eexists. split; [exact Hd|]. intros e0 r0 E0 Hf0 Hf. by eapply digest_inj.
Qed.

Lemma credential_Ok h e source now expires :
  current_evidence h = Ok e → credential_checks e source = Ok tt →
  capability_in WRITE_CAPABILITY (get source "required_capabilities") = true →
  parse_iso (VStr (ae_expires_at e)) = Ok expires → not_expired expires now = Ok tt → dispatched_credential h e source now.
Proof.
  intros (Hi & Hs & Ho & Hm & Hsc & Hw)%current_evidence_Ok Ec Hcap Hp En. unfold credential_checks in Ec. inv_ok.
  repeat match goal with E : negb (py_eq (VStr _) _) = false |- _ => apply negb_false_iff, py_eq_text in E end.
  unfold not_expired in En. destruct expires as [t [offset|]]; [|discriminate]. simpl in En. inv_ok. bools.
  split; try done. split; [done|]. do 2 eexists. by split.
Qed.

Lemma restored_dispatch_Ok h clock provenance authority :
  restored_dispatch h clock provenance authority = Ok tt →
  ∃ e now, utc_now clock = Ok now ∧ dispatched_credential h e provenance now ∧ attested_evidence e provenance authority ∧
    get provenance "credential_class" = VStr CREDENTIAL_CLASS.
Proof.
  unfold restored_dispatch, dispatch_error. intros E.
  match type of E with match ?c with _ => _ end = _ => destruct c as [u|[]] eqn:Ec; try discriminate E end. clear E. inv_ok.
  repeat match goal with u : unit |- _ => destruct u end. unfold lease_class in *. inv_ok.
  match goal with E : negb (py_eq (VStr CREDENTIAL_CLASS) _) = false |- _ => apply negb_false_iff, py_eq_text in E end.
  repeat match goal with E : negb (capability_in _ _) = false |- _ => apply negb_false_iff in E end.
  do 2 eexists. split_and!; [done| | |done]; [by eapply credential_Ok|by apply source_checks_Ok].
Qed.

Lemma live_dispatch_Ok h clock binding authority :
  live_dispatch h clock binding authority = Ok tt →
  ∃ e now, utc_now clock = Ok now ∧ dispatched_credential h e binding now ∧ attested_evidence e binding binding ∧
    get binding "credential_class" = VStr CREDENTIAL_CLASS ∧
    capability_in WRITE_CAPABILITY (get binding "granted_capabilities") = true ∧
    fields_equal SHARED_FIELDS authority binding = true.
Proof.
  unfold live_dispatch. intros E. inv_ok. repeat match goal with u : unit |- _ => destruct u end.
  unfold lease_class in *. inv_ok.
  repeat match goal with E : negb (py_eq _ _) = false |- _ => apply negb_false_iff, py_eq_text_r in E end.
  match goal with E : read_error _ _ = Ok _ |- _ => apply read_error_Ok in E end. bools.
  do 2 eexists. split_and!; [done| | |done..]; [by eapply credential_Ok|by apply source_checks_Ok].
Qed.

(** C17: The check before a dispatched write passes only in a current context and only with the
    host's own lease, untampered since it was made, allowed to write to its one repository and
    not expired, of the principal and the instance of the authority's provenance or registered
    binding; and whatever evidence was hashed for that attestation has the same canonical form
    as the evidence of this lease and this request, unless two texts with one SHA-256 digest
    are known. *)
Theorem dispatched_credential_attested host has_store current authority clock (st : AuthorityState S) :
  match _validate_live_credential_dispatch host has_store current authority clock st with
  | Err _ => True
  | Ok _ =>
      current = Ok tt ∧
      ∃ h id source about e now, host = Some h ∧ get authority "authority_id" = VStr id ∧ utc_now clock = Ok now ∧
        (au_provenance st !! id = Some source ∧ about = authority
         ∧ (∃ issuance, au_issuance_ids st !! id = Some issuance ∧ provenance_matches source authority issuance = true)
         ∨ au_provenance st !! id = None ∧ about = source
           ∧ (∃ object, resolve_registered_binding (get authority "credential_binding_id") (au_runtime st) = Ok object
                        ∧ source = default VNone (rt_objects (au_runtime st) !! object))
           ∧ capability_in WRITE_CAPABILITY (get source "granted_capabilities") = true
           ∧ fields_equal SHARED_FIELDS authority source = true) ∧
        get source "credential_class" = VStr CREDENTIAL_CLASS ∧ dispatched_credential h e source now ∧
        attested_evidence e source about
  end.
Proof.
  destruct (_validate_live_credential_dispatch _ _ _ _ _ _) as [[]|] eqn:E; [|done].
  unfold _validate_live_credential_dispatch in E. inv_ok. destruct host as [h|]; [|discriminate]. inv_ok.
  repeat match goal with u : unit |- _ => destruct u end. split; [done|].
  destruct (get authority "authority_id") as [| | | |id| | | | | |]; try discriminate.
  destruct (au_provenance st !! id) as [provenance|] eqn:Ep.
  - destruct (au_issuance_ids st !! id) as [issuance|] eqn:Ei; [|discriminate]. inv_ok.
    match goal with E : negb (provenance_matches _ _ _) = false |- _ => apply negb_false_iff in E end.
    apply restored_dispatch_Ok in E as (e & now & Hn & Hd & Ha & Hc).
    exists h, id, provenance, authority, e, now. split_and!; try done. left. split_and!; try done. by exists issuance.
  - inv_ok. apply live_dispatch_Ok in E as (e & now & Hn & Hd & Ha & Hc & Hg & Hf).
    eexists h, id, _, _, e, now. split_and!; try done. right. split_and!; try done. by eexists.
Qed.
End dispatch_facts.
