(* ===== verification/StatusSound.v ===== *)
(** * The operations a status is reported against (delivery_system/runtime.py)

    The part of [RuntimeApplicationStatusService] that reads the approved preview again: the
    sealed envelope, the evidence and promotion of the stored revision, and the operations
    that the projection of Status.v checks every record against. *)
From S2P Require Import Prelude PyValue Strings PyOps Canonical Evidence FormalPreview WriteOperations.
From S2P Require Import Identity Receipts ExecutionState Clock Context ExecutionStore Preflight Status.
From S2P Require Import Approvals PreviewValidation PreviewStore PreviewSound.

Definition _PREVIEW_BINDINGS : list string :=
  ["workspace_identity"; "repository_identity"; "preview_id"; "revision"; "sealed_preview_digest"; "plan_digest";
   "operation_set_digest"; "remote_snapshot_digest"].
Definition _PREVIEW_DIGEST_ERRORS : list string :=
  ["preview_identity_mismatch"; "plan_digest_mismatch"; "operation_set_digest_mismatch";
   "sealed_preview_digest_mismatch"; "remote_snapshot_digest_mismatch"; "repository_identity_mismatch";
   "sealed_preview_not_canonical"; "sealed_preview_incomplete"].

(** [except ValueError: raise; except (TypeError, KeyError, JSONDecodeError): raise ValueError(..)];
    a [JSONDecodeError] is a [ValueError] *)
Definition preview_mismatch {A} (c : result A) : result A :=
  match c with
  | Err (TypeError _ | KeyError _) => Err (ValueError "preview_digest_mismatch")
  | _ => c
  end.

Section status.
Context `{PyLib}.

(** The loop over [_PREVIEW_BINDINGS] *)
Fixpoint bindings_match (fields : list string) (normalized values : pyval) : result unit :=
  match fields with
  | [] => Ok tt
  | f :: fields' =>
      raise (if bool_decide (f = "workspace_identity") then "application_binding_conflict" else "preview_digest_mismatch")
        when negb (py_eq (get normalized f) (get values f)) ;
      bindings_match fields' normalized values
  end.

Definition _validate_preview_envelope (preview values : pyval) : result (pyval * pyval) :=
  raise "preview_digest_mismatch" when negb (is_mapping preview) ;
  let canonical := get preview "canonical_payload" in
  let request_id := get preview "request_id" in
  preview_mismatch
    (let! sealed := preview_from_dict canonical in
     let! normalized := preview_to_dict sealed in
     raise "preview_digest_mismatch" when negb (py_eq normalized canonical) ;
     raise "preview_digest_mismatch"
       when negb (py_eq (get preview "revision") (get values "revision"))
            || negb (py_eq request_id (get normalized "request_id")) || negb (is_nonempty_str request_id) ;
     let! _ := bindings_match _PREVIEW_BINDINGS normalized values in
     let! d := digest (without_key "sealed_preview_digest" normalized) in
     raise "preview_digest_mismatch" when negb (py_eq (get normalized "sealed_preview_digest") (VStr d)) ;
     Ok (normalized, request_id)).

(** [workspace] is that of the service's context *)
Variable st : SQLitePreviewStore.
Variable workspace : string.

Definition read_for_status (l : logical_values) (db : PreviewDb) : result pyval :=
  match _read_preview_revision_for_status st workspace (preview_id l) (revision l) db with
  | Err (ValueError code) =>
      Err (ValueError (if bool_decide (code = "preview crosses Workspace boundary") then "application_binding_conflict"
                       else code))
  | r => preview_mismatch r
  end.

Definition evidence_for_status (canonical : pyval) (db : PreviewDb)
  : result (list pyval * option RuntimePromotion) :=
  let! aware := in_str_set (get canonical "preview_level") [REPOSITORY_AWARE; WRITE_ELIGIBLE] in
  if negb aware then Ok ([], None)
  else preview_mismatch
    (let! ids := subscript canonical "evidence_ids" in
     let! ids := py_iter ids in
     let! evidence := get_evidence_records st workspace ids db in
     let! promotion := _reload_promotion (ps_trust_context st) canonical evidence in
     Ok (evidence, promotion)).

Definition recode_validation (c : result pyval) : result pyval :=
  match c with
  | Err (ValueError code) =>
      Err (ValueError (if bool_decide (code = "workspace_identity_mismatch") then "application_binding_conflict"
                       else if bool_decide (code ∈ _PREVIEW_DIGEST_ERRORS) then "preview_digest_mismatch" else code))
  | r => preview_mismatch r
  end.

Definition operations_for_status (normalized values : pyval) : result (list operation) :=
  preview_mismatch
    (let intents := get_default normalized "operation_intents" (VList []) in
     let! payload := if is_v2 normalized then operation_set_digest_payload_v2 intents
                     else operation_set_digest_payload intents in
     let! d := digest payload in
     raise "preview_digest_mismatch" when negb (py_eq (VStr d) (get values "operation_set_digest")) ;
     _execution_operations normalized).

Definition _load_preview_operations (identity : LogicalApplicationIdentity) (db : PreviewDb) : result (list operation) :=
  let l := _values identity in
  let values := values_dict l in
  let! preview := read_for_status l db in
  let! (canonical, request_id) := _validate_preview_envelope preview values in
  let! (evidence, promotion) := evidence_for_status canonical db in
  let! normalized :=
    recode_validation
      (_validate_preview_payload canonical request_id (VStr (preview_id l)) (VInt (revision l)) (get values "plan_digest")
         (get values "operation_set_digest") (get values "remote_snapshot_digest") (get values "repository_identity")
         evidence workspace promotion) in
  let! _ := bindings_match _PREVIEW_BINDINGS normalized values in
  operations_for_status normalized values.

(** [get_status] and [get_status_by_approved_context] over both stores *)
Definition service_status (est : SQLiteExecutionStore) (app : string) (db : Db) (pdb : PreviewDb) : result status_view :=
  get_status est (λ identity, _load_preview_operations identity pdb) app db.
Definition service_status_by_context (est : SQLiteExecutionStore) (preview : string) (rev : Z)
    (approval approvald : string) (db : Db) (pdb : PreviewDb) : result status_view :=
  get_status_by_approved_context est (λ identity, _load_preview_operations identity pdb) preview rev approval approvald db.
End status.

(** ** What the operations of a status rest on

    The operations that [_load_preview_operations] answers with are those of a stored preview
    whose seal, digests and bindings were verified again, for the very application identity
    the status is asked for. *)
(** The verdict of a computation passes through the handlers that only rename errors *)
Lemma preview_mismatch_Ok {A} (c : result A) a : preview_mismatch c = Ok a → c = Ok a.
Proof. by destruct c as [|[]]. Qed.
Lemma recode_validation_Ok c v : recode_validation c = Ok v → c = Ok v.
Proof. by destruct c as [|[]]. Qed.

Section sound.
Context `{PyLib}.

Lemma read_for_status_Ok st ws l db v :
  read_for_status st ws l db = Ok v → _read_preview_revision_for_status st ws (preview_id l) (revision l) db = Ok v.
Proof. unfold read_for_status. by destruct (_read_preview_revision_for_status _ _ _ _ _) as [|[]]. Qed.

Lemma bindings_match_Ok fields n values u :
  bindings_match fields n values = Ok u → ∀ k, k ∈ fields → py_eq (get n k) (get values k) = true.
Proof.
  induction fields as [|f fields IH]; simpl; intros E k Hk; [by apply not_elem_of_nil in Hk|]. guards. bools.
  apply elem_of_cons in Hk as [->|Hk]; [done|]. by apply IH.
Qed.

(** What a reader may assume of the document [n] behind the operations of a status *)
Record status_document (ws : string) (l : logical_values) (promotion : option RuntimePromotion) (n : pyval) : Prop := {
  sn_bound : ∀ k, k ∈ _PREVIEW_BINDINGS → py_eq (get n k) (get (values_dict l) k) = true;
  sn_workspace : get n "workspace_identity" = VStr ws;
  sn_sealed : ∃ d, digest (without_key "sealed_preview_digest" n) = Ok d ∧ get n "sealed_preview_digest" = VStr d;
  sn_operations_digest : ∃ payload,
    (if is_v2 n then operation_set_digest_payload_v2 (get_default n "operation_intents" (VList []))
     else operation_set_digest_payload (get_default n "operation_intents" (VList []))) = Ok payload
    ∧ digest payload = Ok (operation_set_digest l);
  sn_promoted : py_eq (get n "preview_level") (VStr CONCEPTUAL) = false →
    ∃ p authority, promotion = Some p ∧ remote_authority (pr_trust_context p) = Ok authority
      ∧ get n "remote_authority" = VStr authority
      ∧ get n "remote_snapshot_digest" = VStr (pr_remote_snapshot_digest p);
}.

Lemma validated_payload canonical req pid rev plan ops rem repo ev ws promo n :
  _validate_preview_payload canonical req pid rev plan ops rem repo ev ws promo = Ok n →
  py_eq n canonical = true ∧ get n "workspace_identity" = VStr ws
  ∧ (∃ d, digest (without_key "sealed_preview_digest" n) = Ok d ∧ get n "sealed_preview_digest" = VStr d)
  ∧ (py_eq (get n "preview_level") (VStr CONCEPTUAL) = false →
     ∃ p authority, promo = Some p ∧ remote_authority (pr_trust_context p) = Ok authority
       ∧ get n "remote_authority" = VStr authority
       ∧ get n "remote_snapshot_digest" = VStr (pr_remote_snapshot_digest p)).
Proof.
  unfold _validate_preview_payload. cbn zeta. intros E. guards. apply Ok_inj in E. subst.
  match goal with I : validate_sealed_preview_invariants n _ _ = Ok _ |- _ => apply invariants_facts in I; rename I into Hinv end.
  bools. rewrite !py_eq_str in *. split_and!; [done|done|by eauto|]. intros C. by rewrite C in Hinv.
Qed.

Lemma envelope_canonical preview values canonical req :
  _validate_preview_envelope preview values = Ok (canonical, req) →
  py_eq canonical (get preview "canonical_payload") = true.
Proof.
  unfold _validate_preview_envelope. cbn zeta. intros E. guards. apply preview_mismatch_Ok in E. guards.
  injection E as <- <-. by bools.
Qed.

(** C35: The operations a status is reported against are the operations of a stored preview: one
    that is read under the identity's preview and revision, whose document agrees with the
    identity on every binding, belongs to the workspace, has the seal of its own content and the
    identity's digest of its operations, and, above the conceptual level, is bound to a promotion
    of the trusted driver rebuilt from the stored evidence. *)
Theorem status_operations_bound st ws identity db ops :
  _load_preview_operations st ws identity db = Ok ops →
  ∃ preview canonical n evidence promotion,
    _read_preview_revision_for_status st ws (preview_id (_values identity)) (revision (_values identity)) db = Ok preview
    ∧ py_eq canonical (get preview "canonical_payload") = true ∧ py_eq n canonical = true
    ∧ evidence_for_status st ws canonical db = Ok (evidence, promotion)
    ∧ status_document ws (_values identity) promotion n
    ∧ _execution_operations n = Ok ops.
Proof.
  unfold _load_preview_operations. cbn zeta. intros E. guards.
  match goal with R : read_for_status _ _ _ _ = Ok ?v |- _ => apply read_for_status_Ok in R; exists v end.
  destruct a0 as [canonical req]. destruct (evidence_for_status _ _ _ _) as [[evidence promotion]|] eqn:Ev; [|discriminate].
  guards. exists canonical, a0, evidence, promotion.
  match goal with V : recode_validation _ = Ok _ |- _ => apply recode_validation_Ok in V; rename V into Hv end.
  match goal with B : bindings_match _ a0 _ = Ok _ |- _ => pose proof (bindings_match_Ok _ _ _ _ B) as Hb end.
  destruct (validated_payload _ _ _ _ _ _ _ _ _ _ _ _ Hv) as (Hcan & Hws & Hseal & Hp).
  apply preview_mismatch_Ok in E. cbn zeta in E. guards. bools.
  split_and!; [done|by eapply envelope_canonical|done|done| |done].
  split; [done|done|done| |done]. eexists. split; [done|].
  match goal with D : py_eq (VStr _) _ = true |- _ => apply py_eq_str_l in D; cbn in D; by injection D as -> end.
Qed.
End sound.
