(* ===== verification/Runs.v ===== *)
(** * Running an applier

    [run] executes a program against an environment, which answers every event and may
    change the tables between two events.  It is defined by recursion on the program, so
    every run of the applier ends; each run is a path of a deployment. *)
From S2P Require Import Prelude PyValue Strings PyOps Canonical Evidence FormalPreview WriteOperations.
From S2P Require Import Identity Receipts ExecutionState Clock Context ExecutionStore ManagedStore Refinement.
From S2P Require Import WriteContract Preflight GithubWrite Applier Interleaving Deployment AuditRecords.
From S2P Require Import Approvals PreviewValidation AuditBoundary PreviewStore ApprovalService PreviewFacts.
From S2P Require Import AuditTrail ApprovalFacts.

Section run.
Context `{PyLib}.

(** The answers at each tick *)
Record environment := Environment {
  en_context : nat → string → result Context;
  en_clock : nat → result string;
  en_uuid : nat → string;
  en_authority : nat → authority_answer;
  en_credential : nat → Context → result unit;
  en_revalidate : nat → string → option (result pyval);
  en_remote : nat → string → command → remote;
  en_valid : nat → nat → authority_answer;
  en_interfere : nat → Db → Db;
}.

Record outcome (A : Type) := Outcome {
  oc_result : result A;
  oc_tick : nat;
  oc_db : Db;
  oc_log : list attempt_key;
}.
Arguments Outcome {A} _ _ _ _.
Arguments oc_result {A} _.
Arguments oc_tick {A} _.
Arguments oc_db {A} _.
Arguments oc_log {A} _.

Variable env : environment.
Variable st : SQLiteExecutionStore.
Variable cap : _ApplierCapability.

Fixpoint run {A : Type} (p : prog A) (t : nat) (db : Db) (log : list attempt_key) : outcome A :=
  match p with
  | Ret r => Outcome r t db log
  | Vis e k =>
      match e in event B return (B → prog A) → outcome A with
      | CreateContext aid => λ k, run (k (en_context env t aid)) (S t) db log
      | ReadClock => λ k, run (k (en_clock env t)) (S t) db log
      | Uuid4 => λ k, run (k (en_uuid env t)) (S t) db log
      | AskAuthority => λ k, run (k (en_authority env t)) (S t) db log
      | CheckCredential c => λ k, run (k (en_credential env t c)) (S t) db log
      | RevalidateEndpoint ref _ _ => λ k, run (k (en_revalidate env t ref)) (S t) db log
      | Dispatch key kind cmd => λ k, run (k (en_remote env t kind cmd)) (S t) db (log ++ [key])
      | Call x => λ k,
          let db := en_interfere env t db in
          match run_call st cap (en_valid env t) x db with
          | Ok (b, db') => run (k (Ok b)) (S t) db' log
          | Err e => run (k (Err e)) (S t) db log
          end
      end k
  end.

Lemma run_try_bind {A B : Type} (p : prog A) (f : result A → prog B) t db log :
  run (try_bind p f) t db log =
  let o := run p t db log in run (f (oc_result o)) (oc_tick o) (oc_db o) (oc_log o).
Proof.
  revert t db log. induction p as [r|C e k IH]; intros t db log; simpl; [done|].
  destruct e; simpl; try apply IH.
  destruct (run_call _ _ _ _ _) as [[b db']|e]; apply IH.
Qed.

(** A run with a well-behaved environment is a path of a deployment. *)
Section path.
Variable deploy : nat → SQLiteExecutionStore * plan.
Variable st0 : SQLiteExecutionStore.
Variable pl0 : plan.
Hypothesis Hcontext : ∀ t aid c, en_context env t aid = Ok c → serves (snd (deploy 0)) c.
Hypothesis Hinterfere : ∀ t db,
  attempt_keys db ⊆ attempt_keys (en_interfere env t db) ∧ same_rows st0 pl0 db (en_interfere env t db).
Notation step := (deployment_step deploy st0 pl0).

Lemma run_path (p : prog ApplyResult) t db log procs :
  procs !! 0 = Some (Process st cap p) →
  let o := run p t db log in
  rtc step (System db log procs)
    (System (oc_db o) (oc_log o) (<[0 := Process st cap (Ret (oc_result o))]> procs)).
Proof.
  revert t db log procs. induction p as [r|B e k IH]; intros t db log procs Hi; simpl.
  { by rewrite insert_id. }
  assert (∀ b db' log' t', let o := run (k b) t' db' log' in
    rtc step (System db' log' (resume 0 (Process st cap (Vis e k)) (k b) procs))
      (System (oc_db o) (oc_log o) (<[0 := Process st cap (Ret (oc_result o))]> procs))) as Hrest.
  { intros b db' log' t'. specialize (IH b t' db' log' (resume 0 (Process st cap (Vis e k)) (k b) procs)).
    simpl in IH. unfold resume in *. simpl in *. rewrite lookup_insert_eq in IH. specialize (IH eq_refl).
    by rewrite insert_insert_eq in IH. }
  destruct e; simpl; try (eapply rtc_l; [by eapply dep_answer|apply Hrest]).
  - eapply rtc_l; [|apply Hrest]. eapply dep_answer; [done..|]. simpl. intros c. apply Hcontext.
  - eapply rtc_l; [by eapply (dep_dispatch _ _ _ _ _ _ _ (Process st cap _))|apply Hrest].
  - destruct (Hinterfere t db) as [Hkeys Hrows].
    eapply rtc_l; [by apply (dep_other _ _ _ _ (en_interfere env t db))|].
    set (db1 := en_interfere env t db) in *.
    destruct (run_call st cap (en_valid env t) x db1) as [[b db']|e] eqn:Hrun.
    + eapply rtc_l; [by eapply (dep_commit _ _ _ db1 db')|apply Hrest].
    + eapply rtc_l; [by eapply (dep_raise _ _ _ db1)|apply Hrest].
Qed.

(** A whole application, from a system without processes *)
Lemma apply_path svc authority_id t db :
  fst (deploy 0) = st →
  let o := run (_apply svc st authority_id) t db [] in
  rtc step (System db [] ∅)
    (System (oc_db o) (oc_log o) (<[0 := Process st cap (Ret (oc_result o))]> ∅)).
Proof.
  intros Hd. eapply rtc_l; [by apply (dep_start deploy st0 pl0 db [] ∅ 0 svc cap authority_id)|].
  rewrite Hd. pose proof (run_path (_apply svc st authority_id) t db []
    (<[0 := Process st cap (_apply svc st authority_id)]> ∅)) as Hp.
  simpl in Hp. rewrite insert_insert_eq in Hp. apply Hp, lookup_insert_eq.
Qed.
End path.
End run.
Arguments Outcome {A} _ _ _ _.
Arguments oc_result {A} _.
Arguments oc_tick {A} _.
Arguments oc_db {A} _.
Arguments oc_log {A} _.

(** ** What is written is read back

    The documents of the execution store, and the audits and approvals of the preview store,
    survive their storage as JSON rows. *)
Section roundtrips.
Context `{PyLib}.

(** C36: The rows of the execution store are read back as what was written, without the live
    registration of the object: for every application state, operation attempt and operation
    receipt that the checks of its constructor accept, over an identity, an anchor, a provenance,
    an operation and a remote result that their own constructors made, constructing the record
    from its own document gives the record. *)
Theorem execution_rows_roundtrip s a r :
  execution_state_wf s → attempt_wf a → operation_receipt_wf r →
  execution_state_from_doc (execution_state_doc s) = Ok (execution_state_historical s)
  ∧ attempt_from_doc (attempt_doc a) = Ok (attempt_historical a)
  ∧ operation_receipt_from_doc (operation_receipt_doc r) = Ok (operation_receipt_historical r).
Proof. auto using execution_state_from_doc_doc, attempt_from_doc_doc, operation_receipt_from_doc_doc. Qed.

Variable st : SQLitePreviewStore.
Notation ws := (ps_workspace st).

Lemma first_audit_read a db db' r :
  audit_typed a = true → audit_check a = Ok a → audit_row a = Ok r →
  insert_first_event (ws, ad_audit_id a) r db = Ok db' → get_audit st ws (ad_audit_id a) db' = Ok a.
Proof.
  intros T C Hr (_ & _ & ->)%insert_first_event_grows. unfold get_audit. rewrite bool_decide_eq_true_2 by done.
  simpl. unfold latest_event, audit_key. rewrite events_put, decide_True by done. simpl. by apply audit_row_load.
Qed.

(** C37: An audit the store takes in is read back unchanged, field by field: after [record_audit]
    has stored it, and after a commit has answered with it, whether the commit stored it or
    found it already committed, reading its identity gives exactly that audit. *)
Theorem stored_audit_read_back a db :
  reachable_store st db → audit_object a →
  (∀ db', record_audit st a db = Ok db' → get_audit st ws (ad_audit_id a) db' = Ok a)
  ∧ ∀ minted authority a' db', _apply_audit_commit_atomic st minted a authority db = Ok (a', db') →
      get_audit st ws (ad_audit_id a') db' = Ok a'.
Proof.
  intros R [T C]. destruct (store_steps_trails _ _ _ R trails_empty) as [Tr _]. split.
  - intros db' E. unfold record_audit in E. destruct (truthy _); [discriminate|].
    destruct (if is_active a then _ else _) as [v|]; [|discriminate]. destruct (negb v); [discriminate|].
    destruct (audit_row a) as [r|] eqn:Hr; [|discriminate]. by eapply first_audit_read.
  - intros minted authority a' db' E.
    apply or_value_error_Ok, commit_transaction_facts in E as (l & Hl & _ & _ & D); [|done|done].
    destruct D as [[F ->]|(db1 & r & -> & _ & _ & Hi & Hev)].
    + apply find_active in F as ((id & Hin) & _). pose proof (latest_audits_facts _ _ _ Tr Hl) as [_ Hh].
      apply Hh in Hin. pose proof (history_last _ _ _ Hin) as (r & _ & _ & Hid & _). subst id.
      by apply history_get_audit.
    + apply insert_first_event_grows in Hi as (_ & _ & ->). destruct Hev as (Hld & _). unfold get_audit.
      rewrite bool_decide_eq_true_2 by done. simpl. unfold latest_event, audit_key. by rewrite events_put, decide_True.
Qed.

(** A newly recorded approval is read back unchanged: when the store held no approval of that
    identity, [get_approval] answers with the approval that was recorded. *)
Theorem stored_approval_read_back ap id db db' :
  ap_approval_id ap = VStr id → get_approval st ws id db = Err (ValueError "approval_not_found") →
  store_record_approval st ap db = Ok db' → get_approval st ws id db' = Ok ap.
Proof.
  intros Hid Hn E. apply store_record_approval_facts in E as (V & ai & au & p & z & r & pv & i & _ & _ & _ & _ & _ & _ & _
    & Hi & _ & D). rewrite Hid in Hi. injection Hi as <-.
  pose proof (approval_not_found (MkApprovalService st "" "") id db Hn) as Hno.
  destruct D as [(r' & old & Hr & _)|(row & _ & Hrow & ->)].
  - unfold record_of in Hr. destruct (latest_revision _ _ _ _); [|done]. simpl in Hno. by rewrite Hno in Hr.
  - apply (approval_stored (MkApprovalService st "" "")); [done|].
    exact (approval_row_load _ _ (is_structurally_valid_facts _ V) Hrow).
Qed.
End roundtrips.
