(* ===== verification/Termination.v ===== *)
(** * The loop of the applier ends

    [apply_loop] stands for a [while True] loop and is given fuel.  Here the loop is a
    relation without fuel, and the fuel [_apply] gives it is enough: whatever the answers
    and whatever other writers do, short of removing attempt rows, the run of [apply_loop] is
    the outcome of the unbounded loop. *)
From S2P Require Import Prelude PyValue Strings Canonical WriteOperations Identity Receipts ExecutionState.
From S2P Require Import Clock Context ExecutionStore ManagedStore ManagedSpec WriteContract GithubWrite.
From S2P Require Import Applier Interleaving Runs.

Section loop.
Context `{PyLib}.
Variable env : environment.
Variable st : SQLiteExecutionStore.
Variable cap : _ApplierCapability.
Variable svc : RuntimeService.
Variable c : Context.
Hypothesis Hkeep : ∀ t db, attempt_keys db ⊆ attempt_keys (en_interfere env t db).
Notation app := (ctx_application_id c).
Notation plan_length := (length (_expected_operations c)).
Notation run := (run env st cap).

(** The finalization after the loop *)
Definition finish (s : ApplicationExecutionState) : prog ApplyResult :=
  do! t <- now ;
  do! s' <- trigger (Call (call_finalize app (as_state_digest s) c t)) ;
  do! rid <- receipt_id app ;
  Ret (Ok (Applied_result app (as_state s') (as_next_operation_index s') (Some rid) None)).

(** One iteration: [inl] goes round again, [inr] returns *)
Definition after_claim (s : ApplicationExecutionState) (owner : string)
    (r : result (ApplicationExecutionState * OperationAttemptState)) : prog (ApplicationExecutionState + ApplyResult) :=
  match r with
  | Err e =>
      match e with
      | ValueError code =>
          if bool_decide (code = "application_claim_unavailable" ∨ code = "application_state_stale")
          then do! res <- claim_lost c s e ; Ret (Ok (inr res)) else Ret (Err e)
      | _ => Ret (Err e)
      end
  | Ok (s1, a) => execute_claim svc st c s1 a owner
  end.
Definition iteration (s : ApplicationExecutionState) : prog (ApplicationExecutionState + ApplyResult) :=
  Vis Uuid4 (λ hex,
    let owner := "execution-owner-" +:+ hex in
    try! (do! t <- now ; trigger (Call (call_claim app (as_state_digest s) c owner t))) with r => after_claim s owner r).

(** The loop: each iteration starts where the one before stopped *)
Definition ends_with (o : outcome (ApplicationExecutionState + ApplyResult)) (r : result ApplyResult)
  : outcome ApplyResult := Outcome r (oc_tick o) (oc_db o) (oc_log o).
Inductive while_loop : ApplicationExecutionState → nat → Db → list attempt_key → outcome ApplyResult → Prop :=
| while_exit s t db log :
    plan_length ≤ as_next_operation_index s → while_loop s t db log (run (finish s) t db log)
| while_return s t db log res :
    as_next_operation_index s < plan_length →
    oc_result (run (iteration s) t db log) = Ok (inr res) →
    while_loop s t db log (ends_with (run (iteration s) t db log) (Ok res))
| while_raise s t db log e :
    as_next_operation_index s < plan_length →
    oc_result (run (iteration s) t db log) = Err e →
    while_loop s t db log (ends_with (run (iteration s) t db log) (Err e))
| while_again s s' t db log o :
    as_next_operation_index s < plan_length →
    oc_result (run (iteration s) t db log) = Ok (inl s') →
    while_loop s' (oc_tick (run (iteration s) t db log)) (oc_db (run (iteration s) t db log))
      (oc_log (run (iteration s) t db log)) o →
    while_loop s t db log o.

Lemma while_loop_unique s t db log o o' : while_loop s t db log o → while_loop s t db log o' → o = o'.
Proof.
  intros W. revert o'. induction W as [|s t db log res ? E|s t db log e ? E|s s' t db log o ? E _ IH];
    intros o' W'; inversion W'; subst; try lia; try congruence.
  apply IH. rewrite E in *. by simplify_eq.
Qed.

(** ** A fueled iteration *)
Lemma run_bind {A B : Type} (p : prog A) (f : A → prog B) t db log :
  run (bind p f) t db log =
  let o := run p t db log in
  match oc_result o with
  | Ok a => run (f a) (oc_tick o) (oc_db o) (oc_log o)
  | Err e => Outcome (Err e) (oc_tick o) (oc_db o) (oc_log o)
  end.
Proof. unfold bind. rewrite run_try_bind. cbn zeta. by destruct (oc_result _). Qed.

Lemma run_apply_loop fuel s t db log :
  as_next_operation_index s < plan_length →
  run (apply_loop svc st (S fuel) c s) t db log =
  let o := run (iteration s) t db log in
  match oc_result o with
  | Ok (inl s') => run (apply_loop svc st fuel c s') (oc_tick o) (oc_db o) (oc_log o)
  | Ok (inr res) => ends_with o (Ok res)
  | Err e => ends_with o (Err e)
  end.
Proof.
  intros Hs. cbn [apply_loop]. rewrite (proj2 (Nat.leb_gt _ _) Hs). unfold iteration. cbn [Runs.run]. cbn zeta.
  rewrite !run_try_bind. cbn zeta.
  destruct (run (bind now _) (S t) db log) as [[[s1 a]|e] t1 db1 log1]; cbn [after_claim oc_result oc_tick oc_db oc_log].
  - rewrite run_bind. cbn zeta. destruct (oc_result (run (execute_claim _ _ _ _ _ _) _ _ _)) as [[s'|res]|e]; done.
  - destruct e as [code| | | | | | | | | |]; try done. case_bool_decide; [|done].
    rewrite run_bind. cbn zeta. by destruct (run (claim_lost c s (ValueError code)) _ _ _) as [[res|e] ? ? ?].
Qed.

(** ** The attempts of the plan
    A claim inserts the row of an attempt of the plan that had none, and rows stay. *)
Definition plan_keys : gset attempt_key :=
  list_to_set (omap (λ i, match _expected_operations c !! i with
                          | Some op => match operation_identity app i op with
                                       | Ok id => Some (op_key st app id)
                                       | Err _ => None
                                       end
                          | None => None
                          end) (seq 0 plan_length)).
Definition unclaimed (db : Db) : nat := size (plan_keys ∖ attempt_keys db).

Lemma size_list_to_set_le (l : list attempt_key) : size (list_to_set l : gset attempt_key) ≤ length l.
Proof.
  induction l as [|x l IH]; [by rewrite list_to_set_nil, size_empty|].
  rewrite list_to_set_cons, size_union_alt, size_singleton. simpl.
  assert (size ((list_to_set l : gset attempt_key) ∖ {[x]}) ≤ size (list_to_set l : gset attempt_key)); [|lia].
  apply subseteq_size. intros y. by rewrite elem_of_difference; intros [? _].
Qed.

Lemma length_omap_le {A B} (f : A → option B) l : length (omap f l) ≤ length l.
Proof. induction l as [|x l IH]; csimpl; [done|]. destruct (f x); csimpl; lia. Qed.

Lemma plan_keys_size : size plan_keys ≤ plan_length.
Proof.
  unfold plan_keys. etrans; [apply size_list_to_set_le|]. etrans; [apply length_omap_le|]. by rewrite length_seq.
Qed.

Lemma unclaimed_mono db db' : attempt_keys db ⊆ attempt_keys db' → unclaimed db' ≤ unclaimed db.
Proof. intros Hs. unfold unclaimed. apply subseteq_size. set_solver. Qed.

Lemma new_attempt_key svc' ans index st' t1 t2 a :
  new_attempt svc' ans c index st' t1 t2 = Ok a →
  op_key st (at_application_id a) (at_operation_identity a) ∈ plan_keys.
Proof.
  unfold new_attempt. intros E. inv_ok. destruct (_expected_operations c !! index) as [op|] eqn:Hop; [|done]. inv_ok.
  match goal with D : attempt_check _ = Ok _ |- _ => apply attempt_check_facts in D as [-> _] end. simpl.
  unfold plan_keys. rewrite elem_of_list_to_set, list_elem_of_omap. exists index. split.
  - apply elem_of_seq. split; [lia|]. simpl. by eapply lookup_lt_Some.
  - rewrite Hop. by match goal with D : operation_identity _ _ _ = Ok _ |- _ => rewrite D end.
Qed.

(** ** Rows along a run *)
Lemma run_keys {A : Type} (p : prog A) t db log : attempt_keys db ⊆ attempt_keys (oc_db (run p t db log)).
Proof.
  revert t db log. induction p as [r|B e k IH]; intros t db log; simpl; [done|]. destruct e; simpl; try apply IH.
  etrans; [apply (Hkeep t)|]. destruct (run_call _ _ _ _ _) as [[b db']|e] eqn:E; [|apply IH].
  etrans; [|apply IH]. apply run_call_keys in E as [E _]. set_solver.
Qed.

Lemma claim_decreases valid d owner t db s a db' :
  claim_next_operation st cap valid app d c owner t db = Ok ((s, a), db') → unclaimed db' < unclaimed db.
Proof.
  intros E. pose proof (claim_keys _ _ _ _ _ _ _ _ _ _ _ _ E) as [Hn Hk].
  assert (op_key st (at_application_id a) (at_operation_identity a) ∈ plan_keys) as Hp.
  { unfold claim_next_operation in E. inv_ok. destruct (application_execution db !! _) as [r|]; [|done]. inv_ok.
    match goal with D : new_attempt _ _ _ _ _ _ _ = Ok _ |- _ => apply new_attempt_key in D end.
    match goal with D : attempt_with_digest _ = Ok _ |- _ => apply attempt_with_digest_Ok in D as ([? ->] & _) end. done. }
  unfold unclaimed. rewrite Hk. apply subset_size. split; [set_solver|]. intros Hs.
  specialize (Hs _ (proj2 (elem_of_difference _ _ _) (conj Hp Hn))). set_solver.
Qed.

Lemma failed_claim_stops s owner e t db log s' : oc_result (run (after_claim s owner (Err e)) t db log) ≠ Ok (inl s').
Proof.
  destruct e as [code| | | | | | | | | |]; try done. simpl. case_bool_decide; [|done].
  rewrite run_bind. cbn zeta. by destruct (oc_result (run (claim_lost _ _ _) _ _ _)).
Qed.

(** An iteration that goes round again has claimed an operation. *)
Lemma iteration_decreases s t db log s' :
  oc_result (run (iteration s) t db log) = Ok (inl s') →
  unclaimed (oc_db (run (iteration s) t db log)) < unclaimed db.
Proof.
  unfold iteration, now, trigger. cbn [Runs.run]. rewrite run_try_bind. cbn zeta. rewrite run_bind. cbn [Runs.run].
  cbn zeta. cbn [oc_result oc_tick oc_db oc_log].
  destruct (en_clock env (S t)) as [now|e]; cbn [oc_result oc_tick oc_db oc_log]; [|by intros ?%failed_claim_stops].
  cbn [run_call].
  destruct (claim_next_operation _ _ _ _ _ _ _ _ _) as [[[s1 a] db1]|e] eqn:E; cbn [oc_result oc_tick oc_db oc_log].
  - intros _. eapply Nat.le_lt_trans; [apply unclaimed_mono, run_keys|].
    eapply Nat.lt_le_trans; [by eapply claim_decreases|]. apply unclaimed_mono, Hkeep.
  - by intros ?%failed_claim_stops.
Qed.

Lemma loop_by_fuel fuel s t db log :
  unclaimed db < fuel → while_loop s t db log (run (apply_loop svc st fuel c s) t db log).
Proof.
  revert s t db log. induction fuel as [|fuel IH]; intros s t db log Hf; [lia|].
  destruct (decide (plan_length ≤ as_next_operation_index s)) as [Hs|Hs].
  - cbn [apply_loop]. rewrite (proj2 (Nat.leb_le _ _) Hs). by apply while_exit.
  - rewrite run_apply_loop by lia. cbn zeta.
    destruct (oc_result (run (iteration s) t db log)) as [[s'|res]|e] eqn:E.
    + eapply while_again; [lia|done|]. apply IH. apply iteration_decreases in E. lia.
    + by apply while_return; [lia|].
    + by apply while_raise; [lia|].
Qed.

(** C9: The loop of [_apply] ends: whatever the clock, the authority and the remote answer, and
    whatever other writers do between two calls short of removing attempt rows, the fuel that
    [_apply] gives the loop, one more than the operations of the plan, is enough: the run of
    [apply_loop] is the outcome, the only one, of the loop without fuel. *)
Theorem apply_loop_terminates s t db log :
  ∃ o, run (apply_loop svc st (S plan_length) c s) t db log = o ∧ while_loop s t db log o
       ∧ ∀ o', while_loop s t db log o' → o' = o.
Proof.
  eexists. split; [done|]. assert (while_loop s t db log (run (apply_loop svc st (S plan_length) c s) t db log)) as W.
  { apply loop_by_fuel. unfold unclaimed.
    assert (size (plan_keys ∖ attempt_keys db) ≤ size plan_keys) by (apply subseteq_size; set_solver).
    pose proof plan_keys_size. lia. }
  split; [exact W|]. intros o' W'. by eapply while_loop_unique.
Qed.
End loop.
