(* ===== verification/Fixtures.v ===== *)
(** * Fixtures: a small concrete application

    A concrete instance of the library primitives and a three-operation application, on
    which the theorems of the development are applied.  The checksum below stands for
    SHA-256 where only the shape of a digest matters. *)
From S2P Require Import Prelude PyValue Strings PyOps Canonical WriteOperations Identity Receipts.
From S2P Require Import ExecutionState Clock Context ExecutionStore GenericStore ManagedStore ManagedSpec.
From S2P Require Import ManagedFacts Refinement Progress WriteContract GithubWrite Applier Interleaving.
From S2P Require Import Deployment Runs.
From Stdlib Require Import Ascii SpecFloat.

Module Fixtures.

Fixpoint checksum (acc : N) (s : string) : N :=
  match s with
  | "" => acc
  | String c s' => checksum (N.modulo (acc * 31 + N_of_ascii c) 65521) s'
  end.

Fixpoint zeros (n : nat) : string := match n with 0 => "" | S n => String "0" (zeros n) end.

Definition toy_sha (s : string) : string := zeros 60 +:+ hex4 (checksum 7 s).

Definition lower_char (c : ascii) : ascii :=
  if in_range 65 90 c then ascii_of_N (N_of_ascii c + 32) else c.
Fixpoint lower (s : string) : string :=
  match s with "" => "" | String c s' => String (lower_char c) (lower s') end.

(** The clock prints the two times below, to the second in the first case. *)
Definition issued_text : string := "2024-01-01T00:00:00Z".
Definition expires_text : string := "2024-01-02T00:00:00Z".
Definition time_of (s : string) : Z := default 0%Z (parse_time s).

#[export] Instance lib : PyLib := {
  nfc := id;
  float_repr := λ _, "0.5";
  sha256_hex := toy_sha;
  py_lower := lower;
  py_casefold := lower;
  fromisoformat := λ s, (λ t, (t, Some 0%Z)) <$> parse_time (py_replace "+00:00" "Z" s);
  utc_isoformat := λ t,
    if (t <? time_of expires_text)%Z then "2024-01-01T00:00:" +:+ (if (t mod 2 =? 0)%Z then "00" else "01") +:+ "+00:00"
    else py_replace "Z" "+00:00" expires_text;
}.

Definition binding (opset : string) : logical_values :=
  LogicalValues "w" "o/r" "preview-1" 1 "sealed" "plan" opset "remote" "audit-1" "audit-d" "approval-1"
    "approval-d" "subject" "driver" "authority" ["issues:write"].

Definition authority : ApplicationAuthority :=
  Authority "application-authority-1" (binding "ops") "binding-1" "instance-1" "issuer-1" "principal-1"
    ["issues:write"] "2024-01-01T00:00:00Z" "2024-01-02T00:00:00Z".

Definition sourced (v : pyval) : pyval :=
  dict_of [("value", v); ("declared_source", VStr "request"); ("provenance_status", VStr "declared_unverified")].

Definition work_item_of (ref : string) : pyval :=
  dict_of [("client_ref", VStr ref); ("role", sourced (VStr "task")); ("title", sourced (VStr "Title"));
           ("context_problem", sourced (VStr "c")); ("outcome", sourced (VStr "o"));
           ("scope", sourced (VStr "s")); ("non_goals", sourced (VList []));
           ("acceptance_criteria", sourced (VList [])); ("verification", sourced (VStr "v"));
           ("required_capabilities", sourced (VList [])); ("write_metadata", sourced VNone)].

Definition create_op (ref : string) : operation := Operation "create_issue" [ref] [].
Definition operations : list operation :=
  [create_op "a"; create_op "b"; Operation "add_sub_issue" ["b"; "a"] []].

Definition preview : pyval :=
  dict_of [("canonical_version", VStr "1"); ("operation_set_digest", VStr "ops");
           ("operation_intents", VList (map operation_dict operations));
           ("semantic_payload", dict_of [("work_items", VList [work_item_of "a"; work_item_of "b"])]);
           ("items", VList [dict_of [("client_ref", VStr "a"); ("item_id", VStr "i1")];
                            dict_of [("client_ref", VStr "b"); ("item_id", VStr "i2")]])].

Definition service : RuntimeService := Service 7 true.
Definition store : SQLiteExecutionStore := Store 3 "w" (Some service).
Definition cap : _ApplierCapability := Capability 7 3.
Definition valid (_ : nat) : authority_answer := authority_ok.



Definition empty_db : Db := MkDb ∅ ∅ ∅ ∅.

Definition context_result : result Context := create_execution_context service 1 authority preview.
Example context_ok : is_ok context_result = true.
Proof. vm_compute. reflexivity. Qed.

(** ** A network on which every request succeeds *)
Definition json_response (body : pyval) : WriteTransportResponse :=
  Response 201 [("Content-Type", "application/json; charset=utf-8")] (Ok (Some body)).

Definition issue_body (t : nat) : pyval :=
  dict_of [("id", VInt (100 + Z.of_nat t)); ("number", VInt (1 + Z.of_nat t)); ("node_id", VStr "N")].

Definition remote_ok (t : nat) : remote := Remote (Ok (VStr "token")) (λ _ _, Ok (json_response (issue_body t))).

(** The clock shows one second per tick. *)
Definition digit (n : nat) : string := ch (ascii_of_nat (48 + n)).
Definition two_digits (n : nat) : string := digit (n / 10) +:+ digit (n mod 10).
Definition clock_at (t : nat) : string := "2024-01-01T00:" +:+ two_digits (t / 60) +:+ ":" +:+ two_digits (t mod 60) +:+ "Z".

Definition owner_hex : string := zeros 32.

Definition env : environment :=
  Environment (λ _ _, context_result) (λ t, Ok (clock_at t)) (λ _, owner_hex) (λ _, authority_ok)
    (λ _ _, Ok tt) (λ _ _, None) (λ t _ _, remote_ok t) (λ _ _, authority_ok) (λ _ db, db).

Definition full_run : outcome ApplyResult := run env store cap (_apply service store "application-authority-1") 0 empty_db [].

(** ** The context, its plan and a history by direct calls *)
Definition ctx : Context := force context_result context_ok.

Lemma ctx_eq : create_execution_context service 1 authority preview = Ok ctx.
Proof. apply force_Ok. Qed.

Lemma ctx_wf : context_wf ctx.
Proof. exact (create_execution_context_wf _ _ _ _ _ ctx_eq). Qed.

Definition pl : plan := plan_of ctx.
Definition app : string := ctx_application_id ctx.

Lemma ctx_serves : serves pl ctx.
Proof. split; [reflexivity|apply ctx_wf]. Qed.

Lemma context_serves c : context_result = Ok c → serves pl c.
Proof.
  intros E. assert (ctx = c) as <-; [|exact ctx_serves]. apply Ok_inj. etrans; [|exact E].
  symmetry. exact (force_Ok _ context_ok).
Qed.

Lemma pl_distinct : distinct_ids pl.
Proof. apply distinct_ids_check. vm_compute. reflexivity. Qed.

Lemma no_rows_empty : no_rows store pl empty_db.
Proof. repeat split; apply lookup_empty. Qed.

Definition owner : string := "execution-owner-" +:+ owner_hex.

Definition init_result : result ApplicationExecutionState :=
  initial_state ctx service authority_ok (clock_at 0).
Lemma init_ok : is_ok init_result = true.
Proof. vm_compute. reflexivity. Qed.
Definition init : ApplicationExecutionState := force init_result init_ok.

Definition create_result : result (ApplicationExecutionState * Db) :=
  create_execution_if_absent store cap valid ctx init empty_db.
Lemma create_ok : is_ok create_result = true.
Proof. vm_compute. reflexivity. Qed.
Definition created : ApplicationExecutionState * Db := force create_result create_ok.

Definition claim_result : result ((ApplicationExecutionState * OperationAttemptState) * Db) :=
  claim_next_operation store cap valid app (as_state_digest (fst created)) ctx owner (clock_at 1) (snd created).
Lemma claim_ok : is_ok claim_result = true.
Proof. vm_compute. reflexivity. Qed.
Definition claimed : (ApplicationExecutionState * OperationAttemptState) * Db := force claim_result claim_ok.

Definition settle_result (t : string) : result (ApplicationExecutionState * Db) :=
  let s := fst (fst claimed) in
  let a := snd (fst claimed) in
  settle_operation store cap valid app (as_state_digest s) (at_operation_identity a) (at_attempt_digest a)
    owner ctx Failed "github_write_rejected" t (snd claimed).
Lemma settle_ok : is_ok (settle_result (clock_at 2)) = true.
Proof. vm_compute. reflexivity. Qed.
Definition settled : ApplicationExecutionState * Db := force (settle_result (clock_at 2)) settle_ok.

(** A settlement stamped on the day before the claim *)
Definition early : string := "2023-12-31T00:00:00Z".
Lemma settle_early_ok : is_ok (settle_result early) = true.
Proof. vm_compute. reflexivity. Qed.
Definition settled_early : ApplicationExecutionState * Db := force (settle_result early) settle_early_ok.

(** ** The run of the whole application *)
Definition final_state : result ApplicationExecutionState :=
  _load_execution_state store app (oc_db full_run).

Definition final_check (r : result ApplyResult) (s : result ApplicationExecutionState) (log : list attempt_key) : bool :=
  match r, s with
  | Ok r, Ok s => bool_decide (res_state r = Applied) && bool_decide (as_state s = Applied) && is_managed s
  | _, _ => false
  end && (length log =? 3).
Lemma full_run_facts : final_check (oc_result full_run) final_state (oc_log full_run) = true.
Proof. vm_compute. reflexivity. Qed.

(** The times of the history *)
Definition started_timely (r : option row) : bool :=
  match r with
  | Some r => match load execution_state_from_doc r with
              | Ok s => match parse_time (as_started_at s) with Some _ => true | None => false end
              | Err _ => false
              end
  | None => false
  end.
Lemma created_timely : started_timely (application_execution (snd created) !! app_key store app) = true.
Proof. vm_compute. reflexivity. Qed.

Definition before (t : string) (s : ApplicationExecutionState) : bool :=
  match parse_time t, parse_time (as_started_at s) with Some t, Some t0 => (t <? t0)%Z | _, _ => false end.
Lemma early_before : before early (fst settled_early) = true.
Proof. vm_compute. reflexivity. Qed.

(** ** A generic store of the same workspace, used by another application *)
Definition plain_service : RuntimeService := Service 8 false.
Definition plain_store : SQLiteExecutionStore := Store 4 "w" (Some plain_service).

Definition other_binding : logical_values :=
  LogicalValues "w" "o/r" "preview-2" 1 "sealed" "plan" "ops" "remote" "audit-1" "audit-d" "approval-1"
    "approval-d" "subject" "driver" "authority" ["issues:write"].
Definition other_authority : ApplicationAuthority :=
  Authority "application-authority-2" other_binding "binding-1" "instance-1" "issuer-1" "principal-1"
    ["issues:write"] "2024-01-01T00:00:00Z" "2024-01-02T00:00:00Z".
Definition other_result : result Context := create_execution_context plain_service 2 other_authority preview.
Lemma other_ok : is_ok other_result = true.
Proof. vm_compute. reflexivity. Qed.
Definition other_ctx : Context := force other_result other_ok.
Definition contexts (_ : nat) : Context := other_ctx.

Definition payload : pyval := dict_of [("issue_number", VInt 5)].
Definition other_remote : result pyval :=
  let! d := digest payload in
  Ok (dict_of [("result_kind", VStr "github.create_issue.v1"); ("result_identity", VStr "r");
               ("result_digest", VStr d); ("result_payload", payload)]).
Definition receipt_result : result OperationReceipt :=
  let! remote := other_remote in
  new_receipt plain_service authority_ok authority_ok other_ctx 0 remote (clock_at 0) (clock_at 1).
Lemma receipt_ok : is_ok receipt_result = true.
Proof. vm_compute. reflexivity. Qed.
Definition other_receipt : OperationReceipt := force receipt_result receipt_ok.

Definition generic_result : result Db :=
  run_generic plain_store contexts authority_ok (gen_record_operation_receipt other_receipt) (snd created).
Lemma generic_ok : is_ok generic_result = true.
Proof. vm_compute. reflexivity. Qed.

Definition recorded_result (db : Db) : result (OperationReceipt * Db) :=
  record_operation_receipt plain_store contexts authority_ok other_receipt db.
Lemma recorded_ok : is_ok (recorded_result empty_db) = true.
Proof. vm_compute. reflexivity. Qed.
Definition recorded : OperationReceipt * Db := force (recorded_result empty_db) recorded_ok.
Lemma recorded_again_ok : is_ok (recorded_result (snd recorded)) = true.
Proof. vm_compute. reflexivity. Qed.
Definition recorded_again : OperationReceipt * Db := force (recorded_result (snd recorded)) recorded_again_ok.

(** ** The history's steps *)
Lemma recorded_eq :
  recorded_result empty_db = Ok (fst recorded, snd recorded).
Proof. rewrite <- surjective_pairing. exact (force_Ok _ recorded_ok). Qed.
Lemma recorded_again_eq :
  recorded_result (snd recorded) = Ok (fst recorded_again, snd recorded_again).
Proof. rewrite <- surjective_pairing. exact (force_Ok _ recorded_again_ok). Qed.
Lemma generic_eq : generic_result = Ok (force generic_result generic_ok).
Proof. exact (force_Ok _ generic_ok). Qed.

#[local] Opaque ctx init created claimed settled settled_early context_result initial_state
  create_execution_if_absent claim_next_operation settle_operation.

Lemma create_eq : create_result = Ok (fst created, snd created).
Proof. rewrite <- surjective_pairing. exact (force_Ok _ create_ok). Qed.
Lemma claim_eq : claim_result = Ok ((fst (fst claimed), snd (fst claimed)), snd claimed).
Proof. rewrite <- !surjective_pairing. exact (force_Ok _ claim_ok). Qed.
Lemma settle_eq : settle_result (clock_at 2) = Ok (fst settled, snd settled).
Proof. rewrite <- surjective_pairing. exact (force_Ok _ settle_ok). Qed.
Lemma settle_early_eq : settle_result early = Ok (fst settled_early, snd settled_early).
Proof. rewrite <- surjective_pairing. exact (force_Ok _ settle_early_ok). Qed.
Lemma init_eq : init_result = Ok init.
Proof. exact (force_Ok _ init_ok). Qed.


Lemma created_step : managed_step store pl empty_db (snd created).
Proof.
  exact (managed_create store pl empty_db (snd created) cap valid ctx service authority_ok (clock_at 0) init
           (fst created) ctx_serves init_eq create_eq).
Qed.

Lemma claimed_step : managed_step store pl (snd created) (snd claimed).
Proof.
  exact (managed_claim store pl (snd created) (snd claimed) cap valid ctx (as_state_digest (fst created)) owner
           (clock_at 1) (fst (fst claimed)) (snd (fst claimed)) ctx_serves claim_eq).
Qed.

Lemma settled_step : managed_step store pl (snd claimed) (snd settled).
Proof.
  exact (managed_settle store pl (snd claimed) (snd settled) cap valid ctx (as_state_digest (fst (fst claimed)))
           (at_operation_identity (snd (fst claimed))) (at_attempt_digest (snd (fst claimed))) owner Failed
           "github_write_rejected" (clock_at 2) (fst settled) ctx_serves settle_eq).
Qed.

Definition deploy (_ : nat) : SQLiteExecutionStore * plan := (store, pl).

#[local] Opaque run.

Lemma full_run_path :
  rtc (deployment_step deploy store pl) (System empty_db [] ∅)
    (System (oc_db full_run) (oc_log full_run) (<[0 := Process store cap (Ret (oc_result full_run))]> ∅)).
Proof.
  refine (apply_path env store cap deploy store pl _ _ service "application-authority-1" 0 empty_db eq_refl).
  - intros t aid c E. exact (context_serves c E).
  - intros t db. exact (conj (reflexivity _) (same_rows_refl _ _ db)).
Qed.
End Fixtures.
