(* ===== verification/PreviewFixtures.v ===== *)
(** * Fixtures: a preview and its authority chain

    A repository read, the previews sealed over it, the audit of the first one, its commit
    and its approval, computed by the operations of the development from one driver answer. *)
From S2P Require Import Prelude PyValue Strings PyOps Canonical Receipts FormalPreview ExecutionStore.
From S2P Require Import WriteOperations AuditRecords Evidence RemoteSnapshot Preflight Approvals.
From S2P Require Import PreviewValidation AuditBoundary PreviewStore ApprovalService PreviewFacts AuditTrail.
From S2P Require Import Fixtures.

Import Fixtures.

Module PreviewFixtures.

Definition trust : DriverTrustContext := TrustContext "driver-1" "https://api.example" "v1".
Definition pstore : SQLitePreviewStore := PStore "w" (Some trust) "backend-1".
Definition approvals : ApprovalService := MkApprovalService pstore "rules-1" "rules-digest".

(** ** The repository read *)
Definition scope : pyval := dict_of [("kind", VStr "open-issues")].
Definition issue : pyval :=
  dict_of [("issue_id", VStr "1"); ("item_type", VStr "issue"); ("title", VStr "An issue");
           ("updated_at", VStr "2024-01-01T00:00:00Z"); ("repository_identity", VStr "o/r")].
Definition material : pyval :=
  dict_of [("source_identity", VStr "driver-1"); ("repository_identity", VStr "o/r"); ("query_scope", scope);
           ("payload", dict_of [("issue_records", VList [issue]); ("relationship_records", VList [])])].
Definition answer_with (d : string) : DriverReadResponse :=
  ReadResponse (VStr "o/r") (VStr "o/r") (VStr "42") (VStr "user") (VStr "public")
    (dict_of [("read", VBool true)]) (dict_of [("issues", VBool true); ("relationships", VBool true)])
    scope (VBool true) (VBool true) (VList [issue]) (VList []) (VList [material]) (VStr "driver-1") (VStr d)
    VNone VNone VNone VNone.
Definition content_digest : result string :=
  digest (_remote_content_payload (answer_with "") (VStr "o/r") (VStr "driver-1")).
Lemma content_digest_ok : is_ok content_digest = true.
Proof. vm_compute. reflexivity. Qed.
Definition answer : DriverReadResponse := answer_with (force content_digest content_digest_ok).
Definition driver (_ _ : pyval) : read_reply := Replied answer.

Definition validation : result (list failure + ValidatedRemoteFacts) :=
  validate_driver_facts driver 1 (VStr "o/r") scope (VStr "driver-1") VNone VNone.
Definition facts_of (v : result (list failure + ValidatedRemoteFacts)) : result ValidatedRemoteFacts :=
  match v with Ok (inr f) => Ok f | Ok (inl _) => Err boundary | Err e => Err e end.
Lemma facts_of_Ok v f : facts_of v = Ok f → v = Ok (inr f).
Proof. destruct v as [[|]|]; simpl; congruence. Qed.
Lemma facts_ok : is_ok (facts_of validation) = true.
Proof. vm_compute. reflexivity. Qed.
Definition facts : ValidatedRemoteFacts := force (facts_of validation) facts_ok.

Definition binding_at (revision : Z) : result RuntimeEvidenceBindingResult :=
  snd (bind_validated_facts [1] facts (EvidenceBinding "w" "preview-1" revision) trust "remote-snapshot-v1").

(** ** A write-eligible preview of a revision *)
Definition relationship : pyval :=
  dict_of [("kind", VStr "planned_parent"); ("from_client_ref", VStr "b"); ("to_client_ref", VStr "a")].
Definition semantic : pyval :=
  dict_of [("work_items", VList [work_item_of "a"; work_item_of "b"]); ("planned_relationships", VList [relationship])].
Definition items : list pyval := the_list (get preview "items").
Definition intents : list pyval := map operation_dict operations.

Record sealed := Sealed {
  se_promotion : RuntimePromotion;
  se_plan : string;
  se_operations : string;
  se_evidence : pyval;
  se_canonical : pyval;
}.

Definition seal (revision : Z) : result sealed :=
  let! bound := binding_at revision in
  let p := br_promotion bound in
  let! authority := remote_authority trust in
  let! plan := digest semantic in
  let! payload := operation_set_digest_payload (VList intents) in
  let! opset := digest payload in
  let! remote := match pr_snapshot p with
                 | SnapshotV1 s => snapshot_to_dict (λ r, Ok (issue_to_dict r)) ri_issue_id s
                 | SnapshotV2 _ => Err boundary
                 end in
  let fields d :=
    dict_of
      [("workspace_identity", VStr "w"); ("request_id", VStr "request-1"); ("preview_id", VStr "preview-1");
       ("revision", VInt revision); ("preview_level", VStr WRITE_ELIGIBLE);
       ("provenance_status", VStr "declared_unverified"); ("repository_identity", VStr "o/r");
       ("remote_authority", VStr authority); ("semantic_payload", semantic); ("operation_intents", VList intents);
       ("plan_digest", VStr plan); ("operation_set_digest", VStr opset); ("remote_snapshot", remote);
       ("remote_snapshot_digest", VStr (pr_remote_snapshot_digest p)); ("items", VList items);
       ("evidence_ids", VList [VStr (ev_evidence_id (pr_evidence_record p))]); ("blockers", VList []);
       ("planner_observations", VList []); ("sealed_preview_digest", VStr d)] in
  let! d := digest (without_key "sealed_preview_digest" (fields "")) in
  let! canonical := normalize (fields d) in
  Ok (Sealed p plan opset (evidence_to_dict (pr_evidence_record p)) canonical).

Definition save (s : sealed) (revision : Z) (db : PreviewDb) : result PreviewDb :=
  _save_preview_revision_impl pstore "request-1" "preview-1" revision (se_plan s)
    (Some (pr_remote_snapshot_digest (se_promotion s))) (se_operations s) (Some "o/r") items (Some "w")
    (Some (se_canonical s)) None [se_evidence s] (Some (se_promotion s)) db.

Lemma seal_1_ok : is_ok (seal 1) = true.
Proof. vm_compute. reflexivity. Qed.
Lemma seal_2_ok : is_ok (seal 2) = true.
Proof. vm_compute. reflexivity. Qed.
Definition sealed_1 : sealed := force (seal 1) seal_1_ok.
Definition sealed_2 : sealed := force (seal 2) seal_2_ok.

Definition save_1_result : result PreviewDb := save sealed_1 1 empty_preview_db.

(** ** A formal audit of the first revision, committed *)
Definition pair_digest (s : sealed) : result (string * AuditRecord) :=
  let canonical := se_canonical s in
  let! context := compute_audit_context_digest (VStr "w") (VStr "preview-1") (VInt 1) (get canonical "sealed_preview_digest")
                    [se_evidence s] (VStr "rules-1") (VStr "rules-digest") (VStr WRITE_ELIGIBLE) in
  let evaluation := dict_of [("rule_id", VStr "rule-1"); ("outcome", VStr "Passed"); ("finding_refs", VList [])] in
  let record payload :=
    MkAudit "audit-1" "preview-1" 1 (se_plan s) (Some (pr_remote_snapshot_digest (se_promotion s))) "pending" PASSED
      (se_operations s) ACTIVE (get canonical "sealed_preview_digest") (VStr "w") (VStr WRITE_ELIGIBLE) (VStr payload)
      (VStr context) (VStr "rules-1") (VStr "rules-digest") [evaluation] []
      [VStr (ev_evidence_id (pr_evidence_record (se_promotion s)))] (VStr "2024-01-01T00:00:00Z") in
  let! payload := digest (_audit_projection (record "")) in
  let! a := audit_create (record payload) in
  Ok (payload, a).
Lemma audit_ok : is_ok (pair_digest sealed_1) = true.
Proof. vm_compute. reflexivity. Qed.
Definition audit : AuditRecord := snd (force (pair_digest sealed_1) audit_ok).

Definition authority_result : result AuditCommitAuthority :=
  _mint_audit_commit_authority 5 audit (se_canonical sealed_1) [se_evidence sealed_1] "backend-1".
Lemma authority_ok : is_ok authority_result = true.
Proof. vm_compute. reflexivity. Qed.
Definition commit_authority : AuditCommitAuthority := force authority_result authority_ok.

(** ** The history: the save, the commit, the approval and what follows them, each operation run
    on the result of the one before *)
Definition commit_on (db : PreviewDb) : result (AuditRecord * PreviewDb) :=
  _apply_audit_commit_atomic pstore [5] audit commit_authority db.
Definition commit_result : result (AuditRecord * PreviewDb) := and_then save_1_result commit_on.

Definition approval_text : pyval := VStr (APPROVE_WRITE +:+ " preview-1 1").
Definition approve_on (db : PreviewDb) : result (ApprovalRecord * PreviewDb) :=
  record_approval approvals (VStr "preview-1") (VInt 1) approval_text (VStr "a human") (Some 0%Z) db.
Definition approval_result : result (ApprovalRecord * PreviewDb) := and_then commit_result (λ c, approve_on (snd c)).
Definition store_on (c : AuditRecord * PreviewDb) : result PreviewDb :=
  and_then approval_result (λ a, store_record_approval pstore (fst a) (snd c)).
Definition stored_result : result PreviewDb := and_then commit_result store_on.

Definition save_2_result : result PreviewDb := and_then stored_result (save sealed_2 2).
Definition read_on (db : PreviewDb) : result AuditRecord := get_audit pstore "w" "audit-1" db.
Definition invalidate_on (db : PreviewDb) : result (AuditRecord * PreviewDb) :=
  transition_audit_status pstore "audit-1" INVALID db.
Definition read_audit_result : result AuditRecord := and_then stored_result read_on.
Definition invalidation_result : result (AuditRecord * PreviewDb) :=
  and_then stored_result invalidate_on.

Definition reads_check (a cur : AuditRecord) (ap : ApprovalRecord) (db : PreviewDb) : bool :=
  audit_typed a && is_ok (audit_check a) && bool_decide (ad_status cur = ACTIVE)
  && bool_decide (ad_preview_id cur = "preview-1") && bool_decide (ad_revision cur = 1%Z)
  && bool_decide (record_at "w" "preview" "preview-1" 2 db = None)
  && bool_decide (ap_preview_id ap = VStr "preview-1") && bool_decide (ap_revision ap = VInt 1).
Definition reads_of (a : AuditRecord) (cur : result AuditRecord) (ap : result (ApprovalRecord * PreviewDb))
    (db : result PreviewDb) : bool :=
  match cur, ap, db with
  | Ok cur, Ok ap, Ok db => reads_check a cur (fst ap) db
  | _, _, _ => false
  end.

(** The approval is not in the store before it is recorded. *)
Definition missing {A} (r : result A) : bool :=
  match r with Ok _ => false | Err e => bool_decide (e = ValueError "approval_not_found") end.
Definition absent_check (ap : ApprovalRecord) (db : PreviewDb) : bool :=
  missing (get_approval pstore "w" (the_str (ap_approval_id ap)) db) && is_str (ap_approval_id ap).
Definition absent_of (ap : result (ApprovalRecord * PreviewDb)) (c : result (AuditRecord * PreviewDb)) : bool :=
  match ap, c with Ok ap, Ok c => absent_check (fst ap) (snd c) | _, _ => false end.

(** The whole history runs; it is evaluated once. *)
Lemma history_runs :
  is_ok save_2_result && is_ok invalidation_result
  && (reads_of audit read_audit_result approval_result stored_result && absent_of approval_result commit_result) = true.
Proof. vm_compute. reflexivity. Qed.

Lemma reads_of_ok a cur ap db :
  reads_of a cur ap db = true → is_ok cur = true ∧ is_ok ap = true ∧ is_ok db = true.
Proof. destruct cur, ap, db; simpl; first [discriminate|by repeat split]. Qed.
Lemma reads_of_force a cur ap db (C : is_ok cur = true) (A : is_ok ap = true) (D : is_ok db = true) :
  reads_of a cur ap db = true → reads_check a (force cur C) (fst (force ap A)) (force db D) = true.
Proof. destruct cur; [|discriminate C]. destruct ap; [|discriminate A]. destruct db; [|discriminate D]. exact id. Qed.
Lemma absent_of_force ap c (A : is_ok ap = true) (C : is_ok c = true) :
  absent_of ap c = true → absent_check (fst (force ap A)) (snd (force c C)) = true.
Proof. destruct ap; [|discriminate A]. destruct c; [|discriminate C]. exact id. Qed.
Lemma save_step (p : sealed) rev db db' : save p rev db = Ok db' → store_step pstore db db'.
Proof. apply step_save. Qed.
Lemma commit_on_def db : commit_on db = _apply_audit_commit_atomic pstore [5] audit commit_authority db.
Proof. reflexivity. Qed.
Lemma store_on_def c : store_on c = and_then approval_result (λ a, store_record_approval pstore (fst a) (snd c)).
Proof. reflexivity. Qed.
Lemma read_on_def db : read_on db = get_audit pstore "w" "audit-1" db.
Proof. reflexivity. Qed.
Lemma invalidate_on_def db : invalidate_on db = transition_audit_status pstore "audit-1" INVALID db.
Proof. reflexivity. Qed.
#[local] Opaque and_then is_ok force read_on invalidate_on save commit_on approve_on store_on _save_preview_revision_impl _apply_audit_commit_atomic
  record_approval transition_audit_status get_audit store_record_approval.
Definition history_facts := and3 (is_ok save_2_result) (is_ok invalidation_result) _ history_runs.
Lemma save_2_ok : is_ok save_2_result = true.
Proof. exact (proj1 history_facts). Qed.
Lemma invalidation_ok : is_ok invalidation_result = true.
Proof. exact (proj1 (proj2 history_facts)). Qed.
Definition reads_hold := andb_prop (reads_of audit read_audit_result approval_result stored_result) _ (proj2 (proj2 history_facts)).
Definition reads_facts := reads_of_ok audit read_audit_result approval_result stored_result (proj1 reads_hold).
Lemma read_audit_ok : is_ok read_audit_result = true.
Proof. exact (proj1 reads_facts). Qed.
Lemma approval_ok : is_ok approval_result = true.
Proof. exact (proj1 (proj2 reads_facts)). Qed.
Lemma stored_ok : is_ok stored_result = true.
Proof. exact (proj2 (proj2 reads_facts)). Qed.
Lemma commit_ok : is_ok commit_result = true.
Proof. exact (is_ok_bind commit_result store_on stored_ok). Qed.
Lemma save_1_ok : is_ok save_1_result = true.
Proof. exact (is_ok_bind save_1_result commit_on commit_ok). Qed.

Definition saved : PreviewDb := force save_1_result save_1_ok.
Definition committed : AuditRecord * PreviewDb := force commit_result commit_ok.
Definition approved : ApprovalRecord * PreviewDb := force approval_result approval_ok.
Definition stored : PreviewDb := force stored_result stored_ok.
Definition saved_2 : PreviewDb := force save_2_result save_2_ok.
Definition current : AuditRecord := force read_audit_result read_audit_ok.
Definition invalidated : AuditRecord * PreviewDb := force invalidation_result invalidation_ok.

(** *** What the later examples read *)
Lemma reads_check_true a cur ap db :
  reads_check a cur ap db = true →
  audit_object a ∧ ad_status cur = ACTIVE ∧ ad_preview_id cur = "preview-1" ∧ ad_revision cur = 1%Z
  ∧ record_at "w" "preview" "preview-1" 2 db = None
  ∧ ap_preview_id ap = VStr "preview-1" ∧ ap_revision ap = VInt 1.
Proof.
  unfold reads_check. rewrite !andb_true_iff, !bool_decide_eq_true. intros [[[[[[[T C] A] P] R] N] AP] AR].
  split; [|by repeat split]. split; [done|]. destruct (audit_check a) as [a'|] eqn:K; [|discriminate C].
  by rewrite (audit_check_id _ _ K).
Qed.
Lemma reads_as_expected : reads_check audit current (fst approved) stored = true.
Proof.
  exact (reads_of_force audit read_audit_result approval_result stored_result read_audit_ok approval_ok stored_ok
           (proj1 reads_hold)).
Qed.

Definition evidence_result : result EvidenceRecord := evidence_from_dict (se_evidence sealed_1).
Definition declared_result : result EvidenceRecord :=
  evidence_create "w" "preview-1" 1 "note" "declared" (Some USER_ASSERTED) "request" (VStr "a claim") VNone "user" VNone
    VNone "evidence-v1".
Lemma evidence_ok : is_ok evidence_result = true.
Proof. vm_compute. reflexivity. Qed.
Lemma declared_ok : is_ok declared_result = true.
Proof. vm_compute. reflexivity. Qed.

(** ** The history *)
Lemma facts_eq : validation = Ok (inr facts).
Proof. exact (facts_of_Ok validation facts (force_Ok (facts_of validation) facts_ok)). Qed.
Lemma approval_absent : absent_check (fst approved) (snd committed) = true.
Proof. exact (absent_of_force approval_result commit_result approval_ok commit_ok (proj2 reads_hold)). Qed.
Lemma save_1_eq : save sealed_1 1 empty_preview_db = Ok saved.
Proof. exact (force_Ok save_1_result save_1_ok). Qed.
Lemma commit_result_eq : commit_result = Ok committed.
Proof. exact (force_Ok commit_result commit_ok). Qed.
Lemma commit_eq : _apply_audit_commit_atomic pstore [5] audit commit_authority saved = Ok (fst committed, snd committed).
Proof.
  rewrite <- surjective_pairing, <- commit_on_def.
  exact (bind_next save_1_result commit_on saved committed commit_result_eq save_1_eq).
Qed.
Lemma approval_result_eq : approval_result = Ok approved.
Proof. exact (force_Ok approval_result approval_ok). Qed.
Lemma approval_eq : approve_on (snd committed) = Ok (fst approved, snd approved).
Proof.
  rewrite <- surjective_pairing.
  exact (bind_next commit_result (λ c, approve_on (snd c)) committed approved approval_result_eq commit_result_eq).
Qed.
Lemma stored_result_eq : stored_result = Ok stored.
Proof. exact (force_Ok stored_result stored_ok). Qed.
Lemma stored_eq : store_record_approval pstore (fst approved) (snd committed) = Ok stored.
Proof.
  pose proof (bind_next commit_result store_on committed stored stored_result_eq commit_result_eq) as E.
  rewrite store_on_def in E.
  exact (bind_next approval_result (λ a, store_record_approval pstore (fst a) (snd committed)) approved stored E
           approval_result_eq).
Qed.
Lemma save_2_eq : save sealed_2 2 stored = Ok saved_2.
Proof. exact (bind_next stored_result (save sealed_2 2) stored saved_2 (force_Ok save_2_result save_2_ok) stored_result_eq). Qed.
Lemma read_audit_eq : get_audit pstore "w" "audit-1" stored = Ok current.
Proof.
  rewrite <- read_on_def.
  exact (bind_next stored_result read_on stored current (force_Ok read_audit_result read_audit_ok) stored_result_eq).
Qed.
Lemma invalidation_eq : transition_audit_status pstore "audit-1" INVALID stored = Ok (fst invalidated, snd invalidated).
Proof.
  rewrite <- surjective_pairing, <- invalidate_on_def.
  exact (bind_next stored_result invalidate_on stored invalidated (force_Ok invalidation_result invalidation_ok)
           stored_result_eq).
Qed.

#[local] Opaque sealed_1 sealed_2 saved audit commit_authority committed approved stored saved_2 current invalidated facts
  _save_preview_revision_impl _apply_audit_commit_atomic record_approval transition_audit_status get_audit
  store_record_approval validate_driver_facts.

Lemma audit_is_object : audit_object audit.
Proof. exact (proj1 (reads_check_true audit current (fst approved) stored reads_as_expected)). Qed.
Lemma saved_reachable : reachable_store pstore saved.
Proof. apply rtc_once. exact (save_step sealed_1 1 empty_preview_db saved save_1_eq). Qed.
Lemma commit_step : store_step pstore saved (snd committed).
Proof.
  exact (step_commit pstore [5] audit commit_authority (fst committed) saved (snd committed) audit_is_object commit_eq).
Qed.
Lemma stored_step : store_step pstore (snd committed) stored.
Proof. exact (step_approval (H := lib) pstore (fst approved) (snd committed) stored stored_eq). Qed.
Lemma committed_reachable : reachable_store pstore (snd committed).
Proof. exact (rtc_r _ _ _ saved_reachable commit_step). Qed.
Lemma stored_reachable : reachable_store pstore stored.
Proof. exact (rtc_r _ _ _ committed_reachable stored_step). Qed.
Lemma second_save_step : store_step pstore stored saved_2.
Proof. exact (save_step sealed_2 2 stored saved_2 save_2_eq). Qed.
End PreviewFixtures.
