(* ===== verification/Witnesses.v ===== *)
(** * The theorems at a concrete application

    Each theorem with hypotheses is applied to the fixture application: its history of
    managed calls, or its whole run. *)
From S2P Require Import Prelude PyValue Strings Canonical WriteOperations Identity Receipts ExecutionState.
From S2P Require Import Clock Context ExecutionStore GenericStore ManagedStore ManagedSpec ManagedFacts.
From S2P Require Import Refinement Status Progress WriteContract GithubWrite Applier Interleaving Deployment.
From S2P Require Import GenericFacts Runs Fixtures.

Import Fixtures.

#[local] Opaque ctx init created claimed settled settled_early context_result initial_state
  create_execution_if_absent claim_next_operation settle_operation run
  recorded recorded_again other_ctx other_receipt run_generic record_operation_receipt.

(** ** The phases of the fixture's history *)
Lemma history_represents :
  represents store pl (snd created) (Idle 0) ∧
  (∃ o, represents store pl (snd claimed) (Claimed 0 o)) ∧
  (∃ x, represents store pl (snd settled) (Settled 0 x)).
Proof.
  destruct (create_represents _ _ _ _ ctx_wf _ _ _ _ _ _ _ _ (no_rows_absent _ _ _ no_rows_empty) init_eq create_eq)
    as [(_ & Hr & _)|[Hp _]]; [|by destruct Hp].
  split; [exact Hr|].
  destruct (claim_represents _ _ _ _ ctx_wf pl_distinct _ _ _ _ _ _ _ _ Hr claim_eq) as (k & [= <-] & _ & Hr' & _).
  split; [by eexists|].
  destruct (settle_represents _ _ _ _ ctx_wf pl_distinct _ _ _ _ _ _ _ _ _ _ _ Hr' settle_eq)
    as (k & [= <-] & _ & _ & Hr'' & _).
  by eexists.
Qed.

Lemma whole_history : rtc (managed_step store pl) empty_db (snd settled).
Proof.
  eapply rtc_l; [exact created_step|]. eapply rtc_l; [exact claimed_step|]. apply rtc_once. exact settled_step.
Qed.

Lemma managed_store_refines_witness :
  no_rows store pl empty_db ∧ rtc (managed_step store pl) empty_db (snd settled) ∧
  ∃ p, represents store pl (snd settled) p ∧ rtc (phase_step (pl_count pl)) Absent p.
Proof.
  split; [exact no_rows_empty|]. split; [exact whole_history|].
  exact (managed_store_refines store pl pl_distinct empty_db (snd settled) no_rows_empty whole_history).
Defined.

Lemma final_phases_absorbing_witness : ∃ x, represents store pl (snd settled) (Settled 0 x).
Proof.
  destruct history_represents as (_ & _ & x & Hr). exists x.
  exact (final_phases_absorbing store pl pl_distinct _ _ _ Hr (or_introl (ex_intro _ 0 (ex_intro _ x eq_refl)))
           (rtc_refl _ _)).
Defined.

Lemma progress_monotone_witness :
  ∃ p, represents store pl (snd settled) p ∧ 0 ≤ applied_count (pl_count pl) p ≤ pl_count pl.
Proof.
  exact (progress_monotone store pl pl_distinct _ _ _ (no_rows_absent _ _ _ no_rows_empty) whole_history).
Defined.

Lemma managed_writes_are_transitions_witness :
  ∃ s s', found_execution store (snd created) (pl_app pl) s ∧ found_execution store (snd claimed) (pl_app pl) s' ∧
    validate_application_transition s s' = Ok tt.
Proof.
  destruct history_represents as (Hr & [o Hr'] & _).
  destruct (represents_found _ _ _ _ Hr) as (s & Hf & Hs); [discriminate|].
  destruct (represents_found _ _ _ _ Hr') as (s' & Hf' & Hs'); [discriminate|].
  exists s, s'. split; [exact Hf|]. split; [exact Hf'|].
  destruct Hs as (_ & _ & _ & _ & _ & Hst & _), Hs' as (_ & _ & _ & _ & _ & Hst' & _).
  refine (managed_writes_are_transitions store pl pl_distinct _ _ _ s s' Hr claimed_step Hf Hf' _ _); simpl in *; congruence.
Defined.

Lemma at_most_once_witness :
  NoDup (oc_log full_run) ∧ ∀ key, key ∈ oc_log full_run → key ∈ attempt_keys (oc_db full_run).
Proof.
  exact (at_most_once empty_db _ (rtc_subrel _ _ _ _ (deployment_system deploy store pl) full_run_path)).
Defined.

Lemma coherent_deploy : coherent deploy store pl.
Proof. intros i _ _. reflexivity. Qed.

Lemma deployment_sound_witness :
  length (oc_log full_run) = 3 ∧
  ∃ p, represents store pl (oc_db full_run) p ∧ rtc (phase_step (pl_count pl)) Absent p ∧ NoDup (oc_log full_run) ∧
    ∀ i id, op_id_at pl i id → op_key store (pl_app pl) id ∈ oc_log full_run →
      i < applied_count (pl_count pl) p ∨ (∃ o, p = Claimed i o) ∨ ∃ x, p = Settled i x.
Proof.
  split.
  - pose proof full_run_facts as E. unfold final_check in E. apply andb_true_iff in E as [_ E]. by apply Nat.eqb_eq.
  - exact (deployment_sound deploy store pl pl_distinct coherent_deploy empty_db _ no_rows_empty full_run_path).
Defined.

Lemma applied_complete_witness :
  ∃ s, found_execution store (oc_db full_run) (pl_app pl) s ∧ complete_rows store pl (oc_db full_run) s.
Proof.
  pose proof full_run_facts as E. unfold final_check in E.
  destruct (oc_result full_run) as [res|e]; [|discriminate E].
  destruct final_state as [s|e] eqn:Hs; [|discriminate E].
  apply andb_true_iff in E as [E _]. apply andb_true_iff in E as [E Hm]. apply andb_true_iff in E as [_ Ha].
  apply bool_decide_eq_true in Ha.
  assert (found_execution store (oc_db full_run) (pl_app pl) s) as Hf by exact (load_found _ _ _ _ Hs Hm).
  exists s. split; [exact Hf|].
  exact (applied_complete deploy store pl pl_distinct coherent_deploy empty_db _ s no_rows_empty full_run_path Hf Ha).
Defined.

Lemma created_on_time : on_time_step store pl empty_db (snd created).
Proof.
  split; [exact created_step|]. split.
  - intros s' _ (r & Hrow & Hload & _). pose proof created_timely as E.
    change (pl_app pl) with app in Hrow. rewrite Hrow in E. unfold started_timely in E. rewrite Hload in E.
    by destruct (parse_time _); [eexists|].
  - intros s s' (r & Hrow & _). simpl in Hrow. by rewrite lookup_empty in Hrow.
Qed.

Lemma claimed_on_time : on_time_step store pl (snd created) (snd claimed).
Proof.
  destruct history_represents as (Hr & _). pose proof Hr as (_ & He & _).
  split; [exact claimed_step|]. split.
  - intros s' Hrow. destruct He as (s & He & _). congruence.
  - intros s s' Hf _ Hst. destruct (found_execution_for _ _ _ _ _ He Hf) as (_ & _ & _ & _ & _ & _ & Hs & _).
    simpl in Hs. congruence.
Qed.

Lemma on_time_rows_pass_status_witness :
  ∃ s, found_execution store (snd claimed) (pl_app pl) s ∧ as_state s = Applying ∧
    _validate_execution_state_invariants s (pl_count pl) = Ok tt.
Proof.
  destruct history_represents as (_ & [o Hr] & _).
  destruct (represents_found _ _ _ _ Hr) as (s & Hf & Hs); [discriminate|].
  exists s. split; [exact Hf|]. split; [apply Hs|].
  exact (on_time_rows_pass_status store pl pl_distinct empty_db (snd claimed) s no_rows_empty
           (rtc_l _ _ _ _ created_on_time (rtc_once _ _ claimed_on_time)) Hf).
Defined.

Lemma settle_backdated_breaks_status_witness :
  application_execution (snd settled_early) !! app_key store (pl_app pl)
    = Some (Doc (execution_state_doc (fst settled_early))) ∧
  _validate_execution_state_invariants (fst settled_early) 3 = Err (ValueError "state_integrity_invalid").
Proof.
  pose proof early_before as E. unfold before in E.
  destruct (parse_time early) as [t|] eqn:Ht; [|discriminate E].
  destruct (parse_time (as_started_at (fst settled_early))) as [t0|] eqn:Ht0; [|discriminate E].
  apply Z.ltb_lt in E.
  exact (settle_backdated_breaks_status store pl cap valid ctx _ _ _ _ _ _ _ _ _ _ t t0 3 ctx_wf eq_refl
           settle_early_eq Ht Ht0 E).
Defined.

Lemma generic_calls_preserve_managed_witness :
  represents store pl (force generic_result generic_ok) (Idle 0) ∧ orchestrated plain_store = false.
Proof.
  destruct history_represents as (Hr & _).
  assert (Idle 0 ≠ Absent) as Hp by discriminate.
  exact (generic_calls_preserve_managed (H := lib) store plain_store contexts pl (Idle 0) authority_ok
           (gen_record_operation_receipt other_receipt) (snd created) (force generic_result generic_ok) Hr Hp generic_eq).
Defined.

Lemma recorded_receipt_stays_witness :
  snd recorded_again = snd recorded ∧
  operation_receipt_doc (fst recorded_again) = operation_receipt_doc (fst recorded).
Proof.
  exact (recorded_receipt_stays (H := lib) plain_store contexts authority_ok authority_ok other_receipt other_receipt
           (fst recorded) (fst recorded_again) empty_db (snd recorded) (snd recorded_again) recorded_eq eq_refl eq_refl
           recorded_again_eq).
Defined.
