(* ===== verification/DriverWitnesses.v ===== *)
(** * The driver, the loop and the rows at concrete values *)
From S2P Require Import Prelude PyValue Strings PyOps Canonical WriteOperations Identity Receipts.
From S2P Require Import ExecutionState Clock Context ExecutionStore GenericStore ManagedStore WriteContract.
From S2P Require Import GithubWrite Applier DriverFacts Interleaving Runs Termination Fixtures AuditRecords.
From S2P Require Import Approvals PreviewStore ApprovalService AuditTrail PreviewFixtures.

Import Fixtures PreviewFixtures.

Lemma decimal_id_roundtrip_witness :
  bounded_int (VInt 907) = Some 907%Z ∧ _DECIMAL_ID (pretty 907%Z) = true ∧ _safe_decimal_id (pretty 907%Z) = Ok 907%Z.
Proof. split; [reflexivity|]. exact (decimal_id_roundtrip (VInt 907) 907 eq_refl). Defined.

(** The command of the fixture's first operation, and its remote's answer *)
Definition create_command : command :=
  CreateIssue (CreateCommand "o/r" "a" "Title" "body"
                 ("application-request-" +:+ zeros 64)).
Definition observation_result : result WriteObservation := driver_dispatch "create_issue" create_command (remote_ok 1).
Lemma observation_ok : is_ok observation_result = true.
Proof. vm_compute. reflexivity. Qed.
Definition observation : WriteObservation := force observation_result observation_ok.
Lemma observation_eq : observation_result = Ok observation.
Proof. exact (force_Ok observation_result observation_ok). Qed.
Lemma observation_success : ob_kind observation = DEFINITIVE_SUCCESS.
Proof. vm_compute. reflexivity. Qed.
Lemma repository_valid : _validate_repository (command_repository create_command) = Ok "o/r".
Proof. vm_compute. reflexivity. Qed.

#[local] Opaque observation.

Lemma driver_success_trusted_witness :
  _trusted_success_result "o/r" "create_issue" observation =
  let! d := digest (ob_result_payload observation) in
  Ok (dict_of [("result_kind", VStr ("github." +:+ "create_issue" +:+ ".v1"));
               ("result_identity", ob_result_identity observation); ("result_digest", VStr d);
               ("result_payload", ob_result_payload observation)]).
Proof.
  exact (driver_success_trusted (H := lib) "create_issue" create_command (remote_ok 1) observation "o/r"
           repository_valid observation_eq observation_success).
Defined.

(** ** The loop, started on the fixture's new application *)
Lemma env_keeps t db : attempt_keys db ⊆ attempt_keys (en_interfere env t db).
Proof. reflexivity. Qed.

#[local] Opaque ctx created run apply_loop.
Lemma apply_loop_terminates_witness :
  ∃ o, run env store cap (apply_loop service store (S (length (_expected_operations ctx))) ctx (fst created)) 5
         (snd created) [] = o
       ∧ while_loop env store cap service ctx (fst created) 5 (snd created) [] o
       ∧ ∀ o', while_loop env store cap service ctx (fst created) 5 (snd created) [] o' → o' = o.
Proof.
  exact (apply_loop_terminates (H := lib) env store cap service ctx env_keeps (fst created) 5 (snd created) []).
Defined.

(** ** Rows *)
Definition operation_check (op : operation) : bool :=
  bool_decide (operation_kind op ≠ "") && bool_decide (Forall (λ s, s ≠ "") (client_refs op))
  && bool_decide (NoDup (client_refs op)) && bool_decide (Forall (λ s, s ≠ "") (depends_on op)).
Lemma operation_wf_dec op : operation_check op = true → operation_wf op.
Proof. unfold operation_check. rewrite !andb_true_iff, !bool_decide_eq_true. intros [[[? ?] ?] ?]. by repeat split. Qed.

#[local] Transparent created.
Definition new_state : ApplicationExecutionState := fst created.
Lemma pair_eq {A B} (a c : A) (b d : B) : (a, b) = (c, d) → a = c ∧ b = d.
Proof. by intros [= -> ->]. Qed.
Lemma made_identity i : identity_from_dict (identity_to_dict (_values i)) = Ok i → identity_wf i.
Proof. intros E. exact (proj1 (identity_from_dict_wf _ _ E)). Qed.
Lemma not_empty s : bool_decide (s ≠ "") = true → s ≠ "".
Proof. apply bool_decide_eq_true. Qed.

(** The conditions of each row are evaluated together. *)
Lemma new_state_facts :
  (execution_state_check new_state, identity_from_dict (identity_to_dict (_values (as_identity new_state))),
   (anchor_from_dict (anchor_to_dict (as_continuity_anchor new_state)), bool_decide (as_application_id new_state ≠ "")))
  = (Ok new_state, Ok (as_identity new_state), (Ok (as_continuity_anchor new_state), true)).
Proof. vm_compute. reflexivity. Qed.
Definition new_claim : OperationAttemptState := snd (fst claimed).
Lemma new_claim_facts :
  (attempt_check new_claim, identity_from_dict (identity_to_dict (_values (at_identity new_claim))),
   (provenance_from_dict (provenance_to_dict (at_authority_binding new_claim)), operation_check (at_operation new_claim),
    (bool_decide (at_application_id new_claim ≠ ""), bool_decide (at_driver_identity new_claim ≠ ""),
     bool_decide (at_remote_authority new_claim ≠ ""))))
  = (Ok new_claim, Ok (at_identity new_claim), (Ok (at_authority_binding new_claim), true, (true, true, true))).
Proof. vm_compute. reflexivity. Qed.
Definition new_receipt_of_other : OperationReceipt := fst recorded.
Lemma new_receipt_facts :
  (operation_receipt_check new_receipt_of_other,
   identity_from_dict (identity_to_dict (_values (or_identity new_receipt_of_other))),
   (provenance_from_dict (provenance_to_dict (or_authority_binding new_receipt_of_other)),
    operation_check (or_canonical_operation new_receipt_of_other),
    (json_value (get (remote_result_dict (or_remote_result new_receipt_of_other)) "result_payload"),
     (_remote_result (remote_result_dict (or_remote_result new_receipt_of_other)),
      bool_decide (or_application_id new_receipt_of_other ≠ "")))))
  = (Ok new_receipt_of_other, Ok (or_identity new_receipt_of_other),
     (Ok (or_authority_binding new_receipt_of_other), true,
      (true, (Ok (or_remote_result new_receipt_of_other), true)))).
Proof. vm_compute. reflexivity. Qed.

#[local] Opaque new_state new_claim new_receipt_of_other execution_state_check attempt_check operation_receipt_check
  identity_from_dict identity_to_dict anchor_from_dict provenance_from_dict _remote_result remote_result_dict get
  operation_check json_value.
Lemma new_state_wf : execution_state_wf new_state.
Proof.
  pose proof new_state_facts as E. apply pair_eq in E as [E E3]. apply pair_eq in E as [E1 E2]. apply pair_eq in E3 as [E3 E4].
  exact (conj E1 (conj (made_identity _ E2) (conj (anchor_from_dict_wf _ _ E3) (not_empty _ E4)))).
Qed.
Lemma new_claim_wf : attempt_wf new_claim.
Proof.
  pose proof new_claim_facts as E. apply pair_eq in E as [E E3]. apply pair_eq in E as [E1 E2].
  apply pair_eq in E3 as [E3 E5]. apply pair_eq in E3 as [E3 E4]. apply pair_eq in E5 as [E5 E7].
  apply pair_eq in E5 as [E5 E6].
  exact (conj E1 (conj (made_identity _ E2) (conj (provenance_from_dict_wf _ _ E3) (conj (operation_wf_dec _ E4)
           (conj (not_empty _ E5) (conj (not_empty _ E6) (not_empty _ E7))))))).
Qed.
Lemma new_receipt_of_other_wf : operation_receipt_wf new_receipt_of_other.
Proof.
  pose proof new_receipt_facts as E. apply pair_eq in E as [E E3]. apply pair_eq in E as [E1 E2].
  apply pair_eq in E3 as [E3 E5]. apply pair_eq in E3 as [E3 E4]. apply pair_eq in E5 as [E5 E7].
  apply pair_eq in E7 as [E7 E8].
  exact (conj E1 (conj (made_identity _ E2) (conj (provenance_from_dict_wf _ _ E3) (conj (operation_wf_dec _ E4)
           (conj (_remote_result_wf _ _ E5 E7) (not_empty _ E8)))))).
Qed.
#[local] Opaque new_state new_claim new_receipt_of_other execution_state_doc attempt_doc operation_receipt_doc.

Lemma execution_rows_roundtrip_witness :
  execution_state_from_doc (execution_state_doc new_state) = Ok (execution_state_historical new_state)
  ∧ attempt_from_doc (attempt_doc new_claim) = Ok (attempt_historical new_claim)
  ∧ operation_receipt_from_doc (operation_receipt_doc new_receipt_of_other)
    = Ok (operation_receipt_historical new_receipt_of_other).
Proof.
  exact (execution_rows_roundtrip (H := lib) new_state new_claim new_receipt_of_other new_state_wf new_claim_wf
           new_receipt_of_other_wf).
Defined.

Lemma missing_true {A} (r : result A) : missing r = true → r = Err (ValueError "approval_not_found").
Proof. destruct r; [done|]. by intros ->%bool_decide_eq_true. Qed.

#[local] Opaque saved audit commit_authority committed approved stored _apply_audit_commit_atomic
  store_record_approval get_approval record_audit get_audit.

Lemma stored_audit_read_back_witness :
  (∀ db', record_audit pstore audit saved = Ok db' → get_audit pstore "w" (ad_audit_id audit) db' = Ok audit)
  ∧ ∀ minted authority a' db', _apply_audit_commit_atomic pstore minted audit authority saved = Ok (a', db') →
      get_audit pstore "w" (ad_audit_id a') db' = Ok a'.
Proof. exact (stored_audit_read_back (H := lib) pstore audit saved saved_reachable audit_is_object). Defined.

Lemma stored_approval_read_back_witness :
  get_approval pstore "w" (the_str (ap_approval_id (fst approved))) stored = Ok (fst approved).
Proof.
  pose proof approval_absent as E. apply andb_true_iff in E as [E1 E2]. apply missing_true in E1.
  assert (ap_approval_id (fst approved) = VStr (the_str (ap_approval_id (fst approved)))) as Hid.
  { destruct (ap_approval_id (fst approved)); try discriminate E2. reflexivity. }
  exact (stored_approval_read_back (H := lib) pstore (fst approved) (the_str (ap_approval_id (fst approved)))
           (snd committed) stored Hid E1 stored_eq).
Defined.
