(* ===== verification/PreviewWitnesses.v ===== *)
(** * The preview theorems at a concrete chain

    The theorems on evidence, driver facts, previews, audits and approvals applied to the
    history of PreviewFixtures: a saved preview, its committed audit, its approval, a second
    revision. *)
From S2P Require Import Prelude PyValue Strings PyOps Canonical Evidence RemoteSnapshot FormalPreview.
From S2P Require Import WriteOperations Identity Receipts ExecutionState Context ExecutionStore Preflight.
From S2P Require Import AuditRecords Approvals PreviewValidation AuditBoundary PreviewStore ApprovalService.
From S2P Require Import PreviewFacts AuditTrail ApprovalFacts StaleAudits PreviewSound StatusSound Fixtures.
From S2P Require Import PreviewFixtures.

Import Fixtures PreviewFixtures.

#[local] Opaque sealed_1 sealed_2 saved audit commit_authority committed approved stored saved_2 current invalidated facts
  _save_preview_revision_impl _apply_audit_commit_atomic record_approval transition_audit_status get_audit
  store_record_approval validate_driver_facts evidence_from_dict declared_result evidence_create
  validate_approval_current list_active_audits.

Lemma current_facts :
  ad_status current = ACTIVE ∧ ad_preview_id current = "preview-1" ∧ ad_revision current = 1%Z
  ∧ record_at "w" "preview" "preview-1" 2 stored = None
  ∧ ap_preview_id (fst approved) = VStr "preview-1" ∧ ap_revision (fst approved) = VInt 1.
Proof. exact (proj2 (reads_check_true audit current (fst approved) stored reads_as_expected)). Qed.

Lemma evidence_from_dict_typed_witness :
  let r := force evidence_result evidence_ok in evidence_kind_ok r ∧ evidence_id_ok r.
Proof.
  exact (evidence_from_dict_typed (H := lib) (se_evidence sealed_1) (force evidence_result evidence_ok)
           (force_Ok evidence_result evidence_ok)).
Defined.

Lemma declared_evidence_unverified_witness :
  let r := force declared_result declared_ok in
  ev_source_kind r = "declared" ∧ ev_verification_status r = "declared_unverified" ∧ evidence_id_ok r.
Proof.
  exact (declared_evidence_unverified (H := lib) "w" "preview-1" 1 "note" "declared" (Some USER_ASSERTED) "request"
           (VStr "a claim") VNone "user" VNone VNone "evidence-v1" (force declared_result declared_ok)
           (force_Ok declared_result declared_ok)).
Defined.

Lemma validated_facts_sound_witness : facts_sound driver (VStr "o/r") scope (VStr "driver-1") facts.
Proof.
  exact (validated_facts_sound (H := lib) driver 1 (VStr "o/r") scope (VStr "driver-1") VNone VNone facts facts_eq).
Defined.

Lemma empty_record : record_at (ps_workspace pstore) "preview" "preview-1" 1 empty_preview_db = None.
Proof. reflexivity. Qed.

Lemma saved_preview_sound_witness :
  latest_revision "w" "preview" "preview-1" saved = Some 1%Z
  ∧ ∃ n doc l, record_at "w" "preview" "preview-1" 1 saved = Some (Doc doc)
      ∧ doc = jsonify (preview_document "request-1" "preview-1" 1 n)
      ∧ preview_sound "w" (Some (se_promotion sealed_1)) n l.
Proof.
  exact (saved_preview_sound (H := lib) pstore "request-1" "preview-1" 1 (se_plan sealed_1)
           (Some (pr_remote_snapshot_digest (se_promotion sealed_1))) (se_operations sealed_1) (Some "o/r") items
           (Some "w") (Some (se_canonical sealed_1)) None [se_evidence sealed_1] (Some (se_promotion sealed_1))
           empty_preview_db saved (rtc_refl _ _) save_1_eq empty_record).
Defined.

Lemma audit_lifecycle_witness :
  ∃ a', get_audit pstore "w" "audit-1" saved_2 = Ok a' ∧ ad_audit_id a' = "audit-1" ∧ audit_verify_digest a' = Ok true
        ∧ same_subject current a' ∧ status_rank (ad_status current) ≤ status_rank (ad_status a').
Proof.
  exact (audit_lifecycle (H := lib) pstore stored saved_2 "audit-1" current stored_reachable
           (rtc_once _ _ second_save_step) read_audit_eq).
Defined.

Lemma committed_audit_unique_witness :
  ∃ l, list_active_audits "w" (ad_preview_id audit) (ad_revision audit) (snd committed) = Ok l
       ∧ fst committed ∈ l
       ∧ py_eq (ad_audit_payload_digest (fst committed)) (ad_audit_payload_digest audit) = true
       ∧ (snd committed ≠ saved → fst committed = audit ∧ l = [audit]).
Proof.
  exact (committed_audit_unique (H := lib) pstore [5] audit commit_authority saved (fst committed) (snd committed)
           saved_reachable audit_is_object commit_eq).
Defined.

Lemma recorded_approval_sound_witness :
  ∃ audit_id a p z doc,
    ap_audit_id (fst approved) = VStr audit_id ∧ get_audit pstore "w" audit_id (snd committed) = Ok a
    ∧ ap_preview_id (fst approved) = VStr p ∧ py_eq (ap_revision (fst approved)) (VInt z) = true
    ∧ latest_revision "w" "preview" p (snd committed) = Some z
    ∧ record_at "w" "preview" p z (snd committed) = Some (Doc doc)
    ∧ approval_chain (fst approved) a (get doc "canonical_payload") "w".
Proof.
  exact (recorded_approval_sound (H := lib) pstore (fst approved) (snd committed) stored stored_eq).
Defined.

Lemma superseded_approval_dead_witness :
  validate_approval_current pstore (fst approved) saved_2 ≠ Ok true
  ∧ ∀ db3, store_record_approval pstore (fst approved) saved_2 ≠ Ok db3.
Proof.
  destruct current_facts as (_ & _ & _ & _ & Hp & Hr).
  exact (superseded_approval_dead (H := lib) pstore "request-1" "preview-1" 2 (se_plan sealed_2)
           (Some (pr_remote_snapshot_digest (se_promotion sealed_2))) (se_operations sealed_2) (Some "o/r") items
           (Some "w") (Some (se_canonical sealed_2)) None [se_evidence sealed_2] (Some (se_promotion sealed_2))
           stored saved_2 saved_2 (fst approved) 1 stored_reachable save_2_eq (rtc_refl _ _) Hp Hr eq_refl).
Defined.

Lemma record_approval_repeats_witness :
  record_approval approvals (VStr "preview-1") (VInt 1) approval_text (VStr "a human") (Some 1%Z) (snd approved)
  = Ok (fst approved, snd approved).
Proof.
  exact (record_approval_repeats (H := lib) approvals (VStr "preview-1") (VInt 1) approval_text (VStr "a human") 0 1
           (snd committed) (fst approved) (snd approved) approval_eq).
Defined.

Lemma new_revision_stales_and_erases_witness :
  ∃ a', get_audit pstore "w" "audit-1" saved_2 = Ok a' ∧ ad_status a' = STALE ∧ same_subject current a'
        ∧ formal_part a' = no_formal_part.
Proof.
  destruct current_facts as (Ha & Hp & Hr & Hn & _).
  refine (new_revision_stales_and_erases (H := lib) pstore "request-1" "preview-1" 2 (se_plan sealed_2)
           (Some (pr_remote_snapshot_digest (se_promotion sealed_2))) (se_operations sealed_2) (Some "o/r") items
           (Some "w") (Some (se_canonical sealed_2)) None [se_evidence sealed_2] (Some (se_promotion sealed_2))
           stored saved_2 "audit-1" current stored_reachable save_2_eq Hn read_audit_eq Ha Hp _).
  rewrite Hr. discriminate.
Defined.

Lemma transition_keeps_formal_part_witness :
  get_audit pstore "w" "audit-1" (snd invalidated) = Ok (fst invalidated) ∧ ad_status (fst invalidated) = INVALID
  ∧ formal_part (fst invalidated) = formal_part current.
Proof.
  exact (transition_keeps_formal_part (H := lib) pstore INVALID "audit-1" current (fst invalidated) stored
           (snd invalidated) stored_reachable read_audit_eq invalidation_eq).
Defined.

(** ** The operations of a status at a concrete identity

    The application of the approved first revision of PreviewFixtures: its identity, and the
    operations the status service loads for it. *)
Import Fixtures PreviewFixtures.

Module StatusFixtures.
Definition status_values (s : sealed) : logical_values :=
  let text k := the_str (get (se_canonical s) k) in
  LogicalValues "w" "o/r" "preview-1" 1 (text "sealed_preview_digest") (se_plan s) (se_operations s)
    (pr_remote_snapshot_digest (se_promotion s)) "audit-1" "audit-d" "approval-1" "approval-d" "subject" "driver-1"
    (text "remote_authority") ["issues:write"].
Definition identity_result : result LogicalApplicationIdentity := make_identity (values_dict (status_values sealed_1)).
Lemma identity_ok : is_ok identity_result = true.
Proof. vm_compute. reflexivity. Qed.
Definition approved_identity : LogicalApplicationIdentity := force identity_result identity_ok.

Definition loaded_result : result (list operation) := _load_preview_operations pstore "w" approved_identity stored.
Lemma loaded_ok : is_ok loaded_result = true.
Proof. vm_compute. reflexivity. Qed.
Definition loaded : list operation := force loaded_result loaded_ok.
Lemma loaded_eq : loaded_result = Ok loaded.
Proof. exact (force_Ok loaded_result loaded_ok). Qed.
End StatusFixtures.
Import StatusFixtures.

#[local] Opaque sealed_1 stored approved_identity loaded _load_preview_operations.

Lemma status_operations_bound_witness :
  ∃ preview canonical n evidence promotion,
    _read_preview_revision_for_status pstore "w" (preview_id (_values approved_identity))
      (revision (_values approved_identity)) stored = Ok preview
    ∧ py_eq canonical (get preview "canonical_payload") = true ∧ py_eq n canonical = true
    ∧ evidence_for_status pstore "w" canonical stored = Ok (evidence, promotion)
    ∧ status_document "w" (_values approved_identity) promotion n
    ∧ _execution_operations n = Ok loaded.
Proof. exact (status_operations_bound (H := lib) pstore "w" approved_identity stored loaded loaded_eq). Defined.
