(* ===== verification/AuditorWitnesses.v ===== *)
(** * The auditor at a concrete preview

    The first revision of PreviewFixtures audited against the registry of version 1: six rules
    apply, one of them fails with a finding. *)
From S2P Require Import Prelude PyValue Strings PyOps Canonical FormalPreview Evidence RemoteSnapshot Rules.
From S2P Require Import AuditRecords Preflight Approvals PreviewValidation AuditBoundary PreviewStore Auditor.
From S2P Require Import AuditorFacts AuditorComplete Fixtures PreviewFixtures.

Import Fixtures PreviewFixtures.

Module AuditorFixtures.
Definition auditor_result : result RuntimeAuditor := make_auditor "w" pstore build_registry_v1 None.
Definition auditor : RuntimeAuditor := MkAuditor "w" pstore build_registry_v1 (Some trust).
Lemma auditor_eq : auditor_result = Ok auditor.
Proof. reflexivity. Qed.

Definition draft (rule version outcome : string) (refs : list string) : RuleEvaluationDraft :=
  EvaluationDraft rule version outcome "read and compared" refs [].
Definition drafts : list RuleEvaluationDraft :=
  [draft "SEM-WORK-ITEM-COMPLETENESS" "1.0" "Passed" []; draft "SEM-WORK-ITEM-DECOMPOSITION" "1.1" "Passed" [];
   draft "SEM-ACCEPTANCE-CRITERIA" "1.0" "Failed" ["f1"]; draft "SEM-ASSUMPTION-CLARITY" "1.0" "Passed" [];
   draft "SEM-PARENT-SUBISSUE" "1.1" "Passed" []; draft "SEM-DUPLICATE-OVERLAP" "1.0" "Passed" []].
Definition finding : FindingDraft :=
  MkFindingDraft "f1" "SEM-ACCEPTANCE-CRITERIA" "acceptance_criteria_gap" "Medium" "No criteria" "nothing to observe" []
    ["i1"] "state them" None.

(** The context, the validated drafts, the candidate record and the committed record, each from the
    result of the one before; evaluated once. *)
Definition context_on (db : PreviewDb) : result AuditorContext := get_context auditor "preview-1" 1 db.
Definition context_result' : result AuditorContext := context_on saved.
Definition validate_on (c : AuditorContext) : result (list pyval * list pyval) := _validate auditor c drafts [finding].
Definition validated_result : result (list pyval * list pyval) := and_then context_result' validate_on.
Definition candidate_on (c : AuditorContext) (v : list pyval * list pyval) : result AuditRecord :=
  audit_candidate auditor c (ac_audit_context_digest c) "uuid-1" "2024-01-01T00:00:00Z" (fst v) (snd v).
Definition candidate_of (c : AuditorContext) : result AuditRecord := and_then validated_result (candidate_on c).
Definition candidate_result : result AuditRecord := and_then context_result' candidate_of.
Definition audit_on (c : AuditorContext) : result (AuditRecord * PreviewDb) :=
  auditor_record_audit auditor [] 9 "uuid-1" "2024-01-01T00:00:00Z" "preview-1" 1 (ac_audit_context_digest c) drafts
    [finding] saved.
Definition audited_result : result (AuditRecord * PreviewDb) := and_then context_result' audit_on.
Definition needs_changes (r : result (AuditRecord * PreviewDb)) : bool :=
  match r with Ok (a, _) => bool_decide (ad_result a = CHANGES_REQUIRED) | Err _ => false end.
Lemma auditor_runs : is_ok context_result' && is_ok candidate_result && needs_changes audited_result = true.
Proof. vm_compute. reflexivity. Qed.
Lemma registry_v1_ok : registry_ok build_registry_v1 = true.
Proof. vm_compute. reflexivity. Qed.
Lemma drafts_clean : forallb clean_draft drafts = true.
Proof. vm_compute. reflexivity. Qed.


Lemma needs_changes_ok r : needs_changes r = true → is_ok r = true.
Proof. by destruct r. Qed.
Lemma needs_changes_result r (H : is_ok r = true) : needs_changes r = true → ad_result (fst (force r H)) = CHANGES_REQUIRED.
Proof. destruct r as [[]|]; [|discriminate H]. apply bool_decide_eq_true. Qed.
Lemma context_on_def db : context_on db = get_context auditor "preview-1" 1 db.
Proof. reflexivity. Qed.
Lemma validate_on_def c : validate_on c = _validate auditor c drafts [finding].
Proof. reflexivity. Qed.
Lemma candidate_on_def c v :
  candidate_on c v
  = audit_candidate auditor c (ac_audit_context_digest c) "uuid-1" "2024-01-01T00:00:00Z" (fst v) (snd v).
Proof. reflexivity. Qed.
Lemma candidate_of_def c : candidate_of c = and_then validated_result (candidate_on c).
Proof. reflexivity. Qed.
Lemma audit_on_def c :
  audit_on c = auditor_record_audit auditor [] 9 "uuid-1" "2024-01-01T00:00:00Z" "preview-1" 1 (ac_audit_context_digest c)
                 drafts [finding] saved.
Proof. reflexivity. Qed.
#[local] Opaque and_then is_ok force context_on validate_on candidate_on candidate_of audit_on needs_changes saved.
Definition auditor_facts := and3 (is_ok context_result') (is_ok candidate_result) (needs_changes audited_result) auditor_runs.
Definition context_ok' : is_ok context_result' = true := proj1 auditor_facts.
Definition candidate_ok : is_ok candidate_result = true := proj1 (proj2 auditor_facts).
Definition audited_ok : is_ok audited_result = true := needs_changes_ok audited_result (proj2 (proj2 auditor_facts)).
Definition audit_ctx : AuditorContext := force context_result' context_ok'.
Definition candidate : AuditRecord := force candidate_result candidate_ok.
Definition audited : AuditRecord * PreviewDb := force audited_result audited_ok.

Lemma audited_needs_changes : ad_result (fst audited) = CHANGES_REQUIRED.
Proof. exact (needs_changes_result audited_result audited_ok (proj2 (proj2 auditor_facts))). Qed.
Lemma context_result_eq : context_result' = Ok audit_ctx.
Proof. exact (force_Ok context_result' context_ok'). Qed.
Lemma candidate_of_eq : candidate_of audit_ctx = Ok candidate.
Proof.
  exact (bind_next context_result' candidate_of audit_ctx candidate (force_Ok candidate_result candidate_ok) context_result_eq).
Qed.
Lemma validated_ok : is_ok validated_result = true.
Proof.
  pose proof (Ok_is_ok _ _ candidate_of_eq) as E. rewrite candidate_of_def in E.
  exact (is_ok_bind validated_result (candidate_on audit_ctx) E).
Qed.
Definition validated : list pyval * list pyval := force validated_result validated_ok.

Lemma context_eq' : get_context auditor "preview-1" 1 saved = Ok audit_ctx.
Proof. rewrite <- context_on_def. exact context_result_eq. Qed.
Lemma validated_result_eq : validated_result = Ok validated.
Proof. exact (force_Ok validated_result validated_ok). Qed.
Lemma validated_eq : _validate auditor audit_ctx drafts [finding] = Ok (fst validated, snd validated).
Proof.
  rewrite <- surjective_pairing, <- validate_on_def.
  exact (bind_next context_result' validate_on audit_ctx validated validated_result_eq context_result_eq).
Qed.
Lemma candidate_eq :
  audit_candidate auditor audit_ctx (ac_audit_context_digest audit_ctx) "uuid-1" "2024-01-01T00:00:00Z" (fst validated)
    (snd validated) = Ok candidate.
Proof.
  rewrite <- candidate_on_def. pose proof candidate_of_eq as E. rewrite candidate_of_def in E.
  exact (bind_next validated_result (candidate_on audit_ctx) validated candidate E validated_result_eq).
Qed.
Lemma audited_eq :
  auditor_record_audit auditor [] 9 "uuid-1" "2024-01-01T00:00:00Z" "preview-1" 1 (ac_audit_context_digest audit_ctx) drafts
    [finding] saved = Ok (fst audited, snd audited).
Proof.
  rewrite <- surjective_pairing, <- audit_on_def.
  exact (bind_next context_result' audit_on audit_ctx audited (force_Ok audited_result audited_ok) context_result_eq).
Qed.
End AuditorFixtures.
Import AuditorFixtures.

#[local] Opaque saved audit_ctx validated candidate audited _validate audit_candidate validate_committed_audit get_context
  auditor_record_audit build_registry_v1.

Lemma recorded_audit_covers_witness :
  ∃ context a, get_context auditor "preview-1" 1 saved = Ok context
    ∧ ac_audit_context_digest audit_ctx = ac_audit_context_digest context
    ∧ audit_covers a (cx_sealed_preview (ac_context context)) (au_registry auditor)
    ∧ ad_preview_id (fst audited) = cx_preview_id (ac_context context)
    ∧ ad_revision (fst audited) = cx_revision (ac_context context) ∧ ad_status (fst audited) = ACTIVE
    ∧ py_eq (ad_audit_payload_digest (fst audited)) (ad_audit_payload_digest a) = true
    ∧ (fst audited = a ∨ snd audited = saved).
Proof.
  exact (recorded_audit_covers (H := lib) auditor [] 9 "uuid-1" "2024-01-01T00:00:00Z" "preview-1" 1
           (ac_audit_context_digest audit_ctx) drafts [finding] saved (fst audited) (snd audited) audited_eq).
Defined.

Lemma auditor_accepts_own_record_witness :
  validate_committed_audit candidate (cx_sealed_preview (ac_context audit_ctx)) (cx_evidence_records (ac_context audit_ctx))
    (au_registry auditor) = Ok tt.
Proof.
  rewrite (auditor_accepts_own_record (H := lib) auditor "preview-1" 1 saved audit_ctx drafts [finding] (fst validated)
             (snd validated) "uuid-1" "2024-01-01T00:00:00Z" candidate registry_v1_ok context_eq' validated_eq candidate_eq).
  rewrite drafts_clean. reflexivity.
Defined.
