(* ===== verification/BindingWitnesses.v ===== *)
(** * The stores of authority bindings at concrete inputs

    Two signed bindings over three operations, saved, looked up and refused by the stores,
    and a document read back from its canonical text. *)
From S2P Require Import Prelude PyValue Strings PyOps Canonical Json JsonFacts SafeText AuthorityBinding.
From S2P Require Import BindingStore BindingFacts Clock Fixtures.
From Stdlib Require Import Ascii.

Module BindingFixtures.
Import Fixtures.

Fixpoint repeat_string (n : nat) (c : ascii) : string := match n with 0 => "" | S n => String c (repeat_string n c) end.
Definition hex (prefix : string) (c : ascii) : string := prefix +:+ repeat_string 64 c.
Definition proof_86 : string := repeat_string 86 "A"%char.

Definition op_a : string := hex "operation-" "a"%char.
Definition op_b : string := hex "operation-" "b"%char.
Definition op_c : string := hex "operation-" "c"%char.

Definition record_result (issued : string) (ops : list string) : result AuthorityBindingRecord :=
  binding_record_create (VStr " workspace-1 ") (VStr (hex "application-" "1"%char)) (VStr (hex "binding-" "2"%char))
    (VTuple [VStr "issues:write"; VStr "contents:read"]) (VStr issued) (VStr (hex "artifact-" "3"%char))
    (VStr (hex "sha256:" "4"%char)) (VTuple (map VStr ops)).

Definition signer : AuthorityBindingSigner :=
  MkSigner (VStr "issuer-1") (VStr "key-1") (VStr "ed25519") (λ _, Ok (VStr proof_86)).

Definition signed_result (issued : string) (ops : list string) : result SignedAuthorityBinding :=
  let! r := record_result issued ops in create_signed_authority_binding r signer.

Definition first_result := signed_result "2024-01-01T00:00:00Z" [op_b; op_a].
Lemma first_ok : is_ok first_result = true.
Proof. vm_compute. reflexivity. Qed.
Definition first : SignedAuthorityBinding := force first_result first_ok.

Definition second_result := signed_result "2024-01-01T00:00:01Z" [op_b; op_c].
Lemma second_ok : is_ok second_result = true.
Proof. vm_compute. reflexivity. Qed.
Definition second : SignedAuthorityBinding := force second_result second_ok.

Definition save_result := sqlite_save "workspace-1" first (snd (perform_all "workspace-1" [] empty_binding_db)).
Lemma save_ok : is_ok save_result = true.
Proof. vm_compute. reflexivity. Qed.
Definition saved := force save_result save_ok.
Lemma saved_eq : save_result = Ok (fst saved, snd saved).
Proof. transitivity (Ok saved); [exact (force_Ok save_result save_ok)|f_equal; apply surjective_pairing]. Qed.

(** The second binding shares an operation with the first and is refused. *)
Lemma second_refused :
  fst (perform "workspace-1" (CallSave second) (snd saved)) = Err (ValueError OPERATION_CONFLICT).
Proof. vm_compute. reflexivity. Qed.

Lemma toy_hex64 s : hex64 (toy_sha s) = true.
Proof.
  unfold hex64, toy_sha. generalize (checksum 7 s). intros n.
  assert (∀ m, is_lower_hex (hex_digit (N.modulo m 16)) = true) as Hd.
  { intros m. assert (N.modulo m 16 < 16)%N as Hm by by apply N.mod_lt. revert Hm. generalize (N.modulo m 16). intros k Hk.
    assert (k = 0 ∨ k = 1 ∨ k = 2 ∨ k = 3 ∨ k = 4 ∨ k = 5 ∨ k = 6 ∨ k = 7 ∨ k = 8 ∨ k = 9 ∨ k = 10 ∨ k = 11
            ∨ k = 12 ∨ k = 13 ∨ k = 14 ∨ k = 15)%N as D by lia.
    by repeat (destruct D as [->|D]); [..|subst k]. }
  change (zeros 60) with (repeat_string 60 "0"%char). unfold GithubWrite.hex4.
  set (a := hex_digit _). set (b := hex_digit _). set (c := hex_digit _). set (d := hex_digit _).
  assert (is_lower_hex a = true ∧ is_lower_hex b = true ∧ is_lower_hex c = true ∧ is_lower_hex d = true) as (Ha & Hb & Hc & Hdd)
    by (split_and!; apply Hd).
  clearbody a b c d. change (String.length _ =? 64) with true. simpl. by rewrite Ha, Hb, Hc, Hdd.
Qed.

(** A document with a set, a tuple, a negative number and a text that needs escapes *)
Definition document : pyval :=
  dict_of [("numbers", VTuple [VInt (-120); VInt 0; VNone]); ("names", VSet [VStr ("y" +:+ ch QUOTE); VStr "x"; VStr (ch LF)]);
           ("flag", VBool true)].
Definition text_result : result string := canonical_payload document.
Lemma text_ok : is_ok text_result = true.
Proof. vm_compute. reflexivity. Qed.
Definition document_text : string := force text_result text_ok.
Lemma document_text_eq : text_result = Ok document_text.
Proof. exact (force_Ok text_result text_ok). Qed.
End BindingFixtures.
Import Fixtures BindingFixtures.

#[local] Opaque first second saved document_text.

Lemma canonical_payload_decodes_witness :
  (canonical_payload document = Ok document_text ∧ float_free document = true) ∧
  json_loads last_wins document_text = normalize document ∧
  ∀ w, float_free w = true → canonical_payload w = Ok document_text → normalize w = normalize document.
Proof.
  split; [split; [exact document_text_eq|reflexivity]|].
  apply (canonical_payload_decodes (H := lib) document document_text); [exact document_text_eq|reflexivity].
Defined.

Lemma saved_binding_stays_witness :
  let p := fst saved in
  let db' := snd (perform_all "workspace-1" [CallSave second] (snd saved)) in
  canonical_bytes (sb_payload first) = Ok (pb_canonical_payload p) ∧
  sqlite_load "workspace-1" (VStr "workspace-1") (VStr (pb_authority_issuance_id p)) db' = Ok (Some p) ∧
  (∀ op, op ∈ ab_authorized_operation_identities (pb_payload p) →
    sqlite_resolve "workspace-1" (VStr "workspace-1") (VStr op) db' = Ok (Some p)) ∧
  ∀ c q db'' op, sqlite_save "workspace-1" c db' = Ok (q, db'') → op ∈ ab_authorized_operation_identities (pb_payload p) →
    op ∈ ab_authorized_operation_identities (pb_payload q) → q = p.
Proof.
  exact (saved_binding_stays (H := lib) "workspace-1" (λ s _, eq_refl) toy_hex64 [] [CallSave second] first (fst saved)
           (snd saved) eq_refl saved_eq).
Defined.
