(* ===== verification/AttestationWitnesses.v ===== *)
(** * The attestation boundary at a concrete input

    A version 2 envelope that answers a request, under policies that accept one issuer, one
    proof and one capability. *)
From S2P Require Import Prelude PyValue Strings PyOps Canonical SafeText Attestation AttestationBoundary.
From S2P Require Import AttestationFacts Clock Fixtures BindingWitnesses.
From Stdlib Require Import Ascii.

Module AttestationFixtures.
Import Fixtures BindingFixtures.

Definition policies : Policies := MkPolicies
  (Some (λ issuer _ _ _ _, Ok (Some (VBool (bool_decide (issuer = "issuer-1")), VStr "attestation_issuer_untrusted"))))
  (Some (λ _ proof _ _ _, Ok (VBool (bool_decide (proof = proof_86)))))
  (Some (λ _ _ _ _ _, Ok (Some (MkStatusAnswer (VBool false) (VBool false) VNone VNone (VStr "1")))))
  (Some (λ c, Ok (VBool (bool_decide (c = "issues:write"))))).

Definition request_values : pyval :=
  dict_of [("repository_identity", VStr "o/r"); ("github_subject_identity", VStr "U_1");
           ("required_capabilities", VTuple [VStr "issues:write"]); ("driver_identity", VStr "driver-1");
           ("remote_authority", VStr (hex "sha256:" "1"%char)); ("preview_id", VStr "preview-1"); ("revision", VInt 1);
           ("operation_set_digest", VStr (hex "sha256:" "2"%char));
           ("remote_snapshot_digest", VStr (hex "sha256:" "3"%char)); ("evidence_digest", VStr (hex "sha256:" "4"%char))].

Definition requested_result := create_request policies 7 request_values "challenge" 1000 empty_boundary.
Lemma requested_ok : is_ok requested_result = true.
Proof. vm_compute. reflexivity. Qed.
Definition request : Request := fst (force requested_result requested_ok).
Definition requested : BoundaryState := snd (force requested_result requested_ok).

Definition claims_value : pyval :=
  dict_of [("attestation_version", VStr "2"); ("attestation_id", VStr ""); ("issuer_id", VStr "issuer-1");
           ("key_id", VStr "key-1"); ("signature_algorithm", VStr "ed25519"); ("credential_class", VStr "github-app");
           ("credential_instance_id", VStr "instance-1"); ("github_subject_identity", VStr "U_1");
           ("repository_identity", VStr "o/r"); ("granted_capabilities", VList [VStr "issues:write"]);
           ("driver_identity", VStr "driver-1"); ("remote_authority", VStr (hex "sha256:" "1"%char));
           ("preview_id", VStr "preview-1"); ("revision", VInt 1);
           ("operation_set_digest", VStr (hex "sha256:" "2"%char));
           ("remote_snapshot_digest", VStr (hex "sha256:" "3"%char)); ("evidence_digest", VStr (hex "sha256:" "4"%char));
           ("issued_at", VStr issued_text); ("expires_at", VStr expires_text); ("nonce", VStr "n-1");
           ("source_verification_digest", VStr (hex "sha256:" "5"%char));
           ("challenge_digest", VStr (rv_challenge_digest (rq_values request)));
           ("credential_principal_identity", VStr "principal-1")].
Definition signed : option (SignedAttestation + pyval) :=
  Some (inr (dict_of [("claims", claims_value); ("proof", VStr proof_86)])).

Definition verified_at : option Z := Some (time_of issued_text + 5)%Z.
Definition verified_result :=
  verify (λ _, "2024-01-01T00:00:00.000005+00:00") policies 7 signed (Some request) verified_at 1000 2000 "ff" requested.
Lemma verified_ok : is_ok verified_result = true.
Proof. vm_compute. reflexivity. Qed.
Definition after : BoundaryState := snd (force verified_result verified_ok).
Lemma verified_eq : verified_result = Ok (Verified 3, after).
Proof.
  transitivity (Ok (fst (force verified_result verified_ok), after)).
  - rewrite <- surjective_pairing. exact (force_Ok verified_result verified_ok).
  - by do 2 f_equal.
Qed.
End AttestationFixtures.
Import Fixtures BindingFixtures AttestationFixtures.

#[local] Opaque request requested after.

Lemma verified_attestation_sound_witness :
  ∃ r s envelope t rec, Some request = Some r ∧ signed = Some s ∧ verified_at = Some t ∧
    rq_boundary r = 7 ∧ bs_requests requested !! rq_object r = Some (rq_values r) ∧
    checked_envelope policies s envelope ∧
    request_mismatch (sa_claims envelope) (rq_values r) = None ∧
    (∀ x, x ∈ rv_required_capabilities (rq_values r) → x ∈ cl_granted_capabilities (sa_claims envelope)) ∧
    current_credential policies (sa_claims envelope) t ∧
    challenge_spent (sa_claims envelope) (rq_object r) 1000 2000 requested after ∧
    bs_tickets after !! 3 = Some rec ∧ tk_consumed rec = false ∧
    held_value (tk_envelope rec) = envelope ∧ held_value (tk_claims rec) = sa_claims envelope.
Proof.
  exact (verified_attestation_sound (H := lib) (λ _, "2024-01-01T00:00:00.000005+00:00") policies 7 signed
           (Some request) verified_at 1000 2000 "ff" requested 3 after verified_eq).
Defined.
