(* ===== verification/AuthorityWitnesses.v ===== *)
(** * The attestation service at a concrete preview

    The audited preview of PreviewFixtures, attested by a provider that answers each request
    with an envelope for it; the binding object is then overwritten with the same fields. *)
From S2P Require Import Prelude PyValue Strings PyOps Canonical Evidence Receipts Clock SafeText.
From S2P Require Import AuthorityBinding BindingStore Attestation AttestationBoundary AttestationFacts.
From S2P Require Import Preflight AuditRecords Approvals PreviewStore ApprovalService Auditor.
From S2P Require Import AttestationRuntime RuntimeFacts Authority AuthorityFacts AuthorityValid BindingFacts.
From S2P Require Import Fixtures PreviewFixtures.
From S2P Require Import BindingWitnesses AttestationWitnesses.
From Stdlib Require Import Ascii.

Module RuntimeFixtures.
Import Fixtures PreviewFixtures BindingFixtures AttestationFixtures.

(** The envelope for a request *)
Definition claims_for (r : RequestValues) : pyval :=
  dict_of [("attestation_version", VStr "2"); ("attestation_id", VStr ""); ("issuer_id", VStr "issuer-1");
           ("key_id", VStr "key-1"); ("signature_algorithm", VStr "ed25519"); ("credential_class", VStr "github-app");
           ("credential_instance_id", VStr "instance-1"); ("github_subject_identity", VStr (rv_github_subject_identity r));
           ("repository_identity", VStr (rv_repository_identity r));
           ("granted_capabilities", VTuple (map VStr (rv_required_capabilities r)));
           ("driver_identity", VStr (rv_driver_identity r)); ("remote_authority", VStr (rv_remote_authority r));
           ("preview_id", VStr (rv_preview_id r)); ("revision", VInt (rv_revision r));
           ("operation_set_digest", VStr (rv_operation_set_digest r));
           ("remote_snapshot_digest", VStr (rv_remote_snapshot_digest r));
           ("evidence_digest", VStr (rv_evidence_digest r)); ("issued_at", VStr issued_text);
           ("expires_at", VStr expires_text); ("nonce", VStr "n-1");
           ("source_verification_digest", VStr (hex "sha256:" "5"%char));
           ("challenge_digest", VStr (rv_challenge_digest r)); ("credential_principal_identity", VStr "principal-1")].
Definition provider (r : Request) : result (SignedAttestation + pyval) :=
  Ok (inr (dict_of [("claims", claims_for (rq_values r)); ("proof", VStr proof_86)])).

Definition now : Z := (time_of issued_text + 4)%Z.
Definition surroundings : Surroundings :=
  MkSurroundings (λ _, Ok (VTuple [VStr "issues:write"])) provider (Ok (Some now)) "challenge" (1000, 1000, 2000)%Z "ff".
Definition micros (_ : Z) : string := "2024-01-01T00:00:00.000004+00:00".

Definition orchestrated (st : RuntimeState) : result (attestation_result * RuntimeState) :=
  orchestrate (H := lib) micros policies 7 8 "w" pstore trust surroundings (VStr "preview-1") (VInt 1) (snd committed) st.
Definition event : runtime_event := Orchestrate surroundings (VStr "preview-1") (VInt 1) (snd committed).
Definition attested_state : RuntimeState := runtime_run (H := lib) micros policies 7 8 "w" pstore trust [event] empty_runtime.
Definition made : pyval := default VNone (rt_objects attested_state !! 0).
Definition trace : list runtime_event := [event; Tamper 0 made].
Definition after_trace : RuntimeState := runtime_run (H := lib) micros policies 7 8 "w" pstore trust trace empty_runtime.
Definition made_id : string := the_str (get made "binding_id").

Lemma resolves : lookup_binding (H := lib) made_id after_trace = Some 0.
Proof. vm_compute. reflexivity. Qed.
Lemma tampered object fields st : rt_objects (tamper object fields st) !! object = Some fields.
Proof. apply lookup_insert_eq. Qed.
Lemma after_trace_def : after_trace = tamper 0 made attested_state.
Proof. reflexivity. Qed.
Lemma has_fields : rt_objects after_trace !! 0 = Some made.
Proof. rewrite after_trace_def. apply tampered. Qed.
End RuntimeFixtures.
Import Fixtures PreviewFixtures BindingFixtures AttestationFixtures RuntimeFixtures.

#[local] Opaque made made_id trace runtime_run committed.

Lemma resolved_binding_attested_witness :
  ∃ event request canonical a e d, attested (H := lib) policies "w" pstore trust event request canonical a e ∧
    rt_events after_trace !! 0 = Some event ∧
    claims_digest (H := lib) (held_value (ev_claims event)) = Ok d ∧
    binding_identity (H := lib) made = Ok made_id ∧
    ∀ k, k ∈ BINDING_SLOTS → get made k = get (binding_values "w" event request canonical a e made_id d) k.
Proof.
  exact (resolved_binding_attested (H := lib) micros policies 7 8 "w" pstore trust trace made_id 0 made resolves
           has_fields).
Defined.

(** ** An authority issued at a concrete preview

    The approved preview of PreviewFixtures, attested and issued over an empty binding store: the
    authority is accepted until it expires. *)
Lemma force_fst {A B} (x : result A * B) (H : is_ok (fst x) = true) : x = (Ok (force (fst x) H), snd x).
Proof. by destruct x as [[]]. Qed.

Module AuthorityFixtures.
Import Fixtures PreviewFixtures BindingFixtures AttestationFixtures RuntimeFixtures.

Definition sqlite : BindingPersistence BindingDb := sqlite_persistence (H := lib).

Definition link_for (c : VerifiedContext) : result (option ArtifactLink) :=
  let claims := held_value (ev_claims (vc_event c)) in
  let! d := claims_digest (H := lib) claims in
  Ok (Some (MkLink made_id (hex "artifact-" "3"%char) (hex "sha256:" "4"%char) (cl_attestation_id claims) claims d
        (sa_proof (held_value (ev_envelope (vc_event c)))) (ev_verified_at (vc_event c)))).

Definition approval_key : pyval := ap_approval_id (fst approved).

(** The issuance at a time the clock prints exactly, and the validation at that time *)
Definition on_time : AuthorityServices :=
  MkServices surroundings (Some link_for) (Some link_for) (Some signer) (Some (λ _, Ok true)) (Ok (Some (time_of issued_text))).
Definition start : AuthorityState BindingDb := new_authorities empty_binding_db.
Definition issue_call : authority_call := IssueCall on_time "preview-1" 1 approval_key stored.
Definition run_calls (calls : list authority_call) : AuthorityState BindingDb :=
  authority_run (H := lib) (H0 := sqlite) micros policies 7 8 approvals trust "w" calls start.
Definition issue_on (st : AuthorityState BindingDb) : result nat * AuthorityState BindingDb :=
  issue_application_authority (H := lib) (H0 := sqlite) micros policies 7 8 approvals trust "w" on_time "preview-1" 1
    approval_key stored st.
Definition issuance : result nat * AuthorityState BindingDb := issue_on start.
Definition accepted_on (st : AuthorityState BindingDb) : result bool :=
  validate_application_authority (H := lib) (H0 := sqlite) approvals "w" 0 (Ok (Some (time_of issued_text))) stored st.
Definition is_true (r : result bool) : bool := match r with Ok b => b | Err _ => false end.
Lemma issuance_runs : is_ok (fst issuance) && is_true (accepted_on (snd issuance)) = true.
Proof. vm_compute. reflexivity. Qed.
Lemma is_true_ok r : is_true r = true → r = Ok true.
Proof. destruct r as [[]|]; [reflexivity|discriminate|discriminate]. Qed.
Lemma issue_on_def st :
  issue_on st = issue_application_authority (H := lib) (H0 := sqlite) micros policies 7 8 approvals trust "w" on_time
                  "preview-1" 1 approval_key stored st.
Proof. reflexivity. Qed.
Lemma run_none : run_calls [] = start.
Proof. reflexivity. Qed.
Lemma accepted_on_def st :
  accepted_on st
  = validate_application_authority (H := lib) (H0 := sqlite) approvals "w" 0 (Ok (Some (time_of issued_text))) stored st.
Proof. reflexivity. Qed.
Lemma run_single env p r a db st :
  authority_run (H := lib) (H0 := sqlite) micros policies 7 8 approvals trust "w" [IssueCall env p r a db] st
  = snd (issue_application_authority (H := lib) (H0 := sqlite) micros policies 7 8 approvals trust "w" env p r a db st).
Proof. reflexivity. Qed.
#[local] Opaque authority_run issue_application_authority stored approval_key on_time start.
Lemma run_issue : run_calls [issue_call] = snd (issue_on start).
Proof. exact (run_single on_time "preview-1" 1 approval_key stored start). Qed.
#[local] Opaque issue_on accepted_on is_ok is_true run_calls.
Lemma issuance_ok : is_ok (fst issuance) = true.
Proof. exact (proj1 (andb_prop _ _ issuance_runs)). Qed.
Lemma issued_accepted : accepted_on (run_calls [issue_call]) = Ok true.
Proof. rewrite run_issue. exact (is_true_ok _ (proj2 (andb_prop _ _ issuance_runs))). Qed.
Definition issued : nat := force (fst issuance) issuance_ok.
Lemma issuance_eq : issue_on (run_calls []) = (Ok issued, snd issuance).
Proof. rewrite run_none. exact (force_fst issuance issuance_ok). Qed.
Lemma issued_text_back : prints_back (H := lib) (time_of issued_text).
Proof. split; vm_compute; reflexivity. Qed.
Definition laws : @BindingStoreLaws BindingDb lib sqlite := sqlite_laws (H := lib) (λ s _, eq_refl) toy_hex64.
Lemma empty_store : @store_inv BindingDb lib sqlite laws "w" empty_binding_db.
Proof. exists empty_memory. apply stored_alike_empty. Qed.
End AuthorityFixtures.
Import Fixtures PreviewFixtures BindingFixtures AttestationFixtures RuntimeFixtures AuthorityFixtures.

#[local] Transparent issue_on accepted_on run_calls start.
#[local] Opaque stored authority_run validate_application_authority issue_application_authority on_time approval_key issuance
  issued.

Lemma accepted_authority_sound_witness :
  ∃ values preview audit approval p binding,
    au_objects (run_calls [issue_call]) !! 0 = Some values
    ∧ backed_authority (H := lib) (H0 := sqlite) policies approvals trust "w"
        (run_calls [issue_call]) stored (time_of issued_text) 0 values preview audit approval p binding.
Proof.
  exact (accepted_authority_sound (H := lib) (H0 := sqlite) micros policies 7 8 approvals trust "w"
           [issue_call] empty_binding_db 0 (time_of issued_text) stored issued_accepted).
Defined.

Lemma issued_authority_accepted_witness :
  ∃ values expires offset, au_objects (snd issuance) !! issued = Some values ∧
    parse_iso (get values "expires_at") = Ok (expires, Some offset) ∧ (time_of issued_text < expires - offset)%Z ∧
    ∀ now, validate_application_authority (H := lib) (H0 := sqlite) approvals "w" issued (Ok (Some now)) stored (snd issuance)
           = Ok (bool_decide (now < expires - offset)%Z).
Proof.
  exact (issued_authority_accepted (H := lib) (H0 := sqlite) (BindingStoreLaws0 := laws) micros policies 7 8 approvals trust "w"
           (λ s _, eq_refl) toy_hex64 [] empty_binding_db on_time "preview-1" 1 approval_key stored (time_of issued_text) issued
           (snd issuance) empty_store stored_reachable eq_refl issued_text_back issuance_eq).
Defined.
